(** * Decision pipeline of the trading agents: shallow embedding

    The Go sources embedded here are

    - package [decision]: [validateDecision], [validateDecisions],
      [normalizeDecisions], [extractCoTTrace], [extractDecisions],
      [findMatchingBracket], [fixMissingQuotes], [fixArithmeticExpressions],
      [parseFullDecisionResponse], [fetchMarketDataForContext] and the tail of
      [GetFullDecision];
    - package [mcp]: [CallWithMessages], [isRetryableError], [cleanResponse]
      and the end of [callOnce];
    - package [indicator]: [DetectOutsideDay], [calculateCandleProperties],
      [DetectCandlestickPatterns] with its nineteen detectors,
      [DetectLarryWilliams], [FormatAnalysis] and [AnalyzeWithKlines];
    - package [market]: the registry of providers ([RegisterProvider],
      [GetProvider], [ListProviders], [SetDefaultProviderName],
      [GetDefaultProvider], [InitializeProviders]).

    Conventions.  A Go [string] is a sequence of bytes, here a [string] of
    the standard library (one [ascii] per byte, so a UTF-8 encoded rune spans
    several characters).  A Go [int] is a [Z]; the embedded code only
    compares and copies integers, so no wrap-around can occur.  A Go
    [float64] is an element of a type [F] carrying the operations of the
    class [Float64]; its instance is IEEE 754 binary64 with every
    operation rounded to nearest even (the arithmetic the program runs on;
    the compiler is taken not to fuse a product and a sum), and
    [binary64_value] is the rational number a finite binary64 value stands
    for.  A Go [error] is a value of an inductive type with one
    constructor for each [fmt.Errorf] site; [nil] is [None].  Calls that
    leave the program (the market data, the model, the clock) are
    arguments of the functions that make them; output to the log is not
    embedded. *)

From Stdlib Require Import ZArith QArith Qabs Qminmax Qfield Qpower Lia Lqa List String Ascii Bool.
From Stdlib Require Import PrimFloat FloatOps FloatAxioms Uint63 SpecFloat.
From stdpp Require Import base strings gmap.

Import ListNotations.
Local Open Scope Z_scope.

(** ** float64 *)

(** The operations the embedded code performs on [float64] values.
    [fabs], [fmin] and [fisInf] are [math.Abs], [math.Min] and
    [math.IsInf(x, 0)]; [flit m e] is the decimal literal [m * 10^e]
    converted to the type, the way the Go compiler converts an untyped
    constant and [strconv.ParseFloat] a decimal numeral. *)
Class Float64 (F : Type) := {
  fadd : F -> F -> F;
  fsub : F -> F -> F;
  fmul : F -> F -> F;
  fdiv : F -> F -> F;
  fabs : F -> F;
  fmin : F -> F -> F;
  flt : F -> F -> bool;
  fle : F -> F -> bool;
  feq : F -> F -> bool;
  fisInf : F -> bool;
  flit : Z -> Z -> F
}.

Declare Scope go_scope.
Delimit Scope go_scope with go.
Infix "+" := fadd : go_scope.
Infix "-" := fsub : go_scope.
Infix "*" := fmul : go_scope.
Infix "/" := fdiv : go_scope.
Notation "x <? y" := (flt x y) : go_scope.
Notation "x <=? y" := (fle x y) : go_scope.
Notation "x >? y" := (flt y x) : go_scope.
Notation "x >=? y" := (fle y x) : go_scope.
Notation "x =? y" := (feq x y) : go_scope.

(** Round [n / d] to the nearest integer, ties to even ([0 <= n], [0 < d]). *)
Definition round_half_even (n d : Z) : Z :=
  let q := n / d in
  match (2 * (n mod d)) ?= d with
  | Lt => q
  | Gt => q + 1
  | Eq => if Z.even q then q else q + 1
  end.

(** The binary64 value nearest to the positive rational [n / d]: scale by
    the power of two that brings the quotient into [2^52, 2^53) (or by
    [2^-1074] in the subnormal range), round to an integer, scale back.
    Both the integer and the scaling are exact in binary64. *)
Definition binary64_of_ratio (n d : Z) : float :=
  let l0 := Z.log2 n - Z.log2 d in
  let below := if l0 <? 0 then n * 2 ^ (- l0) <? d else n <? d * 2 ^ l0 in
  let l := if below then l0 - 1 else l0 in
  let e := Z.max (l - 52) (-1074) in
  let num := if e <? 0 then n * 2 ^ (- e) else n in
  let den := if e <? 0 then d else d * 2 ^ e in
  Z.ldexp (PrimFloat.of_uint63 (Uint63.of_Z (round_half_even num den))) e.

(** The decimal numeral [m * 10^e] in binary64, correctly rounded. *)
Definition binary64_of_decimal (m e : Z) : float :=
  let n := Z.abs m in
  let x := if n =? 0 then PrimFloat.zero
           else if e <? 0 then binary64_of_ratio n (10 ^ (- e))
           else binary64_of_ratio (n * 10 ^ e) 1 in
  if m <? 0 then PrimFloat.opp x else x.

(** [math.Min] of the Go library on binary64. *)
Definition binary64_min (x y : float) : float :=
  if PrimFloat.eqb x PrimFloat.neg_infinity || PrimFloat.eqb y PrimFloat.neg_infinity
  then PrimFloat.neg_infinity
  else if PrimFloat.is_nan x || PrimFloat.is_nan y then PrimFloat.nan
  else if PrimFloat.eqb x PrimFloat.zero && PrimFloat.eqb x y
  then (if PrimFloat.get_sign x then x else y)
  else if PrimFloat.ltb x y then x else y.

#[export] Instance binary64 : Float64 float := {
  fadd := PrimFloat.add;
  fsub := PrimFloat.sub;
  fmul := PrimFloat.mul;
  fdiv := PrimFloat.div;
  fabs := PrimFloat.abs;
  fmin := binary64_min;
  flt := PrimFloat.ltb;
  fle := PrimFloat.leb;
  feq := PrimFloat.eqb;
  fisInf := PrimFloat.is_infinity;
  flit := binary64_of_decimal
}.

(** ** The values of binary64 *)

(** The rational number a finite binary64 value stands for; the value of
    an infinity or of NaN is taken as 0. *)
Definition SF2Q (x : spec_float) : Q :=
  match x with
  | S754_finite s m e => inject_Z (cond_Zopp s (Z.pos m)) * 2 ^ e
  | _ => 0
  end.

Definition binary64_value (x : float) : Q := SF2Q (Prim2SF x).

(** [located N D m l]: the quotient [N / D] lies in [[m, m + 1)], at the
    place [l] of that interval. *)
Definition located (N D m : Z) (l : location) : Prop :=
  0 < D /\ 0 <= N - m * D < D
  /\ l = (if N - m * D =? 0 then loc_Exact else loc_Inexact (2 * (N - m * D) ?= D)).

(** A positive normal binary64 number: a mantissa of exactly 53 bits. *)
Definition normal64 (x : float) (m : positive) (e : Z) : Prop :=
  Prim2SF x = S754_finite false m e /\ 2 ^ 52 <= Z.pos m < 2 ^ 53.

Definition is_normal64 (x : float) : Prop := exists m e, normal64 x m e.

(** ** Package decision: data *)

(** The byte of the ASCII double quote. *)
Definition dquote : ascii := "034"%char.

(** [quoted s] is [s] between two double quotes. *)
Definition quoted (s : string) : string := String dquote (s +:+ String dquote EmptyString).

Section DecisionTypes.
Context {F : Type}.

(** [type Decision struct] *)
Record Decision := mkDecision {
  Symbol : string;
  Action : string;
  Leverage : Z;
  PositionSizeUSD : F;
  StopLoss : F;
  TakeProfit : F;
  Confidence : Z;
  RiskUSD : F;
  Reasoning : string
}.

(** The errors of the package, one constructor for each [fmt.Errorf];
    the arguments are the values the message is formatted from, and a
    constructor with an argument of type [error] wraps it ([%w]).
    [ErrCallAI] carries the text of the error of the LLM client. *)
Inductive error :=
| ErrInvalidAction (action : string)
| ErrLeverage (maxLeverage : Z) (symbol : string) (leverage : Z)
| ErrPositionSizeNotPositive (size : F)
| ErrPositionSizeBelowMin (size minimum : F)
| ErrPositionSizeAboveMax (size maximum : F)
| ErrPositionValueBTCETH (maxPositionValue size : F)
| ErrPositionValueAltcoin (maxPositionValue size : F)
| ErrStopsNotPositive
| ErrLongStopNotBelowTarget (stopLoss takeProfit : F)
| ErrShortStopNotAboveTarget (stopLoss takeProfit : F)
| ErrRiskRewardTooLow (ratio risk reward stopLoss takeProfit : F)
| ErrDecisionNumber (number : Z) (cause : error)
| ErrExtractDecisions (cause : error) (cotTrace : string)
| ErrValidateDecisions (cause : error) (cotTrace : string)
| ErrFetchMarketData (cause : error)
| ErrCallAI (message : string)
| ErrParseAIResponse (cause : error).

(** [type FullDecision struct]; [Timestamp] is the reading of the clock
    handed to [GetFullDecision]. *)
Record FullDecision := mkFullDecision {
  UserPrompt : string;
  CoTTrace : string;
  Decisions : list Decision;
  Timestamp : Z
}.

End DecisionTypes.

Arguments Decision F : clear implicits.
Arguments error F : clear implicits.
Arguments FullDecision F : clear implicits.

(** ** Package decision: validateDecision *)

(** The map literal [validActions] of [validateDecision]. *)
Definition validActions : gmap string bool :=
  list_to_map [("open_long", true); ("open_short", true); ("close_long", true);
               ("close_short", true); ("hold", true); ("wait", true)].

(** [d.Action == "open_long" || d.Action == "open_short"] *)
Definition isOpenAction (action : string) : bool :=
  (action =? "open_long")%string || (action =? "open_short")%string.

(** [d.Symbol == "BTCUSDT" || d.Symbol == "ETHUSDT"] *)
Definition isBTCETH (symbol : string) : bool :=
  (symbol =? "BTCUSDT")%string || (symbol =? "ETHUSDT")%string.

(** The local variable [maxLeverage] of [validateDecision]. *)
Definition maxLeverage (symbol : string) (btcEthLeverage altcoinLeverage : Z) : Z :=
  if isBTCETH symbol then btcEthLeverage else altcoinLeverage.

Section Validate.
Context {F : Type} `{Float64 F}.
Local Open Scope go_scope.

(** The local variable [maxPositionValue]: 10 times the equity for BTC and
    ETH, 1.5 times for the other symbols. *)
Definition maxPositionValue (symbol : string) (accountEquity : F) : F :=
  if isBTCETH symbol then accountEquity * flit 10 0 else accountEquity * flit 15 (-1).

(** The local variables [entryPrice], [riskPercent], [rewardPercent] and
    [riskRewardRatio] of [validateDecision]. *)
Definition entryPrice (d : Decision F) : F :=
  if (Action d =? "open_long")%string
  then StopLoss d + (TakeProfit d - StopLoss d) * flit 2 (-1)
  else StopLoss d - (StopLoss d - TakeProfit d) * flit 2 (-1).

Definition riskPercent (d : Decision F) : F :=
  if (Action d =? "open_long")%string
  then (entryPrice d - StopLoss d) / entryPrice d * flit 100 0
  else (StopLoss d - entryPrice d) / entryPrice d * flit 100 0.

Definition rewardPercent (d : Decision F) : F :=
  if (Action d =? "open_long")%string
  then (TakeProfit d - entryPrice d) / entryPrice d * flit 100 0
  else (entryPrice d - TakeProfit d) / entryPrice d * flit 100 0.

Definition riskRewardRatio (d : Decision F) : F :=
  if riskPercent d >? flit 0 0 then rewardPercent d / riskPercent d else flit 0 0.

(** The check of the largest position size: the configured USD limit when
    there is one, else the multiple of the equity with 1% of tolerance. *)
Definition checkMaxPositionSize (d : Decision F) (accountEquity maxPositionSizeUSD : F)
    : option (error F) :=
  let maxPositionValue := maxPositionValue (Symbol d) accountEquity in
  if maxPositionSizeUSD >? flit 0 0 then
    if PositionSizeUSD d >? maxPositionSizeUSD
    then Some (ErrPositionSizeAboveMax (PositionSizeUSD d) maxPositionSizeUSD)
    else None
  else
    let tolerance := maxPositionValue * flit 1 (-2) in
    if PositionSizeUSD d >? maxPositionValue + tolerance then
      if isBTCETH (Symbol d)
      then Some (ErrPositionValueBTCETH maxPositionValue (PositionSizeUSD d))
      else Some (ErrPositionValueAltcoin maxPositionValue (PositionSizeUSD d))
    else None.

(** The directional check of the bracket. *)
Definition checkBracket (d : Decision F) : option (error F) :=
  if (Action d =? "open_long")%string then
    if StopLoss d >=? TakeProfit d
    then Some (ErrLongStopNotBelowTarget (StopLoss d) (TakeProfit d))
    else None
  else
    if StopLoss d <=? TakeProfit d
    then Some (ErrShortStopNotAboveTarget (StopLoss d) (TakeProfit d))
    else None.

(** [func validateDecision]; [None] is the [nil] error. *)
Definition validateDecision (d : Decision F) (accountEquity : F)
    (btcEthLeverage altcoinLeverage : Z)
    (minPositionSizeUSD maxPositionSizeUSD : F) : option (error F) :=
  if negb (default false (validActions !! Action d)) then Some (ErrInvalidAction (Action d))
  else if isOpenAction (Action d) then
    let maxLeverage := maxLeverage (Symbol d) btcEthLeverage altcoinLeverage in
    if (Leverage d <=? 0)%Z || (Leverage d >? maxLeverage)%Z then
      Some (ErrLeverage maxLeverage (Symbol d) (Leverage d))
    else if PositionSizeUSD d <=? flit 0 0 then
      Some (ErrPositionSizeNotPositive (PositionSizeUSD d))
    else if (minPositionSizeUSD >? flit 0 0) && (PositionSizeUSD d <? minPositionSizeUSD) then
      Some (ErrPositionSizeBelowMin (PositionSizeUSD d) minPositionSizeUSD)
    else
      match checkMaxPositionSize d accountEquity maxPositionSizeUSD with
      | Some err => Some err
      | None =>
          if (StopLoss d <=? flit 0 0) || (TakeProfit d <=? flit 0 0) then
            Some ErrStopsNotPositive
          else
            match checkBracket d with
            | Some err => Some err
            | None =>
                if riskRewardRatio d <? flit 3 0 then
                  Some (ErrRiskRewardTooLow (riskRewardRatio d) (riskPercent d)
                          (rewardPercent d) (StopLoss d) (TakeProfit d))
                else None
            end
      end
  else None.

(** [func validateDecisions]: the loop stops at the first decision that
    fails; [i] is the index of the head of [decisions]. *)
Fixpoint validateDecisionsFrom (i : Z) (decisions : list (Decision F)) (accountEquity : F)
    (btcEthLeverage altcoinLeverage : Z)
    (minPositionSizeUSD maxPositionSizeUSD : F) : option (error F) :=
  match decisions with
  | [] => None
  | decision :: rest =>
      match validateDecision decision accountEquity btcEthLeverage altcoinLeverage
              minPositionSizeUSD maxPositionSizeUSD with
      | Some err => Some (ErrDecisionNumber (i + 1) err)
      | None => validateDecisionsFrom (i + 1) rest accountEquity btcEthLeverage
                  altcoinLeverage minPositionSizeUSD maxPositionSizeUSD
      end
  end.

Definition validateDecisions := validateDecisionsFrom 0.

(** [func normalizeDecisions]: both tests read [size], the size before any
    adjustment. *)
Definition normalizeDecision (minPositionSizeUSD maxPositionSizeUSD : F)
    (d : Decision F) : Decision F :=
  if isOpenAction (Action d) then
    let size := PositionSizeUSD d in
    let d1 :=
      if (minPositionSizeUSD >? flit 0 0) && (size >? flit 0 0) && (size <? minPositionSizeUSD)
      then mkDecision (Symbol d) (Action d) (Leverage d) minPositionSizeUSD (StopLoss d)
             (TakeProfit d) (Confidence d) (RiskUSD d)
             (if (Reasoning d =? "")%string then Reasoning d
              else Reasoning d +:+ " | 已按最小仓位限制调整为 ")
      else d in
    if (maxPositionSizeUSD >? flit 0 0) && (size >? maxPositionSizeUSD)
    then mkDecision (Symbol d1) (Action d1) (Leverage d1) maxPositionSizeUSD (StopLoss d1)
           (TakeProfit d1) (Confidence d1) (RiskUSD d1)
           (if (Reasoning d1 =? "")%string then Reasoning d1
            else Reasoning d1 +:+ " | 已按最大仓位限制截断")
    else d1
  else d.

Definition normalizeDecisions (decisions : list (Decision F))
    (minPositionSizeUSD maxPositionSizeUSD : F) : list (Decision F) :=
  map (normalizeDecision minPositionSizeUSD maxPositionSizeUSD) decisions.

End Validate.

(** The checks of [validateDecision] on an opening decision that come
    before the checks of the stop loss and the take profit: leverage,
    smallest and largest position size. *)
Definition boundsSatisfied {F : Type} `{Float64 F} (d : Decision F) (accountEquity : F)
    (btcEthLeverage altcoinLeverage : Z) (minPositionSizeUSD maxPositionSizeUSD : F) : bool :=
  negb ((Leverage d <=? 0)%Z
        || (Leverage d >? maxLeverage (Symbol d) btcEthLeverage altcoinLeverage)%Z)
  && negb (PositionSizeUSD d <=? flit 0 0)%go
  && negb ((minPositionSizeUSD >? flit 0 0)%go && (PositionSizeUSD d <? minPositionSizeUSD)%go)
  && match checkMaxPositionSize d accountEquity maxPositionSizeUSD with
     | None => true
     | Some _ => false
     end.

(** The decision of the boundary scenario: [open_long BTCUSDT] with the
    stop loss at 100000. *)
Definition rrBoundaryDecision {F : Type} `{Float64 F} (takeProfit : Z) : Decision F :=
  mkDecision "BTCUSDT" "open_long" 5 (flit 100 0) (flit 100000 0) (flit takeProfit 0)
    80 (flit 0 0) "boundary".

(** An [open_long] on BTCUSDT whose stops are two units in the last place
    apart: at 10^16 consecutive binary64 values differ by 2. *)
Definition tightBracketDecision {F : Type} `{Float64 F} : Decision F :=
  mkDecision "BTCUSDT" "open_long" 5 (flit 100 0) (flit 1 16) (flit 10000000000000004 0)
    80 (flit 0 0) "tight".

(** An [open_long] on BTCUSDT with the stops 1 and 2. *)
Definition unitBracketDecision {F : Type} `{Float64 F} : Decision F :=
  mkDecision "BTCUSDT" "open_long" 5 (flit 100 0) (flit 1 0) (flit 2 0)
    80 (flit 0 0) "unit".

(** The decisions of the leverage scenario: [open_long SOLUSDT]. *)
Definition leverageDecision {F : Type} `{Float64 F} (leverage : Z) : Decision F :=
  mkDecision "SOLUSDT" "open_long" leverage (flit 100 0) (flit 100 0) (flit 110 0)
    80 (flit 0 0) "leverage".

(** ** Package strings of the Go library, on bytes *)

(** [s[n:]] *)
Fixpoint sliceFrom (s : string) (n : nat) {struct n} : string :=
  match n, s with
  | O, _ => s
  | S n', String _ s' => sliceFrom s' n'
  | S _, EmptyString => EmptyString
  end.

(** [s[:n]] *)
Fixpoint sliceTo (s : string) (n : nat) {struct n} : string :=
  match n, s with
  | O, _ => EmptyString
  | S n', String c s' => String c (sliceTo s' n')
  | S _, EmptyString => EmptyString
  end.

(** [s[a:b]] *)
Definition slice (s : string) (a b : nat) : string := sliceTo (sliceFrom s a) (b - a).

(** [strings.Index(s, sub)]; [None] is [-1].  ([String.prefix p s] is
    [strings.HasPrefix(s, p)].) *)
Fixpoint strings_Index (s sub : string) : option nat :=
  if String.prefix sub s then Some O
  else match s with
       | EmptyString => None
       | String _ s' => option_map S (strings_Index s' sub)
       end.

(** [strings.LastIndex(s, sub)]; [None] is [-1]. *)
Fixpoint strings_LastIndex (s sub : string) : option nat :=
  match s with
  | EmptyString => if String.prefix sub s then Some O else None
  | String _ s' =>
      match strings_LastIndex s' sub with
      | Some i => Some (S i)
      | None => if String.prefix sub s then Some O else None
      end
  end.

(** [strings.Contains(s, sub)] *)
Definition strings_Contains (s sub : string) : bool :=
  match strings_Index s sub with Some _ => true | None => false end.

(** [strings.ContainsAny(s, chars)], for ASCII [chars]. *)
Fixpoint strings_ContainsAny (s chars : string) : bool :=
  match s with
  | EmptyString => false
  | String c s' =>
      match strings_Index chars (String c EmptyString) with
      | Some _ => true
      | None => strings_ContainsAny s' chars
      end
  end.

(** [strings.ReplaceAll(s, old, new)] for a non-empty [old]: the
    occurrences of [old] are replaced from left to right, without overlap;
    [skip] counts the bytes of an occurrence that are still to be passed. *)
Fixpoint replaceAllFrom (skip : nat) (s old new : string) : string :=
  match s with
  | EmptyString => EmptyString
  | String c s' =>
      match skip with
      | S k => replaceAllFrom k s' old new
      | O => if String.prefix old s
             then new +:+ replaceAllFrom (String.length old - 1) s' old new
             else String c (replaceAllFrom O s' old new)
      end
  end.

Definition strings_ReplaceAll (s old new : string) : string := replaceAllFrom O s old new.

(** The UTF-8 encodings of the runes for which [unicode.IsSpace] holds:
    tab, line feed, vertical tab, form feed, carriage return, space, U+0085,
    U+00A0, U+1680, U+2000 to U+200A, U+2028, U+2029, U+202F, U+205F and
    U+3000. *)
Definition spaceRunes : list string :=
  map (fun c => String c EmptyString)
      ["009"; "010"; "011"; "012"; "013"; "032"]%char
  ++ map (fun c => String "194" (String c EmptyString)) ["133"; "160"]%char
  ++ [String "225" (String "154" (String "128" EmptyString))]
  ++ map (fun c => String "226" (String "128" (String c EmptyString)))
       ["128"; "129"; "130"; "131"; "132"; "133"; "134"; "135"; "136"; "137"; "138";
        "168"; "169"; "175"]%char
  ++ [String "226" (String "129" (String "159" EmptyString));
      String "227" (String "128" (String "128" EmptyString))].

(** The width in bytes of the space rune at the head of [s], [0] when [s]
    does not start with one. *)
Definition leadingSpaceWidth (runes : list string) (s : string) : nat :=
  match find (fun r => String.prefix r s) runes with
  | Some r => String.length r
  | None => O
  end.

(** Drop the space runes at the head of [s]; each step drops at least one
    byte, so [String.length s] steps are enough. *)
Fixpoint trimLeftSteps (steps : nat) (runes : list string) (s : string) : string :=
  match steps with
  | O => s
  | S steps' =>
      match leadingSpaceWidth runes s with
      | O => s
      | w => trimLeftSteps steps' runes (sliceFrom s w)
      end
  end.

Definition stringRev (s : string) : string :=
  string_of_list_ascii (rev (list_ascii_of_string s)).

(** [strings.TrimSpace(s)]: the space runes are removed at both ends; the
    end of the string is trimmed as the head of the reversed string,
    against the reversed encodings. *)
Definition strings_TrimSpace (s : string) : string :=
  let s1 := trimLeftSteps (String.length s) spaceRunes s in
  stringRev (trimLeftSteps (String.length s1) (map stringRev spaceRunes) (stringRev s1)).

(** ** Package decision: brackets, chain of thought, repairs *)

(** The loop of [findMatchingBracket], at the byte of index [i] with the
    depth reached so far. *)
Fixpoint matchBracketFrom (s : string) (i : nat) (depth : Z) : option nat :=
  match s with
  | EmptyString => None
  | String c s' =>
      if Ascii.eqb c "["%char then matchBracketFrom s' (S i) (depth + 1)
      else if Ascii.eqb c "]"%char then
        (if depth - 1 =? 0 then Some i else matchBracketFrom s' (S i) (depth - 1))
      else matchBracketFrom s' (S i) depth
  end.

(** [func findMatchingBracket]; [None] is [-1]. *)
Definition findMatchingBracket (s : string) (start : nat) : option nat :=
  if (String.length s <=? start)%nat then None
  else match String.get start s with
       | Some c => if Ascii.eqb c "["%char
                   then matchBracketFrom (sliceFrom s start) start 0
                   else None
       | None => None
       end.

(** [func extractCoTTrace] *)
Definition extractCoTTrace (response : string) : string :=
  match strings_Index response "[" with
  | Some (S jsonStart) => strings_TrimSpace (sliceTo response (S jsonStart))
  | _ => strings_TrimSpace response
  end.

(** The UTF-8 encodings of U+201C, U+201D, U+2018 and U+2019. *)
Definition leftDoubleQuote : string := String "226" (String "128" (String "156" EmptyString)).
Definition rightDoubleQuote : string := String "226" (String "128" (String "157" EmptyString)).
Definition leftSingleQuote : string := String "226" (String "128" (String "152" EmptyString)).
Definition rightSingleQuote : string := String "226" (String "128" (String "153" EmptyString)).

(** [func fixMissingQuotes] *)
Definition fixMissingQuotes (jsonStr : string) : string :=
  let jsonStr := strings_ReplaceAll jsonStr leftDoubleQuote (String dquote EmptyString) in
  let jsonStr := strings_ReplaceAll jsonStr rightDoubleQuote (String dquote EmptyString) in
  let jsonStr := strings_ReplaceAll jsonStr leftSingleQuote "'" in
  strings_ReplaceAll jsonStr rightSingleQuote "'".

(** ** Package regexp of the Go library, for the pattern of the program

    Regular expressions over bytes, with the constructs the pattern of
    [fixArithmeticExpressions] uses: literals, byte classes, concatenation,
    alternation, capturing groups, and the greedy and lazy repetitions of a
    byte class.  The match of a Go regexp is the leftmost one and, among
    the matches that start there, the one a backtracking search that
    prefers the first alternative, the longer greedy repetition and the
    shorter lazy repetition finds first; [matchRe] is that search, written
    with a continuation for what follows the expression. *)
Module regexp.

Inductive re :=
| Lit (s : string)
| Class (p : ascii -> bool)
| Cat (r1 r2 : re)
| Alt (r1 r2 : re)
| Star (p : ascii -> bool)
| LazyStar (p : ascii -> bool)
| Group (i : nat) (r : re).

(** [p+] and [p+?] *)
Definition Plus (p : ascii -> bool) : re := Cat (Class p) (Star p).
Definition LazyPlus (p : ascii -> bool) : re := Cat (Class p) (LazyStar p).

(** The spans of the groups closed so far: group, start, end. *)
Definition captures := list (nat * (nat * nat)).

Section Search.
Context {R : Type}.

(** [p*] at [pos]: take one more byte first, give up bytes on failure. *)
Fixpoint matchStar (p : ascii -> bool) (s : string) (pos : nat)
    (k : string -> nat -> option R) : option R :=
  match s with
  | String c s' =>
      if p c then
        match matchStar p s' (S pos) k with
        | Some r => Some r
        | None => k s pos
        end
      else k s pos
  | EmptyString => k s pos
  end.

(** [p*?] at [pos]: go on first, take one more byte on failure. *)
Fixpoint matchLazyStar (p : ascii -> bool) (s : string) (pos : nat)
    (k : string -> nat -> option R) : option R :=
  match k s pos with
  | Some r => Some r
  | None =>
      match s with
      | String c s' => if p c then matchLazyStar p s' (S pos) k else None
      | EmptyString => None
      end
  end.

(** Match [r] at the head of [s], which is at index [pos] of the text. *)
Fixpoint matchRe (r : re) (s : string) (pos : nat) (caps : captures)
    (k : string -> nat -> captures -> option R) : option R :=
  match r with
  | Lit l =>
      if String.prefix l s
      then k (sliceFrom s (String.length l)) (pos + String.length l)%nat caps
      else None
  | Class p =>
      match s with
      | String c s' => if p c then k s' (S pos) caps else None
      | EmptyString => None
      end
  | Cat r1 r2 => matchRe r1 s pos caps (fun s1 pos1 caps1 => matchRe r2 s1 pos1 caps1 k)
  | Alt r1 r2 =>
      match matchRe r1 s pos caps k with
      | Some res => Some res
      | None => matchRe r2 s pos caps k
      end
  | Star p => matchStar p s pos (fun s1 pos1 => k s1 pos1 caps)
  | LazyStar p => matchLazyStar p s pos (fun s1 pos1 => k s1 pos1 caps)
  | Group i r1 =>
      matchRe r1 s pos caps (fun s1 pos1 caps1 => k s1 pos1 ((i, (pos, pos1)) :: caps1))
  end.

End Search.

(** The match of [r] that starts at index [pos], where [s] is the text
    from that index on: the end of the match and the spans of the groups. *)
Definition matchAt (r : re) (s : string) (pos : nat) : option (nat * captures) :=
  matchRe r s pos [] (fun _ pos1 caps => Some (pos1, caps)).

(** The leftmost match in the text [s] whose index in the whole text is
    [pos]: start, end and groups. *)
Fixpoint searchFrom (r : re) (s : string) (pos : nat) : option (nat * nat * captures) :=
  match matchAt r s pos with
  | Some (e, caps) => Some (pos, e, caps)
  | None =>
      match s with
      | String _ s' => searchFrom r s' (S pos)
      | EmptyString => None
      end
  end.

(** The text of group [i]; a group that took no part is the empty string. *)
Definition groupText (text : string) (caps : captures) (i : nat) : string :=
  match find (fun c => Nat.eqb (fst c) i) caps with
  | Some (_, (a, b)) => slice text a b
  | None => EmptyString
  end.

(** [FindStringSubmatch]: the leftmost match and the texts of the groups
    [1 .. n], the match itself first; [None] is the [nil] slice. *)
Definition FindStringSubmatch (r : re) (n : nat) (text : string) : option (list string) :=
  match searchFrom r text O with
  | Some (a, b, caps) => Some (slice text a b :: map (groupText text caps) (seq 1 n))
  | None => None
  end.

(** [ReplaceAllStringFunc], for an expression without empty match: the
    matches are taken from left to right without overlap and each is
    replaced by [repl] of its text; [skip] counts the bytes of a match that
    are still to be passed. *)
Fixpoint replaceFrom (r : re) (repl : string -> string) (skip : nat) (s : string)
    (pos : nat) : string :=
  match s with
  | EmptyString => EmptyString
  | String c s' =>
      match skip with
      | S k => replaceFrom r repl k s' (S pos)
      | O =>
          match matchAt r s pos with
          | Some (e, _) =>
              repl (sliceTo s (e - pos)) +:+ replaceFrom r repl (e - pos - 1) s' (S pos)
          | None => String c (replaceFrom r repl O s' (S pos))
          end
      end
  end.

Definition ReplaceAllStringFunc (r : re) (src : string) (repl : string -> string) : string :=
  replaceFrom r repl O src O.

End regexp.

(** The byte classes of the pattern: the class of spaces (tab, line feed,
    form feed, carriage return, space), digits and the dot, the bytes of an
    expression (operators, parentheses, spaces, digits, dot), and the
    ending bytes (comma, closing brace, closing bracket, line feed). *)
Definition isRegexpSpace (c : ascii) : bool :=
  existsb (Ascii.eqb c) ["009"; "010"; "012"; "013"; "032"]%char.

Definition isDigit (c : ascii) : bool :=
  (48 <=? nat_of_ascii c)%nat && (nat_of_ascii c <=? 57)%nat.

Definition isDigitOrDot (c : ascii) : bool := isDigit c || Ascii.eqb c "."%char.

Definition isExpressionByte (c : ascii) : bool :=
  existsb (Ascii.eqb c) ["*"; "+"; "-"; "/"; "("; ")"; "."]%char
  || isRegexpSpace c || isDigit c.

Definition isEndingByte (c : ascii) : bool :=
  existsb (Ascii.eqb c) [","; "}"; "]"; "010"]%char.

(** [arithmeticPattern], group by group: (1) a quoted name among risk_usd,
    position_size_usd, stop_loss, take_profit, leverage and confidence, then
    spaces, a colon and spaces; (2) one or more digits or dots; then
    spaces; (3) one or more expression bytes, as few as possible; (4)
    spaces and one ending byte. *)
Definition arithmeticPattern : regexp.re :=
  let names :=
    regexp.Alt (regexp.Lit "risk_usd")
      (regexp.Alt (regexp.Lit "position_size_usd")
         (regexp.Alt (regexp.Lit "stop_loss")
            (regexp.Alt (regexp.Lit "take_profit")
               (regexp.Alt (regexp.Lit "leverage") (regexp.Lit "confidence"))))) in
  let quote := regexp.Lit (String dquote EmptyString) in
  regexp.Cat
    (regexp.Group 1
       (regexp.Cat quote
          (regexp.Cat names
             (regexp.Cat quote
                (regexp.Cat (regexp.Star isRegexpSpace)
                   (regexp.Cat (regexp.Lit ":") (regexp.Star isRegexpSpace)))))))
    (regexp.Cat (regexp.Group 2 (regexp.Plus isDigitOrDot))
       (regexp.Cat (regexp.Star isRegexpSpace)
          (regexp.Cat (regexp.Group 3 (regexp.LazyPlus isExpressionByte))
             (regexp.Group 4
                (regexp.Cat (regexp.Star isRegexpSpace) (regexp.Class isEndingByte)))))).

(** The function handed to [ReplaceAllStringFunc] by
    [fixArithmeticExpressions]. *)
Definition dropExpression (matched : string) : string :=
  match regexp.FindStringSubmatch arithmeticPattern 4 matched with
  | Some [_; fieldPart; firstNum; expression; endingChar] =>
      if strings_ContainsAny expression "*+-/()"
      then fieldPart +:+ firstNum +:+ endingChar
      else matched
  | _ => matched
  end.

(** [func fixArithmeticExpressions] *)
Definition fixArithmeticExpressions (jsonStr : string) : string :=
  regexp.ReplaceAllStringFunc arithmeticPattern jsonStr dropExpression.

(** ** Package encoding/json of the Go library, for [[]Decision]

    [json.Unmarshal] is not part of the program.  The functions of the
    program that call it take the decoder as an argument, and the theorems
    about them hold for every decoder.  [json.Unmarshal] below is a
    reference decoder for the concrete responses of the scenarios: a parser
    of the JSON grammar of RFC 8259 followed by the assignment of the
    object members to the fields of [Decision] by their [json] tags.  As in
    Go, a member is matched to a tag exactly or else without regard to the
    case of ASCII letters, unknown members are skipped, [null] leaves a
    field as it is, a later member overrides an earlier one, an integer
    field takes integer numerals only, and a numeral beyond the range of
    the field is an error.  The texts of the errors are not those of Go,
    invalid UTF-8 inside a string is kept as it is, and the numeral [-0]
    gives [0]. *)
Module json.

#[warnings="-register-all"]
Inductive value :=
| Null
| Bool (b : bool)
| Number (negative : bool) (digits : Z) (exponent : Z) (integral : bool)
| Str (s : string)
| Array (elements : list value)
| Object (members : list (string * value)).

Definition isSpace (c : ascii) : bool :=
  existsb (Ascii.eqb c) ["032"; "009"; "010"; "013"]%char.

Fixpoint skipSpace (s : string) : string :=
  match s with
  | String c s' => if isSpace c then skipSpace s' else s
  | EmptyString => s
  end.

Definition digitValue (c : ascii) : option Z :=
  let n := nat_of_ascii c in
  if (48 <=? n)%nat && (n <=? 57)%nat then Some (Z.of_nat n - 48) else None.

Definition hexValue (c : ascii) : option Z :=
  let n := nat_of_ascii c in
  if (48 <=? n)%nat && (n <=? 57)%nat then Some (Z.of_nat n - 48)
  else if (97 <=? n)%nat && (n <=? 102)%nat then Some (Z.of_nat n - 87)
  else if (65 <=? n)%nat && (n <=? 70)%nat then Some (Z.of_nat n - 55)
  else None.

(** A run of digits: its value continued from [acc], how many there are,
    and the rest of the text. *)
Fixpoint readDigits (s : string) (acc : Z) (count : Z) : Z * Z * string :=
  match s with
  | String c s' =>
      match digitValue c with
      | Some v => readDigits s' (acc * 10 + v) (count + 1)
      | None => (acc, count, s)
      end
  | EmptyString => (acc, count, s)
  end.

(** A numeral, after its optional minus sign. *)
Definition readNumber (negative : bool) (s : string) : option (value * string) :=
  match s with
  | String c s1 =>
      match digitValue c with
      | None => None
      | Some v =>
          let '(int, _, s2) := if v =? 0 then (0, 1, s1) else readDigits s1 v 1 in
          let '(mant, fracLen, s3, hasFrac, okFrac) :=
            match s2 with
            | String "." s2' =>
                let '(m, n, r) := readDigits s2' int 0 in (m, n, r, true, 0 <? n)
            | _ => (int, 0, s2, false, true)
            end in
          let '(exp, s4, hasExp, okExp) :=
            match s3 with
            | String e s3' =>
                if Ascii.eqb e "e"%char || Ascii.eqb e "E"%char then
                  let '(neg, s3'') :=
                    match s3' with
                    | String "-" r => (true, r)
                    | String "+" r => (false, r)
                    | _ => (false, s3')
                    end in
                  let '(x, n, r) := readDigits s3'' 0 0 in
                  ((if neg then - x else x), r, true, 0 <? n)
                else (0, s3, false, true)
            | EmptyString => (0, s3, false, true)
            end in
          if okFrac && okExp
          then Some (Number negative mant (exp - fracLen) (negb hasFrac && negb hasExp), s4)
          else None
      end
  | EmptyString => None
  end.

(** The UTF-8 encoding of a code point. *)
Definition byte (n : Z) : ascii := ascii_of_nat (Z.to_nat n).

Definition utf8 (cp : Z) : string :=
  if cp <? 128 then String (byte cp) EmptyString
  else if cp <? 2048 then
    String (byte (192 + cp / 64)) (String (byte (128 + cp mod 64)) EmptyString)
  else if cp <? 65536 then
    String (byte (224 + cp / 4096))
      (String (byte (128 + (cp / 64) mod 64)) (String (byte (128 + cp mod 64)) EmptyString))
  else
    String (byte (240 + cp / 262144))
      (String (byte (128 + (cp / 4096) mod 64))
         (String (byte (128 + (cp / 64) mod 64))
            (String (byte (128 + cp mod 64)) EmptyString))).

(** Four hexadecimal digits at the head of [s]. *)
Definition readHex4 (s : string) : option (Z * string) :=
  match s with
  | String a (String b (String c (String d r))) =>
      match hexValue a, hexValue b, hexValue c, hexValue d with
      | Some x, Some y, Some z, Some w => Some (((x * 16 + y) * 16 + z) * 16 + w, r)
      | _, _, _, _ => None
      end
  | _ => None
  end.

(** The code point of a [\u] escape whose four digits gave [cp], joined
    with the escape that follows when the two form a surrogate pair; a lone
    surrogate is replaced by U+FFFD. *)
Definition readRune (cp : Z) (s : string) : Z * string :=
  if (55296 <=? cp) && (cp <? 56320) then
    match s with
    | String "\" (String "u" s') =>
        match readHex4 s' with
        | Some (lo, r) =>
            if (56320 <=? lo) && (lo <? 57344)
            then (65536 + (cp - 55296) * 1024 + (lo - 56320), r)
            else (65533, s)
        | None => (65533, s)
        end
    | _ => (65533, s)
    end
  else if (56320 <=? cp) && (cp <? 57344) then (65533, s)
  else (cp, s).

(** The body of a string, after its opening quote; every step consumes at
    least one byte. *)
Fixpoint readString (steps : nat) (s : string) : option (string * string) :=
  match steps with
  | O => None
  | S steps' =>
      match s with
      | EmptyString => None
      | String c s1 =>
          if Ascii.eqb c dquote then Some (EmptyString, s1)
          else if Ascii.eqb c "\"%char then
            match s1 with
            | String e s2 =>
                let plain (x : ascii) :=
                  match readString steps' s2 with
                  | Some (body, r) => Some (String x body, r)
                  | None => None
                  end in
                if Ascii.eqb e dquote then plain dquote
                else if Ascii.eqb e "\"%char then plain "\"%char
                else if Ascii.eqb e "/"%char then plain "/"%char
                else if Ascii.eqb e "b"%char then plain "008"%char
                else if Ascii.eqb e "f"%char then plain "012"%char
                else if Ascii.eqb e "n"%char then plain "010"%char
                else if Ascii.eqb e "r"%char then plain "013"%char
                else if Ascii.eqb e "t"%char then plain "009"%char
                else if Ascii.eqb e "u"%char then
                  match readHex4 s2 with
                  | Some (cp, s3) =>
                      let '(rune, s4) := readRune cp s3 in
                      match readString steps' s4 with
                      | Some (body, r) => Some (utf8 rune +:+ body, r)
                      | None => None
                      end
                  | None => None
                  end
                else None
            | EmptyString => None
            end
          else if (nat_of_ascii c <? 32)%nat then None
          else
            match readString steps' s1 with
            | Some (body, r) => Some (String c body, r)
            | None => None
            end
      end
  end.

(** One value at the head of [s], spaces before it skipped.  [steps]
    bounds the number of values read; [String.length s] is enough. *)
Fixpoint readValue (steps : nat) (s : string) : option (value * string) :=
  match steps with
  | O => None
  | S steps' =>
      let readElements :=
        fix readElements (n : nat) (s : string) : option (list value * string) :=
          match n with
          | O => None
          | S n' =>
              match readValue steps' s with
              | None => None
              | Some (v, r) =>
                  match skipSpace r with
                  | String "," r' =>
                      match readElements n' r' with
                      | Some (vs, r'') => Some (v :: vs, r'')
                      | None => None
                      end
                  | String "]" r' => Some ([v], r')
                  | _ => None
                  end
              end
          end in
      let readMembers :=
        fix readMembers (n : nat) (s : string) : option (list (string * value) * string) :=
          match n with
          | O => None
          | S n' =>
              match skipSpace s with
              | String q s1 =>
                  if Ascii.eqb q dquote then
                    match readString (String.length s1) s1 with
                    | None => None
                    | Some (key, s2) =>
                        match skipSpace s2 with
                        | String ":" s3 =>
                            match readValue steps' s3 with
                            | None => None
                            | Some (v, r) =>
                                match skipSpace r with
                                | String "," r' =>
                                    match readMembers n' r' with
                                    | Some (ms, r'') => Some ((key, v) :: ms, r'')
                                    | None => None
                                    end
                                | String "}" r' => Some ([(key, v)], r')
                                | _ => None
                                end
                            end
                        | _ => None
                        end
                    end
                  else None
              | EmptyString => None
              end
          end in
      match skipSpace s with
      | EmptyString => None
      | String c s1 =>
          if Ascii.eqb c dquote then
            match readString (String.length s1) s1 with
            | Some (body, r) => Some (Str body, r)
            | None => None
            end
          else if Ascii.eqb c "["%char then
            match skipSpace s1 with
            | String "]" r => Some (Array [], r)
            | _ =>
                match readElements (String.length s1) s1 with
                | Some (vs, r) => Some (Array vs, r)
                | None => None
                end
            end
          else if Ascii.eqb c "{"%char then
            match skipSpace s1 with
            | String "}" r => Some (Object [], r)
            | _ =>
                match readMembers (String.length s1) s1 with
                | Some (ms, r) => Some (Object ms, r)
                | None => None
                end
            end
          else if Ascii.eqb c "-"%char then readNumber true s1
          else if String.prefix "null" (String c s1) then Some (Null, sliceFrom s1 3)
          else if String.prefix "true" (String c s1) then Some (Bool true, sliceFrom s1 3)
          else if String.prefix "false" (String c s1) then Some (Bool false, sliceFrom s1 4)
          else readNumber false (String c s1)
      end
  end.

(** A whole text: one value and nothing but spaces after it. *)
Definition parse (s : string) : option value :=
  match readValue (S (String.length s)) s with
  | Some (v, r) => match skipSpace r with EmptyString => Some v | _ => None end
  | None => None
  end.

Definition lower (c : ascii) : ascii :=
  let n := nat_of_ascii c in
  if (65 <=? n)%nat && (n <=? 90)%nat then ascii_of_nat (n + 32) else c.

Fixpoint lowerString (s : string) : string :=
  match s with
  | String c s' => String (lower c) (lowerString s')
  | EmptyString => EmptyString
  end.

(** The tags of the fields of [Decision], in the order of the struct. *)
Definition decisionTags : list string :=
  ["symbol"; "action"; "leverage"; "position_size_usd"; "stop_loss"; "take_profit";
   "confidence"; "risk_usd"; "reasoning"].

(** The field a member name stands for: the tag equal to the name, else
    the first tag equal to it up to the case of letters. *)
Definition fieldOf (key : string) : option string :=
  match find (String.eqb key) decisionTags with
  | Some tag => Some tag
  | None => find (fun tag => String.eqb (lowerString key) tag) decisionTags
  end.

Section Decode.
Context {F : Type} `{Float64 F}.

Definition zeroDecision : Decision F :=
  mkDecision "" "" 0 (flit 0 0) (flit 0 0) (flit 0 0) 0 (flit 0 0) "".

Definition asString (v : value) (old : string) : option string :=
  match v with
  | Str s => Some s
  | Null => Some old
  | _ => None
  end.

(** A Go [int] has 64 bits. *)
Definition asInt (v : value) (old : Z) : option Z :=
  match v with
  | Number negative digits exponent true =>
      let n := if negative then - digits else digits in
      if (- 2 ^ 63 <=? n) && (n <? 2 ^ 63) then Some n else None
  | Null => Some old
  | _ => None
  end.

Definition asFloat (v : value) (old : F) : option F :=
  match v with
  | Number negative digits exponent _ =>
      let x := flit (if negative then - digits else digits) exponent in
      if fisInf x then None else Some x
  | Null => Some old
  | _ => None
  end.

(** Assign one member to the field of its name. *)
Definition setField (d : Decision F) (member : string * value) : option (Decision F) :=
  let '(key, v) := member in
  match fieldOf key with
  | None => Some d
  | Some tag =>
      if String.eqb tag "symbol" then
        option_map (fun x => mkDecision x (Action d) (Leverage d) (PositionSizeUSD d)
          (StopLoss d) (TakeProfit d) (Confidence d) (RiskUSD d) (Reasoning d))
          (asString v (Symbol d))
      else if String.eqb tag "action" then
        option_map (fun x => mkDecision (Symbol d) x (Leverage d) (PositionSizeUSD d)
          (StopLoss d) (TakeProfit d) (Confidence d) (RiskUSD d) (Reasoning d))
          (asString v (Action d))
      else if String.eqb tag "leverage" then
        option_map (fun x => mkDecision (Symbol d) (Action d) x (PositionSizeUSD d)
          (StopLoss d) (TakeProfit d) (Confidence d) (RiskUSD d) (Reasoning d))
          (asInt v (Leverage d))
      else if String.eqb tag "position_size_usd" then
        option_map (fun x => mkDecision (Symbol d) (Action d) (Leverage d) x
          (StopLoss d) (TakeProfit d) (Confidence d) (RiskUSD d) (Reasoning d))
          (asFloat v (PositionSizeUSD d))
      else if String.eqb tag "stop_loss" then
        option_map (fun x => mkDecision (Symbol d) (Action d) (Leverage d) (PositionSizeUSD d)
          x (TakeProfit d) (Confidence d) (RiskUSD d) (Reasoning d))
          (asFloat v (StopLoss d))
      else if String.eqb tag "take_profit" then
        option_map (fun x => mkDecision (Symbol d) (Action d) (Leverage d) (PositionSizeUSD d)
          (StopLoss d) x (Confidence d) (RiskUSD d) (Reasoning d))
          (asFloat v (TakeProfit d))
      else if String.eqb tag "confidence" then
        option_map (fun x => mkDecision (Symbol d) (Action d) (Leverage d) (PositionSizeUSD d)
          (StopLoss d) (TakeProfit d) x (RiskUSD d) (Reasoning d))
          (asInt v (Confidence d))
      else if String.eqb tag "risk_usd" then
        option_map (fun x => mkDecision (Symbol d) (Action d) (Leverage d) (PositionSizeUSD d)
          (StopLoss d) (TakeProfit d) (Confidence d) x (Reasoning d))
          (asFloat v (RiskUSD d))
      else
        option_map (fun x => mkDecision (Symbol d) (Action d) (Leverage d) (PositionSizeUSD d)
          (StopLoss d) (TakeProfit d) (Confidence d) (RiskUSD d) x)
          (asString v (Reasoning d))
  end.

Fixpoint setFields (d : Decision F) (members : list (string * value)) : option (Decision F) :=
  match members with
  | [] => Some d
  | m :: rest =>
      match setField d m with
      | Some d' => setFields d' rest
      | None => None
      end
  end.

Definition decodeDecision (v : value) : option (Decision F) :=
  match v with
  | Object members => setFields zeroDecision members
  | Null => Some zeroDecision
  | _ => None
  end.

Fixpoint decodeAll (vs : list value) : option (list (Decision F)) :=
  match vs with
  | [] => Some []
  | v :: rest =>
      match decodeDecision v, decodeAll rest with
      | Some d, Some ds => Some (d :: ds)
      | _, _ => None
      end
  end.

(** [json.Unmarshal([]byte(text), &decisions)] for [var decisions []Decision]:
    the decisions, or the text of the error. *)
Definition Unmarshal (text : string) : string + list (Decision F) :=
  match parse text with
  | None => inl "invalid JSON"
  | Some Null => inr []
  | Some (Array vs) =>
      match decodeAll vs with
      | Some ds => inr ds
      | None => inl "cannot unmarshal into Decision"
      end
  | Some _ => inl "cannot unmarshal into []Decision"
  end.

End Decode.

End json.

(** ** Package decision: extractDecisions and parseFullDecisionResponse *)

Section Extract.
Context {F : Type} `{Float64 F}.

(** [json.Unmarshal] into a [[]Decision]: the decisions, or the text of the
    error. *)
Variable unmarshal : string -> string + list (Decision F).

(** The synthetic decision returned in place of an error. *)
Definition waitDecision (reasoning : string) : Decision F :=
  mkDecision "" "wait" 0 (flit 0 0) (flit 0 0) (flit 0 0) 0 (flit 0 0) reasoning.

(** [strings.TrimSpace(response[arrayStart : arrayEnd+1])] *)
Definition arrayText (response : string) (arrayStart arrayEnd : nat) : string :=
  strings_TrimSpace (slice response arrayStart (arrayEnd + 1)).

(** The quick test of the loop: the text names ["symbol"] or ["action"]. *)
Definition mentionsDecisionKey (jsonContent : string) : bool :=
  strings_Contains jsonContent (quoted "symbol")
  || strings_Contains jsonContent (quoted "action").

(** What the loop of [extractDecisions] does with one array: the decisions
    it returns, or [None] when it goes on to the next array. *)
Definition tryArray (response : string) (arrayStart arrayEnd : nat)
    : option (list (Decision F)) :=
  let jsonContent := arrayText response arrayStart arrayEnd in
  if negb (mentionsDecisionKey jsonContent) then None
  else
    let jsonContent := fixMissingQuotes jsonContent in
    let jsonContent := fixArithmeticExpressions jsonContent in
    match unmarshal jsonContent with
    | inr (d :: ds) => if negb (Symbol d =? "")%string then Some (d :: ds) else None
    | _ => None
    end.

(** The outcome of the loop: an array was accepted (with the index of its
    opening bracket), or the loop left by [break]; [OutOfSteps] is the
    outcome of a loop cut short by its bound. *)
Inductive scan :=
| Accepted (arrayStart : nat) (decisions : list (Decision F))
| NoArray
| OutOfSteps.

(** The [for] loop of [extractDecisions], entered with [searchStart]. *)
Fixpoint scanArrays (steps : nat) (response : string) (searchStart : nat) : scan :=
  match steps with
  | O => OutOfSteps
  | S steps' =>
      match strings_Index (sliceFrom response searchStart) "[" with
      | None => NoArray
      | Some index =>
          let arrayStart := (index + searchStart)%nat in
          match findMatchingBracket response arrayStart with
          | None => scanArrays steps' response (arrayStart + 1)
          | Some arrayEnd =>
              match tryArray response arrayStart arrayEnd with
              | Some decisions => Accepted arrayStart decisions
              | None => scanArrays steps' response (arrayEnd + 1)
              end
          end
      end
  end.

(** The part of [extractDecisions] after the loop: the last opening
    bracket of the response is tried once more. *)
Definition lastArray (response : string) : list (Decision F) * option (error F) :=
  match strings_LastIndex response "[" with
  | None => ([waitDecision "AI响应格式错误，未找到JSON数组"], None)
  | Some arrayStart =>
      match findMatchingBracket response arrayStart with
      | None => ([waitDecision "AI响应格式错误，JSON数组不完整"], None)
      | Some arrayEnd =>
          let jsonContent := arrayText response arrayStart arrayEnd in
          let jsonContent := fixMissingQuotes jsonContent in
          let jsonContent := fixArithmeticExpressions jsonContent in
          match unmarshal jsonContent with
          | inl err => ([waitDecision ("JSON解析失败: " +:+ err)], None)
          | inr decisions => (decisions, None)
          end
      end
  end.

(** [func extractDecisions].  Every pass of the loop moves [searchStart]
    forward, so the loop ends within [String.length response + 1] passes. *)
Definition extractDecisions (response : string) : list (Decision F) * option (error F) :=
  match scanArrays (S (String.length response)) response 0 with
  | Accepted _ decisions => (decisions, None)
  | _ => lastArray response
  end.

(** [func parseFullDecisionResponse] *)
Definition parseFullDecisionResponse (aiResponse : string) (accountEquity : F)
    (btcEthLeverage altcoinLeverage : Z) (minPositionSizeUSD maxPositionSizeUSD : F)
    : FullDecision F * option (error F) :=
  let cotTrace := extractCoTTrace aiResponse in
  match extractDecisions aiResponse with
  | (_, Some err) => (mkFullDecision "" cotTrace [] 0, Some (ErrExtractDecisions err cotTrace))
  | (decisions, None) =>
      let decisions := normalizeDecisions decisions minPositionSizeUSD maxPositionSizeUSD in
      match validateDecisions decisions accountEquity btcEthLeverage altcoinLeverage
              minPositionSizeUSD maxPositionSizeUSD with
      | Some err =>
          (mkFullDecision "" cotTrace decisions 0, Some (ErrValidateDecisions err cotTrace))
      | None => (mkFullDecision "" cotTrace decisions 0, None)
      end
  end.

(** [func GetFullDecision], from the call of the model on: [aiCall] is the
    outcome of [mcpClient.CallWithMessages] (the response, or the text of
    its error) and [now] the reading of the clock.  The first component is
    [None] for the [nil] pointer. *)
Definition GetFullDecision (userPrompt : string) (aiCall : string + string) (now : Z)
    (accountEquity : F) (btcEthLeverage altcoinLeverage : Z)
    (minPositionSizeUSD maxPositionSizeUSD : F)
    : option (FullDecision F) * option (error F) :=
  match aiCall with
  | inl err => (None, Some (ErrCallAI err))
  | inr aiResponse =>
      match parseFullDecisionResponse aiResponse accountEquity btcEthLeverage
              altcoinLeverage minPositionSizeUSD maxPositionSizeUSD with
      | (_, Some err) => (None, Some (ErrParseAIResponse err))
      | (decision, None) =>
          (Some (mkFullDecision userPrompt (CoTTrace decision) (Decisions decision) now), None)
      end
  end.

(** The arrays the loop of [extractDecisions] would visit if it accepted
    none: from [searchStart] on, the next opening bracket with a matching
    closing bracket, then the search goes on behind that closing bracket;
    an opening bracket without a match is passed over. *)
Fixpoint balancedBlocks (steps : nat) (response : string) (searchStart : nat)
    : list (nat * nat) :=
  match steps with
  | O => []
  | S steps' =>
      match strings_Index (sliceFrom response searchStart) "[" with
      | None => []
      | Some index =>
          let arrayStart := (index + searchStart)%nat in
          match findMatchingBracket response arrayStart with
          | None => balancedBlocks steps' response (arrayStart + 1)
          | Some arrayEnd =>
              (arrayStart, arrayEnd) :: balancedBlocks steps' response (arrayEnd + 1)
          end
      end
  end.

(** The first block of a list that [tryArray] accepts. *)
Fixpoint firstAccepted (response : string) (blocks : list (nat * nat))
    : option (nat * list (Decision F)) :=
  match blocks with
  | [] => None
  | (arrayStart, arrayEnd) :: rest =>
      match tryArray response arrayStart arrayEnd with
      | Some decisions => Some (arrayStart, decisions)
      | None => firstAccepted response rest
      end
  end.

End Extract.

(** ** Package decision: fetchMarketDataForContext *)

Section MarketData.
Context {F : Type} `{Float64 F}.
Local Open Scope go_scope.

(** Modelled from the spec: [type OIData struct] of package market is not
    among the sources; the open interest of a snapshot is
    [{latest, average}]. *)
Record OIData := mkOIData {
  Latest : F;
  Average : F
}.

(** Modelled from the spec: [type Data struct] of package market is not
    among the sources; of a snapshot, [fetchMarketDataForContext] reads the
    current price and the optional open interest ([None] is the [nil]
    pointer). *)
Record Data := mkData {
  DataSymbol : string;
  CurrentPrice : F;
  OpenInterest : option OIData
}.

(** [type PositionInfo struct] *)
Record PositionInfo := mkPositionInfo {
  PositionSymbol : string;
  Side : string;
  EntryPrice : F;
  MarkPrice : F;
  Quantity : F;
  PositionLeverage : Z;
  UnrealizedPnL : F;
  UnrealizedPnLPct : F;
  LiquidationPrice : F;
  MarginUsed : F;
  UpdateTime : Z
}.

(** [type CandidateCoin struct] *)
Record CandidateCoin := mkCandidateCoin {
  CoinSymbol : string;
  Sources : list string
}.

(** [market.Get], which is not among the sources: the snapshot of a
    symbol, or [None] when the call fails. *)
Variable market_Get : string -> option Data.

(** [func calculateMaxCandidates] *)
Definition calculateMaxCandidates (candidateCoins : list CandidateCoin) : nat :=
  length candidateCoins.

(** The set [symbolSet]: the symbols of the positions, then those of the
    first [maxCandidates] candidates. *)
Definition symbolSet (positions : list PositionInfo) (candidateCoins : list CandidateCoin)
    : gmap string bool :=
  let fromPositions :=
    foldl (fun set pos => <[PositionSymbol pos := true]> set) ∅ positions in
  foldl (fun set coin => <[CoinSymbol coin := true]> set) fromPositions
    (take (calculateMaxCandidates candidateCoins) candidateCoins).

(** The set [positionSymbols]. *)
Definition positionSymbols (positions : list PositionInfo) : gmap string bool :=
  foldl (fun set pos => <[PositionSymbol pos := true]> set) ∅ positions.

(** The liquidity filter on one snapshot: [true] when the loop passes on
    to the next symbol without keeping the snapshot. *)
Definition belowLiquidity (isExistingPosition : bool) (data : Data) : bool :=
  match OpenInterest data with
  | Some oi =>
      if negb isExistingPosition && (CurrentPrice data >? flit 0 0) then
        let oiValue := Latest oi * CurrentPrice data in
        let oiValueInMillions := oiValue / flit 1000000 0 in
        oiValueInMillions <? flit 15 0
      else false
  | None => false
  end.

(** One pass of the loop over [symbolSet]. *)
Definition fetchSymbol (positionSymbols : gmap string bool) (symbol : string)
    (marketDataMap : gmap string Data) : gmap string Data :=
  match market_Get symbol with
  | None => marketDataMap
  | Some data =>
      let isExistingPosition := default false (positionSymbols !! symbol) in
      if belowLiquidity isExistingPosition data then marketDataMap
      else <[symbol := data]> marketDataMap
  end.

(** What the loop leaves in the map for one symbol of the set. *)
Definition kept (positions : list PositionInfo) (symbol : string) : option Data :=
  match market_Get symbol with
  | None => None
  | Some data =>
      if belowLiquidity (default false (positionSymbols positions !! symbol)) data
      then None else Some data
  end.

(** [func fetchMarketDataForContext]: the map [ctx.MarketDataMap] it
    leaves.  (The map of the OI ranking, filled afterwards, is not
    embedded; the function returns the [nil] error in every case.) *)
Definition fetchMarketDataForContext (positions : list PositionInfo)
    (candidateCoins : list CandidateCoin) : gmap string Data :=
  map_fold (fun symbol _ marketDataMap =>
              fetchSymbol (positionSymbols positions) symbol marketDataMap)
    ∅ (symbolSet positions candidateCoins).

End MarketData.

Arguments OIData F : clear implicits.
Arguments Data F : clear implicits.
Arguments PositionInfo F : clear implicits.

(** ** Package mcp: CallWithMessages *)

(** The errors of the LLM client: an error of [callOnce] with its text, the
    error of a missing key, and the error that wraps the last failure
    after the retries. *)
#[warnings="-register-all"]
Inductive mcpError :=
| ErrCallOnce (text : string)
| ErrNoAPIKey
| ErrRetriesFailed (maxRetries : Z) (lastErr : option mcpError).

(** Decimal digits of a natural number, for [%d]. *)
Definition digitChar (n : nat) : ascii := ascii_of_nat (48 + n).

Fixpoint decimalFrom (steps n : nat) (acc : string) : string :=
  match steps with
  | O => acc
  | S steps' =>
      let acc' := String (digitChar (n mod 10)) acc in
      if (n / 10 =? 0)%nat then acc' else decimalFrom steps' (n / 10) acc'
  end.

Definition decimal (n : Z) : string :=
  if n <? 0 then String "-" (decimalFrom (Z.to_nat (- n)) (Z.to_nat (- n)) EmptyString)
  else decimalFrom (S (Z.to_nat n)) (Z.to_nat n) EmptyString.

(** [err.Error()] *)
Fixpoint errorText (err : mcpError) : string :=
  match err with
  | ErrCallOnce text => text
  | ErrNoAPIKey => "AI API密钥未设置，请先调用 SetDeepSeekAPIKey() 或 SetQwenAPIKey()"
  | ErrRetriesFailed maxRetries lastErr =>
      "重试" +:+ decimal maxRetries +:+ "次后仍然失败: "
      +:+ match lastErr with Some e => errorText e | None => "%!w(<nil>)" end
  end.

(** The slice [retryableErrors] of [isRetryableError]. *)
Definition retryableErrors : list string :=
  ["EOF"; "timeout"; "connection reset"; "connection refused"; "temporary failure";
   "no such host"].

(** [func isRetryableError] *)
Definition isRetryableError (err : mcpError) : bool :=
  existsb (fun retryable => strings_Contains (errorText err) retryable) retryableErrors.

(** What the client does besides computing: a call of [callOnce] for an
    attempt, and a [time.Sleep] of a duration in nanoseconds. *)
Inductive event :=
| Call (attempt : Z)
| Sleep (duration : Z).

(** [time.Second] *)
Definition time_Second : Z := 1000000000.

Section Client.

(** [cfg.callOnce]: the outcome of the call made for each attempt. *)
Variable callOnce : Z -> mcpError + string.

(** The [for] loop of [CallWithMessages], entered with [attempt];
    [remaining] is the number of passes left, [maxRetries - attempt + 1]. *)
Fixpoint retryLoop (remaining : nat) (maxRetries attempt : Z) (lastErr : option mcpError)
    : (string * option mcpError) * list event :=
  match remaining with
  | O => (("", Some (ErrRetriesFailed maxRetries lastErr)), [])
  | S remaining' =>
      match callOnce attempt with
      | inr result => ((result, None), [Call attempt])
      | inl err =>
          if negb (isRetryableError err) then (("", Some err), [Call attempt])
          else
            let wait :=
              if attempt <? maxRetries then [Sleep (attempt * 2 * time_Second)] else [] in
            let '(outcome, events) := retryLoop remaining' maxRetries (attempt + 1) (Some err) in
            (outcome, Call attempt :: wait ++ events)
      end
  end.

(** [func CallWithMessages]: the result and the error, with the calls and
    the waits in the order they happen. *)
Definition CallWithMessages (apiKey : string)
    : (string * option mcpError) * list event :=
  if (apiKey =? "")%string then (("", Some ErrNoAPIKey), [])
  else
    let maxRetries := 3 in
    retryLoop (Z.to_nat maxRetries) maxRetries 1 None.

End Client.

(** ** Package indicator: DetectOutsideDay *)

(** [type OutsideDaySignal string] with its three constants. *)
Inductive OutsideDaySignal := OutsideDayLONG | OutsideDaySHORT | OutsideDayWAIT.

Section OutsideDay.
Context {F : Type} `{Float64 F}.
Local Open Scope go_scope.

(** Modelled from the spec: [type Kline struct] of package market is not
    among the sources; a bar has an opening time, open, high, low, close,
    volume and a closing time. *)
Record Kline := mkKline {
  OpenTime : Z;
  Open : F;
  High : F;
  Low : F;
  Close : F;
  Volume : F;
  CloseTime : Z
}.

(** The lines of [Reasoning], with the values they are formatted from. *)
Inductive reason :=
| InsufficientData
| NoPattern
| BodyRatioBelowMinimum (bodyRatio minRatio : F)
| PatternDetected
| CloseBelowPreviousLow (close previousLow : F)
| CloseAbovePreviousHigh (close previousHigh : F)
| BodyRatioIs (bodyRatio : F)
| NoClearDirection.

(** [type OutsideDayResult struct] *)
Record OutsideDayResult := mkOutsideDayResult {
  SignalType : OutsideDaySignal;
  ResultConfidence : F;
  Strength : F;
  ResultReasoning : list reason
}.

(** The local variable [bodyRatio] of [DetectOutsideDay]. *)
Definition bodyRatio (current previous : Kline) : F :=
  let currentBodySize := fabs (Close current - Open current) in
  let previousBodySize := fabs (Close previous - Open previous) in
  if previousBodySize >? flit 0 0 then currentBodySize / previousBodySize else flit 0 0.

(** [DetectOutsideDay] on the last two bars. *)
Definition detectOutsideDayOn (current previous : Kline) : OutsideDayResult :=
  let isOutsideBar := (High current >? High previous) && (Low current <? Low previous) in
  if negb isOutsideBar then mkOutsideDayResult OutsideDayWAIT (flit 0 0) (flit 0 0) [NoPattern]
  else
    let bodyRatio := bodyRatio current previous in
    let minRatio := flit 2 0 in
    if bodyRatio <? minRatio then
      mkOutsideDayResult OutsideDayWAIT (flit 0 0) (flit 0 0)
        [BodyRatioBelowMinimum bodyRatio minRatio]
    else if Close current <? Low previous then
      mkOutsideDayResult OutsideDayLONG (flit 75 (-2)) (fmin (bodyRatio / flit 3 0) (flit 1 0))
        [PatternDetected; CloseBelowPreviousLow (Close current) (Low previous);
         BodyRatioIs bodyRatio]
    else if Close current >? High previous then
      mkOutsideDayResult OutsideDaySHORT (flit 75 (-2)) (fmin (bodyRatio / flit 3 0) (flit 1 0))
        [PatternDetected; CloseAbovePreviousHigh (Close current) (High previous);
         BodyRatioIs bodyRatio]
    else mkOutsideDayResult OutsideDayWAIT (flit 0 0) (flit 0 0) [NoClearDirection].

(** [func DetectOutsideDay]: [current] is [klines[len(klines)-1]] and
    [previous] is [klines[len(klines)-2]]. *)
Definition DetectOutsideDay (klines : list Kline) : OutsideDayResult :=
  if (length klines <? 2)%nat then
    mkOutsideDayResult OutsideDayWAIT (flit 0 0) (flit 0 0) [InsufficientData]
  else
    match klines !! (length klines - 1)%nat, klines !! (length klines - 2)%nat with
    | Some current, Some previous => detectOutsideDayOn current previous
    | _, _ => mkOutsideDayResult OutsideDayWAIT (flit 0 0) (flit 0 0) [InsufficientData]
    end.

End OutsideDay.

Arguments Kline F : clear implicits.
Arguments OutsideDayResult F : clear implicits.
Arguments reason F : clear implicits.

(** The calls among the events. *)
Definition isCall (e : event) : bool :=
  match e with Call _ => true | Sleep _ => false end.

Definition attemptsMade (events : list event) : nat := length (List.filter isCall events).

(** A client whose every call fails with the same text. *)
Definition alwaysFailing (text : string) (attempt : Z) : mcpError + string :=
  inl (ErrCallOnce text).

(** Two bars: a narrow one, then one that engulfs its range and closes
    under its low. *)
Definition narrowBar {F : Type} `{Float64 F} : Kline F :=
  mkKline 0 (flit 100 0) (flit 105 0) (flit 95 0) (flit 101 0) (flit 10 0) 179999.

Definition engulfingBar {F : Type} `{Float64 F} : Kline F :=
  mkKline 180000 (flit 104 0) (flit 110 0) (flit 90 0) (flit 92 0) (flit 50 0) 359999.

(** The snapshots of the liquidity scenario for XYZUSDT: open interest 100
    at the price 0.5, and the same open interest with no price. *)
Definition thinSnapshot {F : Type} `{Float64 F} : Data F :=
  mkData "XYZUSDT" (flit 5 (-1)) (Some (mkOIData (flit 100 0) (flit 999 (-1)))).

Definition unpricedSnapshot {F : Type} `{Float64 F} : Data F :=
  mkData "XYZUSDT" (flit 0 0) (Some (mkOIData (flit 100 0) (flit 999 (-1)))).

(** A market that knows XYZUSDT only. *)
Definition xyzMarket {F : Type} (data : Data F) (symbol : string) : option (Data F) :=
  if (symbol =? "XYZUSDT")%string then Some data else None.

Definition xyzCandidate : CandidateCoin := mkCandidateCoin "XYZUSDT" ["ai500"].

Definition xyzPosition {F : Type} `{Float64 F} : PositionInfo F :=
  mkPositionInfo "XYZUSDT" "long" (flit 5 (-1)) (flit 5 (-1)) (flit 10 0) 2 (flit 0 0)
    (flit 0 0) (flit 1 (-1)) (flit 25 (-1)) 0.

(** ** The responses of the scenarios *)

(** The line feed. *)
Definition newline : string := String "010" EmptyString.

(** A member [name: text] of a JSON object, with a string or a bare value. *)
Definition member (name text : string) : string := quoted name +:+ ":" +:+ quoted text.
Definition bareMember (name text : string) : string := quoted name +:+ ":" +:+ text.

(** The array of scalars and the array of one decision of the parser
    scenario. *)
Definition priceArray : string := "[100000, 100100, 100200]".

Definition waitArray : string :=
  "[{" +:+ member "symbol" "BTCUSDT" +:+ "," +:+ member "action" "wait" +:+ ","
  +:+ member "reasoning" "x" +:+ "}]".

Definition btcWait {F : Type} `{Float64 F} : Decision F :=
  mkDecision "BTCUSDT" "wait" 0 (flit 0 0) (flit 0 0) (flit 0 0) 0 (flit 0 0) "x".

(** A response with the prices before the decisions. *)
Definition pricesThenDecisions : string :=
  "Prices: " +:+ priceArray +:+ newline +:+ "Decision: " +:+ waitArray.

(** A response with two decisions, the second with a leverage of 25. *)
Definition solOpenText : string :=
  "{" +:+ member "symbol" "SOLUSDT" +:+ "," +:+ member "action" "open_long" +:+ ","
  +:+ bareMember "leverage" "25" +:+ "," +:+ bareMember "position_size_usd" "100" +:+ ","
  +:+ bareMember "stop_loss" "100" +:+ "," +:+ bareMember "take_profit" "110" +:+ ","
  +:+ member "reasoning" "y" +:+ "}".

Definition twoDecisions : string :=
  "Plan." +:+ newline
  +:+ "[{" +:+ member "symbol" "BTCUSDT" +:+ "," +:+ member "action" "wait" +:+ ","
  +:+ member "reasoning" "x" +:+ "}," +:+ solOpenText +:+ "]".

Definition solOpen {F : Type} `{Float64 F} : Decision F :=
  mkDecision "SOLUSDT" "open_long" 25 (flit 100 0) (flit 100 0) (flit 110 0) 0 (flit 0 0) "y".

(** The outcome of the loop for the first accepted block of a list. *)
Definition scanOf {F : Type} (found : option (nat * list (Decision F))) : scan (F := F) :=
  match found with
  | Some (arrayStart, decisions) => Accepted arrayStart decisions
  | None => NoArray
  end.

(** ** The order of binary64

    A binary64 value that is a number is ranked by its class (negative
    infinity, negative, zero, positive, positive infinity), then by its
    exponent and its mantissa; the comparison of two numbers is the
    lexicographic comparison of their ranks. *)
Definition SFrank (x : SpecFloat.spec_float) : option (Z * Z * Z) :=
  match x with
  | SpecFloat.S754_nan => None
  | SpecFloat.S754_infinity true => Some (-2, 0, 0)
  | SpecFloat.S754_infinity false => Some (2, 0, 0)
  | SpecFloat.S754_zero _ => Some (0, 0, 0)
  | SpecFloat.S754_finite true m e => Some (-1, - e, - Z.pos m)
  | SpecFloat.S754_finite false m e => Some (1, e, Z.pos m)
  end.

Definition lexCompare (a b : Z * Z * Z) : comparison :=
  match a.1.1 ?= b.1.1 with
  | Eq => match a.1.2 ?= b.1.2 with
          | Eq => a.2 ?= b.2
          | c => c
          end
  | c => c
  end.

(** ** Scenario values of the size limits *)

(** An [open_long] on SOLUSDT of the given size, with the stops 100 and
    110. *)
Definition sizedDecision {F : Type} `{Float64 F} (size : Z) : Decision F :=
  mkDecision "SOLUSDT" "open_long" 3 (flit size 0) (flit 100 0) (flit 110 0)
    80 (flit 0 0) "sized".

(** A [close_long] whose numeric fields are all out of range. *)
Definition wildClose {F : Type} `{Float64 F} : Decision F :=
  mkDecision "SOLUSDT" "close_long" 1000 (flit (-5) 0) (flit (-1) 0) (flit (-2) 0)
    0 (flit 0 0) "".

(** ** Nesting of brackets *)

(** What the bytes of [s] add to the nesting depth: one up for an opening
    bracket, one down for a closing bracket. *)
Fixpoint bracketDepth (s : string) : Z :=
  match s with
  | EmptyString => 0
  | String c s' =>
      (if Ascii.eqb c "["%char then 1 else if Ascii.eqb c "]"%char then -1 else 0)
      + bracketDepth s'
  end.

(** ** Curly quotes *)

(** The encodings [fixMissingQuotes] replaces. *)
Definition curlyQuotes : list string :=
  [leftDoubleQuote; rightDoubleQuote; leftSingleQuote; rightSingleQuote].

(** [text] holds none of the bytes of [bytes]. *)
Definition freeOf (bytes text : string) : bool :=
  forallb (fun x => negb (existsb (Ascii.eqb x) (list_ascii_of_string bytes)))
    (list_ascii_of_string text).

(** ** Responses that do not decode *)

(** A response with an array that does not decode. *)
Definition brokenArray : string := "Plan [" +:+ quoted "symbol" +:+ ": ]".

(** ** The loop of fetchMarketDataForContext in a given order *)

(** The loop over [symbolSet] when [range] visits the symbols in the order
    of the list [order]: Go leaves the order in which the keys of a map are
    visited unspecified. *)
Definition fetchInOrder {F : Type} `{Float64 F} (market_Get : string -> option (Data F))
    (positions : list (PositionInfo F)) (order : list string) : gmap string (Data F) :=
  foldl (fun marketDataMap symbol =>
           fetchSymbol market_Get (positionSymbols positions) symbol marketDataMap)
    ∅ order.

(** A candidate with a snapshot rich in open interest, and a market that
    knows it and XYZUSDT. *)
Definition abcCandidate : CandidateCoin := mkCandidateCoin "ABCUSDT" ["oi_top"].

Definition deepSnapshot {F : Type} `{Float64 F} : Data F :=
  mkData "ABCUSDT" (flit 2 0) (Some (mkOIData (flit 50000000 0) (flit 40000000 0))).

Definition twoSymbolMarket {F : Type} `{Float64 F} (symbol : string) : option (Data F) :=
  if (symbol =? "XYZUSDT")%string then Some thinSnapshot
  else if (symbol =? "ABCUSDT")%string then Some deepSnapshot
  else None.

(** ** The waits of CallWithMessages *)

(** The time slept in all, in nanoseconds. *)
Definition totalSleep (events : list event) : Z :=
  foldr (fun e total => match e with Sleep duration => duration + total | Call _ => total end)
    0 events.

(** A client whose first call fails with a text and whose later calls
    return a response. *)
Definition failingOnce (text response : string) (attempt : Z) : mcpError + string :=
  if attempt =? 1 then inl (ErrCallOnce text) else inr response.

(** ** Package mcp: cleanResponse and the end of callOnce *)

(** [func cleanResponse] *)
Definition cleanResponse (content : string) : string :=
  let markers := ["<s>"; "</s>"; "[INST]"; "[/INST]"; "<|im_start|>"; "<|im_end|>"] in
  let content :=
    foldl (fun content marker => strings_ReplaceAll content marker "") content markers in
  strings_TrimSpace content.

(** [content == "" || content == " " || content == "<s>" || content == "<s> "] *)
Definition isBlankContent (content : string) : bool :=
  (content =? "")%string || (content =? " ")%string || (content =? "<s>")%string
  || (content =? "<s> ")%string.

(** The response [callOnce] returns in place of a blank one. *)
Definition holdResponse : string :=
  "{" +:+ quoted "decision" +:+ ": " +:+ quoted "hold" +:+ ", " +:+ quoted "reasoning" +:+ ": "
  +:+ quoted "AI模型返回空响应，建议保持观望" +:+ "}".

(** The end of [callOnce], from the decoded body on: [content] and
    [reasoning] are the two fields of the message of the first choice.
    A blank content gives way to the reasoning, if there is one. *)
Definition contentOrReasoning (content reasoning : string) : string :=
  if isBlankContent content
  then (if negb (reasoning =? "")%string && negb (reasoning =? " ")%string
        then reasoning else content)
  else content.

Definition callOnceContent (content reasoning : string) : string :=
  let content := contentOrReasoning content reasoning in
  let content := cleanResponse content in
  if isBlankContent content then holdResponse else content.

(** ** Package indicator: candlestick patterns *)

Section Patterns.
Context {F : Type} `{Float64 F}.
Local Open Scope go_scope.

(** [type CandleProperties struct] *)
Record CandleProperties := mkCandleProperties {
  Range : F;
  BodySize : F;
  BodyPercent : F;
  IsBullish : bool;
  IsBearish : bool;
  UpperShadow : F;
  LowerShadow : F;
  UpperShadowPercent : F;
  LowerShadowPercent : F;
  UpperShadowRangePercent : F;
  LowerShadowRangePercent : F
}.

(** [type PatternResult struct], with the fields [Pattern], [IsBullish]
    and [Confidence]. *)
Record PatternResult := mkPatternResult {
  Pattern : string;
  PatternIsBullish : bool;
  PatternConfidence : F
}.

(** [PatternResult{}] *)
Definition emptyPatternResult : PatternResult := mkPatternResult "" false (flit 0 0).

(** [func calculateCandleProperties]; a variable declared without a value
    holds [0]. *)
Definition calculateCandleProperties (kline : Kline F) : CandleProperties :=
  let candleRange := High kline - Low kline in
  let bodySize := fabs (Close kline - Open kline) in
  let bodyPercent :=
    if candleRange >? flit 0 0 then (bodySize / candleRange) * flit 100 0 else flit 0 0 in
  let isBullish := Close kline >? Open kline in
  let isBearish := Close kline <? Open kline in
  let upperShadow := if isBullish then High kline - Close kline else High kline - Open kline in
  let lowerShadow := if isBullish then Open kline - Low kline else Close kline - Low kline in
  let safeBodySize := if bodySize =? flit 0 0 then flit 1 (-6) else bodySize in
  let upperShadowPercent := (upperShadow / safeBodySize) * flit 100 0 in
  let lowerShadowPercent := (lowerShadow / safeBodySize) * flit 100 0 in
  let upperShadowRangePercent :=
    if candleRange >? flit 0 0 then (upperShadow / candleRange) * flit 100 0 else flit 0 0 in
  let lowerShadowRangePercent :=
    if candleRange >? flit 0 0 then (lowerShadow / candleRange) * flit 100 0 else flit 0 0 in
  mkCandleProperties candleRange bodySize bodyPercent isBullish isBearish upperShadow
    lowerShadow upperShadowPercent lowerShadowPercent upperShadowRangePercent
    lowerShadowRangePercent.

(** The local variable [isUptrend] of [detectHammer] and
    [detectInvertedHammer]: the close lies above the close of five bars
    before. *)
Definition closedAboveFiveAgo (kline : Kline F) (klines : list (Kline F)) : bool :=
  if (6 <=? length klines)%nat then
    match klines !! (length klines - 6)%nat with
    | Some fiveAgo => Close kline >? Close fiveAgo
    | None => false
    end
  else false.

(** [func detectHammer] *)
Definition detectHammer (kline : Kline F) (props : CandleProperties) (klines : list (Kline F))
    : PatternResult :=
  let conditions :=
    (BodyPercent props <? flit 30 0) && (LowerShadowPercent props >? flit 200 0)
    && (UpperShadowPercent props <? flit 20 0)
    && (LowerShadowRangePercent props >? flit 60 0) in
  if negb conditions then emptyPatternResult
  else if closedAboveFiveAgo kline klines then mkPatternResult "Hanging Man" false (flit 7 (-1))
  else mkPatternResult "Hammer" true (flit 7 (-1)).

(** [func detectInvertedHammer] *)
Definition detectInvertedHammer (kline : Kline F) (props : CandleProperties)
    (klines : list (Kline F)) : PatternResult :=
  let conditions :=
    (BodyPercent props <? flit 30 0) && (UpperShadowPercent props >? flit 200 0)
    && (LowerShadowPercent props <? flit 20 0)
    && (UpperShadowRangePercent props >? flit 60 0) in
  if negb conditions then emptyPatternResult
  else if closedAboveFiveAgo kline klines
  then mkPatternResult "Shooting Star" false (flit 7 (-1))
  else mkPatternResult "Inverted Hammer" true (flit 7 (-1)).

(** [func detectDragonflyDoji] *)
Definition detectDragonflyDoji (props : CandleProperties) (dojiBodyPercent : F)
    : PatternResult :=
  let conditions :=
    (BodyPercent props <=? dojiBodyPercent) && (LowerShadowRangePercent props >? flit 60 0)
    && (UpperShadowRangePercent props <? flit 10 0) in
  if negb conditions then emptyPatternResult else mkPatternResult "Dragonfly Doji" true (flit 75 (-2)).

(** [func detectGravestoneDoji] *)
Definition detectGravestoneDoji (props : CandleProperties) (dojiBodyPercent : F)
    : PatternResult :=
  let conditions :=
    (BodyPercent props <=? dojiBodyPercent) && (UpperShadowRangePercent props >? flit 60 0)
    && (LowerShadowRangePercent props <? flit 10 0) in
  if negb conditions then emptyPatternResult else mkPatternResult "Gravestone Doji" false (flit 75 (-2)).

(** [func detectDoji] *)
Definition detectDoji (props : CandleProperties) (dojiBodyPercent : F) : PatternResult :=
  if BodyPercent props >? dojiBodyPercent then emptyPatternResult
  else mkPatternResult "Doji" false (flit 6 (-1)).

(** [func detectMarubozu] *)
Definition detectMarubozu (props : CandleProperties) : PatternResult :=
  let conditions :=
    (BodyPercent props >? flit 90 0) && (UpperShadowRangePercent props <? flit 5 0)
    && (LowerShadowRangePercent props <? flit 5 0) in
  if negb conditions then emptyPatternResult
  else mkPatternResult "Marubozu" (IsBullish props) (flit 8 (-1)).

(** [func detectSpinningTop] *)
Definition detectSpinningTop (props : CandleProperties) : PatternResult :=
  let conditions :=
    (BodyPercent props <? flit 25 0) && (UpperShadowRangePercent props >? flit 25 0)
    && (LowerShadowRangePercent props >? flit 25 0) in
  if negb conditions then emptyPatternResult else mkPatternResult "Spinning Top" false (flit 6 (-1)).

(** [func detectBullishEngulfing] *)
Definition detectBullishEngulfing (current previous : Kline F)
    (currentProps previousProps : CandleProperties) : PatternResult :=
  let conditions :=
    IsBullish currentProps && IsBearish previousProps && (Open current <? Close previous)
    && (Close current >? Open previous) && (BodyPercent currentProps >? flit 50 0) in
  if negb conditions then emptyPatternResult else mkPatternResult "Bullish Engulfing" true (flit 8 (-1)).

(** [func detectBearishEngulfing] *)
Definition detectBearishEngulfing (current previous : Kline F)
    (currentProps previousProps : CandleProperties) : PatternResult :=
  let conditions :=
    IsBearish currentProps && IsBullish previousProps && (Open current >? Close previous)
    && (Close current <? Open previous) && (BodyPercent currentProps >? flit 50 0) in
  if negb conditions then emptyPatternResult
  else mkPatternResult "Bearish Engulfing" false (flit 8 (-1)).

(** [func detectBullishHarami] *)
Definition detectBullishHarami (current previous : Kline F)
    (currentProps previousProps : CandleProperties) : PatternResult :=
  let conditions :=
    IsBullish currentProps && IsBearish previousProps
    && (BodySize previousProps >? BodySize currentProps) && (Open current >? Close previous)
    && (Close current <? Open previous) in
  if negb conditions then emptyPatternResult else mkPatternResult "Bullish Harami" true (flit 7 (-1)).

(** [func detectBearishHarami] *)
Definition detectBearishHarami (current previous : Kline F)
    (currentProps previousProps : CandleProperties) : PatternResult :=
  let conditions :=
    IsBearish currentProps && IsBullish previousProps
    && (BodySize previousProps >? BodySize currentProps) && (Open current <? Close previous)
    && (Close current >? Open previous) in
  if negb conditions then emptyPatternResult else mkPatternResult "Bearish Harami" false (flit 7 (-1)).

(** The trend tests of the tweezers: the close of the previous bar
    against the close of three bars before the last. *)
Definition previousClosedAboveThreeAgo (previous : Kline F) (klines : list (Kline F)) : bool :=
  if (4 <=? length klines)%nat then
    match klines !! (length klines - 4)%nat with
    | Some threeAgo => Close previous >? Close threeAgo
    | None => false
    end
  else false.

Definition previousClosedBelowThreeAgo (previous : Kline F) (klines : list (Kline F)) : bool :=
  if (4 <=? length klines)%nat then
    match klines !! (length klines - 4)%nat with
    | Some threeAgo => Close previous <? Close threeAgo
    | None => false
    end
  else false.

(** [func detectTweezerTop] *)
Definition detectTweezerTop (current previous : Kline F) (klines : list (Kline F))
    : PatternResult :=
  let tolerance := High previous * flit 1 (-3) in
  let highsMatch := fabs (High current - High previous) <? tolerance in
  let isUptrend := previousClosedAboveThreeAgo previous klines in
  let previousBullish := Close previous >? Open previous in
  let currentBearish := Close current <? Open current in
  let conditions := previousBullish && currentBearish && highsMatch && isUptrend in
  if negb conditions then emptyPatternResult else mkPatternResult "Tweezer Top" false (flit 75 (-2)).

(** [func detectTweezerBottom] *)
Definition detectTweezerBottom (current previous : Kline F) (klines : list (Kline F))
    : PatternResult :=
  let tolerance := Low previous * flit 1 (-3) in
  let lowsMatch := fabs (Low current - Low previous) <? tolerance in
  let isDowntrend := previousClosedBelowThreeAgo previous klines in
  let conditions :=
    (Close previous <? Open previous) && (Close current >? Open current) && lowsMatch
    && isDowntrend in
  if negb conditions then emptyPatternResult else mkPatternResult "Tweezer Bottom" true (flit 75 (-2)).

(** [func detectMorningStar] *)
Definition detectMorningStar (current previous previous2 : Kline F)
    (currentProps previousProps previous2Props : CandleProperties) : PatternResult :=
  let conditions :=
    IsBearish previous2Props && (BodyPercent previousProps <? flit 30 0)
    && IsBullish currentProps
    && (Close current >? Open previous2 - BodySize previous2Props / flit 2 0) in
  let isDowntrend := Close previous2 <? Open previous2 in
  if negb conditions || negb isDowntrend then emptyPatternResult
  else mkPatternResult "Morning Star" true (flit 85 (-2)).

(** [func detectEveningStar] *)
Definition detectEveningStar (current previous previous2 : Kline F)
    (currentProps previousProps previous2Props : CandleProperties) : PatternResult :=
  let conditions :=
    IsBullish previous2Props && (BodyPercent previousProps <? flit 30 0)
    && IsBearish currentProps
    && (Close current <? Open previous2 + BodySize previous2Props / flit 2 0) in
  let isUptrend := Close previous2 >? Open previous2 in
  if negb conditions || negb isUptrend then emptyPatternResult
  else mkPatternResult "Evening Star" false (flit 85 (-2)).

(** [func detectThreeWhiteSoldiers] *)
Definition detectThreeWhiteSoldiers (current previous previous2 : Kline F)
    (currentProps previousProps previous2Props : CandleProperties) : PatternResult :=
  let conditions :=
    IsBullish currentProps && IsBullish previousProps && IsBullish previous2Props
    && (Close current >? Close previous) && (Close previous >? Close previous2)
    && (BodyPercent currentProps >? flit 50 0) && (BodyPercent previousProps >? flit 50 0)
    && (BodyPercent previous2Props >? flit 50 0) in
  if negb conditions then emptyPatternResult
  else mkPatternResult "Three White Soldiers" true (flit 9 (-1)).

(** [func detectThreeBlackCrows] *)
Definition detectThreeBlackCrows (current previous previous2 : Kline F)
    (currentProps previousProps previous2Props : CandleProperties) : PatternResult :=
  let conditions :=
    IsBearish currentProps && IsBearish previousProps && IsBearish previous2Props
    && (Close current <? Close previous) && (Close previous <? Close previous2)
    && (BodyPercent currentProps >? flit 50 0) && (BodyPercent previousProps >? flit 50 0)
    && (BodyPercent previous2Props >? flit 50 0) in
  if negb conditions then emptyPatternResult
  else mkPatternResult "Three Black Crows" false (flit 9 (-1)).

(** [func detectAbandonedBabyBullish] *)
Definition detectAbandonedBabyBullish (current previous previous2 : Kline F)
    (currentProps previousProps previous2Props : CandleProperties) : PatternResult :=
  let isDoji := BodyPercent previousProps <? flit 5 0 in
  let hasGapDown := Low previous >? Close previous2 in
  let hasGapUp := High previous <? Close current in
  let conditions :=
    IsBearish previous2Props && isDoji && hasGapDown && hasGapUp && IsBullish currentProps in
  if negb conditions then emptyPatternResult
  else mkPatternResult "Abandoned Baby Bullish" true (flit 85 (-2)).

(** [func detectAbandonedBabyBearish] *)
Definition detectAbandonedBabyBearish (current previous previous2 : Kline F)
    (currentProps previousProps previous2Props : CandleProperties) : PatternResult :=
  let isDoji := BodyPercent previousProps <? flit 5 0 in
  let hasGapUp := High previous <? Close previous2 in
  let hasGapDown := Low previous >? Close current in
  let conditions :=
    IsBullish previous2Props && isDoji && hasGapUp && hasGapDown && IsBearish currentProps in
  if negb conditions then emptyPatternResult
  else mkPatternResult "Abandoned Baby Bearish" false (flit 85 (-2)).

(** [if r := ...; r.Pattern != "" { results = append(results, r) }] *)
Definition appendDetected (results : list PatternResult) (r : PatternResult)
    : list PatternResult :=
  if negb (Pattern r =? "")%string then results ++ [r] else results.

(** The plain doji is appended unless the bar is one of the two special
    dojis. *)
Definition appendDoji (results : list PatternResult) (currentProps : CandleProperties)
    (dojiBodyPercent : F) : list PatternResult :=
  let doji := detectDoji currentProps dojiBodyPercent in
  if negb (Pattern doji =? "")%string then
    let isDragonfly :=
      negb (Pattern (detectDragonflyDoji currentProps dojiBodyPercent) =? "")%string in
    let isGravestone :=
      negb (Pattern (detectGravestoneDoji currentProps dojiBodyPercent) =? "")%string in
    if negb isDragonfly && negb isGravestone then results ++ [doji] else results
  else results.

(** [DetectCandlestickPatterns] on the last three bars. *)
Definition detectCandlestickPatternsOn (current previous previous2 : Kline F)
    (klines : list (Kline F)) : list PatternResult :=
  let results := [] in
  let dojiBodyPercent := flit 5 0 in
  let currentProps := calculateCandleProperties current in
  let previousProps := calculateCandleProperties previous in
  let previous2Props := calculateCandleProperties previous2 in
  let results := appendDetected results (detectHammer current currentProps klines) in
  let results := appendDetected results (detectInvertedHammer current currentProps klines) in
  let results := appendDetected results (detectDragonflyDoji currentProps dojiBodyPercent) in
  let results := appendDetected results (detectGravestoneDoji currentProps dojiBodyPercent) in
  let results := appendDoji results currentProps dojiBodyPercent in
  let results := appendDetected results (detectMarubozu currentProps) in
  let results := appendDetected results (detectSpinningTop currentProps) in
  let results :=
    appendDetected results
      (detectBullishEngulfing current previous currentProps previousProps) in
  let results :=
    appendDetected results
      (detectBearishEngulfing current previous currentProps previousProps) in
  let results :=
    appendDetected results (detectBullishHarami current previous currentProps previousProps) in
  let results :=
    appendDetected results (detectBearishHarami current previous currentProps previousProps) in
  let results := appendDetected results (detectTweezerTop current previous klines) in
  let results := appendDetected results (detectTweezerBottom current previous klines) in
  if (3 <=? length klines)%nat then
    let results :=
      appendDetected results
        (detectMorningStar current previous previous2 currentProps previousProps
           previous2Props) in
    let results :=
      appendDetected results
        (detectEveningStar current previous previous2 currentProps previousProps
           previous2Props) in
    let results :=
      appendDetected results
        (detectThreeWhiteSoldiers current previous previous2 currentProps previousProps
           previous2Props) in
    let results :=
      appendDetected results
        (detectThreeBlackCrows current previous previous2 currentProps previousProps
           previous2Props) in
    let results :=
      appendDetected results
        (detectAbandonedBabyBullish current previous previous2 currentProps previousProps
           previous2Props) in
    appendDetected results
      (detectAbandonedBabyBearish current previous previous2 currentProps previousProps
         previous2Props)
  else results.

(** [func DetectCandlestickPatterns]: [current], [previous] and
    [previous2] are the last three bars. *)
Definition DetectCandlestickPatterns (klines : list (Kline F)) : list PatternResult :=
  if (length klines <? 3)%nat then []
  else
    match klines !! (length klines - 1)%nat, klines !! (length klines - 2)%nat,
          klines !! (length klines - 3)%nat with
    | Some current, Some previous, Some previous2 =>
        detectCandlestickPatternsOn current previous previous2 klines
    | _, _, _ => []
    end.

End Patterns.

Arguments CandleProperties F : clear implicits.
Arguments PatternResult F : clear implicits.

(** The names of the patterns, in the order in which
    [DetectCandlestickPatterns] looks for them. *)
Definition patternNames : list string :=
  ["Hanging Man"; "Hammer"; "Shooting Star"; "Inverted Hammer"; "Dragonfly Doji";
   "Gravestone Doji"; "Doji"; "Marubozu"; "Spinning Top"; "Bullish Engulfing";
   "Bearish Engulfing"; "Bullish Harami"; "Bearish Harami"; "Tweezer Top"; "Tweezer Bottom";
   "Morning Star"; "Evening Star"; "Three White Soldiers"; "Three Black Crows";
   "Abandoned Baby Bullish"; "Abandoned Baby Bearish"].

(** The confidences the detectors give. *)
Definition patternConfidences {F : Type} `{Float64 F} : list F :=
  [flit 6 (-1); flit 7 (-1); flit 75 (-2); flit 8 (-1); flit 85 (-2); flit 9 (-1)].

(** The patterns that compare the last bar with the bars before it. *)
Definition multiCandleNames : list string :=
  ["Bullish Engulfing"; "Bearish Engulfing"; "Bullish Harami"; "Bearish Harami";
   "Tweezer Top"; "Tweezer Bottom"; "Morning Star"; "Evening Star"; "Three White Soldiers";
   "Three Black Crows"; "Abandoned Baby Bullish"; "Abandoned Baby Bearish"].

(** Pairs of single-bar shapes that exclude each other. *)
Definition exclusiveShapes : list (string * string) :=
  [("Dragonfly Doji", "Gravestone Doji"); ("Doji", "Dragonfly Doji");
   ("Doji", "Gravestone Doji"); ("Marubozu", "Hanging Man"); ("Marubozu", "Hammer");
   ("Marubozu", "Shooting Star"); ("Marubozu", "Inverted Hammer");
   ("Marubozu", "Dragonfly Doji"); ("Marubozu", "Gravestone Doji"); ("Marubozu", "Doji");
   ("Marubozu", "Spinning Top"); ("Hanging Man", "Shooting Star");
   ("Hanging Man", "Inverted Hammer"); ("Hammer", "Shooting Star");
   ("Hammer", "Inverted Hammer"); ("Spinning Top", "Dragonfly Doji");
   ("Spinning Top", "Gravestone Doji")].

(** Bars of the pattern scenarios: a falling bar, and a rising bar that
    engulfs the body of the falling bar before it. *)
Definition fallingBar {F : Type} `{Float64 F} (open : Z) : Kline F :=
  mkKline 0 (flit open 0) (flit (open + 1) 0) (flit (open - 11) 0) (flit (open - 10) 0)
    (flit 10 0) 179999.

Definition engulfingRise {F : Type} `{Float64 F} : Kline F :=
  mkKline 360000 (flit 99 0) (flit 116 0) (flit 98 0) (flit 115 0) (flit 10 0) 539999.

(** ** Package indicator: DetectLarryWilliams *)

(** [type LarryWilliamsSignal string] with its three constants. *)
Inductive LarryWilliamsSignal := LarryWilliamsLONG | LarryWilliamsSHORT | LarryWilliamsWAIT.

Section LarryWilliams.
Context {F : Type} `{Float64 F}.
Local Open Scope go_scope.

(** The lines of [Reasoning] of [DetectLarryWilliams], with the values
    they are formatted from. *)
Inductive larryWilliamsReason :=
| LWInsufficientData
| LWNoOutsideBar
| LWBodyRatioBelowMinimum (bodyRatio minRatio : F)
| LWPatternDetected
| LWCloseBelowPreviousLow (close previousLow : F)
| LWCloseAbovePreviousHigh (close previousHigh : F)
| LWBodyRatioIs (bodyRatio : F)
| LWContrarian
| LWNoClearDirection.

(** [type LarryWilliamsResult struct] *)
Record LarryWilliamsResult := mkLarryWilliamsResult {
  LWSignalType : LarryWilliamsSignal;
  LWConfidence : F;
  LWStrength : F;
  LWBodyRatio : F;
  LWReasoning : list larryWilliamsReason
}.

(** [DetectLarryWilliams] on the last two bars; a field left out of a
    struct literal holds [0]. *)
Definition detectLarryWilliamsOn (current previous : Kline F) : LarryWilliamsResult :=
  let isOutsideBar := (High current >? High previous) && (Low current <? Low previous) in
  if negb isOutsideBar then
    mkLarryWilliamsResult LarryWilliamsWAIT (flit 0 0) (flit 0 0) (flit 0 0) [LWNoOutsideBar]
  else
    let currentBodySize := fabs (Close current - Open current) in
    let previousBodySize := fabs (Close previous - Open previous) in
    let bodyRatio :=
      if previousBodySize >? flit 0 0 then currentBodySize / previousBodySize
      else flit 0 0 in
    let minRatio := flit 2 0 in
    if bodyRatio <? minRatio then
      mkLarryWilliamsResult LarryWilliamsWAIT (flit 0 0) (flit 0 0) bodyRatio
        [LWBodyRatioBelowMinimum bodyRatio minRatio]
    else if Close current <? Low previous then
      mkLarryWilliamsResult LarryWilliamsLONG (flit 75 (-2))
        (fmin (bodyRatio / flit 3 0) (flit 1 0)) bodyRatio
        [LWPatternDetected; LWCloseBelowPreviousLow (Close current) (Low previous);
         LWBodyRatioIs bodyRatio; LWContrarian]
    else if Close current >? High previous then
      mkLarryWilliamsResult LarryWilliamsSHORT (flit 75 (-2))
        (fmin (bodyRatio / flit 3 0) (flit 1 0)) bodyRatio
        [LWPatternDetected; LWCloseAbovePreviousHigh (Close current) (High previous);
         LWBodyRatioIs bodyRatio; LWContrarian]
    else
      mkLarryWilliamsResult LarryWilliamsWAIT (flit 0 0) (flit 0 0) bodyRatio
        [LWNoClearDirection].

(** [func DetectLarryWilliams] *)
Definition DetectLarryWilliams (klines : list (Kline F)) (atr14 : F) : LarryWilliamsResult :=
  if (length klines <? 2)%nat then
    mkLarryWilliamsResult LarryWilliamsWAIT (flit 0 0) (flit 0 0) (flit 0 0)
      [LWInsufficientData]
  else
    match klines !! (length klines - 1)%nat, klines !! (length klines - 2)%nat with
    | Some current, Some previous => detectLarryWilliamsOn current previous
    | _, _ =>
        mkLarryWilliamsResult LarryWilliamsWAIT (flit 0 0) (flit 0 0) (flit 0 0)
          [LWInsufficientData]
    end.

End LarryWilliams.

Arguments larryWilliamsReason F : clear implicits.
Arguments LarryWilliamsResult F : clear implicits.

(** ** Package indicator: FormatAnalysis and AnalyzeWithKlines *)

(** The strings of the two signal types. *)
Definition outsideDaySignalString (signal : OutsideDaySignal) : string :=
  match signal with
  | OutsideDayLONG => "LONG"
  | OutsideDaySHORT => "SHORT"
  | OutsideDayWAIT => "WAIT"
  end.

Definition larryWilliamsSignalString (signal : LarryWilliamsSignal) : string :=
  match signal with
  | LarryWilliamsLONG => "LONG"
  | LarryWilliamsSHORT => "SHORT"
  | LarryWilliamsWAIT => "WAIT"
  end.

(** [strings.Join(parts, sep)] *)
Fixpoint strings_Join (parts : list string) (sep : string) : string :=
  match parts with
  | [] => EmptyString
  | [part] => part
  | part :: rest => part +:+ sep +:+ strings_Join rest sep
  end.

Section Analysis.
Context {F : Type} `{Float64 F}.
Local Open Scope go_scope.

(** The verb [%.Nf] of package fmt, which is not part of the program: the
    text of a number with [N] digits after the point. *)
Variable formatFloat : nat -> F -> string.

(** The texts of the lines of [Reasoning]. *)
Definition reasonText (r : reason F) : string :=
  match r with
  | InsufficientData => "Insufficient data for Outside Day analysis"
  | NoPattern => "No Outside Day pattern detected"
  | BodyRatioBelowMinimum bodyRatio minRatio =>
      "Body ratio " +:+ formatFloat 2 bodyRatio +:+ " below minimum "
      +:+ formatFloat 2 minRatio
  | PatternDetected => "Outside Day pattern detected"
  | CloseBelowPreviousLow close previousLow =>
      "Close (" +:+ formatFloat 2 close +:+ ") < Previous Low ("
      +:+ formatFloat 2 previousLow +:+ ") → LONG signal"
  | CloseAbovePreviousHigh close previousHigh =>
      "Close (" +:+ formatFloat 2 close +:+ ") > Previous High ("
      +:+ formatFloat 2 previousHigh +:+ ") → SHORT signal"
  | BodyRatioIs bodyRatio => "Body ratio: " +:+ formatFloat 2 bodyRatio
  | NoClearDirection => "Outside Day pattern detected but no clear signal direction"
  end.

Definition larryWilliamsReasonText (r : larryWilliamsReason F) : string :=
  match r with
  | LWInsufficientData => "Insufficient data for Larry Williams analysis"
  | LWNoOutsideBar => "No outside bar pattern detected"
  | LWBodyRatioBelowMinimum bodyRatio minRatio =>
      "Body ratio " +:+ formatFloat 2 bodyRatio +:+ " below minimum "
      +:+ formatFloat 2 minRatio
  | LWPatternDetected => "Larry Williams Outside Bar pattern detected"
  | LWCloseBelowPreviousLow close previousLow =>
      "Close (" +:+ formatFloat 2 close +:+ ") < Previous Low ("
      +:+ formatFloat 2 previousLow +:+ ") → LONG signal (contrarian)"
  | LWCloseAbovePreviousHigh close previousHigh =>
      "Close (" +:+ formatFloat 2 close +:+ ") > Previous High ("
      +:+ formatFloat 2 previousHigh +:+ ") → SHORT signal (contrarian)"
  | LWBodyRatioIs bodyRatio => "Body ratio: " +:+ formatFloat 2 bodyRatio
  | LWContrarian => "Contrarian logic: negative signal → positive move expected"
  | LWNoClearDirection => "Outside bar pattern detected but no clear signal direction"
  end.

(** [type SignalSummary struct].  A summary is declared without a value
    and its fields are assigned one by one; a field of the two results
    that was not assigned is [None] here, and stands for the struct whose
    signal type is the empty string, whose numbers are [0] and whose
    reasoning is the [nil] slice. *)
Record SignalSummary := mkSignalSummary {
  CandlestickPatterns : list (PatternResult F);
  OutsideDay : option (OutsideDayResult F);
  LarryWilliams : option (LarryWilliamsResult F)
}.

(** The fields of [summary.OutsideDay] and [summary.LarryWilliams]. *)
Definition outsideDaySignalType (summary : SignalSummary) : string :=
  match OutsideDay summary with
  | Some result => outsideDaySignalString (SignalType result)
  | None => ""
  end.

Definition outsideDayConfidence (summary : SignalSummary) : F :=
  match OutsideDay summary with Some result => ResultConfidence result | None => flit 0 0 end.

Definition outsideDayStrength (summary : SignalSummary) : F :=
  match OutsideDay summary with Some result => Strength result | None => flit 0 0 end.

Definition outsideDayReasoning (summary : SignalSummary) : list string :=
  match OutsideDay summary with
  | Some result => map reasonText (ResultReasoning result)
  | None => []
  end.

Definition larryWilliamsSignalType (summary : SignalSummary) : string :=
  match LarryWilliams summary with
  | Some result => larryWilliamsSignalString (LWSignalType result)
  | None => ""
  end.

Definition larryWilliamsConfidence (summary : SignalSummary) : F :=
  match LarryWilliams summary with Some result => LWConfidence result | None => flit 0 0 end.

Definition larryWilliamsStrength (summary : SignalSummary) : F :=
  match LarryWilliams summary with Some result => LWStrength result | None => flit 0 0 end.

Definition larryWilliamsBodyRatio (summary : SignalSummary) : F :=
  match LarryWilliams summary with Some result => LWBodyRatio result | None => flit 0 0 end.

Definition larryWilliamsReasoning (summary : SignalSummary) : list string :=
  match LarryWilliams summary with
  | Some result => map larryWilliamsReasonText (LWReasoning result)
  | None => []
  end.

(** What a pattern adds to the counts of the two loops over the patterns:
    a pattern that is not bullish counts as bearish unless it is a Doji or
    a Spinning Top. *)
Definition countsBullish (pattern : PatternResult F) : bool := PatternIsBullish pattern.

Definition countsBearish (pattern : PatternResult F) : bool :=
  negb (PatternIsBullish pattern) && negb (Pattern pattern =? "Doji")%string
  && negb (Pattern pattern =? "Spinning Top")%string.

Definition countPatterns (test : PatternResult F -> bool) (patterns : list (PatternResult F)) : Z :=
  Z.of_nat (length (List.filter test patterns)).

(** The line of one pattern. *)
Definition patternLine (pattern : PatternResult F) : string :=
  let direction := if PatternIsBullish pattern then "BULLISH" else "BEARISH" in
  "- " +:+ Pattern pattern +:+ " (" +:+ direction +:+ ", Confidence: "
  +:+ formatFloat 1 (PatternConfidence pattern * flit 100 0) +:+ "%)".

(** The local variables [bullishSignals] and [bearishSignals] of the last
    section. *)
Definition bullishSignals (summary : SignalSummary) : Z :=
  countPatterns countsBullish (CandlestickPatterns summary)
  + (if (outsideDaySignalType summary =? "LONG")%string then 1 else 0)
  + (if (larryWilliamsSignalType summary =? "LONG")%string then 1 else 0).

Definition bearishSignals (summary : SignalSummary) : Z :=
  countPatterns countsBearish (CandlestickPatterns summary)
  + (if (outsideDaySignalType summary =? "LONG")%string then 0
     else if (outsideDaySignalType summary =? "SHORT")%string then 1 else 0)
  + (if (larryWilliamsSignalType summary =? "LONG")%string then 0
     else if (larryWilliamsSignalType summary =? "SHORT")%string then 1 else 0).

(** The line of the overall bias. *)
Definition biasLine (summary : SignalSummary) : string :=
  let bullishSignals := bullishSignals summary in
  let bearishSignals := bearishSignals summary in
  if (bullishSignals >? bearishSignals)%Z then
    "Overall Bias: BULLISH (" +:+ decimal bullishSignals +:+ " bullish vs "
    +:+ decimal bearishSignals +:+ " bearish signals)"
  else if (bearishSignals >? bullishSignals)%Z then
    "Overall Bias: BEARISH (" +:+ decimal bearishSignals +:+ " bearish vs "
    +:+ decimal bullishSignals +:+ " bullish signals)"
  else
    "Overall Bias: NEUTRAL (" +:+ decimal bullishSignals +:+ " bullish, "
    +:+ decimal bearishSignals +:+ " bearish)".

(** The text [FormatAnalysis] returns when it has nothing to report. *)
Definition noSignificantPatterns : string :=
  "No significant patterns detected in recent price action.".

(** [func FormatAnalysis] *)
Definition FormatAnalysis (summary : SignalSummary) : string :=
  let parts := [] in
  let parts :=
    if (0 <? length (CandlestickPatterns summary))%nat then
      parts ++ ["=== CANDLESTICK PATTERNS ==="]
      ++ map patternLine (CandlestickPatterns summary)
      ++ ["Summary: " +:+ decimal (countPatterns countsBullish (CandlestickPatterns summary))
          +:+ " bullish patterns, "
          +:+ decimal (countPatterns countsBearish (CandlestickPatterns summary))
          +:+ " bearish patterns detected"; ""]
    else parts in
  let parts :=
    if negb (outsideDaySignalType summary =? "WAIT")%string then
      parts
      ++ ["=== OUTSIDE DAY PATTERN ==="; "Signal: " +:+ outsideDaySignalType summary;
          "Confidence: " +:+ formatFloat 1 (outsideDayConfidence summary * flit 100 0)
          +:+ "%, Strength: " +:+ formatFloat 1 (outsideDayStrength summary * flit 100 0)
          +:+ "%"]
      ++ map (fun reason => "  - " +:+ reason) (outsideDayReasoning summary) ++ [""]
    else parts in
  let parts :=
    if negb (larryWilliamsSignalType summary =? "WAIT")%string then
      parts
      ++ ["=== LARRY WILLIAMS OUTSIDE BAR ==="; "Signal: " +:+ larryWilliamsSignalType summary;
          "Confidence: " +:+ formatFloat 1 (larryWilliamsConfidence summary * flit 100 0)
          +:+ "%, Strength: " +:+ formatFloat 1 (larryWilliamsStrength summary * flit 100 0)
          +:+ "%, Body Ratio: " +:+ formatFloat 2 (larryWilliamsBodyRatio summary)]
      ++ map (fun reason => "  - " +:+ reason) (larryWilliamsReasoning summary) ++ [""]
    else parts in
  let parts :=
    if (0 <? length (CandlestickPatterns summary))%nat
       || negb (outsideDaySignalType summary =? "WAIT")%string
       || negb (larryWilliamsSignalType summary =? "WAIT")%string
    then parts ++ ["=== SIGNAL INTERPRETATION ==="; biasLine summary]
    else parts in
  if (length parts =? 0)%nat then noSignificantPatterns
  else strings_Join parts (String "010" EmptyString).

(** The local variable [summary] of [AnalyzeWithKlines] before it is
    formatted. *)
Definition analysisSummary (klines3m klines4h : list (Kline F)) (atr14 : F) : SignalSummary :=
  let summary := mkSignalSummary [] None None in
  let summary :=
    if (3 <=? length klines3m)%nat
    then mkSignalSummary (DetectCandlestickPatterns klines3m) (OutsideDay summary)
           (LarryWilliams summary)
    else summary in
  let summary :=
    if (2 <=? length klines4h)%nat
    then mkSignalSummary (CandlestickPatterns summary) (Some (DetectOutsideDay klines4h))
           (LarryWilliams summary)
    else summary in
  if (2 <=? length klines4h)%nat
  then mkSignalSummary (CandlestickPatterns summary) (OutsideDay summary)
         (Some (DetectLarryWilliams klines4h atr14))
  else summary.

(** [func AnalyzeWithKlines] *)
Definition AnalyzeWithKlines (symbol : string) (klines3m klines4h : list (Kline F)) (atr14 : F)
    : string :=
  FormatAnalysis (analysisSummary klines3m klines4h atr14).

End Analysis.

Arguments SignalSummary F : clear implicits.

(** A formatter for the scenarios: it prints no digit. *)
Definition blankFormat {F : Type} (precision : nat) (x : F) : string := "#".

(** ** Package market: the registry of providers

    The registry is the pair of the package variables [globalRegistry] and
    [defaultProviderName]; each function takes the state it finds and
    returns the state it leaves.  The calls are taken one after the
    other, so the locks are not embedded. *)

(** The errors of the registry: [provider '%s' not found], and the error
    of [SetDefaultProviderName] that wraps it. *)
Inductive registryError :=
| ErrProviderNotFound (name : string)
| ErrCannotSetDefault (cause : registryError).

Section Registry.

(** The values of the interface [MarketDataProvider]. *)
Context {Provider : Type}.

Record registry := mkRegistry {
  providers : gmap string Provider;
  defaultProviderName : string
}.

(** The package variables before any call. *)
Definition initialRegistry : registry := mkRegistry ∅ "binance".

(** [func RegisterProvider] *)
Definition RegisterProvider (name : string) (provider : Provider) (state : registry)
    : registry :=
  mkRegistry (<[name := provider]> (providers state)) (defaultProviderName state).

(** [func GetProvider] *)
Definition GetProvider (name : string) (state : registry) : Provider + registryError :=
  match providers state !! name with
  | Some provider => inl provider
  | None => inr (ErrProviderNotFound name)
  end.

(** [func ListProviders]: the names, in the order in which the map hands
    them out. *)
Definition ListProviders (state : registry) : list string :=
  map fst (map_to_list (providers state)).

(** [func SetDefaultProviderName]: the state it leaves and its error. *)
Definition SetDefaultProviderName (name : string) (state : registry)
    : registry * option registryError :=
  match GetProvider name state with
  | inr err => (state, Some (ErrCannotSetDefault err))
  | inl _ => (mkRegistry (providers state) name, None)
  end.

(** [func GetDefaultProvider] *)
Definition GetDefaultProvider (state : registry) : Provider + registryError :=
  GetProvider (defaultProviderName state) state.

(** The names [InitializeProviders] registers, in its order. *)
Definition builtinProviders : list string :=
  ["binance"; "gateio"; "okx"; "bybit"; "huobi"; "kucoin"; "bitfinex"; "coinbase";
   "binance_us"; "bitstamp"; "bitmex"; "deribit"; "hitbtc"; "bitget"; "mexc"; "crypto_com";
   "kraken"; "gemini"; "digifinex"; "whitebit"; "upbit"; "alpaca_crypto"].

(** [func InitializeProviders]; [newProvider name] is the value the
    constructor of the provider registered under [name] returns. *)
Definition InitializeProviders (newProvider : string -> Provider) (state : registry)
    : registry :=
  let state :=
    foldl (fun state name => RegisterProvider name (newProvider name) state) state
      builtinProviders in
  fst (SetDefaultProviderName "binance" state).

(** A call that changes the registry. *)
Inductive registryCall :=
| CallRegisterProvider (name : string) (provider : Provider)
| CallSetDefaultProviderName (name : string).

Definition runCall (state : registry) (call : registryCall) : registry :=
  match call with
  | CallRegisterProvider name provider => RegisterProvider name provider state
  | CallSetDefaultProviderName name => fst (SetDefaultProviderName name state)
  end.

End Registry.

Arguments registry Provider : clear implicits.
Arguments registryCall Provider : clear implicits.

(** ** Package indicator: Analyze *)

Section Analyze.
Context {F : Type} `{Float64 F} {Provider : Type}.

(** [fmt]'s verb for numbers, as for [FormatAnalysis]. *)
Variable formatFloat : nat -> F -> string.

(** The method [GetKlines] of a provider: the bars it returns for a
    symbol, an interval and a limit; [Analyze] drops its error, and the
    slice is [nil] then. *)
Variable GetKlines : Provider -> string -> string -> Z -> list (Kline F).

(** [marketData.LongerTermContext.ATR14], a field of [market.Data] that is
    not among the sources. *)
Variable atr14Of : Data F -> F.

(** [func Analyze]; [marketData] is [None] for the [nil] pointer, and
    [state] is the registry of providers as the call finds it. *)
Definition Analyze (state : registry Provider) (marketData : option (Data F)) : string :=
  let '(klines3m, klines4h) :=
    match GetDefaultProvider state, marketData with
    | inl provider, Some data =>
        (GetKlines provider (DataSymbol data) "3m" 40,
         GetKlines provider (DataSymbol data) "4h" 60)
    | _, _ => ([], [])
    end in
  let atr14 := match marketData with Some data => atr14Of data | None => flit 0 0 end in
  FormatAnalysis formatFloat (analysisSummary klines3m klines4h atr14).

End Analyze.

(** A provider without bars, and a constant ATR. *)
Definition noBars {F : Type} (provider : unit) (symbol interval : string) (limit : Z)
    : list (Kline F) := [].

Definition noATR {F : Type} `{Float64 F} (data : Data F) : F := flit 0 0.

(** ** Texts of the repair scenarios *)

(** The operators [fixArithmeticExpressions] looks for in an expression. *)
Definition operatorBytes : string := "*+-/()".

(** An array whose numbers are plain. *)
Definition plainArray : string :=
  "[{" +:+ member "symbol" "BTCUSDT" +:+ "," +:+ member "action" "open_long" +:+ ","
  +:+ bareMember "leverage" "5" +:+ "," +:+ bareMember "stop_loss" "100000.5" +:+ "}]".

(** The engulfing bar with an open that is not a number. *)
Definition nanOpenBar : Kline float :=
  mkKline 180000 PrimFloat.nan (flit 110 0) (flit 90 0) (flit 92 0) (flit 50 0) 359999.

(** The body ratio of that bar after the narrow bar, as [DetectOutsideDay]
    computes it. *)
Definition nanBodyRatio : float :=
  (fabs (Close nanOpenBar - Open nanOpenBar)
   / fabs (Close (F := float) narrowBar - Open narrowBar))%go.

(** The names of the fields [fixArithmeticExpressions] repairs. *)
Definition arithmeticFields : list string :=
  ["risk_usd"; "position_size_usd"; "stop_loss"; "take_profit"; "leverage"; "confidence"].

(** A member whose value is the expression of the expression scenario. *)
Definition expressionMember (name : string) : string :=
  "{" +:+ quoted name +:+ ": 150 * (0.62 - 0.61) * 5}".

(** A member whose value has its only operator before the first number. *)
Definition signedMember (name : string) : string :=
  "{" +:+ quoted name +:+ ": -150}".

(** A field that the pattern does not name, with an expression as its
    value. *)
Definition unlistedExpression : string :=
  "{" +:+ quoted "quantity" +:+ ": 150 * (0.62 - 0.61) * 5}".

(** * Theorems *)

(** ** validateDecision *)

Lemma validActions_open_long : validActions !! "open_long" = Some true.
Proof. reflexivity. Qed.

Lemma validActions_open_short : validActions !! "open_short" = Some true.
Proof. reflexivity. Qed.

Lemma isOpenAction_cases (a : string) :
  isOpenAction a = true -> a = "open_long" \/ a = "open_short".
Proof.
  unfold isOpenAction. intros Ha. apply orb_true_iff in Ha.
  destruct Ha as [Ha | Ha]; apply String.eqb_eq in Ha; auto.
Qed.

(** On an opening decision whose earlier checks pass, [validateDecision]
    is decided by the stops, the bracket and the ratio. *)
Lemma validateDecision_bounds {F : Type} `{Float64 F} (d : Decision F) (accountEquity : F)
    (btcEthLeverage altcoinLeverage : Z) (minPositionSizeUSD maxPositionSizeUSD : F) :
  isOpenAction (Action d) = true ->
  boundsSatisfied d accountEquity btcEthLeverage altcoinLeverage
    minPositionSizeUSD maxPositionSizeUSD = true ->
  validateDecision d accountEquity btcEthLeverage altcoinLeverage
    minPositionSizeUSD maxPositionSizeUSD
  = if ((StopLoss d <=? flit 0 0) || (TakeProfit d <=? flit 0 0))%go then Some ErrStopsNotPositive
    else match checkBracket d with
         | Some err => Some err
         | None =>
             if (riskRewardRatio d <? flit 3 0)%go
             then Some (ErrRiskRewardTooLow (riskRewardRatio d) (riskPercent d)
                          (rewardPercent d) (StopLoss d) (TakeProfit d))
             else None
         end.
Proof.
  intros Hopen Hb. unfold validateDecision, boundsSatisfied in *.
  assert (Hv : default false (validActions !! Action d) = true).
  { destruct (isOpenAction_cases _ Hopen) as [-> | ->]; reflexivity. }
  rewrite Hv, Hopen. cbn [negb].
  repeat (apply andb_true_iff in Hb; destruct Hb as [Hb ?]).
  repeat match goal with
         | Hn : negb _ = true |- _ => apply negb_true_iff in Hn; rewrite Hn
         end.
  destruct (checkMaxPositionSize d accountEquity maxPositionSizeUSD); [discriminate|].
  reflexivity.
Qed.

(** C1 (as the code has it): for [open_long] with the stop loss at 100000
    and the other bounds satisfied, the decision is accepted with the take
    profit at 100900 and it is accepted as well with the take profit at
    100600; in both cases the ratio computed in binary64 is 4. *)
Theorem rr_boundary_both_accepted (d : Decision float) (accountEquity : float)
    (btcEthLeverage altcoinLeverage : Z) (minPositionSizeUSD maxPositionSizeUSD : float) :
  Action d = "open_long" ->
  StopLoss d = flit 100000 0 ->
  TakeProfit d = flit 100900 0 \/ TakeProfit d = flit 100600 0 ->
  boundsSatisfied d accountEquity btcEthLeverage altcoinLeverage
    minPositionSizeUSD maxPositionSizeUSD = true ->
  validateDecision d accountEquity btcEthLeverage altcoinLeverage
    minPositionSizeUSD maxPositionSizeUSD = None
  /\ riskRewardRatio d = flit 4 0.
Proof.
  intros Ha Hsl Htp Hb.
  rewrite validateDecision_bounds by (rewrite ?Ha; auto).
  unfold checkBracket, riskRewardRatio, riskPercent, rewardPercent, entryPrice.
  rewrite Ha, Hsl.
  destruct Htp as [-> | ->]; vm_compute; split; reflexivity.
Qed.

Lemma rr_boundary_both_accepted_witness :
  validateDecision (F := float) (rrBoundaryDecision 100600) (flit 1000 0) 10 5 (flit 0 0)
    (flit 0 0) = None
  /\ riskRewardRatio (F := float) (rrBoundaryDecision 100600) = flit 4 0.
Proof.
  apply (rr_boundary_both_accepted (rrBoundaryDecision 100600)); [reflexivity | reflexivity | right; reflexivity | vm_compute; reflexivity].
Defined.

(** C1, counterexample: the decision with the take profit at 100600 is not
    rejected. *)
Lemma rr_boundary_100600_not_rejected :
  ~ (exists err : error float,
        validateDecision (F := float) (rrBoundaryDecision 100600) (flit 1000 0) 10 5
          (flit 0 0) (flit 0 0) = Some err).
Proof. intros [err Herr]. vm_compute in Herr. discriminate. Qed.

(** *** Rounding in binary64

    The operations of [PrimFloat] are specified by [SpecFloat]; what
    follows derives from that specification the usual model of a rounded
    operation: on positive normal numbers, when the exact result [v] lies
    in the normal range, the result computed is a normal number within
    [2^-53 * v] of [v]. *)

(** ** Rounding of binary64 *)

Lemma shr_1_located (N D : Z) (mrs : shr_record) :
  0 <= shr_m mrs -> located N D (shr_m mrs) (loc_of_shr_record mrs) ->
  0 <= shr_m (shr_1 mrs)
  /\ located N (2 * D) (shr_m (shr_1 mrs)) (loc_of_shr_record (shr_1 mrs)).
Proof.
  destruct mrs as [m r s]. unfold located. cbn [shr_m].
  intros Hm (HD & Hrange & Hloc).
  assert (Hcases :
    (r = false /\ s = false /\ N - m * D = 0)
    \/ (r = false /\ s = true /\ 0 < 2 * (N - m * D) < D)
    \/ (r = true /\ s = false /\ 2 * (N - m * D) = D)
    \/ (r = true /\ s = true /\ D < 2 * (N - m * D))).
  { destruct (Z.eqb_spec (N - m * D) 0) as [Hz|Hz].
    - destruct r, s; cbn in Hloc; try discriminate. left. auto.
    - destruct (Z.compare_spec (2 * (N - m * D)) D) as [Hc|Hc|Hc];
        destruct r, s; cbn in Hloc; try discriminate; [right; right; left|right; left|right; right; right]; repeat split; lia. }
  assert (Hshift : forall p : positive, Z.pos p~0 = 2 * Z.pos p /\ Z.pos p~1 = 2 * Z.pos p + 1)
    by (intros; split; lia).
  destruct m as [|p|p]; [| |lia]; [|destruct p as [p|p|]];
    destruct Hcases as [(-> & -> & H0)|[(-> & -> & H0)|[(-> & -> & H0)|(-> & -> & H0)]]];
    cbn [shr_1 shr_m loc_of_shr_record orb]; (split; [lia|]); (split; [lia|]);
    (split; [lia|]);
    match goal with
    | |- _ = (if ?a =? 0 then _ else loc_Inexact (?b ?= ?c)) =>
        destruct (Z.eqb_spec a 0); [first [reflexivity|exfalso; lia]|];
        destruct (Z.compare_spec b c); first [reflexivity|exfalso; lia]
    end.
Qed.

Lemma iter_pos_shr_1_located (p : positive) : forall (N D : Z) (mrs : shr_record),
  0 <= shr_m mrs -> located N D (shr_m mrs) (loc_of_shr_record mrs) ->
  0 <= shr_m (SpecFloat.iter_pos shr_1 p mrs)
  /\ located N (D * 2 ^ Z.pos p) (shr_m (SpecFloat.iter_pos shr_1 p mrs))
       (loc_of_shr_record (SpecFloat.iter_pos shr_1 p mrs)).
Proof.
  induction p as [p IH|p IH|]; intros N D mrs Hm Hloc; cbn [SpecFloat.iter_pos].
  - destruct (shr_1_located _ _ _ Hm Hloc) as [Hm1 Hloc1].
    destruct (IH _ _ _ Hm1 Hloc1) as [Hm2 Hloc2].
    destruct (IH _ _ _ Hm2 Hloc2) as [Hm3 Hloc3].
    split; [exact Hm3|].
    replace (D * 2 ^ Z.pos p~1) with (2 * D * 2 ^ Z.pos p * 2 ^ Z.pos p); [exact Hloc3|].
    replace (Z.pos p~1) with (Z.pos p + Z.pos p + 1) by lia.
    rewrite !Z.pow_add_r by lia. ring.
  - destruct (IH _ _ _ Hm Hloc) as [Hm2 Hloc2].
    destruct (IH _ _ _ Hm2 Hloc2) as [Hm3 Hloc3].
    split; [exact Hm3|].
    replace (D * 2 ^ Z.pos p~0) with (D * 2 ^ Z.pos p * 2 ^ Z.pos p); [exact Hloc3|].
    replace (Z.pos p~0) with (Z.pos p + Z.pos p) by lia.
    rewrite !Z.pow_add_r by lia. ring.
  - destruct (shr_1_located _ _ _ Hm Hloc) as [Hm1 Hloc1].
    split; [exact Hm1|]. replace (D * 2 ^ 1) with (2 * D) by lia. exact Hloc1.
Qed.

Lemma shr_located (N D : Z) (mrs : shr_record) (e n : Z) :
  0 <= n -> 0 <= shr_m mrs -> located N D (shr_m mrs) (loc_of_shr_record mrs) ->
  snd (shr mrs e n) = e + n
  /\ 0 <= shr_m (fst (shr mrs e n))
  /\ located N (D * 2 ^ n) (shr_m (fst (shr mrs e n))) (loc_of_shr_record (fst (shr mrs e n))).
Proof.
  intros Hn Hm Hloc. destruct n as [|p|p]; [| |lia]; cbn [shr fst snd].
  - split; [lia|]. split; [exact Hm|]. replace (D * 2 ^ 0) with D by lia. exact Hloc.
  - split; [reflexivity|]. apply iter_pos_shr_1_located; assumption.
Qed.

Lemma round_nearest_even_located (N D m : Z) (l : location) :
  located N D m l ->
  m <= round_nearest_even m l <= m + 1
  /\ - D <= 2 * (N - round_nearest_even m l * D) <= D.
Proof.
  intros (HD & Hrange & ->).
  destruct (Z.eqb_spec (N - m * D) 0) as [Hz|Hz]; cbn [round_nearest_even]; [lia|].
  destruct (Z.compare_spec (2 * (N - m * D)) D) as [Hc|Hc|Hc]; [destruct (Z.even m)| |]; lia.
Qed.

Lemma digits2_pos_size (p : positive) : digits2_pos p = Pos.size p.
Proof. induction p as [p IH|p IH|]; cbn; [rewrite IH|rewrite IH|]; reflexivity. Qed.

Lemma Zdigits2_bounds (m : Z) : 0 < m -> 2 ^ (Zdigits2 m - 1) <= m < 2 ^ Zdigits2 m.
Proof.
  destruct m as [|p|p]; [lia| |lia]. intros _. cbn [Zdigits2]. rewrite digits2_pos_size.
  pose proof (Pos.size_gt p) as Hgt. pose proof (Pos.size_le p) as Hle.
  assert (Hpow : Z.pos (2 ^ Pos.size p) = 2 ^ Z.pos (Pos.size p)) by apply Pos2Z.inj_pow.
  assert (Hsplit : 2 ^ Z.pos (Pos.size p) = 2 * 2 ^ (Z.pos (Pos.size p) - 1)).
  { rewrite <- Z.pow_succ_r by lia. f_equal. lia. }
  split; lia.
Qed.

Lemma Zdigits2_unique (m d : Z) : 2 ^ (d - 1) <= m < 2 ^ d -> 0 < d -> Zdigits2 m = d.
Proof.
  intros [Hlow Hhigh] Hd.
  assert (Hm : 0 < m) by (pose proof (Z.pow_pos_nonneg 2 (d - 1)); lia).
  destruct (Zdigits2_bounds m Hm) as [Hlow' Hhigh'].
  assert (Hpos : 0 < Zdigits2 m) by (destruct m; cbn; lia).
  destruct (Z.lt_trichotomy (Zdigits2 m) d) as [Hlt|[Heq|Hgt]]; [|exact Heq|].
  - pose proof (Z.pow_le_mono_r 2 (Zdigits2 m) (d - 1)). lia.
  - pose proof (Z.pow_le_mono_r 2 d (Zdigits2 m - 1)). lia.
Qed.

Lemma pow2_split (a b : Z) : 0 <= a -> 0 <= b -> 2 ^ (a + b) = 2 ^ a * 2 ^ b.
Proof. intros. apply Z.pow_add_r; assumption. Qed.

Lemma fexp_normal (e : Z) : -1021 <= e -> fexp prec emax e = e - 53.
Proof. intros He. unfold fexp, SpecFloat.emin, prec, emax. lia. Qed.

Lemma shr_record_of_loc_m (m : Z) (l : location) : shr_m (shr_record_of_loc m l) = m.
Proof. destruct l as [|[ | | ]]; reflexivity. Qed.

Lemma loc_of_shr_record_of_loc (m : Z) (l : location) :
  loc_of_shr_record (shr_record_of_loc m l) = l.
Proof. destruct l as [|[ | | ]]; reflexivity. Qed.

(** The heart of every operation: [binary_round_aux] on a mantissa of at
    least 53 bits, in the range of the normal numbers, returns a normal
    number within half a unit in the last place. *)
Lemma binary_round_aux_located (N D mx ex : Z) (lx : location) :
  located N D mx lx -> 2 ^ 52 <= mx -> -1021 <= Zdigits2 mx + ex <= 1023 ->
  exists (m' : positive) (e' n m2 : Z),
    binary_round_aux prec emax false mx ex lx = S754_finite false m' e'
    /\ 2 ^ 52 <= Z.pos m' < 2 ^ 53 /\ 0 <= n /\ ex + n <= e' <= 971
    /\ m2 = Z.pos m' * 2 ^ (e' - ex - n)
    /\ - (D * 2 ^ n) <= 2 * (N - m2 * (D * 2 ^ n)) <= D * 2 ^ n
    /\ 2 ^ 52 * (D * 2 ^ n) <= N.
Proof.
  intros Hloc Hmx Hrange.
  assert (Hpos : 0 < mx) by (pose proof (Z.pow_pos_nonneg 2 52); lia).
  destruct (Zdigits2_bounds mx Hpos) as [Hlow Hhigh].
  set (d := Zdigits2 mx) in *.
  assert (Hd : 53 <= d).
  { destruct (Z.le_gt_cases 53 d) as [Hle|Hgt]; [exact Hle|].
    assert (0 <= d) by (unfold d; destruct mx; cbn; lia).
    pose proof (Z.pow_le_mono_r 2 d 52). lia. }
  set (n := d - 53).
  assert (Hn : 0 <= n) by (unfold n; lia).
  assert (Hpow : 2 ^ (d - 1) = 2 ^ 52 * 2 ^ n /\ 2 ^ d = 2 ^ 53 * 2 ^ n).
  { split; rewrite <- pow2_split by lia; f_equal; unfold n; lia. }
  destruct Hpow as [Hpow1 Hpow2].
  assert (HP : 0 < 2 ^ n) by (apply Z.pow_pos_nonneg; lia).
  assert (HD : 0 < D) by apply Hloc.
  assert (Hfirst : shr_fexp prec emax mx ex lx = shr (shr_record_of_loc mx lx) ex n).
  { unfold shr_fexp. fold d. rewrite fexp_normal by lia. f_equal. unfold n. lia. }
  destruct (shr_located N D (shr_record_of_loc mx lx) ex n Hn) as (He1 & Hm1 & Hloc1).
  { rewrite shr_record_of_loc_m. lia. }
  { rewrite shr_record_of_loc_m, loc_of_shr_record_of_loc. exact Hloc. }
  unfold binary_round_aux. rewrite Hfirst.
  destruct (shr (shr_record_of_loc mx lx) ex n) as [mrs1 e1] eqn:Hshr.
  cbn [fst snd] in He1, Hm1, Hloc1. subst e1.
  set (m1 := shr_m mrs1) in *.
  assert (HDP : 0 < D * 2 ^ n) by (apply Z.mul_pos_pos; lia).
  assert (Hm1range : 2 ^ 52 <= m1 < 2 ^ 53).
  { destruct Hloc as (_ & Hquot & _). destruct Hloc1 as (_ & Hquot1 & _).
    split.
    - assert (2 ^ 52 * (D * 2 ^ n) < (m1 + 1) * (D * 2 ^ n)) by nia.
      assert (2 ^ 52 < m1 + 1) by (apply (Z.mul_lt_mono_pos_r (D * 2 ^ n)); lia). lia.
    - assert (m1 * (D * 2 ^ n) < 2 ^ 53 * (D * 2 ^ n)) by nia.
      apply (Z.mul_lt_mono_pos_r (D * 2 ^ n)); lia. }
  assert (Hvalue : 2 ^ 52 * (D * 2 ^ n) <= N).
  { destruct Hloc1 as (_ & Hquot1 & _). nia. }
  destruct (round_nearest_even_located _ _ _ _ Hloc1) as [Hm2 Herr].
  set (m2 := round_nearest_even m1 (loc_of_shr_record mrs1)) in *.
  destruct (Z.eq_dec m2 (2 ^ 53)) as [Htop|Htop].
  - (* the rounding reaches the next binade *)
    rewrite Htop.
    assert (Hsecond : shr_fexp prec emax (2 ^ 53) (ex + n) loc_Exact
                      = ({| shr_m := 2 ^ 52; shr_r := false; shr_s := false |}, ex + n + 1)).
    { unfold shr_fexp. change (Zdigits2 (2 ^ 53)) with 54.
      rewrite fexp_normal by (unfold n; lia).
      replace (54 + (ex + n) - 53 - (ex + n)) with 1 by lia. reflexivity. }
    rewrite Hsecond. cbn [shr_m].
    change (2 ^ 52) with (Z.pos (2 ^ 52)) at 1.
    cbv iota beta.
    assert (Hle : (ex + n + 1 <=? emax - prec) = true).
    { apply Z.leb_le. unfold emax, prec, n. lia. }
    rewrite Hle.
    exists (2 ^ 52)%positive, (ex + n + 1), n, m2.
    split; [reflexivity|]. split; [change (Z.pos (2 ^ 52)) with (2 ^ 52); lia|].
    split; [exact Hn|]. split; [unfold n; lia|].
    split.
    { replace (ex + n + 1 - ex - n) with 1 by lia. rewrite Htop. reflexivity. }
    split; [exact Herr|exact Hvalue].
  - assert (Hm2range : 2 ^ 52 <= m2 < 2 ^ 53) by lia.
    assert (Hsecond : shr_fexp prec emax m2 (ex + n) loc_Exact
                      = ({| shr_m := m2; shr_r := false; shr_s := false |}, ex + n)).
    { unfold shr_fexp. rewrite (Zdigits2_unique m2 53) by (change (53 - 1) with 52; lia).
      rewrite fexp_normal by (unfold n; lia).
      replace (53 + (ex + n) - 53 - (ex + n)) with 0 by lia. reflexivity. }
    rewrite Hsecond. cbn [shr_m].
    destruct m2 as [|p|p] eqn:Hp; [lia| |lia].
    assert (Hle : (ex + n <=? emax - prec) = true).
    { apply Z.leb_le. unfold emax, prec, n. lia. }
    rewrite Hle.
    exists p, (ex + n), n, (Z.pos p).
    split; [reflexivity|]. split; [lia|]. split; [exact Hn|]. split; [unfold n; lia|].
    split.
    { replace (ex + n - ex - n) with 0 by lia. lia. }
    split; [exact Herr|exact Hvalue].
Qed.

Local Open Scope Q_scope.

Lemma pow2_pos (e : Z) : 0 < 2 ^ e.
Proof. apply Qpower_0_lt. reflexivity. Qed.

Lemma pow2_add (a b : Z) : 2 ^ (a + b) == 2 ^ a * 2 ^ b.
Proof. apply Qpower_plus. discriminate. Qed.

Lemma pow2_inject (n : Z) : (0 <= n)%Z -> inject_Z (2 ^ n) == 2 ^ n.
Proof. intros Hn. rewrite Zpower_Qpower by exact Hn. reflexivity. Qed.

Lemma pow2_le (a b : Z) : (a <= b)%Z -> 2 ^ a <= 2 ^ b.
Proof. intros Hab. apply Qpower_le_compat_l; [exact Hab|discriminate]. Qed.

Lemma pow2_lt_inv (a b : Z) : 2 ^ a < 2 ^ b -> (a < b)%Z.
Proof. intros Hab. apply (Qpower_lt_compat_l_inv 2); [exact Hab|reflexivity]. Qed.

Lemma inject_Z_le (a b : Z) : (a <= b)%Z -> inject_Z a <= inject_Z b.
Proof. intros Hab. rewrite <- Zle_Qle. exact Hab. Qed.

Lemma inject_Z_lt (a b : Z) : (a < b)%Z -> inject_Z a < inject_Z b.
Proof. intros Hab. rewrite <- Zlt_Qlt. exact Hab. Qed.

Lemma pow2_53 : 2 ^ (-53) == 1 # 9007199254740992.
Proof. reflexivity. Qed.

Lemma Qmult_pos_reg (d x : Q) : 0 < d -> 0 <= d * x -> 0 <= x.
Proof.
  intros Hd Hdx. apply (Qmult_le_l _ _ d Hd). rewrite Qmult_0_r. exact Hdx.
Qed.

Lemma scaled_half_ulp (N m2 D n : Z) :
  (0 < D)%Z -> (0 <= n)%Z ->
  (- (D * 2 ^ n) <= 2 * (N - m2 * (D * 2 ^ n)) <= D * 2 ^ n)%Z ->
  (2 ^ 52 * (D * 2 ^ n) <= N)%Z ->
  let w := inject_Z N / inject_Z D in
  - (2 ^ n) <= 2 * (w - inject_Z m2 * 2 ^ n)
  /\ 2 * (w - inject_Z m2 * 2 ^ n) <= 2 ^ n
  /\ 4503599627370496 * 2 ^ n <= w.
Proof.
  intros HD Hn [Herr1 Herr2] Hbig w.
  assert (HDq : 0 < inject_Z D) by (apply (inject_Z_lt 0); exact HD).
  assert (HDne : ~ inject_Z D == 0) by lra.
  assert (H1 : (0 <= 2 * N + - (2 * (m2 * (D * 2 ^ n))) + D * 2 ^ n)%Z) by lia.
  assert (H2 : (0 <= D * 2 ^ n + - (2 * N) + 2 * (m2 * (D * 2 ^ n)))%Z) by lia.
  assert (H3 : (0 <= N + - (4503599627370496 * (D * 2 ^ n)))%Z) by (change 4503599627370496%Z with (2 ^ 52)%Z; lia).
  apply inject_Z_le in H1, H2, H3.
  rewrite !inject_Z_plus, !inject_Z_opp, !inject_Z_mult in H1.
  rewrite !inject_Z_plus, !inject_Z_opp, !inject_Z_mult in H2.
  rewrite !inject_Z_plus, !inject_Z_opp, !inject_Z_mult in H3.
  change (inject_Z 0) with 0 in H1, H2, H3. change (inject_Z 2) with 2 in H1, H2.
  change (inject_Z 4503599627370496) with 4503599627370496 in H3.
  rewrite <- (pow2_inject n Hn).
  set (Nq := inject_Z N) in *. set (Dq := inject_Z D) in *.
  set (Pn := inject_Z (2 ^ n)) in *. set (Mq := inject_Z m2) in *.
  assert (Hw : Dq * w == Nq) by (unfold w; field; exact HDne).
  assert (G1 : 0 <= 2 * (w - Mq * Pn) + Pn).
  { apply (Qmult_pos_reg Dq _ HDq).
    assert (Hring : Dq * (2 * (w - Mq * Pn) + Pn)
                    == 2 * (Dq * w) + - (2 * (Mq * (Dq * Pn))) + Dq * Pn) by ring.
    rewrite Hring, Hw. exact H1. }
  assert (G2 : 0 <= Pn - 2 * (w - Mq * Pn)).
  { apply (Qmult_pos_reg Dq _ HDq).
    assert (Hring : Dq * (Pn - 2 * (w - Mq * Pn))
                    == Dq * Pn + - (2 * (Dq * w)) + 2 * (Mq * (Dq * Pn))) by ring.
    rewrite Hring, Hw. exact H2. }
  assert (G3 : 0 <= w - 4503599627370496 * Pn).
  { apply (Qmult_pos_reg Dq _ HDq).
    assert (Hring : Dq * (w - 4503599627370496 * Pn)
                    == Dq * w + - (4503599627370496 * (Dq * Pn))) by ring.
    rewrite Hring, Hw. exact H3. }
  split; [|split]; lra.
Qed.

(** The same in the rationals: the result is the exact value [v] with a
    relative error of at most [2^-53]. *)
Lemma binary_round_aux_model (N D mx ex : Z) (lx : location) (v : Q) :
  located N D mx lx -> (2 ^ 52 <= mx)%Z ->
  v * inject_Z D == inject_Z N * 2 ^ ex ->
  2 ^ (-1022) <= v -> v < 2 ^ 1023 ->
  exists (m' : positive) (e' : Z),
    binary_round_aux prec emax false mx ex lx = S754_finite false m' e'
    /\ (2 ^ 52 <= Z.pos m' < 2 ^ 53)%Z /\ (e' <= 971)%Z
    /\ Qabs (inject_Z (Z.pos m') * 2 ^ e' - v) <= 2 ^ (-53) * v.
Proof.
  intros Hloc Hmx Hv Hlow Hhigh.
  assert (Hpos : (0 < mx)%Z) by (pose proof (Z.pow_pos_nonneg 2 52); lia).
  destruct (Zdigits2_bounds mx Hpos) as [Hdlow Hdhigh].
  assert (Hd0 : (0 < Zdigits2 mx)%Z) by (destruct mx; cbn; lia).
  assert (HD : (0 < D)%Z) by apply Hloc.
  assert (HDq : 0 < inject_Z D) by (apply (inject_Z_lt 0); exact HD).
  assert (HX : 0 < 2 ^ ex) by apply pow2_pos.
  destruct Hloc as (_ & Hquot & Hl).
  assert (Hrange : (-1021 <= Zdigits2 mx + ex <= 1023)%Z).
  { assert (Hq1 : inject_Z (mx * D) <= inject_Z N) by (apply inject_Z_le; lia).
    assert (Hq2 : inject_Z N < inject_Z ((mx + 1) * D)) by (apply inject_Z_lt; lia).
    assert (Hq3 : inject_Z (2 ^ (Zdigits2 mx - 1)) <= inject_Z mx) by (apply inject_Z_le; lia).
    assert (Hq4 : inject_Z (mx + 1) <= inject_Z (2 ^ Zdigits2 mx)) by (apply inject_Z_le; lia).
    rewrite pow2_inject in Hq3, Hq4 by lia.
    rewrite inject_Z_mult in Hq1, Hq2.
    split.
    - assert (Hlt : 2 ^ (-1022) < 2 ^ (Zdigits2 mx + ex)).
      { rewrite pow2_add. apply (Qmult_lt_r _ _ (inject_Z D)); [exact HDq|].
        apply (Qle_lt_trans _ (v * inject_Z D)); [apply Qmult_le_compat_r; lra|].
        rewrite Hv. 
        apply (Qlt_le_trans _ (inject_Z (mx + 1) * inject_Z D * 2 ^ ex)).
        + apply Qmult_lt_compat_r; [exact HX|exact Hq2].
        + assert (Hring : 2 ^ Zdigits2 mx * 2 ^ ex * inject_Z D
                            == 2 ^ Zdigits2 mx * inject_Z D * 2 ^ ex) by ring.
          rewrite Hring.
          apply Qmult_le_compat_r; [|lra]. apply Qmult_le_compat_r; lra. }
      apply pow2_lt_inv in Hlt. lia.
    - assert (Hlt : 2 ^ (Zdigits2 mx - 1 + ex) < 2 ^ 1023).
      { rewrite pow2_add. apply (Qmult_lt_r _ _ (inject_Z D)); [exact HDq|].
        apply (Qle_lt_trans _ (v * inject_Z D)); [|apply Qmult_lt_compat_r; lra].
        rewrite Hv.
        apply (Qle_trans _ (inject_Z mx * inject_Z D * 2 ^ ex)).
        + assert (Hring : 2 ^ (Zdigits2 mx - 1) * 2 ^ ex * inject_Z D
                            == 2 ^ (Zdigits2 mx - 1) * inject_Z D * 2 ^ ex) by ring.
          rewrite Hring.
          apply Qmult_le_compat_r; [|lra]. apply Qmult_le_compat_r; lra.
        + apply Qmult_le_compat_r; [exact Hq1|lra]. }
      apply pow2_lt_inv in Hlt. lia. }
  destruct (binary_round_aux_located N D mx ex lx) as (m' & e' & n & m2 & Hres & Hm' & Hn & He' & Hm2 & Herr & Hbig);
    [repeat split; try apply Hquot; assumption|exact Hmx|exact Hrange|].
  exists m', e'. split; [exact Hres|]. split; [exact Hm'|]. split; [lia|].
  set (w := inject_Z N / inject_Z D).
  assert (HDne : ~ inject_Z D == 0) by lra.
  assert (Hw : v == w * 2 ^ ex).
  { unfold w. apply (Qmult_inj_r _ _ (inject_Z D) HDne). rewrite Hv. field. exact HDne. }
  assert (HPn : 0 < 2 ^ n) by apply pow2_pos.
  assert (Hr : inject_Z (Z.pos m') * 2 ^ e' == inject_Z m2 * 2 ^ n * 2 ^ ex).
  { rewrite Hm2, inject_Z_mult, pow2_inject by lia.
    rewrite <- !Qmult_assoc, <- !pow2_add.
    replace (e' - ex - n + (n + ex))%Z with e' by lia. reflexivity. }
  destruct (scaled_half_ulp N m2 D n HD Hn Herr Hbig) as (Hhalf1 & Hhalf2 & Hhalf3).
  fold w in Hhalf1, Hhalf2, Hhalf3.
  rewrite Hr, Hw, pow2_53.
  apply Qabs_Qle_condition.
  assert (Hfactor : inject_Z m2 * 2 ^ n * 2 ^ ex - w * 2 ^ ex
                    == (inject_Z m2 * 2 ^ n - w) * 2 ^ ex) by ring.
  rewrite Hfactor, Qmult_assoc.
  set (T := inject_Z m2 * 2 ^ n) in *. set (X := 2 ^ ex) in *. set (Pn := 2 ^ n) in *.
  assert (HA : 0 <= ((1 # 9007199254740992) * w - (T - w)) * X)
    by (apply Qmult_le_0_compat; lra).
  assert (HB : 0 <= ((1 # 9007199254740992) * w + (T - w)) * X)
    by (apply Qmult_le_0_compat; lra).
  split; lra.
Qed.

Lemma iter_xO_value (d m : positive) : Z.pos (Pos.iter xO m d) = (Z.pos m * 2 ^ Z.pos d)%Z.
Proof.
  induction d as [|d IH] using Pos.peano_ind.
  - cbn. lia.
  - rewrite Pos.iter_succ, Pos2Z.inj_xO, IH, Pos2Z.inj_succ, Z.pow_succ_r by lia. ring.
Qed.

Lemma shl_align_value (m : positive) (e e0 : Z) :
  (e0 <= e)%Z ->
  snd (shl_align m e e0) = e0
  /\ Z.pos (fst (shl_align m e e0)) = (Z.pos m * 2 ^ (e - e0))%Z.
Proof.
  intros He. unfold shl_align. destruct (e0 - e)%Z as [|d|d] eqn:Hd; cbn [fst snd].
  - split; [lia|]. replace (e - e0)%Z with 0%Z by lia. lia.
  - lia.
  - split; [reflexivity|]. rewrite iter_xO_value. f_equal. f_equal. lia.
Qed.

Lemma value_digits (p : positive) (e : Z) :
  2 ^ (-1022) <= inject_Z (Z.pos p) * 2 ^ e -> (-1021 <= Zdigits2 (Z.pos p) + e)%Z.
Proof.
  intros Hlow. destruct (Zdigits2_bounds (Z.pos p) eq_refl) as [_ Hhigh].
  assert (Hd0 : (0 < Zdigits2 (Z.pos p))%Z) by (cbn; lia).
  apply inject_Z_lt in Hhigh. rewrite pow2_inject in Hhigh by lia.
  assert (Hlt : 2 ^ (-1022) < 2 ^ (Zdigits2 (Z.pos p) + e)).
  { rewrite pow2_add. apply (Qle_lt_trans _ _ _ Hlow).
    apply Qmult_lt_compat_r; [apply pow2_pos|exact Hhigh]. }
  apply pow2_lt_inv in Hlt. lia.
Qed.

(** [binary_round], the rounding of the sum and of the difference. *)
Lemma binary_round_model (p : positive) (e : Z) (v : Q) :
  v == inject_Z (Z.pos p) * 2 ^ e -> 2 ^ (-1022) <= v -> v < 2 ^ 1023 ->
  exists (m' : positive) (e' : Z),
    binary_round prec emax false p e = S754_finite false m' e'
    /\ (2 ^ 52 <= Z.pos m' < 2 ^ 53)%Z /\ (e' <= 971)%Z
    /\ Qabs (inject_Z (Z.pos m') * 2 ^ e' - v) <= 2 ^ (-53) * v.
Proof.
  intros Hv Hlow Hhigh.
  assert (Hdigits : (-1021 <= Zdigits2 (Z.pos p) + e)%Z) by (apply value_digits; rewrite <- Hv; exact Hlow).
  destruct (Zdigits2_bounds (Z.pos p) eq_refl) as [Hdlow Hdhigh].
  unfold binary_round. change (Z.pos (digits2_pos p)) with (Zdigits2 (Z.pos p)).
  rewrite fexp_normal by exact Hdigits.
  set (d := Zdigits2 (Z.pos p)) in *.
  assert (Hd0 : (0 < d)%Z) by (unfold d; cbn; lia).
  destruct (Z.le_gt_cases 53 d) as [Hwide|Hnarrow].
  - assert (Hsame : shl_align p e (d + e - 53) = (p, e)).
    { unfold shl_align. destruct (d + e - 53 - e)%Z eqn:Hz; try reflexivity. lia. }
    rewrite Hsame.
    apply (binary_round_aux_model (Z.pos p) 1 (Z.pos p) e loc_Exact v).
    + unfold located. replace (Z.pos p - Z.pos p * 1)%Z with 0%Z by lia. cbn. repeat split; lia.
    + pose proof (Z.pow_le_mono_r 2 52 (d - 1)). lia.
    + rewrite Hv. change (inject_Z 1) with 1. ring.
    + exact Hlow.
    + exact Hhigh.
  - destruct (shl_align_value p e (d + e - 53)) as [Hsnd Hfst]; [lia|].
    destruct (shl_align p e (d + e - 53)) as [mz ez]. cbn [fst snd] in Hsnd, Hfst. subst ez.
    replace (e - (d + e - 53))%Z with (53 - d)%Z in Hfst by lia.
    assert (Hpow : (2 ^ 52 = 2 ^ (d - 1) * 2 ^ (53 - d))%Z).
    { rewrite <- pow2_split by lia. f_equal. lia. }
    assert (HP : (0 < 2 ^ (53 - d))%Z) by (apply Z.pow_pos_nonneg; lia).
    apply (binary_round_aux_model (Z.pos mz) 1 (Z.pos mz) (d + e - 53) loc_Exact v).
    + unfold located. replace (Z.pos mz - Z.pos mz * 1)%Z with 0%Z by lia. cbn. repeat split; lia.
    + rewrite Hfst, Hpow. apply Z.mul_le_mono_nonneg_r; lia.
    + rewrite Hv, Hfst, inject_Z_mult, pow2_inject by lia. change (inject_Z 1) with 1.
      rewrite Qmult_1_r, <- Qmult_assoc, <- pow2_add.
      replace (53 - d + (d + e - 53))%Z with e by lia. reflexivity.
    + exact Hlow.
    + exact Hhigh.
Qed.

Lemma normal64_value (x : float) (m : positive) (e : Z) :
  normal64 x m e -> binary64_value x == inject_Z (Z.pos m) * 2 ^ e.
Proof. intros [Hx _]. unfold binary64_value. rewrite Hx. reflexivity. Qed.

Lemma is_normal64_positive (x : float) : is_normal64 x -> 0 < binary64_value x.
Proof.
  intros (m & e & Hx). rewrite (normal64_value _ _ _ Hx).
  apply Qmult_lt_0_compat; [reflexivity|apply pow2_pos].
Qed.

Lemma inject_Z_pos_scaled (M e : Z) : 0 < inject_Z M * 2 ^ e -> (0 < M)%Z.
Proof.
  intros Hpos. destruct (Z.lt_ge_cases 0 M) as [Hlt|Hge]; [exact Hlt|].
  exfalso. apply inject_Z_le in Hge. change (inject_Z 0) with 0 in Hge.
  pose proof (pow2_pos e) as HX.
  assert (0 <= - inject_Z M * 2 ^ e) by (apply Qmult_le_0_compat; lra). lra.
Qed.

Lemma aligned_value (m : positive) (e e0 : Z) :
  (e0 <= e)%Z ->
  inject_Z (Z.pos (fst (shl_align m e e0))) * 2 ^ e0 == inject_Z (Z.pos m) * 2 ^ e.
Proof.
  intros He. destruct (shl_align_value m e e0 He) as [_ ->].
  rewrite inject_Z_mult, pow2_inject by lia. rewrite <- Qmult_assoc, <- pow2_add.
  replace (e - e0 + e0)%Z with e by lia. reflexivity.
Qed.

(** The rounded difference of two positive normal numbers. *)
Lemma binary64_sub_model (x y : float) :
  is_normal64 x -> is_normal64 y ->
  let v := binary64_value x - binary64_value y in
  2 ^ (-1022) <= v -> v < 2 ^ 1023 ->
  is_normal64 (x - y)%float /\ Qabs (binary64_value (x - y)%float - v) <= 2 ^ (-53) * v.
Proof.
  intros (mx & ex & Hx) (my & ey & Hy) v Hlow Hhigh.
  pose proof (normal64_value _ _ _ Hx) as Hvx. pose proof (normal64_value _ _ _ Hy) as Hvy.
  destruct Hx as [Hx Hmx]. destruct Hy as [Hy Hmy].
  assert (Hspec : Prim2SF (x - y)%float
                  = binary_normalize prec emax
                      (Z.pos (fst (shl_align mx ex (Z.min ex ey)))
                       - Z.pos (fst (shl_align my ey (Z.min ex ey)))) (Z.min ex ey) false).
  { rewrite FloatAxioms.sub_spec, Hx, Hy. reflexivity. }
  set (ez := Z.min ex ey) in *.
  set (M := (Z.pos (fst (shl_align mx ex ez)) - Z.pos (fst (shl_align my ey ez)))%Z) in *.
  assert (HM : v == inject_Z M * 2 ^ ez).
  { unfold v, M. rewrite Hvx, Hvy. unfold Z.sub. rewrite inject_Z_plus, inject_Z_opp.
    rewrite <- (aligned_value mx ex ez), <- (aligned_value my ey ez) by (unfold ez; lia). ring. }
  assert (HMpos : (0 < M)%Z).
  { apply (inject_Z_pos_scaled M ez). rewrite <- HM. pose proof (pow2_pos (-1022)). lra. }
  destruct M as [|p|p]; [lia| |lia].
  cbn [binary_normalize] in Hspec.
  destruct (binary_round_model p ez v HM Hlow Hhigh) as (m' & e' & Hres & Hm' & He' & Herr).
  split.
  - exists m', e'. split; [rewrite Hspec; exact Hres|exact Hm'].
  - unfold binary64_value. rewrite Hspec, Hres. exact Herr.
Qed.

(** The rounded sum of two positive normal numbers. *)
Lemma binary64_add_model (x y : float) :
  is_normal64 x -> is_normal64 y ->
  let v := binary64_value x + binary64_value y in
  2 ^ (-1022) <= v -> v < 2 ^ 1023 ->
  is_normal64 (x + y)%float /\ Qabs (binary64_value (x + y)%float - v) <= 2 ^ (-53) * v.
Proof.
  intros (mx & ex & Hx) (my & ey & Hy) v Hlow Hhigh.
  pose proof (normal64_value _ _ _ Hx) as Hvx. pose proof (normal64_value _ _ _ Hy) as Hvy.
  destruct Hx as [Hx Hmx]. destruct Hy as [Hy Hmy].
  assert (Hspec : Prim2SF (x + y)%float
                  = binary_normalize prec emax
                      (Z.pos (fst (shl_align mx ex (Z.min ex ey)))
                       + Z.pos (fst (shl_align my ey (Z.min ex ey)))) (Z.min ex ey) false).
  { rewrite FloatAxioms.add_spec, Hx, Hy. reflexivity. }
  set (ez := Z.min ex ey) in *.
  set (M := (Z.pos (fst (shl_align mx ex ez)) + Z.pos (fst (shl_align my ey ez)))%Z) in *.
  assert (HM : v == inject_Z M * 2 ^ ez).
  { unfold v, M. rewrite Hvx, Hvy. rewrite inject_Z_plus.
    rewrite <- (aligned_value mx ex ez), <- (aligned_value my ey ez) by (unfold ez; lia). ring. }
  assert (HMpos : (0 < M)%Z) by (unfold M; lia).
  destruct M as [|p|p]; [lia| |lia].
  cbn [binary_normalize] in Hspec.
  destruct (binary_round_model p ez v HM Hlow Hhigh) as (m' & e' & Hres & Hm' & He' & Herr).
  split.
  - exists m', e'. split; [rewrite Hspec; exact Hres|exact Hm'].
  - unfold binary64_value. rewrite Hspec, Hres. exact Herr.
Qed.

(** The rounded product of two positive normal numbers. *)
Lemma binary64_mul_model (x y : float) :
  is_normal64 x -> is_normal64 y ->
  let v := binary64_value x * binary64_value y in
  2 ^ (-1022) <= v -> v < 2 ^ 1023 ->
  is_normal64 (x * y)%float /\ Qabs (binary64_value (x * y)%float - v) <= 2 ^ (-53) * v.
Proof.
  intros (mx & ex & Hx) (my & ey & Hy) v Hlow Hhigh.
  pose proof (normal64_value _ _ _ Hx) as Hvx. pose proof (normal64_value _ _ _ Hy) as Hvy.
  destruct Hx as [Hx Hmx]. destruct Hy as [Hy Hmy].
  assert (Hspec : Prim2SF (x * y)%float
                  = binary_round_aux prec emax false (Z.pos (mx * my)) (ex + ey) loc_Exact).
  { rewrite FloatAxioms.mul_spec, Hx, Hy. reflexivity. }
  destruct (binary_round_aux_model (Z.pos (mx * my)) 1 (Z.pos (mx * my)) (ex + ey) loc_Exact v)
    as (m' & e' & Hres & Hm' & He' & Herr).
  - unfold located. replace (Z.pos (mx * my) - Z.pos (mx * my) * 1)%Z with 0%Z by lia.
    cbn. repeat split; lia.
  - rewrite Pos2Z.inj_mul. change (2 ^ 52)%Z with (2 ^ 52 * 1)%Z.
    apply Z.mul_le_mono_nonneg; lia.
  - unfold v. rewrite Hvx, Hvy, Pos2Z.inj_mul, inject_Z_mult, pow2_add.
    change (inject_Z 1) with 1. ring.
  - exact Hlow.
  - exact Hhigh.
  - split.
    + exists m', e'. split; [rewrite Hspec; exact Hres|exact Hm'].
    + unfold binary64_value. rewrite Hspec, Hres. exact Herr.
Qed.

Lemma new_location_located (N D q r : Z) :
  (0 < D)%Z -> (0 <= r < D)%Z -> (N = D * q + r)%Z -> located N D q (new_location D r).
Proof.
  intros HD Hr HN. unfold located.
  replace (N - q * D)%Z with r by lia.
  split; [exact HD|]. split; [exact Hr|].
  unfold new_location, new_location_even, new_location_odd.
  destruct (Z.even D) eqn:Heven; [reflexivity|].
  destruct (Z.eqb_spec r 0) as [Hz|Hz]; [reflexivity|]. f_equal.
  assert (Hodd : Z.odd D = true) by (rewrite <- Z.negb_even, Heven; reflexivity).
  apply Z.odd_spec in Hodd. destruct Hodd as [k Hk].
  destruct (Z.compare_spec (2 * r + 1) D) as [Hc|Hc|Hc];
    destruct (Z.compare_spec (2 * r) D) as [Hc'|Hc'|Hc']; first [reflexivity|lia].
Qed.

(** The rounded quotient of two positive normal numbers. *)
Lemma binary64_div_model (x y : float) (v : Q) :
  is_normal64 x -> is_normal64 y ->
  v * binary64_value y == binary64_value x ->
  2 ^ (-1022) <= v -> v < 2 ^ 1023 ->
  is_normal64 (x / y)%float /\ Qabs (binary64_value (x / y)%float - v) <= 2 ^ (-53) * v.
Proof.
  intros (mx & ex & Hx) (my & ey & Hy) Hv Hlow Hhigh.
  pose proof (normal64_value _ _ _ Hx) as Hvx. pose proof (normal64_value _ _ _ Hy) as Hvy.
  destruct Hx as [Hx Hmx]. destruct Hy as [Hy Hmy].
  rewrite Hvx, Hvy in Hv.
  assert (Hspec : Prim2SF (x / y)%float
                  = let '(mz, ez, lz) := SFdiv_core_binary prec emax (Z.pos mx) ex (Z.pos my) ey in
                    binary_round_aux prec emax false mz ez lz).
  { rewrite FloatAxioms.div_spec, Hx, Hy. reflexivity. }
  assert (Hdx : Zdigits2 (Z.pos mx) = 53%Z) by (apply Zdigits2_unique; [change (53 - 1)%Z with 52%Z|]; lia).
  assert (Hdy : Zdigits2 (Z.pos my) = 53%Z) by (apply Zdigits2_unique; [change (53 - 1)%Z with 52%Z|]; lia).
  pose proof (pow2_pos ex) as HX. pose proof (pow2_pos ey) as HY.
  (* the quotient of the mantissas lies between 1/2 and 2 *)
  assert (Hmxq : 4503599627370496 <= inject_Z (Z.pos mx) < 9007199254740992).
  { split; [apply (inject_Z_le (2 ^ 52))|apply (inject_Z_lt _ (2 ^ 53))]; lia. }
  assert (Hmyq : 4503599627370496 <= inject_Z (Z.pos my) < 9007199254740992).
  { split; [apply (inject_Z_le (2 ^ 52))|apply (inject_Z_lt _ (2 ^ 53))]; lia. }
  set (a := inject_Z (Z.pos mx)) in *. set (b := inject_Z (Z.pos my)) in *.
  assert (Hexp : 2 ^ ex == 2 ^ (ex - ey) * 2 ^ ey).
  { rewrite <- pow2_add. replace (ex - ey + ey)%Z with ex by lia. reflexivity. }
  assert (Hvb : v * b == a * 2 ^ (ex - ey)).
  { apply (Qmult_inj_r _ _ (2 ^ ey)); [lra|].
    transitivity (a * 2 ^ ex); [rewrite <- Hv; ring|rewrite Hexp; ring]. }
  set (X := 2 ^ (ex - ey)) in *.
  assert (HXpos : 0 < X) by apply pow2_pos.
  assert (Hexponent : (-1022 <= ex - ey)%Z).
  { assert (Hlt : 2 ^ (-1022) < 2 ^ (ex - ey + 1)).
    { rewrite pow2_add. fold X. change (2 ^ 1) with 2.
      apply (Qmult_lt_r _ _ b); [lra|].
      apply (Qle_lt_trans _ (v * b)); [apply Qmult_le_compat_r; lra|].
      rewrite Hvb.
      assert (Hring : X * 2 * b == 2 * b * X) by ring. rewrite Hring.
      apply Qmult_lt_compat_r; lra. }
    apply pow2_lt_inv in Hlt. lia. }
  assert (Hcore : exists s : Z,
             (s = 52 \/ s = 53)%Z
             /\ SFdiv_core_binary prec emax (Z.pos mx) ex (Z.pos my) ey
                = (((Z.pos mx * 2 ^ s) / Z.pos my)%Z, (ex - ey - s)%Z,
                   new_location (Z.pos my) ((Z.pos mx * 2 ^ s) mod Z.pos my)%Z)
             /\ (2 ^ 52 * Z.pos my <= Z.pos mx * 2 ^ s)%Z).
  { unfold SFdiv_core_binary. rewrite Hdx, Hdy.
    destruct (Z.eq_dec (ex - ey)%Z (-1022)%Z) as [Hedge|Hinner].
    - exists 52%Z. split; [left; reflexivity|].
      assert (He' : Z.min (fexp prec emax (53 + ex - (53 + ey))) (ex - ey) = (ex - ey - 52)%Z).
      { unfold fexp, SpecFloat.emin, prec, emax. lia. }
      rewrite He'. replace (ex - ey - (ex - ey - 52))%Z with 52%Z by lia.
      rewrite Z.shiftl_mul_pow2 by lia.
      unfold Z.div, Z.modulo. destruct (Z.div_eucl (Z.pos mx * 2 ^ 52) (Z.pos my)) as [q r].
      split; [reflexivity|].
      (* the value is at least 2^-1022, so the mantissa of x is the larger *)
      assert (Hab : b <= a).
      { unfold X in Hvb. rewrite Hedge in Hvb.
        apply (Qmult_le_r _ _ (2 ^ (-1022))); [apply pow2_pos|].
        rewrite <- Hvb. rewrite (Qmult_comm b). apply Qmult_le_compat_r; lra. }
      unfold a, b in Hab. rewrite <- Zle_Qle in Hab. lia.
    - exists 53%Z. split; [right; reflexivity|].
      assert (He' : Z.min (fexp prec emax (53 + ex - (53 + ey))) (ex - ey) = (ex - ey - 53)%Z).
      { unfold fexp, SpecFloat.emin, prec, emax. lia. }
      rewrite He'. replace (ex - ey - (ex - ey - 53))%Z with 53%Z by lia.
      rewrite Z.shiftl_mul_pow2 by lia.
      unfold Z.div, Z.modulo. destruct (Z.div_eucl (Z.pos mx * 2 ^ 53) (Z.pos my)) as [q r].
      split; [reflexivity|]. lia. }
  destruct Hcore as (s & Hs & Hcore & Hbig).
  rewrite Hcore in Hspec.
  assert (Hs0 : (0 <= s)%Z) by lia.
  pose proof (Z.div_mod (Z.pos mx * 2 ^ s) (Z.pos my)) as Hdivmod.
  pose proof (Z.mod_pos_bound (Z.pos mx * 2 ^ s) (Z.pos my)) as Hmod.
  set (q := (Z.pos mx * 2 ^ s / Z.pos my)%Z) in *.
  set (r := ((Z.pos mx * 2 ^ s) mod Z.pos my)%Z) in *.
  destruct (binary_round_aux_model (Z.pos mx * 2 ^ s) (Z.pos my) q (ex - ey - s)
              (new_location (Z.pos my) r) v) as (m' & e' & Hres & Hm' & He' & Herr).
  - apply new_location_located; lia.
  - assert (Hr : (0 <= r < Z.pos my)%Z) by (apply Hmod; lia).
    assert (Hq : (Z.pos mx * 2 ^ s = Z.pos my * q + r)%Z) by (apply Hdivmod; lia).
    nia.
  - fold b. rewrite Hvb, inject_Z_mult, pow2_inject by exact Hs0. fold a.
    rewrite <- Qmult_assoc, <- pow2_add. unfold X.
    replace (s + (ex - ey - s))%Z with (ex - ey)%Z by lia. reflexivity.
  - exact Hlow.
  - exact Hhigh.
  - split.
    + exists m', e'. split; [rewrite Hspec; exact Hres|exact Hm'].
    + unfold binary64_value. rewrite Hspec, Hres. exact Herr.
Qed.

Lemma normal_exponent_lt (a b : Q) (ex ey : Z) :
  a < 9007199254740992 -> 4503599627370496 <= b -> (ex < ey)%Z -> a * 2 ^ ex < b * 2 ^ ey.
Proof.
  intros Ha Hb Hlt.
  assert (Hsplit : 2 ^ ey == 2 ^ (ey - ex - 1) * (2 * 2 ^ ex)).
  { assert (Hone : 2 * 2 ^ ex == 2 ^ (1 + ex)) by (rewrite pow2_add; reflexivity).
    rewrite Hone, <- pow2_add.
    replace (ey - ex - 1 + (1 + ex))%Z with ey by lia. reflexivity. }
  assert (HP : 1 <= 2 ^ (ey - ex - 1)).
  { change 1 with (2 ^ 0). apply pow2_le. lia. }
  pose proof (pow2_pos ex) as HX.
  rewrite Hsplit.
  set (P := 2 ^ (ey - ex - 1)) in *. set (X := 2 ^ ex) in *.
  assert (H1 : 0 <= (b - 4503599627370496) * (P * X)).
  { apply Qmult_le_0_compat; [lra|]. apply Qmult_le_0_compat; lra. }
  assert (H2 : 0 <= (P - 1) * X) by (apply Qmult_le_0_compat; lra).
  assert (H3 : 0 < (9007199254740992 - a) * X) by (apply Qmult_lt_0_compat; lra).
  lra.
Qed.

(** The order of the positive normal numbers is the order of their values. *)
Lemma binary64_compare_normal (x y : float) :
  is_normal64 x -> is_normal64 y ->
  SFcompare (Prim2SF x) (Prim2SF y) = Some (binary64_value x ?= binary64_value y).
Proof.
  intros (mx & ex & Hx) (my & ey & Hy).
  pose proof (normal64_value _ _ _ Hx) as Hvx. pose proof (normal64_value _ _ _ Hy) as Hvy.
  destruct Hx as [Hx Hmx]. destruct Hy as [Hy Hmy].
  rewrite Hx, Hy. cbn [SFcompare]. f_equal. symmetry.
  assert (Hmxq : 4503599627370496 <= inject_Z (Z.pos mx) < 9007199254740992).
  { split; [apply (inject_Z_le (2 ^ 52))|apply (inject_Z_lt _ (2 ^ 53))]; lia. }
  assert (Hmyq : 4503599627370496 <= inject_Z (Z.pos my) < 9007199254740992).
  { split; [apply (inject_Z_le (2 ^ 52))|apply (inject_Z_lt _ (2 ^ 53))]; lia. }
  destruct (Z.compare_spec ex ey) as [Heq|Hlt|Hgt].
  - subst ey. pose proof (pow2_pos ex) as HX.
    change (Pos.compare_cont Eq mx my) with (mx ?= my)%positive.
    destruct (Pos.compare_spec mx my) as [Hm|Hm|Hm].
    + apply Qeq_alt. rewrite Hvx, Hvy, Hm. reflexivity.
    + apply Qlt_alt. rewrite Hvx, Hvy. apply Qmult_lt_compat_r; [exact HX|].
      apply inject_Z_lt. lia.
    + apply Qgt_alt. rewrite Hvx, Hvy. apply Qmult_lt_compat_r; [exact HX|].
      apply inject_Z_lt. lia.
  - apply Qlt_alt. rewrite Hvx, Hvy. apply normal_exponent_lt; [apply Hmxq|apply Hmyq|exact Hlt].
  - apply Qgt_alt. rewrite Hvx, Hvy. apply normal_exponent_lt; [apply Hmyq|apply Hmxq|lia].
Qed.

Lemma binary64_ltb_normal (x y : float) :
  is_normal64 x -> is_normal64 y ->
  (x <? y)%float = true <-> binary64_value x < binary64_value y.
Proof.
  intros Hx Hy. rewrite FloatAxioms.ltb_spec. unfold SFltb.
  rewrite (binary64_compare_normal x y Hx Hy), Qlt_alt.
  destruct (binary64_value x ?= binary64_value y); split; intros; congruence.
Qed.

Lemma binary64_leb_normal (x y : float) :
  is_normal64 x -> is_normal64 y ->
  (x <=? y)%float = true <-> binary64_value x <= binary64_value y.
Proof.
  intros Hx Hy. rewrite FloatAxioms.leb_spec. unfold SFleb.
  rewrite (binary64_compare_normal x y Hx Hy), Qle_alt.
  destruct (binary64_value x ?= binary64_value y); split; intros; congruence.
Qed.

(** A value of at least [2^-1022] is the value of a positive normal number. *)
Lemma is_normal64_intro (x : float) : 2 ^ (-1022) <= binary64_value x -> is_normal64 x.
Proof.
  intros Hlow. pose proof (Prim2SF_valid x) as Hvalid.
  unfold binary64_value in Hlow.
  destruct (Prim2SF x) as [s|s| |s m e] eqn:Hx; cbn [SF2Q] in Hlow;
    try (exfalso; pose proof (pow2_pos (-1022)); lra).
  pose proof (pow2_pos e) as HX.
  destruct s.
  { exfalso. cbn [cond_Zopp] in Hlow. pose proof (pow2_pos (-1022)).
    assert (0 <= inject_Z (Z.pos m) * 2 ^ e) by (apply Qmult_le_0_compat; [discriminate|lra]).
    change (inject_Z (- Z.pos m)) with (- inject_Z (Z.pos m)) in Hlow. lra. }
  cbn [cond_Zopp] in Hlow.
  exists m, e. split; [exact Hx|].
  pose proof (value_digits m e Hlow) as Hdigits.
  cbn [valid_binary] in Hvalid. unfold bounded, canonical_mantissa in Hvalid.
  apply andb_prop in Hvalid. destruct Hvalid as [Hcanonical _].
  apply Z.eqb_eq in Hcanonical.
  change (Z.pos (digits2_pos m)) with (Zdigits2 (Z.pos m)) in Hcanonical.
  rewrite fexp_normal in Hcanonical by exact Hdigits.
  destruct (Zdigits2_bounds (Z.pos m) eq_refl) as [Hdlow Hdhigh].
  replace (Zdigits2 (Z.pos m)) with 53%Z in Hdlow, Hdhigh by lia.
  exact (conj Hdlow Hdhigh).
Qed.

(** *** The ratio of risk and reward in binary64 *)

Lemma model_bounds (r v : Q) :
  Qabs (r - v) <= 2 ^ (-53) * v ->
  (1 - (1 # 9007199254740992)) * v <= r <= (1 + (1 # 9007199254740992)) * v.
Proof. rewrite pow2_53. intros Habs. apply Qabs_Qle_condition in Habs. lra. Qed.

Lemma binary64_fifth : is_normal64 (flit 2 (-1))
  /\ binary64_value (flit 2 (-1)) == 3602879701896397 # 18014398509481984.
Proof.
  split.
  - exists 7205759403792794%positive, (-55)%Z. split; [vm_compute; reflexivity|lia].
  - vm_compute. reflexivity.
Qed.

Lemma binary64_hundred : is_normal64 (flit 100 0) /\ binary64_value (flit 100 0) == 100.
Proof.
  split.
  - exists 7036874417766400%positive, (-46)%Z. split; [vm_compute; reflexivity|lia].
  - vm_compute. reflexivity.
Qed.

Lemma binary64_two : is_normal64 (flit 2 0) /\ binary64_value (flit 2 0) == 2.
Proof.
  split.
  - exists 4503599627370496%positive, (-51)%Z. split; [vm_compute; reflexivity|lia].
  - vm_compute. reflexivity.
Qed.

Lemma binary64_three : is_normal64 (flit 3 0) /\ binary64_value (flit 3 0) == 3.
Proof.
  split.
  - exists 6755399441055744%positive, (-51)%Z. split; [vm_compute; reflexivity|lia].
  - vm_compute. reflexivity.
Qed.

Ltac pow2_numerals :=
  repeat match goal with
         | H : context [Qpower 2 ?e] |- _ =>
             let c := eval vm_compute in (Qpower 2 e) in change (Qpower 2 e) with c in H
         | |- context [Qpower 2 ?e] =>
             let c := eval vm_compute in (Qpower 2 e) in change (Qpower 2 e) with c
         end.

(** The risk/reward computation of a long bracket, operation by
    operation. *)
Lemma long_ratio_model (sl tp : float) :
  let a := binary64_value sl in
  let b := binary64_value tp in
  2 ^ (-960) <= a -> b <= 2 ^ 1000 -> a < b -> b <= 2 ^ 48 * (b - a) ->
  let entry := (sl + (tp - sl) * flit 2 (-1))%float in
  let risk := ((entry - sl) / entry * flit 100 0)%float in
  let reward := ((tp - entry) / entry * flit 100 0)%float in
  is_normal64 risk /\ is_normal64 (reward / risk)%float
  /\ 3 <= binary64_value (reward / risk)%float <= 5
  /\ (Qmax a b <= 2 ^ 30 * Qabs (b - a) ->
      (399999 # 100000) <= binary64_value (reward / risk)%float <= (400001 # 100000))
  /\ Qabs (binary64_value entry - (a + (2 # 10) * (b - a))) <= 2 ^ (-52) * Qmax a b.
Proof.
  intros a b Hlow Hhigh Hab Hwide entry risk reward.
  pow2_numerals.
  assert (Hsl : is_normal64 sl).
  { apply is_normal64_intro. fold a. pow2_numerals. lra. }
  assert (Htp : is_normal64 tp).
  { apply is_normal64_intro. fold b. pow2_numerals. lra. }
  destruct binary64_fifth as [Hc Hcv]. destruct binary64_hundred as [Hh Hhv].
  (* tp - sl *)
  destruct (binary64_sub_model tp sl Htp Hsl) as [HD HDv].
  { fold a b. pow2_numerals. lra. }
  { fold a b. pow2_numerals. lra. }
  apply model_bounds in HDv. fold a b in HDv.
  set (D := binary64_value (tp - sl)%float) in *.
  (* (tp - sl) * 0.2 *)
  destruct (binary64_mul_model (tp - sl)%float (flit 2 (-1)) HD Hc) as [HE HEv].
  { fold D. rewrite Hcv. pow2_numerals. lra. }
  { fold D. rewrite Hcv. pow2_numerals. lra. }
  apply model_bounds in HEv. fold D in HEv. rewrite Hcv in HEv.
  set (E := binary64_value ((tp - sl) * flit 2 (-1))%float) in *.
  (* sl + (tp - sl) * 0.2 *)
  destruct (binary64_add_model sl ((tp - sl) * flit 2 (-1))%float Hsl HE) as [HX HXv].
  { fold a E. pow2_numerals. lra. }
  { fold a E. pow2_numerals. lra. }
  apply model_bounds in HXv. fold a E entry in HXv, HX.
  set (X := binary64_value entry) in *.
  (* entry - sl *)
  destruct (binary64_sub_model entry sl HX Hsl) as [HR1 HR1v].
  { fold a X. pow2_numerals. lra. }
  { fold a X. pow2_numerals. lra. }
  apply model_bounds in HR1v. fold a X in HR1v.
  set (R1 := binary64_value (entry - sl)%float) in *.
  (* tp - entry *)
  destruct (binary64_sub_model tp entry Htp HX) as [HW1 HW1v].
  { fold b X. pow2_numerals. lra. }
  { fold b X. pow2_numerals. lra. }
  apply model_bounds in HW1v. fold b X in HW1v.
  set (W1 := binary64_value (tp - entry)%float) in *.
  assert (HXpos : 0 < X) by lra.
  assert (HXne : ~ X == 0) by lra.
  (* the two quotients *)
  set (t := R1 / X). set (s := W1 / X).
  assert (Ht : (1 # 2251799813685248) <= t <= 2).
  { split; [apply Qle_shift_div_l|apply Qle_shift_div_r]; lra. }
  assert (Hs : (33 # 10) * t <= s <= (495 # 100) * t).
  { split.
    - assert (Hdiff : s - (33 # 10) * t == (W1 - (33 # 10) * R1) / X)
        by (unfold s, t; field; exact HXne).
      assert (0 <= (W1 - (33 # 10) * R1) / X) by (apply Qle_shift_div_l; lra). lra.
    - assert (Hdiff : (495 # 100) * t - s == ((495 # 100) * R1 - W1) / X)
        by (unfold s, t; field; exact HXne).
      assert (0 <= ((495 # 100) * R1 - W1) / X) by (apply Qle_shift_div_l; lra). lra. }
  (* (entry - sl) / entry and (tp - entry) / entry *)
  destruct (binary64_div_model (entry - sl)%float entry t HR1 HX) as [HR2 HR2v].
  { fold R1 X. unfold t. field. exact HXne. }
  { pow2_numerals. lra. }
  { pow2_numerals. lra. }
  apply model_bounds in HR2v.
  set (R2 := binary64_value ((entry - sl) / entry)%float) in *.
  destruct (binary64_div_model (tp - entry)%float entry s HW1 HX) as [HW2 HW2v].
  { fold W1 X. unfold s. field. exact HXne. }
  { pow2_numerals. lra. }
  { pow2_numerals. lra. }
  apply model_bounds in HW2v.
  set (W2 := binary64_value ((tp - entry) / entry)%float) in *.
  (* the percentages *)
  destruct (binary64_mul_model ((entry - sl) / entry)%float (flit 100 0) HR2 Hh) as [Hrisk Hriskv].
  { fold R2. rewrite Hhv. pow2_numerals. lra. }
  { fold R2. rewrite Hhv. pow2_numerals. lra. }
  apply model_bounds in Hriskv. fold R2 risk in Hriskv, Hrisk. rewrite Hhv in Hriskv.
  set (P := binary64_value risk) in *.
  destruct (binary64_mul_model ((tp - entry) / entry)%float (flit 100 0) HW2 Hh)
    as [Hreward Hrewardv].
  { fold W2. rewrite Hhv. pow2_numerals. lra. }
  { fold W2. rewrite Hhv. pow2_numerals. lra. }
  apply model_bounds in Hrewardv. fold W2 reward in Hrewardv, Hreward. rewrite Hhv in Hrewardv.
  set (G := binary64_value reward) in *.
  (* the ratio *)
  assert (HPpos : 0 < P) by lra.
  assert (HPne : ~ P == 0) by lra.
  set (q := G / P).
  assert (Hq : (32 # 10) * 1 <= q <= (497 # 100) * 1).
  { split; [apply Qle_shift_div_l|apply Qle_shift_div_r]; lra. }
  destruct (binary64_div_model reward risk q Hreward Hrisk) as [Hratio Hratiov].
  { fold G P. unfold q. field. exact HPne. }
  { pow2_numerals. lra. }
  { pow2_numerals. lra. }
  apply model_bounds in Hratiov.
  pose proof (Q.le_max_l a b) as Hmaxa. pose proof (Q.le_max_r a b) as Hmaxb.
  split; [exact Hrisk|]. split; [exact Hratio|]. split; [lra|]. split.
  - intros Hwider. rewrite Qabs_pos in Hwider by lra. pow2_numerals.
    assert (Hs' : (3999996 # 1000000) * t <= s <= (4000004 # 1000000) * t).
    { split.
      - assert (Hdiff : s - (3999996 # 1000000) * t == (W1 - (3999996 # 1000000) * R1) / X)
          by (unfold s, t; field; exact HXne).
        assert (0 <= (W1 - (3999996 # 1000000) * R1) / X) by (apply Qle_shift_div_l; lra). lra.
      - assert (Hdiff : (4000004 # 1000000) * t - s == ((4000004 # 1000000) * R1 - W1) / X)
          by (unfold s, t; field; exact HXne).
        assert (0 <= ((4000004 # 1000000) * R1 - W1) / X) by (apply Qle_shift_div_l; lra).
        lra. }
    assert (Hq' : (3999995 # 1000000) * 1 <= q <= (4000005 # 1000000) * 1).
    { split; [apply Qle_shift_div_l|apply Qle_shift_div_r]; lra. }
    lra.
  - fold X. apply Qabs_Qle_condition. pow2_numerals. lra.
Qed.

(** The risk/reward computation of a short bracket, operation by
    operation. *)
Lemma short_ratio_model (sl tp : float) :
  let a := binary64_value sl in
  let b := binary64_value tp in
  2 ^ (-960) <= b -> a <= 2 ^ 1000 -> b < a -> a <= 2 ^ 48 * (a - b) ->
  let entry := (sl - (sl - tp) * flit 2 (-1))%float in
  let risk := ((sl - entry) / entry * flit 100 0)%float in
  let reward := ((entry - tp) / entry * flit 100 0)%float in
  is_normal64 risk /\ is_normal64 (reward / risk)%float
  /\ 3 <= binary64_value (reward / risk)%float <= 5
  /\ (Qmax a b <= 2 ^ 30 * Qabs (b - a) ->
      (399999 # 100000) <= binary64_value (reward / risk)%float <= (400001 # 100000))
  /\ Qabs (binary64_value entry - (a + (2 # 10) * (b - a))) <= 2 ^ (-52) * Qmax a b.
Proof.
  intros a b Hlow Hhigh Hab Hwide entry risk reward.
  pow2_numerals.
  assert (Hsl : is_normal64 sl).
  { apply is_normal64_intro. fold a. pow2_numerals. lra. }
  assert (Htp : is_normal64 tp).
  { apply is_normal64_intro. fold b. pow2_numerals. lra. }
  destruct binary64_fifth as [Hc Hcv]. destruct binary64_hundred as [Hh Hhv].
  (* sl - tp *)
  destruct (binary64_sub_model sl tp Hsl Htp) as [HD HDv].
  { fold a b. pow2_numerals. lra. }
  { fold a b. pow2_numerals. lra. }
  apply model_bounds in HDv. fold a b in HDv.
  set (D := binary64_value (sl - tp)%float) in *.
  (* (sl - tp) * 0.2 *)
  destruct (binary64_mul_model (sl - tp)%float (flit 2 (-1)) HD Hc) as [HE HEv].
  { fold D. rewrite Hcv. pow2_numerals. lra. }
  { fold D. rewrite Hcv. pow2_numerals. lra. }
  apply model_bounds in HEv. fold D in HEv. rewrite Hcv in HEv.
  set (E := binary64_value ((sl - tp) * flit 2 (-1))%float) in *.
  (* sl - (sl - tp) * 0.2 *)
  destruct (binary64_sub_model sl ((sl - tp) * flit 2 (-1))%float Hsl HE) as [HX HXv].
  { fold a E. pow2_numerals. lra. }
  { fold a E. pow2_numerals. lra. }
  apply model_bounds in HXv. fold a E entry in HXv, HX.
  set (X := binary64_value entry) in *.
  (* sl - entry *)
  destruct (binary64_sub_model sl entry Hsl HX) as [HR1 HR1v].
  { fold a X. pow2_numerals. lra. }
  { fold a X. pow2_numerals. lra. }
  apply model_bounds in HR1v. fold a X in HR1v.
  set (R1 := binary64_value (sl - entry)%float) in *.
  (* entry - tp *)
  destruct (binary64_sub_model entry tp HX Htp) as [HW1 HW1v].
  { fold b X. pow2_numerals. lra. }
  { fold b X. pow2_numerals. lra. }
  apply model_bounds in HW1v. fold b X in HW1v.
  set (W1 := binary64_value (entry - tp)%float) in *.
  assert (HXpos : 0 < X) by lra.
  assert (HXne : ~ X == 0) by lra.
  (* the two quotients *)
  set (t := R1 / X). set (s := W1 / X).
  assert (Ht : (1 # 2251799813685248) <= t <= 2).
  { split; [apply Qle_shift_div_l|apply Qle_shift_div_r]; lra. }
  assert (Hs : (33 # 10) * t <= s <= (495 # 100) * t).
  { split.
    - assert (Hdiff : s - (33 # 10) * t == (W1 - (33 # 10) * R1) / X)
        by (unfold s, t; field; exact HXne).
      assert (0 <= (W1 - (33 # 10) * R1) / X) by (apply Qle_shift_div_l; lra). lra.
    - assert (Hdiff : (495 # 100) * t - s == ((495 # 100) * R1 - W1) / X)
        by (unfold s, t; field; exact HXne).
      assert (0 <= ((495 # 100) * R1 - W1) / X) by (apply Qle_shift_div_l; lra). lra. }
  (* (sl - entry) / entry and (entry - tp) / entry *)
  destruct (binary64_div_model (sl - entry)%float entry t HR1 HX) as [HR2 HR2v].
  { fold R1 X. unfold t. field. exact HXne. }
  { pow2_numerals. lra. }
  { pow2_numerals. lra. }
  apply model_bounds in HR2v.
  set (R2 := binary64_value ((sl - entry) / entry)%float) in *.
  destruct (binary64_div_model (entry - tp)%float entry s HW1 HX) as [HW2 HW2v].
  { fold W1 X. unfold s. field. exact HXne. }
  { pow2_numerals. lra. }
  { pow2_numerals. lra. }
  apply model_bounds in HW2v.
  set (W2 := binary64_value ((entry - tp) / entry)%float) in *.
  (* the percentages *)
  destruct (binary64_mul_model ((sl - entry) / entry)%float (flit 100 0) HR2 Hh) as [Hrisk Hriskv].
  { fold R2. rewrite Hhv. pow2_numerals. lra. }
  { fold R2. rewrite Hhv. pow2_numerals. lra. }
  apply model_bounds in Hriskv. fold R2 risk in Hriskv, Hrisk. rewrite Hhv in Hriskv.
  set (P := binary64_value risk) in *.
  destruct (binary64_mul_model ((entry - tp) / entry)%float (flit 100 0) HW2 Hh)
    as [Hreward Hrewardv].
  { fold W2. rewrite Hhv. pow2_numerals. lra. }
  { fold W2. rewrite Hhv. pow2_numerals. lra. }
  apply model_bounds in Hrewardv. fold W2 reward in Hrewardv, Hreward. rewrite Hhv in Hrewardv.
  set (G := binary64_value reward) in *.
  (* the ratio *)
  assert (HPpos : 0 < P) by lra.
  assert (HPne : ~ P == 0) by lra.
  set (q := G / P).
  assert (Hq : (32 # 10) * 1 <= q <= (497 # 100) * 1).
  { split; [apply Qle_shift_div_l|apply Qle_shift_div_r]; lra. }
  destruct (binary64_div_model reward risk q Hreward Hrisk) as [Hratio Hratiov].
  { fold G P. unfold q. field. exact HPne. }
  { pow2_numerals. lra. }
  { pow2_numerals. lra. }
  apply model_bounds in Hratiov.
  pose proof (Q.le_max_l a b) as Hmaxa. pose proof (Q.le_max_r a b) as Hmaxb.
  split; [exact Hrisk|]. split; [exact Hratio|]. split; [lra|]. split.
  - intros Hwider. rewrite Qabs_neg in Hwider by lra. pow2_numerals.
    assert (Hs' : (3999996 # 1000000) * t <= s <= (4000004 # 1000000) * t).
    { split.
      - assert (Hdiff : s - (3999996 # 1000000) * t == (W1 - (3999996 # 1000000) * R1) / X)
          by (unfold s, t; field; exact HXne).
        assert (0 <= (W1 - (3999996 # 1000000) * R1) / X) by (apply Qle_shift_div_l; lra). lra.
      - assert (Hdiff : (4000004 # 1000000) * t - s == ((4000004 # 1000000) * R1 - W1) / X)
          by (unfold s, t; field; exact HXne).
        assert (0 <= ((4000004 # 1000000) * R1 - W1) / X) by (apply Qle_shift_div_l; lra).
        lra. }
    assert (Hq' : (3999995 # 1000000) * 1 <= q <= (4000005 # 1000000) * 1).
    { split; [apply Qle_shift_div_l|apply Qle_shift_div_r]; lra. }
    lra.
  - fold X. apply Qabs_Qle_condition. pow2_numerals. lra.
Qed.

Lemma binary64_zero_ltb_normal (x : float) :
  is_normal64 x -> (flit 0 0 <? x)%float = true.
Proof.
  intros (m & e & Hx & _). rewrite FloatAxioms.ltb_spec, Hx.
  reflexivity.
Qed.

Lemma binary64_zero_leb_normal (x : float) :
  is_normal64 x -> (x <=? flit 0 0)%float = false.
Proof.
  intros (m & e & Hx & _). rewrite FloatAxioms.leb_spec, Hx.
  reflexivity.
Qed.

Lemma is_normal64_range (x : float) (e : Z) :
  (-1022 <= e)%Z -> 2 ^ e <= binary64_value x -> is_normal64 x.
Proof.
  intros He Hx. apply is_normal64_intro.
  apply (Qle_trans _ (2 ^ e)); [apply pow2_le; exact He|exact Hx].
Qed.

(** The stops of a decision in the range of the model: between [2^-960]
    and [2^1000], and at least [2^-48] of the larger one apart. *)
Lemma riskRewardRatio_model (d : Decision float) :
  checkBracket d = None ->
  let sl := binary64_value (StopLoss d) in
  let tp := binary64_value (TakeProfit d) in
  2 ^ (-960) <= Qmin sl tp -> Qmax sl tp <= 2 ^ 1000 ->
  Qmax sl tp <= 2 ^ 48 * Qabs (tp - sl) ->
  Qabs (binary64_value (entryPrice d) - (sl + (2 # 10) * (tp - sl))) <= 2 ^ (-52) * Qmax sl tp
  /\ 3 <= binary64_value (riskRewardRatio d) <= 5
  /\ (Qmax sl tp <= 2 ^ 30 * Qabs (tp - sl) ->
      (399999 # 100000) <= binary64_value (riskRewardRatio d) <= (400001 # 100000))
  /\ (riskRewardRatio d <? flit 3 0)%go = false.
Proof.
  intros Hbr sl tp Hlow Hhigh Hwide.
  pose proof (Q.le_min_l sl tp) as Hmin1. pose proof (Q.le_min_r sl tp) as Hmin2.
  pose proof (Q.le_max_l sl tp) as Hmax1. pose proof (Q.le_max_r sl tp) as Hmax2.
  assert (Hsl : is_normal64 (StopLoss d)).
  { apply (is_normal64_range _ (-960)); [lia|]. fold sl. lra. }
  assert (Htp : is_normal64 (TakeProfit d)).
  { apply (is_normal64_range _ (-960)); [lia|]. fold tp. lra. }
  destruct binary64_three as [Hthree Hthreev].
  assert (Hmodel : Qabs (binary64_value (entryPrice d) - (sl + (2 # 10) * (tp - sl)))
                   <= 2 ^ (-52) * Qmax sl tp
                   /\ is_normal64 (riskRewardRatio d)
                   /\ 3 <= binary64_value (riskRewardRatio d) <= 5
                   /\ (Qmax sl tp <= 2 ^ 30 * Qabs (tp - sl) ->
                       (399999 # 100000) <= binary64_value (riskRewardRatio d)
                       <= (400001 # 100000))).
  { unfold riskRewardRatio, riskPercent, rewardPercent, entryPrice, checkBracket in *.
    destruct (Action d =? "open_long")%string.
    - destruct (TakeProfit d <=? StopLoss d)%go eqn:Hdir; [discriminate|].
      assert (Hlt : sl < tp).
      { apply Qnot_le_lt. intros Hle.
        apply (binary64_leb_normal _ _ Htp Hsl) in Hle.
        cbn [fle binary64] in Hdir. congruence. }
      rewrite Qabs_pos in Hwide by lra.
      destruct (long_ratio_model (StopLoss d) (TakeProfit d))
        as (Hrisk & Hratio & Hvalue & Htight & Hentry);
        [fold sl; lra|fold tp; lra|exact Hlt|fold sl tp; lra|].
      cbn [fadd fsub fmul fdiv flt binary64] in *.
      rewrite (binary64_zero_ltb_normal _ Hrisk).
      split; [exact Hentry|]. split; [exact Hratio|]. split; [exact Hvalue|exact Htight].
    - destruct (StopLoss d <=? TakeProfit d)%go eqn:Hdir; [discriminate|].
      assert (Hlt : tp < sl).
      { apply Qnot_le_lt. intros Hle.
        apply (binary64_leb_normal _ _ Hsl Htp) in Hle.
        cbn [fle binary64] in Hdir. congruence. }
      rewrite Qabs_neg in Hwide by lra.
      destruct (short_ratio_model (StopLoss d) (TakeProfit d))
        as (Hrisk & Hratio & Hvalue & Htight & Hentry);
        [fold tp; lra|fold sl; lra|exact Hlt|fold sl tp; lra|].
      cbn [fadd fsub fmul fdiv flt binary64] in *.
      rewrite (binary64_zero_ltb_normal _ Hrisk).
      split; [exact Hentry|]. split; [exact Hratio|]. split; [exact Hvalue|exact Htight]. }
  destruct Hmodel as (Hentry & Hratio & Hvalue & Htight).
  split; [exact Hentry|]. split; [exact Hvalue|]. split; [exact Htight|].
  destruct (riskRewardRatio d <? flit 3 0)%go eqn:Hc; [|reflexivity].
  cbn [flt binary64] in Hc. apply (binary64_ltb_normal _ _ Hratio Hthree) in Hc.
  rewrite Hthreev in Hc. lra.
Qed.

(** C2 (as the code has it, in binary64): for an opening decision that
    passes the checks of the stops and of the direction, whose stops lie
    between [2^-960] and [2^1000] and are at least [2^-48] of the larger
    one apart, the entry computed lies at 20% of the bracket up to [2^-52]
    of the larger stop, the ratio computed lies between 3 and 5 (between
    3.99999 and 4.00001 when the stops are at least [2^-30] of the larger
    one apart), and [validateDecision] never reports a ratio that is too
    low. *)
Theorem binary64_rr_near_four (d : Decision float) (accountEquity : float)
    (btcEthLeverage altcoinLeverage : Z) (minPositionSizeUSD maxPositionSizeUSD : float) :
  isOpenAction (Action d) = true ->
  ((StopLoss d <=? flit 0 0) || (TakeProfit d <=? flit 0 0))%go = false ->
  checkBracket d = None ->
  let sl := binary64_value (StopLoss d) in
  let tp := binary64_value (TakeProfit d) in
  2 ^ (-960) <= Qmin sl tp -> Qmax sl tp <= 2 ^ 1000 ->
  Qmax sl tp <= 2 ^ 48 * Qabs (tp - sl) ->
  Qabs (binary64_value (entryPrice d) - (sl + (2 # 10) * (tp - sl))) <= 2 ^ (-52) * Qmax sl tp
  /\ 3 <= binary64_value (riskRewardRatio d) <= 5
  /\ (Qmax sl tp <= 2 ^ 30 * Qabs (tp - sl) ->
      (399999 # 100000) <= binary64_value (riskRewardRatio d) <= (400001 # 100000))
  /\ (riskRewardRatio d <? flit 3 0)%go = false
  /\ forall ratio risk reward stopLoss takeProfit,
       validateDecision d accountEquity btcEthLeverage altcoinLeverage
         minPositionSizeUSD maxPositionSizeUSD
       <> Some (ErrRiskRewardTooLow ratio risk reward stopLoss takeProfit).
Proof.
  intros Hopen Hpos Hbr sl tp Hlow Hhigh Hwide.
  destruct (riskRewardRatio_model d Hbr Hlow Hhigh Hwide) as (Hentry & Hvalue & Htight & Hge).
  split; [exact Hentry|]. split; [exact Hvalue|]. split; [exact Htight|]. split; [exact Hge|].
  intros ratio risk reward stopLoss takeProfit.
  unfold validateDecision.
  destruct (negb (default false (validActions !! Action d))); [discriminate|].
  rewrite Hopen.
  destruct ((Leverage d <=? 0)%Z || _)%bool; [discriminate|].
  destruct (PositionSizeUSD d <=? flit 0 0)%go; [discriminate|].
  destruct ((flit 0 0 <? minPositionSizeUSD)%go && _)%bool; [discriminate|].
  unfold checkMaxPositionSize.
  destruct (flit 0 0 <? maxPositionSizeUSD)%go.
  - destruct (maxPositionSizeUSD <? PositionSizeUSD d)%go; [discriminate|].
    rewrite Hpos, Hbr, Hge. discriminate.
  - destruct (_ <? PositionSizeUSD d)%go.
    + destruct (isBTCETH (Symbol d)); discriminate.
    + rewrite Hpos, Hbr, Hge. discriminate.
Qed.

Lemma binary64_rr_near_four_witness :
  3 <= binary64_value (riskRewardRatio (F := float) (rrBoundaryDecision 100600)) <= 5
  /\ validateDecision (F := float) (rrBoundaryDecision 100600) (flit 1000 0) 10 5 (flit 0 0)
       (flit 0 0) = None.
Proof.
  destruct (binary64_rr_near_four (rrBoundaryDecision 100600) (flit 1000 0) 10 5 (flit 0 0)
              (flit 0 0)) as (_ & Hvalue & _).
  - reflexivity.
  - vm_compute. reflexivity.
  - vm_compute. reflexivity.
  - vm_compute. discriminate.
  - vm_compute. discriminate.
  - vm_compute. discriminate.
  - split; [exact Hvalue|]. vm_compute. reflexivity.
Defined.

Local Close Scope Q_scope.

(** C2, counterexample: in binary64 the stops 1 and 2 give a computed ratio
    that is not 4; and the stops 10^16 and 10^16 + 4 pass the checks of the
    stops and of the direction, the entry rounds to the stop loss, the
    ratio computed is 0 and the decision is rejected for its ratio. *)
Lemma binary64_rr_branch_reached :
  (riskRewardRatio (F := float) unitBracketDecision =? flit 4 0)%go = false
  /\ ((StopLoss (F := float) tightBracketDecision <=? flit 0 0)
      || (TakeProfit (F := float) tightBracketDecision <=? flit 0 0))%go = false
  /\ checkBracket (F := float) tightBracketDecision = None
  /\ entryPrice (F := float) tightBracketDecision = StopLoss tightBracketDecision
  /\ validateDecision (F := float) tightBracketDecision (flit 1000 0) 10 5 (flit 0 0) (flit 0 0)
     = Some (ErrRiskRewardTooLow (flit 0 0) (flit 0 0) (flit 4 (-14)) (flit 1 16)
               (flit 10000000000000004 0)).
Proof. vm_compute. repeat split. Qed.

(** C4: an accepted opening decision has its leverage between 1 and the cap
    of its symbol, the cap of BTC and ETH for BTCUSDT and ETHUSDT and the
    cap of the altcoins for every other symbol; with a leverage above the
    cap the decision is rejected. *)
Theorem leverage_within_cap {F : Type} `{Float64 F} (d : Decision F) (accountEquity : F)
    (btcEthLeverage altcoinLeverage : Z) (minPositionSizeUSD maxPositionSizeUSD : F) :
  isOpenAction (Action d) = true ->
  let cap := if decide (Symbol d = "BTCUSDT" \/ Symbol d = "ETHUSDT")
             then btcEthLeverage else altcoinLeverage in
  (validateDecision d accountEquity btcEthLeverage altcoinLeverage
     minPositionSizeUSD maxPositionSizeUSD = None -> 1 <= Leverage d <= cap)
  /\ (cap < Leverage d ->
      validateDecision d accountEquity btcEthLeverage altcoinLeverage
        minPositionSizeUSD maxPositionSizeUSD = Some (ErrLeverage cap (Symbol d) (Leverage d))).
Proof.
  intros Hopen cap.
  assert (Hcap : maxLeverage (Symbol d) btcEthLeverage altcoinLeverage = cap).
  { unfold maxLeverage, isBTCETH, cap.
    destruct (Symbol d =? "BTCUSDT")%string eqn:Hb; cbn [orb].
    - apply String.eqb_eq in Hb. rewrite decide_True by auto. reflexivity.
    - destruct (Symbol d =? "ETHUSDT")%string eqn:He.
      + apply String.eqb_eq in He. rewrite decide_True by auto. reflexivity.
      + apply String.eqb_neq in Hb, He. rewrite decide_False by tauto. reflexivity. }
  assert (Hv : default false (validActions !! Action d) = true).
  { destruct (isOpenAction_cases _ Hopen) as [-> | ->]; reflexivity. }
  unfold validateDecision. rewrite Hv, Hopen, Hcap. cbn [negb].
  destruct ((Leverage d <=? 0)%Z || (Leverage d >? cap)%Z) eqn:Hlev.
  - split; [discriminate | reflexivity].
  - apply orb_false_iff in Hlev. destruct Hlev as [Hlo Hhi].
    apply Z.leb_gt in Hlo. rewrite Z.gtb_ltb in Hhi. apply Z.ltb_ge in Hhi.
    split; [intros _; lia | intros Hgt; lia].
Qed.

Lemma leverage_within_cap_witness :
  validateDecision (F := float) (leverageDecision 25) (flit 1000 0) 10 5 (flit 0 0) (flit 0 0)
  = Some (ErrLeverage 5 "SOLUSDT" 25)
  /\ 1 <= Leverage (F := float) (leverageDecision 5) <= 5.
Proof.
  split.
  - apply (leverage_within_cap (leverageDecision 25) (flit 1000 0) 10 5 (flit 0 0) (flit 0 0));
      [reflexivity | vm_compute; reflexivity].
  - apply (leverage_within_cap (leverageDecision 5) (flit 1000 0) 10 5 (flit 0 0) (flit 0 0));
      [reflexivity | vm_compute; reflexivity].
Defined.

(** ** DetectOutsideDay *)

Lemma DetectOutsideDay_last_two {F : Type} `{Float64 F} (klines : list (Kline F)) :
  (2 <= length klines)%nat ->
  exists current previous,
    klines !! (length klines - 1)%nat = Some current
    /\ klines !! (length klines - 2)%nat = Some previous
    /\ DetectOutsideDay klines = detectOutsideDayOn current previous.
Proof.
  intros Hlen. unfold DetectOutsideDay.
  destruct (lookup_lt_is_Some_2 klines (length klines - 1)%nat) as [current Hc]; [lia|].
  destruct (lookup_lt_is_Some_2 klines (length klines - 2)%nat) as [previous Hp]; [lia|].
  exists current, previous. rewrite Hc, Hp.
  destruct (length klines <? 2)%nat eqn:Hlt; [apply Nat.ltb_lt in Hlt; lia|].
  auto.
Qed.

(** C10 (as the code has it): on a series of at least two bars, with
    [current] the last bar and [previous] the one before, the signal is
    WAIT unless the high of [current] is above the high of [previous], its
    low is below the low of [previous] and the body ratio is not below
    2.0, where the body ratio is the body [|close - open|] of [current]
    over the body of [previous], and 0 when the body of [previous] is not
    above 0; when the three hold, a close below the previous low gives
    LONG, else a close above the previous high gives SHORT, else the
    signal is WAIT. *)
Theorem outside_day_signal {F : Type} `{Float64 F} (klines : list (Kline F))
    (current previous : Kline F) :
  (2 <= length klines)%nat ->
  klines !! (length klines - 1)%nat = Some current ->
  klines !! (length klines - 2)%nat = Some previous ->
  let outside := (High current >? High previous)%go && (Low current <? Low previous)%go in
  let currentBody := fabs (Close current - Open current)%go in
  let previousBody := fabs (Close previous - Open previous)%go in
  let ratio := if (previousBody >? flit 0 0)%go then (currentBody / previousBody)%go
               else flit 0 0 in
  let wideBody := negb (ratio <? flit 2 0)%go in
  let signal := SignalType (DetectOutsideDay klines) in
  (signal <> OutsideDayWAIT -> outside = true /\ wideBody = true)
  /\ (outside = true -> wideBody = true ->
      ((Close current <? Low previous)%go = true -> signal = OutsideDayLONG)
      /\ ((Close current <? Low previous)%go = false ->
          (Close current >? High previous)%go = true -> signal = OutsideDaySHORT)
      /\ ((Close current <? Low previous)%go = false ->
          (Close current >? High previous)%go = false -> signal = OutsideDayWAIT)).
Proof.
  intros Hlen Hc Hp outside currentBody previousBody ratio wideBody signal.
  destruct (DetectOutsideDay_last_two klines Hlen) as (c & p & Hc' & Hp' & Heq).
  rewrite Hc in Hc'. rewrite Hp in Hp'. injection Hc' as <-. injection Hp' as <-.
  subst signal. rewrite Heq. unfold detectOutsideDayOn. fold outside.
  change (bodyRatio current previous) with ratio.
  destruct outside; cbn [negb].
  - subst wideBody. destruct (ratio <? flit 2 0)%go; cbn [negb SignalType].
    + split; [congruence | discriminate].
    + destruct (Close current <? Low previous)%go; cbn [SignalType].
      * split; [auto|]. intros _ _. repeat split; congruence.
      * destruct (High previous <? Close current)%go; cbn [SignalType].
        -- split; [auto|]. intros _ _. repeat split; congruence.
        -- split; [congruence|]. intros _ _. repeat split; congruence.
  - cbn [SignalType]. split; [congruence | discriminate].
Qed.

(** The body of the engulfing bar is 12 times the body of the narrow bar,
    and it closes under the low of the narrow bar. *)
Lemma outside_day_signal_witness :
  SignalType (DetectOutsideDay (F := float) [narrowBar; engulfingBar]) = OutsideDayLONG.
Proof.
  apply (outside_day_signal (F := float) [narrowBar; engulfingBar] engulfingBar narrowBar);
    try reflexivity; cbn; lia.
Defined.

(** C10, counterexample: a current bar whose open is not a number has a
    body ratio that is not a number; the ratio is not at least 2.0, it is
    not below 2.0 either, and the signal is LONG. *)
Lemma nan_ratio_gives_signal :
  (fabs (Close (F := float) narrowBar - Open narrowBar) >? flit 0 0)%go = true
  /\ (High nanOpenBar >? High (F := float) narrowBar)%go = true
  /\ (Low nanOpenBar <? Low (F := float) narrowBar)%go = true
  /\ PrimFloat.is_nan nanBodyRatio = true
  /\ (flit 2 0 <=? nanBodyRatio)%go = false
  /\ (nanBodyRatio <? flit 2 0)%go = false
  /\ SignalType (DetectOutsideDay [narrowBar; nanOpenBar]) = OutsideDayLONG.
Proof. vm_compute. repeat split. Qed.

(** ** CallWithMessages *)

Lemma isRetryableError_iff (err : mcpError) :
  isRetryableError err = true
  <-> exists retryable, In retryable retryableErrors
                        /\ strings_Contains (errorText err) retryable = true.
Proof. unfold isRetryableError. apply existsb_exists. Qed.

(** The loop of [CallWithMessages], pass by pass. *)
Lemma CallWithMessages_passes (callOnce : Z -> mcpError + string) (apiKey : string) :
  apiKey <> "" ->
  CallWithMessages callOnce apiKey =
  match callOnce 1 with
  | inr r => ((r, None), [Call 1])
  | inl e1 =>
      if isRetryableError e1 then
        match callOnce 2 with
        | inr r => ((r, None), [Call 1; Sleep (2 * time_Second); Call 2])
        | inl e2 =>
            if isRetryableError e2 then
              match callOnce 3 with
              | inr r =>
                  ((r, None),
                   [Call 1; Sleep (2 * time_Second); Call 2; Sleep (4 * time_Second); Call 3])
              | inl e3 =>
                  if isRetryableError e3 then
                    (("", Some (ErrRetriesFailed 3 (Some e3))),
                     [Call 1; Sleep (2 * time_Second); Call 2; Sleep (4 * time_Second);
                      Call 3])
                  else
                    (("", Some e3),
                     [Call 1; Sleep (2 * time_Second); Call 2; Sleep (4 * time_Second);
                      Call 3])
              end
            else (("", Some e2), [Call 1; Sleep (2 * time_Second); Call 2])
        end
      else (("", Some e1), [Call 1])
  end.
Proof.
  intros Hkey. unfold CallWithMessages.
  destruct (apiKey =? "")%string eqn:Hk; [apply String.eqb_eq in Hk; contradiction|].
  change (Z.to_nat 3) with 3%nat. cbn [retryLoop].
  destruct (callOnce 1) as [e1|r1]; [|reflexivity].
  destruct (isRetryableError e1); cbn [negb]; [|reflexivity].
  change (1 + 1) with 2.
  destruct (callOnce 2) as [e2|r2]; [|reflexivity].
  destruct (isRetryableError e2); cbn [negb]; [|reflexivity].
  change (2 + 1) with 3.
  destruct (callOnce 3) as [e3|r3]; [|reflexivity].
  destruct (isRetryableError e3); cbn [negb]; reflexivity.
Qed.

(** The member of a list of events given in full. *)
Ltac in_events Hc :=
  repeat (destruct Hc as [Hc | Hc]; [try discriminate Hc | ]); try contradiction.

(** A second or a third call follows a retryable failure and its wait. *)
Ltac second_call :=
  match goal with
  | Hk : 1 <= ?k, Hc : _ = ?k + 1 |- _ =>
      first
        [ assert (k = 1) by lia; subst k;
          match goal with
          | H1 : ?f 1 = inl ?e |- _ =>
              exists e, []; eexists;
              split; [exact H1 | split; [apply isRetryableError_iff; assumption | reflexivity]]
          end
        | assert (k = 2) by lia; subst k;
          match goal with
          | H2 : ?f 2 = inl ?e |- _ =>
              exists e, [Call 1; Sleep (2 * time_Second)]; eexists;
              split; [exact H2 | split; [apply isRetryableError_iff; assumption | reflexivity]]
          end ]
  end.

(** A failure that is not retryable is the last event and is returned. *)
Ltac last_call :=
  first
    [ exfalso; congruence
    | split;
      [ congruence
      | first
          [ exists []; reflexivity
          | exists [Call 1; Sleep (2 * time_Second)]; reflexivity
          | exists [Call 1; Sleep (2 * time_Second); Call 2; Sleep (4 * time_Second)];
            reflexivity ] ] ].



(** ** fetchMarketDataForContext *)

Section MarketDataFacts.
Context {F : Type} `{Float64 F}.

Lemma insert_true_fold {A : Type} (key : A -> string) (l : list A) (set : gmap string bool)
    (symbol : string) :
  foldl (fun set x => <[key x := true]> set) set l !! symbol
  = if decide (symbol ∈ map key l) then Some true else set !! symbol.
Proof.
  revert set. induction l as [|x l IH]; intros set; cbn [foldl map].
  - rewrite decide_False by apply not_elem_of_nil. reflexivity.
  - rewrite IH. destruct (decide (symbol ∈ map key l)) as [Hin|Hnin].
    + rewrite decide_True by (apply elem_of_cons; right; exact Hin). reflexivity.
    + destruct (decide (key x = symbol)) as [Heq|Hne].
      * rewrite decide_True by (apply elem_of_cons; left; symmetry; exact Heq).
        rewrite Heq. apply lookup_insert_eq.
      * rewrite decide_False
          by (intros Hx; apply elem_of_cons in Hx; destruct Hx; [congruence | contradiction]).
        apply lookup_insert_ne. exact Hne.
Qed.

Lemma positionSymbols_lookup (positions : list (PositionInfo F)) (symbol : string) :
  default false (positionSymbols positions !! symbol)
  = if decide (symbol ∈ map PositionSymbol positions) then true else false.
Proof.
  unfold positionSymbols. rewrite insert_true_fold.
  destruct (decide _); reflexivity.
Qed.

Lemma symbolSet_lookup (positions : list (PositionInfo F))
    (candidateCoins : list CandidateCoin) (symbol : string) :
  symbolSet positions candidateCoins !! symbol
  = if decide (symbol ∈ map PositionSymbol positions
               \/ symbol ∈ map CoinSymbol candidateCoins)
    then Some true else None.
Proof.
  unfold symbolSet, calculateMaxCandidates. rewrite firstn_all, !insert_true_fold.
  destruct (decide (symbol ∈ map CoinSymbol candidateCoins)) as [Hc|Hc].
  - rewrite decide_True by tauto. reflexivity.
  - destruct (decide (symbol ∈ map PositionSymbol positions)) as [Hp|Hp].
    + rewrite decide_True by tauto. reflexivity.
    + rewrite decide_False by tauto. reflexivity.
Qed.

(** The map left by the loop, entry by entry; the order in which the loop
    visits the symbols plays no part. *)
Lemma fetchMarketDataForContext_lookup (market_Get : string -> option (Data F))
    (positions : list (PositionInfo F)) (candidateCoins : list CandidateCoin)
    (symbol : string) :
  fetchMarketDataForContext market_Get positions candidateCoins !! symbol
  = match symbolSet positions candidateCoins !! symbol with
    | Some _ => kept market_Get positions symbol
    | None => None
    end.
Proof.
  unfold fetchMarketDataForContext.
  apply (map_fold_weak_ind
           (fun (r : gmap string (Data F)) (m : gmap string bool) =>
              r !! symbol = match m !! symbol with
                            | Some _ => kept market_Get positions symbol
                            | None => None
                            end)).
  - rewrite !lookup_empty. reflexivity.
  - intros i x m r Hi IH. unfold fetchSymbol.
    destruct (decide (i = symbol)) as [->|Hne].
    + rewrite lookup_insert_eq. rewrite Hi in IH. unfold kept.
      destruct (market_Get symbol) as [data|]; [|exact IH].
      destruct (belowLiquidity _ data); [exact IH | apply lookup_insert_eq].
    + rewrite (lookup_insert_ne m) by exact Hne. rewrite <- IH.
      destruct (market_Get i) as [data|]; [|reflexivity].
      destruct (belowLiquidity _ data); [reflexivity | apply lookup_insert_ne; exact Hne].
Qed.

End MarketDataFacts.

(** C6 (as the code has it): in the map handed to the prompt builder, a
    symbol that is not an open position and whose snapshot carries an open
    interest and a positive price is left out when the open interest value
    in millions, [oi_latest * current_price / 1000000], is below 15; the
    snapshot of a symbol held as a position is kept whatever its value; a
    symbol whose fetch fails is left out; and the entry of a symbol depends
    on the fetch of that symbol only. *)
Theorem liquidity_filter {F : Type} `{Float64 F} (market_Get : string -> option (Data F))
    (positions : list (PositionInfo F)) (candidateCoins : list CandidateCoin)
    (symbol : string) :
  let marketDataMap := fetchMarketDataForContext market_Get positions candidateCoins in
  let held := symbol ∈ map PositionSymbol positions in
  (~ held ->
   forall data oi,
     market_Get symbol = Some data ->
     OpenInterest data = Some oi ->
     (CurrentPrice data >? flit 0 0)%go = true ->
     (Latest oi * CurrentPrice data / flit 1000000 0 <? flit 15 0)%go = true ->
     marketDataMap !! symbol = None)
  /\ (held -> forall data, market_Get symbol = Some data -> marketDataMap !! symbol = Some data)
  /\ (market_Get symbol = None -> marketDataMap !! symbol = None)
  /\ (forall market_Get' : string -> option (Data F),
        market_Get' symbol = market_Get symbol ->
        fetchMarketDataForContext market_Get' positions candidateCoins !! symbol
        = marketDataMap !! symbol).
Proof.
  intros marketDataMap held. subst marketDataMap.
  rewrite !fetchMarketDataForContext_lookup, symbolSet_lookup. unfold kept.
  rewrite positionSymbols_lookup. fold held.
  split; [|split; [|split]].
  - intros Hnot data oi Hget Hoi Hprice Hlow.
    destruct (decide (held \/ _)); [|reflexivity].
    rewrite Hget, decide_False by exact Hnot.
    unfold belowLiquidity. rewrite Hoi, Hprice. cbn [negb andb]. rewrite Hlow. reflexivity.
  - intros Hheld data Hget.
    rewrite decide_True by (left; exact Hheld).
    rewrite Hget, decide_True by exact Hheld.
    unfold belowLiquidity. destruct (OpenInterest data); reflexivity.
  - intros Hget. rewrite Hget. destruct (decide _); reflexivity.
  - intros market_Get' Hsame.
    rewrite fetchMarketDataForContext_lookup, symbolSet_lookup. unfold kept.
    rewrite positionSymbols_lookup, Hsame. reflexivity.
Qed.

Lemma liquidity_filter_witness :
  fetchMarketDataForContext (F := float) (xyzMarket thinSnapshot) [] [xyzCandidate]
    !! "XYZUSDT" = None
  /\ fetchMarketDataForContext (F := float) (xyzMarket thinSnapshot) [xyzPosition]
       [xyzCandidate] !! "XYZUSDT" = Some thinSnapshot.
Proof.
  split.
  - apply (proj1 (liquidity_filter (F := float) (xyzMarket thinSnapshot) [] [xyzCandidate]
                    "XYZUSDT"))
      with (data := thinSnapshot) (oi := mkOIData (flit 100 0) (flit 999 (-1)));
      [apply not_elem_of_nil | reflexivity | reflexivity | reflexivity | reflexivity].
  - apply (proj1 (proj2 (liquidity_filter (F := float) (xyzMarket thinSnapshot) [xyzPosition]
                           [xyzCandidate] "XYZUSDT")));
      [apply list_elem_of_singleton; reflexivity | reflexivity].
Defined.

(** C6, counterexample: XYZUSDT is not a position, its open interest is 100
    and its price 0, so that its open interest value is 0, below
    15,000,000; its snapshot is in the map all the same. *)
Lemma unpriced_symbol_not_dropped :
  ("XYZUSDT" ∉ map (PositionSymbol (F := float)) [])
  /\ (flit 100 0 * CurrentPrice (F := float) unpricedSnapshot <? flit 15000000 0)%go = true
  /\ fetchMarketDataForContext (F := float) (xyzMarket unpricedSnapshot) [] [xyzCandidate]
       !! "XYZUSDT" = Some unpricedSnapshot.
Proof. split; [apply not_elem_of_nil | split; vm_compute; reflexivity]. Qed.

(** ** Strings and brackets *)

Lemma strings_Index_unfold (s sub : string) :
  strings_Index s sub
  = if String.prefix sub s then Some O
    else match s with
         | EmptyString => None
         | String _ s' => option_map S (strings_Index s' sub)
         end.
Proof. destruct s; reflexivity. Qed.

Lemma length_sliceFrom (s : string) (n : nat) :
  String.length (sliceFrom s n) = (String.length s - n)%nat.
Proof.
  revert s. induction n as [|n IH]; intros [|c s]; cbn; auto.
Qed.

(** A bracket found by [strings.Index] lies inside the string. *)
Lemma strings_Index_bracket_lt (s : string) (i : nat) :
  strings_Index s "[" = Some i -> (i < String.length s)%nat.
Proof.
  revert i. induction s as [|c s IH]; intros i; rewrite strings_Index_unfold.
  - cbn. discriminate.
  - destruct (String.prefix "[" (String c s)).
    + intros [= <-]. cbn. lia.
    + destruct (strings_Index s "[") as [j|]; cbn; [|discriminate].
      intros [= <-]. specialize (IH j eq_refl). lia.
Qed.

Lemma strings_Index_sliceFrom_lt (s : string) (n i : nat) :
  strings_Index (sliceFrom s n) "[" = Some i -> (i + n < String.length s)%nat.
Proof.
  intros Hi. apply strings_Index_bracket_lt in Hi. rewrite length_sliceFrom in Hi. lia.
Qed.

(** The first occurrence in the whole string is not after an occurrence
    found from [n] on. *)
Lemma strings_Index_sliceFrom_first (s sub : string) (n i : nat) :
  strings_Index (sliceFrom s n) sub = Some i ->
  exists first, strings_Index s sub = Some first /\ (first <= i + n)%nat.
Proof.
  revert s i. induction n as [|n IH]; intros s i Hi.
  - destruct s; cbn [sliceFrom] in Hi; exists i; split; auto; lia.
  - destruct s as [|c s]; cbn [sliceFrom] in Hi.
    + exists i. split; [exact Hi | lia].
    + destruct (IH s i Hi) as (first & Hfirst & Hle).
      rewrite strings_Index_unfold. destruct (String.prefix sub (String c s)).
      * exists O. split; [reflexivity | lia].
      * rewrite Hfirst. exists (S first). split; [reflexivity | lia].
Qed.

Lemma matchBracketFrom_range (s : string) (i : nat) (depth : Z) (e : nat) :
  matchBracketFrom s i depth = Some e -> (i <= e < i + String.length s)%nat.
Proof.
  revert i depth. induction s as [|c s IH]; intros i depth; cbn [matchBracketFrom].
  - discriminate.
  - destruct (Ascii.eqb c "[").
    + intros He. apply IH in He. cbn. lia.
    + destruct (Ascii.eqb c "]").
      * destruct (depth - 1 =? 0).
        -- intros [= <-]. cbn. lia.
        -- intros He. apply IH in He. cbn. lia.
      * intros He. apply IH in He. cbn. lia.
Qed.

(** The closing bracket found lies at or after the opening one, inside the
    string. *)
Lemma findMatchingBracket_range (s : string) (start e : nat) :
  findMatchingBracket s start = Some e -> (start <= e < String.length s)%nat.
Proof.
  unfold findMatchingBracket.
  destruct (String.length s <=? start)%nat eqn:Hlen; [discriminate|].
  apply Nat.leb_gt in Hlen.
  destruct (String.get start s) as [c|]; [|discriminate].
  destruct (Ascii.eqb c "["); [|discriminate].
  intros He. apply matchBracketFrom_range in He. rewrite length_sliceFrom in He. lia.
Qed.

Lemma findMatchingBracket_opening (s : string) (start e : nat) :
  findMatchingBracket s start = Some e -> String.get start s = Some "["%char.
Proof.
  unfold findMatchingBracket.
  destruct (String.length s <=? start)%nat; [discriminate|].
  destruct (String.get start s) as [c|]; [|discriminate].
  destruct (Ascii.eqb c "[") eqn:Hc; [|discriminate].
  apply Ascii.eqb_eq in Hc. subst c. reflexivity.
Qed.

Lemma get_bracket_sliceFrom (s : string) (n : nat) :
  String.get n s = Some "["%char -> strings_Index (sliceFrom s n) "[" = Some O.
Proof.
  revert s. induction n as [|n IH]; intros [|c s]; cbn [String.get sliceFrom]; try discriminate.
  - intros Hc. assert (c = "["%char) by congruence. subst c. destruct s; reflexivity.
  - apply IH.
Qed.

(** ** extractDecisions *)

(** What it takes for the loop to accept an array. *)
Lemma tryArray_Some {F : Type} `{Float64 F} (unmarshal : string -> string + list (Decision F))
    (response : string) (arrayStart arrayEnd : nat) (decisions : list (Decision F)) :
  tryArray unmarshal response arrayStart arrayEnd = Some decisions
  <-> mentionsDecisionKey (arrayText response arrayStart arrayEnd) = true
      /\ unmarshal (fixArithmeticExpressions
                      (fixMissingQuotes (arrayText response arrayStart arrayEnd)))
         = inr decisions
      /\ exists d rest, decisions = d :: rest /\ Symbol d <> "".
Proof.
  unfold tryArray.
  destruct (mentionsDecisionKey (arrayText response arrayStart arrayEnd)); cbn [negb].
  2: { split; [discriminate | intros [Hf _]; discriminate]. }
  destruct (unmarshal _) as [err|[|d ds]].
  - split; [discriminate | intros (_ & Hf & _); discriminate].
  - split; [discriminate | intros (_ & Hf & d & rest & Hd & _)].
    injection Hf as <-. discriminate.
  - destruct (Symbol d =? "")%string eqn:Hs; cbn [negb].
    + apply String.eqb_eq in Hs.
      split; [discriminate | intros (_ & Hf & d' & rest & Hd & Hne)].
      injection Hf as <-. injection Hd as <- <-. contradiction.
    + apply String.eqb_neq in Hs. split.
      * intros [= <-]. split; [reflexivity|]. split; [reflexivity|]. eauto.
      * intros (_ & Hf & _). congruence.
Qed.

(** The loop ends within its bound, and its outcome is the first block it
    visits that [tryArray] accepts. *)
Lemma scanArrays_blocks {F : Type} `{Float64 F}
    (unmarshal : string -> string + list (Decision F)) (response : string) :
  forall steps searchStart,
    (searchStart <= String.length response < searchStart + steps)%nat ->
    scanArrays unmarshal steps response searchStart
    = scanOf (firstAccepted unmarshal response (balancedBlocks steps response searchStart)).
Proof.
  induction steps as [|steps IH]; intros searchStart Hb; [lia|].
  cbn [scanArrays balancedBlocks].
  destruct (strings_Index (sliceFrom response searchStart) "[") as [index|] eqn:Hi;
    [|reflexivity].
  pose proof (strings_Index_sliceFrom_lt _ _ _ Hi) as Hlt.
  destruct (findMatchingBracket response (index + searchStart)) as [arrayEnd|] eqn:Hm.
  - pose proof (findMatchingBracket_range _ _ _ Hm) as Hr.
    cbn [firstAccepted].
    destruct (tryArray unmarshal response (index + searchStart) arrayEnd); [reflexivity|].
    apply IH. lia.
  - apply IH. lia.
Qed.

(** More passes than the bound find the same blocks. *)
Lemma balancedBlocks_stable (response : string) :
  forall steps searchStart,
    (searchStart <= String.length response < searchStart + steps)%nat ->
    balancedBlocks (S steps) response searchStart = balancedBlocks steps response searchStart.
Proof.
  induction steps as [|steps IH]; intros searchStart Hb; [lia|].
  change (balancedBlocks (S (S steps)) response searchStart)
    with (match strings_Index (sliceFrom response searchStart) "[" with
          | None => []
          | Some index =>
              match findMatchingBracket response (index + searchStart) with
              | None => balancedBlocks (S steps) response (index + searchStart + 1)
              | Some arrayEnd =>
                  (index + searchStart, arrayEnd)%nat
                  :: balancedBlocks (S steps) response (arrayEnd + 1)
              end
          end).
  cbn [balancedBlocks].
  destruct (strings_Index (sliceFrom response searchStart) "[") as [index|] eqn:Hi;
    [|reflexivity].
  pose proof (strings_Index_sliceFrom_lt _ _ _ Hi) as Hlt.
  destruct (findMatchingBracket response (index + searchStart)) as [arrayEnd|] eqn:Hm.
  - pose proof (findMatchingBracket_range _ _ _ Hm) as Hr.
    f_equal. apply IH. lia.
  - apply IH. lia.
Qed.

Lemma balancedBlocks_enough (response : string) (steps : nat) :
  (S (String.length response) <= steps)%nat ->
  balancedBlocks steps response 0 = balancedBlocks (S (String.length response)) response 0.
Proof.
  induction 1 as [|steps Hle IH]; [reflexivity|].
  rewrite balancedBlocks_stable by lia. exact IH.
Qed.

(** The blocks are bracket-balanced, they come from left to right and they
    do not overlap. *)
Lemma balancedBlocks_sound (response : string) :
  forall steps searchStart arrayStart arrayEnd rest before,
    balancedBlocks steps response searchStart = before ++ (arrayStart, arrayEnd) :: rest ->
    findMatchingBracket response arrayStart = Some arrayEnd
    /\ (searchStart <= arrayStart)%nat
    /\ Forall (fun block => (arrayEnd < fst block)%nat) rest.
Proof.
  induction steps as [|steps IH]; intros searchStart arrayStart arrayEnd rest before;
    cbn [balancedBlocks].
  - destruct before; discriminate.
  - destruct (strings_Index (sliceFrom response searchStart) "[") as [index|] eqn:Hi;
      [|destruct before; discriminate].
    destruct (findMatchingBracket response (index + searchStart)) as [e|] eqn:Hm.
    + pose proof (findMatchingBracket_range _ _ _ Hm) as Hr.
      destruct before as [|b before]; cbn [app].
      * intros [= <- <- Hrest]. split; [exact Hm|]. split; [lia|].
        apply Forall_forall. intros [a' e'] Hin.
        apply list_elem_of_In, in_split in Hin. destruct Hin as (l1 & l2 & Hl).
        rewrite Hl in Hrest. destruct (IH _ _ _ _ _ Hrest) as (_ & Hge & _). cbn. lia.
      * intros [= _ Hrest]. destruct (IH _ _ _ _ _ Hrest) as (Hfm & Hge & Hall).
        split; [exact Hfm|]. split; [lia | exact Hall].
    + intros Hrest. destruct (IH _ _ _ _ _ Hrest) as (Hfm & Hge & Hall).
      split; [exact Hfm|]. split; [lia | exact Hall].
Qed.

(** An accepted array is a bracket-balanced block that [tryArray] accepts. *)
Lemma scanArrays_accepted {F : Type} `{Float64 F}
    (unmarshal : string -> string + list (Decision F)) (response : string) :
  forall steps searchStart arrayStart decisions,
    scanArrays unmarshal steps response searchStart = Accepted arrayStart decisions ->
    exists arrayEnd,
      findMatchingBracket response arrayStart = Some arrayEnd
      /\ tryArray unmarshal response arrayStart arrayEnd = Some decisions.
Proof.
  induction steps as [|steps IH]; intros searchStart arrayStart decisions;
    cbn [scanArrays]; [discriminate|].
  destruct (strings_Index (sliceFrom response searchStart) "[") as [index|]; [|discriminate].
  destruct (findMatchingBracket response (index + searchStart)) as [arrayEnd|] eqn:Hm.
  - destruct (tryArray unmarshal response (index + searchStart) arrayEnd) as [ds|] eqn:Ht.
    + intros [= <- <-]. eauto.
    + apply IH.
  - apply IH.
Qed.

(** [extractDecisions] returns the [nil] error. *)
Lemma extractDecisions_nil_error {F : Type} `{Float64 F}
    (unmarshal : string -> string + list (Decision F)) (response : string) :
  snd (extractDecisions unmarshal response) = None.
Proof.
  unfold extractDecisions, lastArray.
  destruct (scanArrays _ _ _ _); try reflexivity;
    destruct (strings_LastIndex response "["); try reflexivity;
    destruct (findMatchingBracket response _); try reflexivity;
    destruct (unmarshal _); reflexivity.
Qed.

(** More passes do not change an outcome reached within the bound. *)
Lemma scanArrays_more_steps {F : Type} `{Float64 F}
    (unmarshal : string -> string + list (Decision F)) (response : string) :
  forall steps searchStart more,
    scanArrays unmarshal steps response searchStart <> OutOfSteps ->
    scanArrays unmarshal (steps + more) response searchStart
    = scanArrays unmarshal steps response searchStart.
Proof.
  induction steps as [|steps IH]; intros searchStart more; cbn [scanArrays Nat.add].
  - congruence.
  - destruct (strings_Index (sliceFrom response searchStart) "[") as [index|]; [|reflexivity].
    destruct (findMatchingBracket response (index + searchStart)) as [arrayEnd|].
    + destruct (tryArray unmarshal response (index + searchStart) arrayEnd); [reflexivity|].
      apply IH.
    + apply IH.
Qed.

Lemma length_append (a b : string) :
  String.length (a +:+ b) = (String.length a + String.length b)%nat.
Proof. induction a as [|c a IH]; simpl; [reflexivity | rewrite IH; reflexivity]. Qed.

Lemma sliceFrom_append (a b : string) (k : nat) :
  sliceFrom (a +:+ b) (String.length a + k) = sliceFrom b k.
Proof. induction a as [|c a IH]; simpl; [reflexivity | exact IH]. Qed.

Lemma get_append (a b : string) (k : nat) :
  String.get (String.length a + k) (a +:+ b) = String.get k b.
Proof. induction a as [|c a IH]; simpl; [reflexivity | exact IH]. Qed.

(** The first opening bracket behind a text without one. *)
Lemma strings_Index_append_bracket (a b : string) :
  strings_Index a "[" = None ->
  strings_Index (a +:+ String "[" b) "[" = Some (String.length a).
Proof.
  induction a as [|c a IH]; intros Hnone.
  - change ("" +:+ String "[" b) with (String "[" b). rewrite strings_Index_unfold.
    destruct b; reflexivity.
  - rewrite strings_Index_unfold in Hnone.
    change (String c a +:+ String "[" b) with (String c (a +:+ String "[" b)).
    cbn [String.length]. rewrite strings_Index_unfold.
    assert (Hp : String.prefix "[" (String c (a +:+ String "[" b))
                 = String.prefix "[" (String c a)).
    { cbn [String.prefix]. destruct (ascii_dec "[" c); [|reflexivity].
      destruct a; reflexivity. }
    rewrite Hp. destruct (String.prefix "[" (String c a)); [discriminate|].
    destruct (strings_Index a "[") as [i|]; [discriminate|].
    rewrite IH by reflexivity. reflexivity.
Qed.

(** A bracket-balanced block behind a text is found from the index of its
    opening bracket: [block] is the block, [closing] the index of its
    closing bracket in it. *)
Lemma findMatchingBracket_append (before block after : string) (closing : nat) :
  (forall start, matchBracketFrom (block +:+ after) start 0 = Some (start + closing)%nat) ->
  String.get 0 block = Some "["%char ->
  findMatchingBracket (before +:+ block +:+ after) (String.length before)
  = Some (String.length before + closing)%nat.
Proof.
  intros Hmatch Hget. unfold findMatchingBracket.
  assert (Hlen : (String.length (before +:+ block +:+ after) <=? String.length before)%nat
                 = false).
  { apply Nat.leb_gt. rewrite !length_append. destruct block; [discriminate|]. cbn. lia. }
  rewrite Hlen.
  pose proof (get_append before (block +:+ after) 0) as Hg.
  pose proof (sliceFrom_append before (block +:+ after) 0) as Hs.
  rewrite Nat.add_0_r in Hg, Hs. rewrite Hg, Hs.
  destruct block as [|c block]; [discriminate|]. cbn [String.append String.get] in *.
  injection Hget as ->. cbn [Ascii.eqb Bool.eqb]. apply Hmatch.
Qed.

Lemma arrayText_append (before block after : string) (closing : nat) :
  sliceTo (block +:+ after) (closing + 1) = block ->
  strings_TrimSpace block = block ->
  arrayText (before +:+ block +:+ after) (String.length before)
    (String.length before + closing) = block.
Proof.
  intros Hslice Htrim. unfold arrayText, slice.
  pose proof (sliceFrom_append before (block +:+ after) 0) as Hs.
  rewrite Nat.add_0_r in Hs. rewrite Hs. cbn [sliceFrom].
  replace (String.length before + closing + 1 - String.length before)%nat
    with (closing + 1)%nat by lia.
  rewrite Hslice. exact Htrim.
Qed.

Lemma append_assoc (a b c : string) : a +:+ b +:+ c = (a +:+ b) +:+ c.
Proof.
  induction a as [|x a IH]; [reflexivity|].
  change (String x (a +:+ b +:+ c) = String x ((a +:+ b) +:+ c)). rewrite IH. reflexivity.
Qed.

(** One pass of the loop. *)
Lemma scanArrays_pass {F : Type} `{Float64 F}
    (unmarshal : string -> string + list (Decision F)) (response : string)
    (steps searchStart index arrayEnd : nat) :
  strings_Index (sliceFrom response searchStart) "[" = Some index ->
  findMatchingBracket response (index + searchStart) = Some arrayEnd ->
  scanArrays unmarshal (S steps) response searchStart
  = match tryArray unmarshal response (index + searchStart) arrayEnd with
    | Some decisions => Accepted (index + searchStart) decisions
    | None => scanArrays unmarshal steps response (arrayEnd + 1)
    end.
Proof. intros Hi Hm. cbn [scanArrays]. rewrite Hi, Hm. reflexivity. Qed.

(** The parser scenario, in any text: the array of prices, then the array
    of decisions, with no other opening bracket before them. *)
Lemma second_array_is_used {F : Type} `{Float64 F}
    (unmarshal : string -> string + list (Decision F)) (before between after : string) :
  strings_Index before "[" = None ->
  strings_Index between "[" = None ->
  unmarshal waitArray = inr [btcWait] ->
  let response := before +:+ priceArray +:+ between +:+ waitArray +:+ after in
  let arrayStart := (String.length before + 24 + String.length between)%nat in
  scanArrays unmarshal (S (String.length response)) response 0
  = Accepted arrayStart [btcWait]
  /\ slice response arrayStart (arrayStart + String.length waitArray) = waitArray
  /\ extractDecisions unmarshal response = ([btcWait], None).
Proof.
  intros Hbefore Hbetween Hu response arrayStart.
  set (head := before +:+ priceArray +:+ between).
  assert (Hhead : response = head +:+ waitArray +:+ after).
  { subst response head. rewrite <- !append_assoc. reflexivity. }
  assert (Hlen : String.length head = arrayStart).
  { subst head arrayStart. rewrite !length_append.
    change (String.length priceArray) with 24%nat. lia. }
  (* the array of prices *)
  assert (Hi1 : strings_Index (sliceFrom response 0) "[" = Some (String.length before)).
  { cbn [sliceFrom]. subst response.
    change (priceArray +:+ between +:+ waitArray +:+ after)
      with (String "[" ("100000, 100100, 100200]" +:+ between +:+ waitArray +:+ after)).
    apply strings_Index_append_bracket. exact Hbefore. }
  assert (Hm1 : findMatchingBracket response (String.length before + 0)
                = Some (String.length before + 23)%nat).
  { rewrite Nat.add_0_r. subst response.
    apply findMatchingBracket_append; [|reflexivity].
    intros start. rewrite Nat.add_comm. vm_compute. reflexivity. }
  assert (Ht1 : tryArray unmarshal response (String.length before + 0)
                  (String.length before + 23) = None).
  { unfold tryArray. rewrite Nat.add_0_r. subst response.
    rewrite (arrayText_append before priceArray _ 23) by (vm_compute; reflexivity).
    reflexivity. }
  (* the array of decisions *)
  assert (Hi2 : strings_Index (sliceFrom response (String.length before + 23 + 1)) "["
                = Some (String.length between)).
  { subst response.
    replace (String.length before + 23 + 1)%nat with (String.length before + 24)%nat by lia.
    rewrite sliceFrom_append.
    change (sliceFrom (priceArray +:+ between +:+ waitArray +:+ after) 24)
      with (between +:+ waitArray +:+ after).
    change (waitArray +:+ after) with (String "[" (sliceFrom waitArray 1 +:+ after)).
    apply strings_Index_append_bracket. exact Hbetween. }
  assert (Hstart : (String.length between + (String.length before + 23 + 1))%nat
                   = String.length head) by lia.
  assert (Hm2 : findMatchingBracket response (String.length head)
                = Some (String.length head + 53)%nat).
  { rewrite Hhead. apply findMatchingBracket_append; [|reflexivity].
    intros start. rewrite Nat.add_comm. vm_compute. reflexivity. }
  assert (Ht2 : tryArray unmarshal response (String.length head) (String.length head + 53)
                = Some [btcWait]).
  { unfold tryArray. rewrite Hhead.
    rewrite (arrayText_append head waitArray after 53) by (vm_compute; reflexivity).
    assert (Hk : mentionsDecisionKey waitArray = true) by (vm_compute; reflexivity).
    assert (Hfix : fixArithmeticExpressions (fixMissingQuotes waitArray) = waitArray)
      by (vm_compute; reflexivity).
    rewrite Hk, Hfix, Hu. reflexivity. }
  assert (Hscan2 : scanArrays unmarshal 2 response 0 = Accepted arrayStart [btcWait]).
  { rewrite (scanArrays_pass unmarshal response 1 0 _ _ Hi1 Hm1), Ht1.
    rewrite <- Hstart in Hm2, Ht2.
    rewrite (scanArrays_pass unmarshal response 0 _ _ _ Hi2 Hm2), Ht2.
    rewrite Hstart, Hlen. reflexivity. }
  assert (Hscan : scanArrays unmarshal (S (String.length response)) response 0
                  = Accepted arrayStart [btcWait]).
  { assert (Hmore : exists more, S (String.length response) = (2 + more)%nat).
    { exists (String.length response - 1)%nat. rewrite Hhead, !length_append.
      change (String.length waitArray) with 54%nat. lia. }
    destruct Hmore as [more ->].
    rewrite scanArrays_more_steps; rewrite Hscan2; congruence. }
  split; [exact Hscan|]. split.
  - unfold slice. rewrite <- Hlen, Hhead.
    pose proof (sliceFrom_append head (waitArray +:+ after) 0) as Hs.
    rewrite Nat.add_0_r in Hs. rewrite Hs. cbn [sliceFrom].
    replace (String.length head + String.length waitArray - String.length head)%nat
      with (String.length waitArray) by lia.
    vm_compute. reflexivity.
  - unfold extractDecisions. rewrite Hscan. reflexivity.
Qed.

(** The loop ends within its bound. *)
Lemma scanArrays_terminates {F : Type} `{Float64 F}
    (unmarshal : string -> string + list (Decision F)) (response : string) :
  scanArrays unmarshal (S (String.length response)) response 0 <> OutOfSteps.
Proof.
  rewrite scanArrays_blocks by lia.
  destruct (firstAccepted _ _ _) as [[arrayStart decisions]|]; discriminate.
Qed.

(** C5 (as the code has it): [extractDecisions] never returns an error; it
    returns the decisions of the array accepted by the loop, of which there
    is at least one, or a single synthetic wait decision with a diagnostic
    reason, or the decisions decoded from the block at the last opening
    bracket of the response, whatever their number. *)
Theorem extractDecisions_never_fails {F : Type} `{Float64 F}
    (unmarshal : string -> string + list (Decision F)) (response : string) :
  exists decisions,
    extractDecisions unmarshal response = (decisions, None)
    /\ ((exists arrayStart d rest,
           scanArrays unmarshal (S (String.length response)) response 0
           = Accepted arrayStart decisions
           /\ decisions = d :: rest /\ Symbol d <> "")
        \/ (exists reasoning, decisions = [waitDecision reasoning])
        \/ (exists arrayStart arrayEnd,
              strings_LastIndex response "[" = Some arrayStart
              /\ findMatchingBracket response arrayStart = Some arrayEnd
              /\ unmarshal (fixArithmeticExpressions
                              (fixMissingQuotes (arrayText response arrayStart arrayEnd)))
                 = inr decisions)).
Proof.
  unfold extractDecisions.
  assert (Hlast : exists decisions,
             lastArray unmarshal response = (decisions, None)
             /\ ((exists reasoning, decisions = [waitDecision reasoning])
                 \/ (exists arrayStart arrayEnd,
                       strings_LastIndex response "[" = Some arrayStart
                       /\ findMatchingBracket response arrayStart = Some arrayEnd
                       /\ unmarshal (fixArithmeticExpressions
                                       (fixMissingQuotes
                                          (arrayText response arrayStart arrayEnd)))
                          = inr decisions))).
  { unfold lastArray.
    destruct (strings_LastIndex response "[") as [arrayStart|]; [|eauto].
    destruct (findMatchingBracket response arrayStart) as [arrayEnd|] eqn:Hm; [|eauto].
    destruct (unmarshal _) as [err|decisions] eqn:Hu; [eauto|].
    exists decisions. split; [reflexivity|]. right. eauto. }
  destruct (scanArrays unmarshal (S (String.length response)) response 0)
    as [arrayStart decisions| |] eqn:Hscan.
  - destruct (scanArrays_accepted _ _ _ _ _ _ Hscan) as (arrayEnd & Hm & Ht).
    apply tryArray_Some in Ht. destruct Ht as (_ & _ & d & rest & Hd & Hsym).
    exists decisions. split; [reflexivity|]. left. exists arrayStart, d, rest. auto.
  - destruct Hlast as (decisions & Hl & Hcases). exists decisions. split; [exact Hl|].
    right. exact Hcases.
  - destruct Hlast as (decisions & Hl & Hcases). exists decisions. split; [exact Hl|].
    right. exact Hcases.
Qed.

(** C5, counterexample: for the response [[]], the array the prompt asks
    for when there is nothing to decide, the result is the empty list. *)
Lemma empty_array_gives_no_decision :
  extractDecisions (F := float) json.Unmarshal "[]" = ([], None).
Proof. vm_compute. reflexivity. Qed.

Lemma matchBracketFrom_spec (s : string) :
  forall (i : nat) (depth : Z) (e : nat),
    1 <= depth ->
    matchBracketFrom s i depth = Some e
    <-> exists n : nat,
          e = (i + n)%nat /\ String.get n s = Some "]"%char
          /\ depth + bracketDepth (sliceTo s (S n)) = 0
          /\ forall k : nat, (k <= n)%nat -> 0 < depth + bracketDepth (sliceTo s k).
Proof.
  induction s as [|c s IH]; intros i depth e Hdepth.
  - cbn. split; [discriminate|]. intros (n & _ & Hget & _). destruct n; discriminate.
  - cbn [matchBracketFrom].
    assert (forall delta : Z,
               1 <= depth + delta ->
               (if Ascii.eqb c "["%char then 1 else if Ascii.eqb c "]"%char then -1 else 0)
               = delta ->
               c <> "]"%char \/ depth + delta <> 0 ->
               matchBracketFrom s (S i) (depth + delta) = Some e
               <-> exists n : nat,
                     e = (i + n)%nat /\ String.get n (String c s) = Some "]"%char
                     /\ depth + bracketDepth (sliceTo (String c s) (S n)) = 0
                     /\ forall k : nat,
                          (k <= n)%nat -> 0 < depth + bracketDepth (sliceTo (String c s) k))
      as Hstep.
    { intros delta Hpos Hdelta Hnot. rewrite (IH (S i) (depth + delta) e Hpos). split.
      - intros (n & -> & Hget & Hzero & Hbefore). exists (S n).
        split; [lia|]. split; [exact Hget|]. split.
        + cbn [sliceTo bracketDepth]. rewrite Hdelta. cbn [sliceTo] in Hzero. lia.
        + intros k Hk. destruct k as [|k]; [cbn; lia|].
          cbn [sliceTo bracketDepth]. rewrite Hdelta.
          specialize (Hbefore k ltac:(lia)). lia.
      - intros (n & -> & Hget & Hzero & Hbefore). destruct n as [|n].
        + exfalso. cbn in Hget. cbn [sliceTo bracketDepth] in Hzero. rewrite Hdelta in Hzero.
          destruct Hnot as [Hnot|Hnot]; [congruence|lia].
        + exists n. split; [lia|]. split; [exact Hget|]. split.
          * cbn [sliceTo bracketDepth] in Hzero. rewrite Hdelta in Hzero.
            cbn [sliceTo]. lia.
          * intros k Hk. specialize (Hbefore (S k) ltac:(lia)).
            cbn [sliceTo bracketDepth] in Hbefore. rewrite Hdelta in Hbefore. lia. }
    destruct (Ascii.eqb c "["%char) eqn:Hopen.
    + apply Ascii.eqb_eq in Hopen. apply Hstep; [lia|reflexivity|].
      left. rewrite Hopen. discriminate.
    + destruct (Ascii.eqb c "]"%char) eqn:Hclose.
      * apply Ascii.eqb_eq in Hclose. destruct (depth - 1 =? 0) eqn:Hzero.
        -- apply Z.eqb_eq in Hzero. split.
           ++ intros [= <-]. exists O. split; [lia|]. split; [cbn; congruence|].
              split; [cbn [sliceTo bracketDepth]; rewrite Hopen; subst c; cbn; lia|].
              intros k Hk. assert (k = O) as -> by lia. cbn. lia.
           ++ intros (n & -> & Hget & Hz & Hbefore). destruct n as [|n]; [f_equal; lia|].
              exfalso. specialize (Hbefore 1%nat ltac:(lia)).
              cbn [sliceTo bracketDepth] in Hbefore. rewrite Hopen in Hbefore. subst c.
              cbn in Hbefore. lia.
        -- apply Z.eqb_neq in Hzero. change (depth - 1) with (depth + -1).
           apply Hstep; [lia|reflexivity|]. right. lia.
      * replace depth with (depth + 0) at 1 by lia.
        apply Hstep; [lia|reflexivity|]. left. intros ->. discriminate.
Qed.

Lemma sliceFrom_get (s : string) (n : nat) (c : ascii) :
  String.get n s = Some c -> exists rest, sliceFrom s n = String c rest.
Proof.
  revert s. induction n as [|n IH]; intros [|c' s] Hget; try discriminate.
  - cbn in Hget. injection Hget as ->. eexists. reflexivity.
  - cbn in Hget. cbn. apply IH, Hget.
Qed.

Lemma get_sliceFrom (s : string) (n k : nat) :
  String.get k (sliceFrom s n) = String.get (n + k) s.
Proof.
  revert s. induction n as [|n IH]; intros s; [reflexivity|].
  destruct s as [|c s]; cbn; [destruct k; reflexivity|]. apply IH.
Qed.

(** What [findMatchingBracket] returns, by the depth of nesting of the
    pieces that start at [start]. *)
Lemma findMatchingBracket_spec (s : string) (start e : nat) :
  findMatchingBracket s start = Some e
  <-> String.get start s = Some "["%char
      /\ String.get e s = Some "]"%char
      /\ (start < e)%nat
      /\ bracketDepth (slice s start (e + 1)) = 0
      /\ forall k : nat, (start < k <= e)%nat -> 0 < bracketDepth (slice s start k).
Proof.
  unfold findMatchingBracket.
  destruct (String.length s <=? start)%nat eqn:Hlen.
  { apply Nat.leb_le in Hlen. split; [discriminate|]. intros (Hget & _). exfalso.
    assert (String.get start s = None) as Hnone.
    { clear -Hlen. revert start Hlen. induction s as [|c s IH]; intros [|n] Hlen;
        cbn in *; try reflexivity; try lia. apply IH. lia. }
    congruence. }
  destruct (String.get start s) as [c|] eqn:Hget.
  2:{ split; [discriminate|]. intros (Hc & _). discriminate. }
  destruct (Ascii.eqb c "["%char) eqn:Hopen.
  2:{ split; [discriminate|]. intros ([= ->] & _). discriminate. }
  apply Ascii.eqb_eq in Hopen. subst c.
  destruct (sliceFrom_get s start _ Hget) as [rest Hrest]. rewrite Hrest.
  cbn [matchBracketFrom]. change (Ascii.eqb "[" "[") with true. cbv iota.
  change (0 + 1) with 1. rewrite (matchBracketFrom_spec rest (S start) 1 e ltac:(lia)).
  unfold slice. rewrite Hrest. split.
  - intros (n & -> & Hn & Hzero & Hbefore). split; [reflexivity|].
    split; [|split; [lia|split]].
    + replace (S start + n)%nat with (start + S n)%nat by lia.
      rewrite <- get_sliceFrom, Hrest. exact Hn.
    + replace (S start + n + 1 - start)%nat with (S (S n)) by lia.
      cbn [sliceTo bracketDepth]. change (Ascii.eqb "[" "[") with true. cbv iota.
      cbn [sliceTo] in Hzero. exact Hzero.
    + intros k Hk. replace (k - start)%nat with (S (k - start - 1)) by lia.
      cbn [sliceTo bracketDepth]. change (Ascii.eqb "[" "[") with true. cbv iota.
      apply Hbefore. lia.
  - intros (_ & He & Hlt & Hzero & Hbefore). exists (e - start - 1)%nat.
    split; [lia|]. split; [|split].
    + replace e with (start + S (e - start - 1))%nat in He by lia.
      rewrite <- get_sliceFrom, Hrest in He. exact He.
    + replace (e + 1 - start)%nat with (S (S (e - start - 1))) in Hzero by lia.
      cbn [sliceTo bracketDepth] in Hzero. change (Ascii.eqb "[" "[") with true in Hzero.
      cbv iota in Hzero. cbn [sliceTo]. exact Hzero.
    + intros k Hk. specialize (Hbefore (start + S k)%nat ltac:(lia)).
      replace (start + S k - start)%nat with (S k) in Hbefore by lia.
      cbn [sliceTo bracketDepth] in Hbefore. change (Ascii.eqb "[" "[") with true in Hbefore.
      cbv iota in Hbefore. exact Hbefore.
Qed.



(** ** extractCoTTrace *)

Lemma get_bracket_first (s : string) (n : nat) :
  String.get n s = Some "["%char ->
  exists first, strings_Index s "[" = Some first /\ (first <= n)%nat.
Proof.
  intros Hget. apply get_bracket_sliceFrom in Hget.
  destruct (strings_Index_sliceFrom_first _ _ _ _ Hget) as (first & Hfirst & Hle).
  exists first. split; [exact Hfirst | lia].
Qed.

(** C8 (as the code has it): when an array is accepted, the response has a
    first opening bracket, at or before the one of the accepted array, and
    when that first bracket is not the first byte of the response the
    chain of thought is the text before it, without the white space at its
    ends; [parseFullDecisionResponse] returns that chain of thought. *)
Theorem cot_trace_before_first_bracket {F : Type} `{Float64 F}
    (unmarshal : string -> string + list (Decision F)) (response : string)
    (arrayStart : nat) (decisions : list (Decision F)) (accountEquity : F)
    (btcEthLeverage altcoinLeverage : Z) (minPositionSizeUSD maxPositionSizeUSD : F) :
  scanArrays unmarshal (S (String.length response)) response 0
  = Accepted arrayStart decisions ->
  exists firstBracket,
    strings_Index response "[" = Some firstBracket
    /\ (firstBracket <= arrayStart)%nat
    /\ ((0 < firstBracket)%nat ->
        extractCoTTrace response = strings_TrimSpace (sliceTo response firstBracket)
        /\ CoTTrace (fst (parseFullDecisionResponse unmarshal response accountEquity
                            btcEthLeverage altcoinLeverage minPositionSizeUSD
                            maxPositionSizeUSD))
           = strings_TrimSpace (sliceTo response firstBracket)).
Proof.
  intros Hscan.
  destruct (scanArrays_accepted _ _ _ _ _ _ Hscan) as (arrayEnd & Hm & _).
  apply findMatchingBracket_opening in Hm.
  destruct (get_bracket_first _ _ Hm) as (firstBracket & Hfirst & Hle).
  exists firstBracket. split; [exact Hfirst|]. split; [exact Hle|].
  intros Hpos.
  assert (Hcot : extractCoTTrace response = strings_TrimSpace (sliceTo response firstBracket)).
  { unfold extractCoTTrace. rewrite Hfirst. destruct firstBracket; [lia | reflexivity]. }
  split; [exact Hcot|].
  unfold parseFullDecisionResponse.
  pose proof (extractDecisions_nil_error unmarshal response) as Hnil.
  destruct (extractDecisions unmarshal response) as [ds err]. cbn [snd] in Hnil. subst err.
  rewrite <- Hcot. destruct (validateDecisions _ _ _ _ _ _); reflexivity.
Qed.

Lemma cot_trace_before_first_bracket_witness :
  extractCoTTrace pricesThenDecisions = strings_TrimSpace (sliceTo pricesThenDecisions 8).
Proof.
  destruct (cot_trace_before_first_bracket (F := float) json.Unmarshal pricesThenDecisions
              43 [btcWait] (flit 1000 0) 10 5 (flit 0 0) (flit 0 0))
    as (firstBracket & Hfirst & _ & Hcot); [vm_compute; reflexivity|].
  assert (firstBracket = 8%nat) by (vm_compute in Hfirst; congruence). subst firstBracket.
  apply Hcot. lia.
Defined.

(** C8, counterexample: in the response with the prices before the
    decisions the accepted array opens at byte 43, and the chain of thought
    is the text before the array of prices, not the text before the
    accepted array. *)
Lemma cot_trace_stops_at_price_array :
  scanArrays (F := float) json.Unmarshal (S (String.length pricesThenDecisions))
    pricesThenDecisions 0 = Accepted 43 [btcWait]
  /\ extractCoTTrace pricesThenDecisions = "Prices:"
  /\ extractCoTTrace pricesThenDecisions <> sliceTo pricesThenDecisions 43.
Proof.
  split; [vm_compute; reflexivity|]. split; [vm_compute; reflexivity|].
  intros Heq. vm_compute in Heq. discriminate.
Qed.

(** ** validateDecisions and parseFullDecisionResponse *)

Lemma validateDecisionsFrom_first_failure {F : Type} `{Float64 F}
    (good : list (Decision F)) (bad : Decision F) (rest : list (Decision F))
    (err : error F) (accountEquity : F) (btcEthLeverage altcoinLeverage : Z)
    (minPositionSizeUSD maxPositionSizeUSD : F) :
  Forall (fun d => validateDecision d accountEquity btcEthLeverage altcoinLeverage
                     minPositionSizeUSD maxPositionSizeUSD = None) good ->
  validateDecision bad accountEquity btcEthLeverage altcoinLeverage
    minPositionSizeUSD maxPositionSizeUSD = Some err ->
  forall i,
    validateDecisionsFrom i (good ++ bad :: rest) accountEquity btcEthLeverage
      altcoinLeverage minPositionSizeUSD maxPositionSizeUSD
    = Some (ErrDecisionNumber (i + Z.of_nat (length good) + 1) err).
Proof.
  intros Hgood Hbad. induction Hgood as [|d good Hd Hgood IH]; intros i.
  - cbn [app validateDecisionsFrom length]. rewrite Hbad. do 2 f_equal. lia.
  - cbn [app validateDecisionsFrom]. rewrite Hd, IH. do 2 f_equal.
    rewrite length_cons. lia.
Qed.

(** C3 (as the code has it): when a decision of the batch fails its
    validation, [validateDecisions] stops at the first such decision and
    reports its number; [parseFullDecisionResponse] returns that error,
    with the decisions as they were normalized; and [GetFullDecision]
    returns the error and no decision at all. *)
Theorem batch_fails_on_first_invalid_decision {F : Type} `{Float64 F}
    (unmarshal : string -> string + list (Decision F)) (aiResponse userPrompt : string)
    (now : Z) (good : list (Decision F)) (bad : Decision F) (rest : list (Decision F))
    (err : error F) (accountEquity : F) (btcEthLeverage altcoinLeverage : Z)
    (minPositionSizeUSD maxPositionSizeUSD : F) :
  normalizeDecisions (fst (extractDecisions unmarshal aiResponse))
    minPositionSizeUSD maxPositionSizeUSD = good ++ bad :: rest ->
  Forall (fun d => validateDecision d accountEquity btcEthLeverage altcoinLeverage
                     minPositionSizeUSD maxPositionSizeUSD = None) good ->
  validateDecision bad accountEquity btcEthLeverage altcoinLeverage
    minPositionSizeUSD maxPositionSizeUSD = Some err ->
  let cause :=
    ErrValidateDecisions (ErrDecisionNumber (Z.of_nat (length good) + 1) err)
      (extractCoTTrace aiResponse) in
  validateDecisions (good ++ bad :: rest) accountEquity btcEthLeverage altcoinLeverage
    minPositionSizeUSD maxPositionSizeUSD
  = Some (ErrDecisionNumber (Z.of_nat (length good) + 1) err)
  /\ parseFullDecisionResponse unmarshal aiResponse accountEquity btcEthLeverage
       altcoinLeverage minPositionSizeUSD maxPositionSizeUSD
     = (mkFullDecision "" (extractCoTTrace aiResponse) (good ++ bad :: rest) 0, Some cause)
  /\ GetFullDecision unmarshal userPrompt (inr aiResponse) now accountEquity btcEthLeverage
       altcoinLeverage minPositionSizeUSD maxPositionSizeUSD
     = (None, Some (ErrParseAIResponse cause)).
Proof.
  intros Hnorm Hgood Hbad cause.
  assert (Hval : validateDecisions (good ++ bad :: rest) accountEquity btcEthLeverage
                   altcoinLeverage minPositionSizeUSD maxPositionSizeUSD
                 = Some (ErrDecisionNumber (Z.of_nat (length good) + 1) err)).
  { unfold validateDecisions.
    rewrite (validateDecisionsFrom_first_failure good bad rest err) by assumption.
    reflexivity. }
  assert (Hparse : parseFullDecisionResponse unmarshal aiResponse accountEquity
                     btcEthLeverage altcoinLeverage minPositionSizeUSD maxPositionSizeUSD
                   = (mkFullDecision "" (extractCoTTrace aiResponse) (good ++ bad :: rest) 0,
                      Some cause)).
  { unfold parseFullDecisionResponse.
    pose proof (extractDecisions_nil_error unmarshal aiResponse) as Hnil.
    destruct (extractDecisions unmarshal aiResponse) as [ds e].
    cbn [fst snd] in Hnorm, Hnil. subst e. rewrite Hnorm, Hval. reflexivity. }
  split; [exact Hval|]. split; [exact Hparse|].
  unfold GetFullDecision. rewrite Hparse. reflexivity.
Qed.

Lemma batch_fails_on_first_invalid_decision_witness :
  GetFullDecision (F := float) json.Unmarshal "prompt" (inr twoDecisions) 0 (flit 1000 0)
    10 5 (flit 0 0) (flit 0 0)
  = (None,
     Some (ErrParseAIResponse
             (ErrValidateDecisions (ErrDecisionNumber 2 (ErrLeverage 5 "SOLUSDT" 25))
                "Plan."))).
Proof.
  apply (batch_fails_on_first_invalid_decision (F := float) json.Unmarshal twoDecisions
           "prompt" 0 [btcWait] solOpen [] (ErrLeverage 5 "SOLUSDT" 25));
    [vm_compute; reflexivity | repeat constructor | vm_compute; reflexivity].
Defined.

(** C3, counterexample: of two decisions the second has a leverage above
    the cap; the parser returns an error with both decisions as they were,
    the second still an [open_long], and [GetFullDecision] returns the
    error without any decision. *)
Lemma invalid_decision_fails_batch :
  parseFullDecisionResponse (F := float) json.Unmarshal twoDecisions (flit 1000 0) 10 5
    (flit 0 0) (flit 0 0)
  = (mkFullDecision "" "Plan." [btcWait; solOpen] 0,
     Some (ErrValidateDecisions (ErrDecisionNumber 2 (ErrLeverage 5 "SOLUSDT" 25)) "Plan."))
  /\ GetFullDecision (F := float) json.Unmarshal "prompt" (inr twoDecisions) 0 (flit 1000 0)
       10 5 (flit 0 0) (flit 0 0)
     = (None,
        Some (ErrParseAIResponse
                (ErrValidateDecisions (ErrDecisionNumber 2 (ErrLeverage 5 "SOLUSDT" 25))
                   "Plan."))).
Proof. split; vm_compute; reflexivity. Qed.

(** ** The threshold of the body ratio, read as an order *)

Lemma SFcompare_antisym (a b : SpecFloat.spec_float) :
  SpecFloat.SFcompare b a = option_map CompOpp (SpecFloat.SFcompare a b).
Proof.
  destruct a as [sa|sa| |sa ma ea], b as [sb|sb| |sb mb eb]; cbn;
    try reflexivity; try (destruct sa; reflexivity); try (destruct sb; reflexivity);
    try (destruct sa, sb; reflexivity).
  destruct sa, sb; try reflexivity.
  - rewrite (Z.compare_antisym ea eb). destruct (ea ?= eb)%Z; cbn; try reflexivity.
    rewrite (Pos.compare_cont_antisym ma mb Eq). cbn. reflexivity.
  - rewrite (Z.compare_antisym ea eb). destruct (ea ?= eb)%Z; cbn; try reflexivity.
    rewrite (Pos.compare_cont_antisym ma mb Eq). cbn.
    destruct (Pos.compare_cont Eq ma mb); reflexivity.
Qed.

(** In binary64 a ratio that is a number is not below 2 exactly when it is
    at least 2. *)
Lemma binary64_not_below_iff (ratio : float) :
  PrimFloat.is_nan ratio = false ->
  negb (ratio <? flit 2 0)%go = true <-> (flit 2 0 <=? ratio)%go = true.
Proof.
  intros Hnan. cbn [flt fle binary64].
  unfold PrimFloat.is_nan in Hnan. apply negb_false_iff in Hnan.
  rewrite FloatAxioms.eqb_spec in Hnan.
  rewrite FloatAxioms.ltb_spec, FloatAxioms.leb_spec.
  unfold SpecFloat.SFeqb in Hnan. unfold SpecFloat.SFltb, SpecFloat.SFleb.
  rewrite (SFcompare_antisym (Prim2SF ratio) (Prim2SF (flit 2 0))).
  destruct (Prim2SF ratio) as [s|s| |s m e] eqn:Hr; try discriminate;
    destruct (SpecFloat.SFcompare _ (Prim2SF (flit 2 0))) as [[| |]|] eqn:Hc;
    cbn; try tauto; try (split; discriminate);
    vm_compute in Hc; destruct s; discriminate.
Qed.

(** ** Checks of the models of the library *)

(** Decimal numerals against the binary64 values they denote. *)
Example binary64_of_decimal_fifth : binary64_of_decimal 2 (-1) = 0x1.999999999999ap-3%float.
Proof. vm_compute. reflexivity. Qed.

Example binary64_of_decimal_hundredth :
  binary64_of_decimal 1 (-2) = 0x1.47ae147ae147bp-7%float.
Proof. vm_compute. reflexivity. Qed.

Example binary64_of_decimal_price :
  binary64_of_decimal 377258 (-2) = 0x1.d7928f5c28f5cp+11%float.
Proof. vm_compute. reflexivity. Qed.

(** The expression scenario: ["risk_usd": 150 * (0.62 - 0.61) * 5] is cut
    to its first number before the array is decoded. *)
Example fixArithmeticExpressions_risk_usd :
  fixArithmeticExpressions
    ("[{" +:+ member "symbol" "BTCUSDT" +:+ "," +:+ member "action" "hold" +:+ ","
     +:+ quoted "risk_usd" +:+ ": 150 * (0.62 - 0.61) * 5}]")
  = "[{" +:+ member "symbol" "BTCUSDT" +:+ "," +:+ member "action" "hold" +:+ ","
    +:+ quoted "risk_usd" +:+ ": 150}]".
Proof. vm_compute. reflexivity. Qed.

Example extractDecisions_risk_usd :
  extractDecisions (F := float) json.Unmarshal
    ("[{" +:+ member "symbol" "BTCUSDT" +:+ "," +:+ member "action" "hold" +:+ ","
     +:+ quoted "risk_usd" +:+ ": 150 * (0.62 - 0.61) * 5}]")
  = ([mkDecision "BTCUSDT" "hold" 0 (flit 0 0) (flit 0 0) (flit 0 0) 0 (flit 150 0) ""],
     None).
Proof. vm_compute. reflexivity. Qed.

(** The clamp scenario: a size of 500 with a maximum of 150. *)
Example normalizeDecisions_clamp :
  normalizeDecisions (F := float)
    [mkDecision "SOLUSDT" "open_long" 5 (flit 500 0) (flit 100 0) (flit 110 0) 80 (flit 0 0)
       "breakout"] (flit 0 0) (flit 150 0)
  = [mkDecision "SOLUSDT" "open_long" 5 (flit 150 0) (flit 100 0) (flit 110 0) 80 (flit 0 0)
       ("breakout" +:+ " | 已按最大仓位限制截断")].
Proof. vm_compute. reflexivity. Qed.

(** The short scenario: [open_short ETHUSDT] with the stop loss at 3928.18
    and the take profit at 3772.58 is accepted; with the two exchanged it
    is rejected for its direction. *)
Example validateDecision_short_direction :
  validateDecision (F := float)
    (mkDecision "ETHUSDT" "open_short" 5 (flit 100 0) (flit 392818 (-2)) (flit 377258 (-2))
       80 (flit 0 0) "short")
    (flit 1000 0) 10 5 (flit 0 0) (flit 0 0) = None
  /\ validateDecision (F := float)
       (mkDecision "ETHUSDT" "open_short" 5 (flit 100 0) (flit 377258 (-2))
          (flit 392818 (-2)) 80 (flit 0 0) "short")
       (flit 1000 0) 10 5 (flit 0 0) (flit 0 0)
     = Some (ErrShortStopNotAboveTarget (flit 377258 (-2)) (flit 392818 (-2))).
Proof. split; vm_compute; reflexivity. Qed.

(** ** The order of binary64 *)

Lemma SFcompare_rank (x y : SpecFloat.spec_float) :
  SpecFloat.SFcompare x y
  = match SFrank x, SFrank y with
    | Some a, Some b => Some (lexCompare a b)
    | _, _ => None
    end.
Proof.
  destruct x as [sx|sx| |sx mx ex], y as [sy|sy| |sy my ey]; cbn;
    try reflexivity; try (destruct sx; reflexivity); try (destruct sy; reflexivity);
    try (destruct sx, sy; reflexivity).
  destruct sx, sy; try reflexivity; unfold lexCompare; cbn [fst snd].
  change (-1 ?= -1) with Eq. cbv iota.
  rewrite Z.compare_opp, (Z.compare_antisym ex ey).
  destruct (ex ?= ey); reflexivity.
Qed.

Lemma lexCompare_Lt (a b : Z * Z * Z) :
  lexCompare a b = Lt
  <-> a.1.1 < b.1.1 \/ (a.1.1 = b.1.1 /\ (a.1.2 < b.1.2 \/ (a.1.2 = b.1.2 /\ a.2 < b.2))).
Proof.
  unfold lexCompare.
  destruct (Z.compare_spec a.1.1 b.1.1); [|split; [lia|reflexivity]|split; [discriminate|lia]].
  destruct (Z.compare_spec a.1.2 b.1.2); [|split; [lia|reflexivity]|split; [discriminate|lia]].
  rewrite Z.compare_lt_iff. lia.
Qed.

Lemma lexCompare_Gt (a b : Z * Z * Z) :
  lexCompare a b = Gt
  <-> b.1.1 < a.1.1 \/ (a.1.1 = b.1.1 /\ (b.1.2 < a.1.2 \/ (a.1.2 = b.1.2 /\ b.2 < a.2))).
Proof.
  unfold lexCompare.
  destruct (Z.compare_spec a.1.1 b.1.1); [|split; [discriminate|lia]|split; [lia|reflexivity]].
  destruct (Z.compare_spec a.1.2 b.1.2); [|split; [discriminate|lia]|split; [lia|reflexivity]].
  rewrite Z.compare_gt_iff. lia.
Qed.

Lemma lexCompare_trans (a b c : Z * Z * Z) :
  lexCompare a b = Lt -> lexCompare b c = Lt -> lexCompare a c = Lt.
Proof. rewrite !lexCompare_Lt. lia. Qed.

Lemma lexCompare_le_lt_trans (a b c : Z * Z * Z) :
  lexCompare a b <> Gt -> lexCompare b c = Lt -> lexCompare a c = Lt.
Proof. rewrite lexCompare_Gt, !lexCompare_Lt. lia. Qed.

Lemma lexCompare_refl (a : Z * Z * Z) : lexCompare a a = Eq.
Proof. unfold lexCompare. rewrite !Z.compare_refl. reflexivity. Qed.

(** [<] on binary64 is irreflexive, asymmetric and transitive, and [<=]
    composes with it. *)
Lemma binary64_flt_irrefl (x : float) : (x <? x)%go = false.
Proof.
  cbn [flt binary64]. rewrite FloatAxioms.ltb_spec. unfold SpecFloat.SFltb.
  rewrite SFcompare_rank. destruct (SFrank (Prim2SF x)); [|reflexivity].
  rewrite lexCompare_refl. reflexivity.
Qed.

Lemma binary64_flt_trans (x y z : float) :
  (x <? y)%go = true -> (y <? z)%go = true -> (x <? z)%go = true.
Proof.
  cbn [flt binary64]. rewrite !FloatAxioms.ltb_spec. unfold SpecFloat.SFltb.
  rewrite !SFcompare_rank.
  destruct (SFrank (Prim2SF x)) as [a|], (SFrank (Prim2SF y)) as [b|],
    (SFrank (Prim2SF z)) as [c|]; try discriminate.
  destruct (lexCompare a b) eqn:Hab; try discriminate.
  destruct (lexCompare b c) eqn:Hbc; try discriminate.
  rewrite (lexCompare_trans a b c Hab Hbc). reflexivity.
Qed.

Lemma binary64_fle_flt_trans (x y z : float) :
  (x <=? y)%go = true -> (y <? z)%go = true -> (x <? z)%go = true.
Proof.
  cbn [flt fle binary64]. rewrite !FloatAxioms.ltb_spec, FloatAxioms.leb_spec.
  unfold SpecFloat.SFltb, SpecFloat.SFleb. rewrite !SFcompare_rank.
  destruct (SFrank (Prim2SF x)) as [a|], (SFrank (Prim2SF y)) as [b|],
    (SFrank (Prim2SF z)) as [c|]; try discriminate.
  intros Hab Hbc.
  destruct (lexCompare b c) eqn:Hbc'; try discriminate.
  rewrite (lexCompare_le_lt_trans a b c); [reflexivity| |exact Hbc'].
  destruct (lexCompare a b); congruence.
Qed.

Lemma binary64_flt_asym (x y : float) : (x <? y)%go = true -> (y <? x)%go = false.
Proof.
  intros Hxy. destruct (y <? x)%go eqn:Hyx; [|reflexivity].
  pose proof (binary64_flt_trans x y x Hxy Hyx) as Hxx.
  rewrite binary64_flt_irrefl in Hxx. discriminate.
Qed.

Lemma binary64_flt_fle (x y : float) : (x <? y)%go = true -> (y <=? x)%go = false.
Proof.
  intros Hxy. destruct (y <=? x)%go eqn:Hyx; [|reflexivity].
  pose proof (binary64_fle_flt_trans y x y Hyx Hxy) as Hyy.
  rewrite binary64_flt_irrefl in Hyy. discriminate.
Qed.

Lemma binary64_flt_le (x y : float) : (x <? y)%go = true -> (x <=? y)%go = true.
Proof.
  cbn [flt fle binary64]. rewrite FloatAxioms.ltb_spec, FloatAxioms.leb_spec.
  unfold SpecFloat.SFltb, SpecFloat.SFleb.
  destruct (SpecFloat.SFcompare _ _) as [[| |]|]; congruence.
Qed.

(** ** More on validateDecision and normalizeDecisions *)

Lemma validActions_lookup (action : string) :
  default false (validActions !! action)
  = bool_decide (action ∈ ["open_long"; "open_short"; "close_long"; "close_short"; "hold";
                           "wait"]).
Proof.
  destruct (validActions !! action) as [b|] eqn:Hlook.
  - apply elem_of_list_to_map_2 in Hlook.
    assert (b = true /\ action ∈ ["open_long"; "open_short"; "close_long"; "close_short";
                                  "hold"; "wait"]) as [-> Hin].
    { rewrite !elem_of_cons in Hlook. rewrite !elem_of_cons.
      destruct Hlook as [Hl|[Hl|[Hl|[Hl|[Hl|[Hl|Hl]]]]]];
        try (inversion Hl; subst; split; [reflexivity|tauto]).
      apply not_elem_of_nil in Hl. contradiction. }
    cbn. symmetry. apply bool_decide_eq_true. exact Hin.
  - apply not_elem_of_list_to_map in Hlook. cbn. symmetry. apply bool_decide_eq_false.
    exact Hlook.
Qed.

(** X1.  An action outside the six known ones is rejected with the
    invalid-action error, and that error is returned for no other reason;
    a decision whose action is [close_long], [close_short], [hold] or
    [wait] is accepted whatever its other fields hold. *)
Theorem validateDecision_actions {F : Type} `{Float64 F} (d : Decision F) (accountEquity : F)
    (btcEthLeverage altcoinLeverage : Z) (minPositionSizeUSD maxPositionSizeUSD : F) :
  let outcome := validateDecision d accountEquity btcEthLeverage altcoinLeverage
                   minPositionSizeUSD maxPositionSizeUSD in
  (Action d ∉ ["open_long"; "open_short"; "close_long"; "close_short"; "hold"; "wait"]
   <-> exists action, outcome = Some (ErrInvalidAction action))
  /\ (Action d ∈ ["close_long"; "close_short"; "hold"; "wait"] -> outcome = None).
Proof.
  cbv zeta. unfold validateDecision. rewrite validActions_lookup. split.
  - case_bool_decide as Hin; cbn [negb].
    + split; [intros Hout; contradiction|].
      intros [action Herr]. exfalso. revert Herr.
      unfold checkMaxPositionSize, checkBracket.
      repeat match goal with
             | |- context [if ?b then _ else _] => destruct b
             end; discriminate.
    + split; [intros _; eexists; reflexivity|intros _; exact Hin].
  - intros Hin. rewrite bool_decide_eq_true_2.
    + cbn [negb]. rewrite !elem_of_cons in Hin.
      destruct Hin as [->|[->|[->|[->|Hin]]]]; try reflexivity.
      apply not_elem_of_nil in Hin. contradiction.
    + rewrite !elem_of_cons in Hin. rewrite !elem_of_cons. tauto.
Qed.

(** The validator run on a [close_long] with a leverage of 1000 and
    negative size and stops. *)
Lemma validateDecision_actions_witness :
  validateDecision (F := float) wildClose (flit 1000 0) 10 5 (flit 12 0) (flit 150 0) = None.
Proof.
  apply (proj2 (validateDecision_actions (F := float) wildClose (flit 1000 0) 10 5
                  (flit 12 0) (flit 150 0))).
  cbn. rewrite !elem_of_cons. tauto.
Defined.

Lemma isOpenAction_valid (action : string) :
  isOpenAction action = true -> default false (validActions !! action) = true.
Proof.
  intros Hopen. destruct (isOpenAction_cases action Hopen) as [-> | ->]; reflexivity.
Qed.

(** The directional check on stops that are positive normal numbers. *)
Lemma checkBracket_normal (d : Decision float) :
  is_normal64 (StopLoss d) -> is_normal64 (TakeProfit d) ->
  checkBracket d = None
  <-> if (Action d =? "open_long")%string
      then (binary64_value (StopLoss d) < binary64_value (TakeProfit d))%Q
      else (binary64_value (TakeProfit d) < binary64_value (StopLoss d))%Q.
Proof.
  intros Hsl Htp. unfold checkBracket. cbn [fle binary64].
  destruct (Action d =? "open_long")%string.
  - destruct (TakeProfit d <=? StopLoss d)%float eqn:Hdir.
    + apply (binary64_leb_normal _ _ Htp Hsl) in Hdir. split; [discriminate|]. intros Hlt.
      exfalso. exact (Qlt_not_le _ _ Hlt Hdir).
    + split; [|reflexivity]. intros _. apply Qnot_le_lt. intros Hle.
      apply (binary64_leb_normal _ _ Htp Hsl) in Hle. congruence.
  - destruct (StopLoss d <=? TakeProfit d)%float eqn:Hdir.
    + apply (binary64_leb_normal _ _ Hsl Htp) in Hdir. split; [discriminate|]. intros Hlt.
      exfalso. exact (Qlt_not_le _ _ Hlt Hdir).
    + split; [|reflexivity]. intros _. apply Qnot_le_lt. intros Hle.
      apply (binary64_leb_normal _ _ Hsl Htp) in Hle. congruence.
Qed.

(** X2.  In binary64, an opening decision whose stops lie between
    [2^-960] and [2^1000] and are at least [2^-48] of the larger one apart
    is accepted exactly when its leverage lies between 1 and the cap of
    its symbol, its size passes the comparisons with 0, with a configured
    minimum and with the configured maximum (without one: with 101% of
    the multiple of the equity allowed for the symbol), and the stop loss
    lies on the losing side of the take profit.  The comparisons of the
    size are the negated tests of the code, which a size that is not a
    number passes; the test of the ratio rejects nothing in this range. *)
Theorem binary64_validateDecision_accepts_iff (d : Decision float) (accountEquity : float)
    (btcEthLeverage altcoinLeverage : Z) (minPositionSizeUSD maxPositionSizeUSD : float) :
  isOpenAction (Action d) = true ->
  let sl := binary64_value (StopLoss d) in
  let tp := binary64_value (TakeProfit d) in
  (2 ^ (-960) <= Qmin sl tp)%Q -> (Qmax sl tp <= 2 ^ 1000)%Q ->
  (Qmax sl tp <= 2 ^ 48 * Qabs (tp - sl))%Q ->
  let size := PositionSizeUSD d in
  let allowed := (accountEquity * (if isBTCETH (Symbol d) then flit 10 0 else flit 15 (-1)))%go in
  validateDecision d accountEquity btcEthLeverage altcoinLeverage
    minPositionSizeUSD maxPositionSizeUSD = None
  <-> 1 <= Leverage d <= maxLeverage (Symbol d) btcEthLeverage altcoinLeverage
      /\ (size <=? flit 0 0)%go = false
      /\ ((minPositionSizeUSD >? flit 0 0) && (size <? minPositionSizeUSD))%go = false
      /\ (if (maxPositionSizeUSD >? flit 0 0)%go
          then (size >? maxPositionSizeUSD)%go = false
          else (size >? allowed + allowed * flit 1 (-2))%go = false)
      /\ (if (Action d =? "open_long")%string then sl < tp else tp < sl)%Q.
Proof.
  intros Hopen sl tp Hlow Hhigh Hwide size allowed.
  pose proof (Q.le_min_l sl tp) as Hmin1. pose proof (Q.le_min_r sl tp) as Hmin2.
  assert (Hsl : is_normal64 (StopLoss d)).
  { apply (is_normal64_range _ (-960)); [lia|]. fold sl. lra. }
  assert (Htp : is_normal64 (TakeProfit d)).
  { apply (is_normal64_range _ (-960)); [lia|]. fold tp. lra. }
  assert (Hstops : ((StopLoss d <=? flit 0 0) || (TakeProfit d <=? flit 0 0))%go = false).
  { cbn [fle binary64].
    rewrite (binary64_zero_leb_normal _ Hsl), (binary64_zero_leb_normal _ Htp). reflexivity. }
  pose proof (checkBracket_normal d Hsl Htp) as Hdirection. fold sl tp in Hdirection.
  assert (Hvalid : default false (validActions !! Action d) = true).
  { destruct (isOpenAction_cases _ Hopen) as [-> | ->]; reflexivity. }
  assert (Hallowed : maxPositionValue (Symbol d) accountEquity = allowed).
  { unfold maxPositionValue, allowed. destruct (isBTCETH (Symbol d)); reflexivity. }
  unfold validateDecision, checkMaxPositionSize. rewrite Hvalid, Hopen, Hallowed. cbn [negb].
  fold size.
  destruct ((Leverage d <=? 0) || (Leverage d >? maxLeverage (Symbol d) btcEthLeverage altcoinLeverage))%Z
    eqn:Hleverage.
  { split; [discriminate|]. intros (Hl & _). exfalso.
    apply orb_true_iff in Hleverage. destruct Hleverage as [Hl'|Hl'].
    - apply Z.leb_le in Hl'. lia.
    - apply Z.gtb_lt in Hl'. lia. }
  apply orb_false_iff in Hleverage. destruct Hleverage as [Hl1 Hl2].
  apply Z.leb_gt in Hl1. rewrite Z.gtb_ltb in Hl2. apply Z.ltb_ge in Hl2.
  destruct (size <=? flit 0 0)%go eqn:Hpositive.
  { split; [discriminate|]. intros (_ & Hfalse & _). discriminate. }
  destruct ((minPositionSizeUSD >? flit 0 0) && (size <? minPositionSizeUSD))%go eqn:Hminimum.
  { split; [discriminate|]. intros (_ & _ & Hfalse & _). discriminate. }
  assert (Hafter : (if ((StopLoss d <=? flit 0 0) || (TakeProfit d <=? flit 0 0))%go
                    then Some ErrStopsNotPositive
                    else match checkBracket d with
                         | Some err => Some err
                         | None =>
                             if (riskRewardRatio d <? flit 3 0)%go
                             then Some (ErrRiskRewardTooLow (riskRewardRatio d) (riskPercent d)
                                          (rewardPercent d) (StopLoss d) (TakeProfit d))
                             else None
                         end) = None
                   <-> (if (Action d =? "open_long")%string then sl < tp else tp < sl)%Q).
  { rewrite Hstops. destruct (checkBracket d) as [err|] eqn:Hbr.
    - split; [discriminate|]. intros Hdir. apply Hdirection in Hdir. discriminate.
    - destruct (riskRewardRatio_model d Hbr Hlow Hhigh Hwide) as (_ & _ & _ & Hge).
      rewrite Hge. split; [intros _; apply Hdirection; reflexivity|reflexivity]. }
  destruct (maxPositionSizeUSD >? flit 0 0)%go.
  - destruct (size >? maxPositionSizeUSD)%go.
    + split; [discriminate|]. intros (_ & _ & _ & Hfalse & _). discriminate.
    + rewrite Hafter. split.
      * intros Hdir. repeat split; try reflexivity; try lia. exact Hdir.
      * intros (_ & _ & _ & _ & Hdir). exact Hdir.
  - destruct (size >? allowed + allowed * flit 1 (-2))%go.
    + split.
      * destruct (isBTCETH (Symbol d)); discriminate.
      * intros (_ & _ & _ & Hfalse & _). discriminate.
    + rewrite Hafter. split.
      * intros Hdir. repeat split; try reflexivity; try lia. exact Hdir.
      * intros (_ & _ & _ & _ & Hdir). exact Hdir.
Qed.

(** A size of 100 within the limits 12 and 150, with the stops 100 and
    110. *)
Lemma binary64_validateDecision_accepts_iff_witness :
  validateDecision (F := float) (sizedDecision 100) (flit 1000 0) 10 5 (flit 12 0) (flit 150 0)
  = None.
Proof.
  assert (Hlow : (2 ^ (-960) <= Qmin (binary64_value (StopLoss (F := float) (sizedDecision 100)))
                                  (binary64_value (TakeProfit (F := float) (sizedDecision 100))))%Q)
    by (vm_compute; discriminate).
  assert (Hhigh : (Qmax (binary64_value (StopLoss (F := float) (sizedDecision 100)))
                     (binary64_value (TakeProfit (F := float) (sizedDecision 100)))
                   <= 2 ^ 1000)%Q)
    by (vm_compute; discriminate).
  assert (Hwide : (Qmax (binary64_value (StopLoss (F := float) (sizedDecision 100)))
                     (binary64_value (TakeProfit (F := float) (sizedDecision 100)))
                   <= 2 ^ 48 * Qabs (binary64_value (TakeProfit (F := float) (sizedDecision 100))
                                     - binary64_value (StopLoss (F := float) (sizedDecision 100))))%Q)
    by (vm_compute; discriminate).
  apply (proj2 (binary64_validateDecision_accepts_iff (sizedDecision 100) (flit 1000 0) 10 5
                  (flit 12 0) (flit 150 0) eq_refl Hlow Hhigh Hwide)).
  split; [vm_compute; split; discriminate|].
  split; [vm_compute; reflexivity|]. split; [vm_compute; reflexivity|].
  split; [vm_compute; reflexivity|]. vm_compute. reflexivity.
Defined.

(** X3.  Normalisation changes nothing in a decision that validates: the
    decisions the validator accepts are fixed points of
    [normalizeDecisions]. *)
Theorem normalizeDecisions_keeps_valid {F : Type} `{Float64 F} (decisions : list (Decision F))
    (accountEquity : F) (btcEthLeverage altcoinLeverage : Z)
    (minPositionSizeUSD maxPositionSizeUSD : F) :
  validateDecisions decisions accountEquity btcEthLeverage altcoinLeverage
    minPositionSizeUSD maxPositionSizeUSD = None ->
  normalizeDecisions decisions minPositionSizeUSD maxPositionSizeUSD = decisions.
Proof.
  unfold validateDecisions, normalizeDecisions. generalize 0.
  induction decisions as [|d rest IH]; intros i Hvalid; [reflexivity|].
  cbn [validateDecisionsFrom] in Hvalid. cbn [map].
  destruct (validateDecision d accountEquity btcEthLeverage altcoinLeverage
              minPositionSizeUSD maxPositionSizeUSD) as [err|] eqn:Hd; [discriminate|].
  rewrite (IH _ Hvalid). f_equal.
  unfold validateDecision in Hd. unfold normalizeDecision.
  destruct (negb (default false (validActions !! Action d))); [discriminate|].
  destruct (isOpenAction (Action d)); [|reflexivity].
  destruct ((Leverage d <=? 0) || _); [discriminate|].
  destruct (PositionSizeUSD d <=? flit 0 0)%go; [discriminate|].
  destruct (minPositionSizeUSD >? flit 0 0)%go eqn:Hmin0; cbn [andb] in Hd |- *.
  - destruct (PositionSizeUSD d <? minPositionSizeUSD)%go; [discriminate|].
    rewrite andb_false_r. unfold checkMaxPositionSize in Hd.
    destruct (maxPositionSizeUSD >? flit 0 0)%go; cbn [andb]; [|reflexivity].
    destruct (PositionSizeUSD d >? maxPositionSizeUSD)%go; [discriminate|reflexivity].
  - unfold checkMaxPositionSize in Hd.
    destruct (maxPositionSizeUSD >? flit 0 0)%go; cbn [andb]; [|reflexivity].
    destruct (PositionSizeUSD d >? maxPositionSizeUSD)%go; [discriminate|reflexivity].
Qed.

(** Normalising the accepted decision of size 100 between the limits 12
    and 150. *)
Lemma normalizeDecisions_keeps_valid_witness :
  normalizeDecisions (F := float) [sizedDecision 100] (flit 12 0) (flit 150 0)
  = [sizedDecision 100].
Proof.
  apply (normalizeDecisions_keeps_valid (F := float) [sizedDecision 100] (flit 1000 0) 10 5).
  vm_compute. reflexivity.
Defined.

(** The laws of the order that the size checks rely on. *)
Lemma normalizeDecision_size_checks {F : Type} `{Float64 F}
    (irrefl : forall x : F, (x <? x)%go = false)
    (positive : forall x y : F,
        (x <=? flit 0 0)%go = false -> (x <? y)%go = true -> (x >? flit 0 0)%go = true)
    (d : Decision F) (accountEquity : F) (btcEthLeverage altcoinLeverage : Z)
    (minPositionSizeUSD maxPositionSizeUSD : F) :
  ((maxPositionSizeUSD >? flit 0 0) && (maxPositionSizeUSD <? minPositionSizeUSD))%go = false ->
  forall size limit,
    validateDecision (normalizeDecision minPositionSizeUSD maxPositionSizeUSD d) accountEquity
      btcEthLeverage altcoinLeverage minPositionSizeUSD maxPositionSizeUSD
    <> Some (ErrPositionSizeBelowMin size limit)
    /\ validateDecision (normalizeDecision minPositionSizeUSD maxPositionSizeUSD d)
         accountEquity btcEthLeverage altcoinLeverage minPositionSizeUSD maxPositionSizeUSD
       <> Some (ErrPositionSizeAboveMax size limit).
Proof.
  intros Hlimits size limit.
  assert (forall d' : Decision F,
             ((minPositionSizeUSD >? flit 0 0)
              && (PositionSizeUSD d' <? minPositionSizeUSD))%go = false ->
             ((maxPositionSizeUSD >? flit 0 0)
              && (PositionSizeUSD d' >? maxPositionSizeUSD))%go = false ->
             validateDecision d' accountEquity btcEthLeverage altcoinLeverage
               minPositionSizeUSD maxPositionSizeUSD
             <> Some (ErrPositionSizeBelowMin size limit)
             /\ validateDecision d' accountEquity btcEthLeverage altcoinLeverage
                  minPositionSizeUSD maxPositionSizeUSD
                <> Some (ErrPositionSizeAboveMax size limit)) as Hwithin.
  { intros d' Hmin Hmax. unfold validateDecision, checkMaxPositionSize, checkBracket.
    rewrite Hmin.
    destruct (maxPositionSizeUSD >? flit 0 0)%go; cbn [andb] in Hmax; rewrite ?Hmax;
      repeat match goal with
             | |- context [if ?b then _ else _] => destruct b
             end; split; discriminate. }
  assert (forall d' : Decision F,
             (PositionSizeUSD d' <=? flit 0 0)%go = true ->
             validateDecision d' accountEquity btcEthLeverage altcoinLeverage
               minPositionSizeUSD maxPositionSizeUSD
             <> Some (ErrPositionSizeBelowMin size limit)
             /\ validateDecision d' accountEquity btcEthLeverage altcoinLeverage
                  minPositionSizeUSD maxPositionSizeUSD
                <> Some (ErrPositionSizeAboveMax size limit)) as Hnonpositive.
  { intros d' Hpos. unfold validateDecision. rewrite Hpos.
    repeat match goal with
           | |- context [if ?b then _ else _] => destruct b
           end; split; discriminate. }
  unfold normalizeDecision.
  destruct (isOpenAction (Action d)) eqn:Hopen.
  2:{ unfold validateDecision. rewrite Hopen.
      destruct (negb _); split; discriminate. }
  set (clamp := ((minPositionSizeUSD >? flit 0 0) && (PositionSizeUSD d >? flit 0 0)
                 && (PositionSizeUSD d <? minPositionSizeUSD))%go).
  assert (clamp = false -> (PositionSizeUSD d <=? flit 0 0)%go = false ->
          ((minPositionSizeUSD >? flit 0 0)
           && (PositionSizeUSD d <? minPositionSizeUSD))%go = false) as Hunclamped.
  { unfold clamp. intros Hclamp Hpos.
    destruct (minPositionSizeUSD >? flit 0 0)%go; [|reflexivity].
    destruct (PositionSizeUSD d <? minPositionSizeUSD)%go eqn:Hbelow; [|reflexivity].
    rewrite (positive _ _ Hpos Hbelow) in Hclamp. discriminate. }
  destruct ((maxPositionSizeUSD >? flit 0 0) && (PositionSizeUSD d >? maxPositionSizeUSD))%go
    eqn:Hmax.
  - apply andb_true_iff in Hmax. destruct Hmax as [Hmax0 Hmax].
    rewrite Hmax0 in Hlimits. cbn [andb] in Hlimits.
    apply Hwithin.
    + destruct clamp; cbn [PositionSizeUSD]; rewrite Hlimits; apply andb_false_r.
    + destruct clamp; cbn [PositionSizeUSD]; rewrite irrefl; apply andb_false_r.
  - destruct clamp eqn:Hclamp.
    + apply Hwithin; cbn [PositionSizeUSD].
      * rewrite irrefl. apply andb_false_r.
      * destruct (maxPositionSizeUSD >? flit 0 0)%go; [|reflexivity].
        cbn [andb] in Hlimits |- *. exact Hlimits.
    + destruct (PositionSizeUSD d <=? flit 0 0)%go eqn:Hpos; [apply Hnonpositive, Hpos|].
      apply Hwithin; [apply Hunclamped; reflexivity|exact Hmax].
Qed.

Lemma binary64_positive (x y : float) :
  (x <=? flit 0 0)%go = false -> (x <? y)%go = true -> (x >? flit 0 0)%go = true.
Proof.
  cbn [flt fle binary64]. rewrite !FloatAxioms.ltb_spec, FloatAxioms.leb_spec.
  unfold SpecFloat.SFltb, SpecFloat.SFleb.
  rewrite (SFcompare_antisym (Prim2SF x) (Prim2SF (flit 0 0))).
  destruct (Prim2SF x) as [s|s| |s m e];
    destruct (SpecFloat.SFcompare _ (Prim2SF (flit 0 0))) as [[| |]|] eqn:Hc;
    cbn; try congruence; vm_compute in Hc; try discriminate.
Qed.

(** X4.  After normalisation the validator never reports a position size
    below the minimum or above the maximum, provided a configured maximum
    is not below the minimum: the clamp of [normalizeDecisions] and the
    size checks of [validateDecision] agree, in the binary64 arithmetic of
    the program. *)
Theorem normalized_size_passes_limits (d : Decision float) (accountEquity : float)
    (btcEthLeverage altcoinLeverage : Z) (minPositionSizeUSD maxPositionSizeUSD : float) :
  ((maxPositionSizeUSD >? flit 0 0) && (maxPositionSizeUSD <? minPositionSizeUSD))%go = false ->
  forall size limit,
    validateDecision (normalizeDecision minPositionSizeUSD maxPositionSizeUSD d) accountEquity
      btcEthLeverage altcoinLeverage minPositionSizeUSD maxPositionSizeUSD
    <> Some (ErrPositionSizeBelowMin size limit)
    /\ validateDecision (normalizeDecision minPositionSizeUSD maxPositionSizeUSD d)
         accountEquity btcEthLeverage altcoinLeverage minPositionSizeUSD maxPositionSizeUSD
       <> Some (ErrPositionSizeAboveMax size limit).
Proof.
  apply normalizeDecision_size_checks; [exact binary64_flt_irrefl|exact binary64_positive].
Qed.

(** A size of 500 against the limits 12 and 150, normalised. *)
Lemma normalized_size_passes_limits_witness :
  validateDecision (F := float) (normalizeDecision (flit 12 0) (flit 150 0) (sizedDecision 500))
    (flit 1000 0) 10 5 (flit 12 0) (flit 150 0)
  <> Some (ErrPositionSizeBelowMin (flit 150 0) (flit 12 0))
  /\ validateDecision (F := float)
       (normalizeDecision (flit 12 0) (flit 150 0) (sizedDecision 500))
       (flit 1000 0) 10 5 (flit 12 0) (flit 150 0)
     <> Some (ErrPositionSizeAboveMax (flit 150 0) (flit 12 0)).
Proof.
  assert (((flit 150 0 >? flit 0 0) && (flit 150 0 <? flit 12 0))%go = false) as Hlimits
    by (vm_compute; reflexivity).
  exact (normalized_size_passes_limits (sizedDecision 500) (flit 1000 0) 10 5 (flit 12 0)
           (flit 150 0) Hlimits (flit 150 0) (flit 12 0)).
Defined.

(** ** findMatchingBracket *)

(** X5.  [findMatchingBracket] returns the end of the smallest balanced
    block that starts at [start]: the byte at [start] is an opening
    bracket, the byte at the result a closing bracket, the block between
    the two has as many closing as opening brackets, and every shorter
    piece of it that starts at [start] has more opening than closing
    brackets.  It returns [-1] exactly when there is no such block. *)
Theorem findMatchingBracket_balanced (s : string) (start e : nat) :
  findMatchingBracket s start = Some e
  <-> String.get start s = Some "["%char
      /\ String.get e s = Some "]"%char
      /\ (start < e)%nat
      /\ bracketDepth (slice s start (e + 1)) = 0
      /\ forall k : nat, (start < k <= e)%nat -> 0 < bracketDepth (slice s start k).
Proof. exact (findMatchingBracket_spec s start e). Qed.

(** ** Bytes of a string *)

Lemma prefix_cons (c a : ascii) (p s : string) :
  String.prefix (String a p) (String c s) = Ascii.eqb a c && String.prefix p s.
Proof.
  cbn. destruct (ascii_dec a c) as [->|Hne].
  - rewrite Ascii.eqb_refl. reflexivity.
  - apply Ascii.eqb_neq in Hne. rewrite Hne. reflexivity.
Qed.

Lemma prefix_empty (s : string) : String.prefix "" s = true.
Proof. destruct s; reflexivity. Qed.

Lemma strings_Index_byte_None (s : string) (c : ascii) :
  strings_Index s (String c EmptyString) = None
  <-> Forall (fun x => x <> c) (list_ascii_of_string s).
Proof.
  induction s as [|x s IH].
  - cbn. split; [constructor|reflexivity].
  - rewrite strings_Index_unfold, prefix_cons, prefix_empty, andb_true_r.
    cbn [list_ascii_of_string]. rewrite Forall_cons. destruct (Ascii.eqb c x) eqn:Hx.
    + apply Ascii.eqb_eq in Hx. subst x. split; [discriminate|]. intros [Hne _].
      congruence.
    + apply Ascii.eqb_neq in Hx.
      destruct (strings_Index s (String c "")) as [i|]; cbn.
      * split; [discriminate|]. intros [_ Hall]. apply IH in Hall. discriminate.
      * split; [|reflexivity]. intros _. split; [congruence|]. apply IH. reflexivity.
Qed.

Lemma list_ascii_sliceFrom (s : string) (n : nat) :
  list_ascii_of_string (sliceFrom s n) = drop n (list_ascii_of_string s).
Proof.
  revert s. induction n as [|n IH]; intros s; [reflexivity|].
  destruct s as [|c s]; [reflexivity|]. cbn. apply IH.
Qed.

Lemma list_ascii_sliceTo (s : string) (n : nat) :
  list_ascii_of_string (sliceTo s n) = take n (list_ascii_of_string s).
Proof.
  revert s. induction n as [|n IH]; intros s; [reflexivity|].
  destruct s as [|c s]; [reflexivity|]. cbn. f_equal. apply IH.
Qed.

Lemma trimLeftSteps_sliceFrom (steps : nat) (runes : list string) (s : string) :
  exists k, trimLeftSteps steps runes s = sliceFrom s k.
Proof.
  revert s. induction steps as [|steps IH]; intros s; [exists O; reflexivity|].
  cbn [trimLeftSteps]. destruct (leadingSpaceWidth runes s) as [|w]; [exists O; reflexivity|].
  destruct (IH (sliceFrom s (S w))) as [k ->]. exists (S w + k)%nat.
  clear. generalize (S w) as a. intros a. revert s. induction a as [|a IHa]; intros s.
  - reflexivity.
  - destruct s as [|c s]; cbn [sliceFrom Nat.add].
    + destruct k; reflexivity.
    + apply IHa.
Qed.

Lemma list_ascii_stringRev (s : string) :
  list_ascii_of_string (stringRev s) = rev (list_ascii_of_string s).
Proof. unfold stringRev. apply list_ascii_of_string_of_list_ascii. Qed.

(** The bytes of [strings.TrimSpace(s)] are bytes of [s]. *)
Lemma strings_TrimSpace_bytes (s : string) (P : ascii -> Prop) :
  Forall P (list_ascii_of_string s) -> Forall P (list_ascii_of_string (strings_TrimSpace s)).
Proof.
  intros Hall. unfold strings_TrimSpace.
  destruct (trimLeftSteps_sliceFrom (String.length s) spaceRunes s) as [k ->].
  set (s1 := sliceFrom s k).
  destruct (trimLeftSteps_sliceFrom (String.length s1) (map stringRev spaceRunes)
              (stringRev s1)) as [k' ->].
  rewrite list_ascii_stringRev, list_ascii_sliceFrom, list_ascii_stringRev.
  apply Forall_rev, Forall_drop, Forall_rev. unfold s1.
  rewrite list_ascii_sliceFrom. apply Forall_drop, Hall.
Qed.

Lemma strings_Index_before (s : string) (c : ascii) (n : nat) :
  strings_Index s (String c EmptyString) = Some n ->
  Forall (fun x => x <> c) (list_ascii_of_string (sliceTo s n)).
Proof.
  revert n. induction s as [|x s IH]; intros n.
  - cbn. discriminate.
  - rewrite strings_Index_unfold, prefix_cons, prefix_empty, andb_true_r.
    destruct (Ascii.eqb c x) eqn:Hx.
    + intros [= <-]. constructor.
    + destruct (strings_Index s (String c "")) as [i|]; cbn; [|discriminate].
      intros [= <-]. cbn. constructor.
      * apply Ascii.eqb_neq in Hx. congruence.
      * apply IH. reflexivity.
Qed.

(** ** extractCoTTrace *)

Lemma sliceFrom_prefix_snoc (r t : string) (c : ascii) :
  forallb (fun x => negb (Ascii.eqb x c)) (list_ascii_of_string r) = true ->
  String.prefix r (t +:+ String c EmptyString) = true ->
  sliceFrom (t +:+ String c EmptyString) (String.length r)
  = sliceFrom t (String.length r) +:+ String c EmptyString.
Proof.
  revert t. induction r as [|a r IH]; intros t Hfree Hprefix; [reflexivity|].
  cbn [list_ascii_of_string forallb] in Hfree. apply andb_true_iff in Hfree.
  destruct Hfree as [Ha Hfree]. destruct t as [|x t].
  - exfalso. change ("" +:+ String c "") with (String c "") in Hprefix.
    rewrite prefix_cons in Hprefix. apply andb_true_iff in Hprefix.
    destruct Hprefix as [Hac _]. rewrite Hac in Ha. discriminate.
  - change (String x t +:+ String c "") with (String x (t +:+ String c "")) in *.
    rewrite prefix_cons in Hprefix. apply andb_true_iff in Hprefix.
    destruct Hprefix as [_ Hprefix]. cbn [String.length sliceFrom]. apply IH; assumption.
Qed.

(** A text that ends with an opening bracket keeps it when the space runes
    at its head are dropped. *)
Lemma trimLeftSteps_keeps_bracket (steps : nat) (t : string) :
  exists t', trimLeftSteps steps (map stringRev spaceRunes) (t +:+ "[") = t' +:+ "[".
Proof.
  revert t. induction steps as [|steps IH]; intros t; [exists t; reflexivity|].
  cbn [trimLeftSteps].
  destruct (leadingSpaceWidth (map stringRev spaceRunes) (t +:+ "[")) as [|w] eqn:Hw;
    [exists t; reflexivity|].
  assert (sliceFrom (t +:+ "[") (S w) = sliceFrom t (S w) +:+ "[") as ->; [|apply IH].
  unfold leadingSpaceWidth in Hw.
  destruct (find (fun r => String.prefix r (t +:+ "[")) (map stringRev spaceRunes))
    as [r|] eqn:Hfind; [|discriminate].
  apply find_some in Hfind. destruct Hfind as [Hin Hprefix]. rewrite <- Hw.
  apply sliceFrom_prefix_snoc; [|exact Hprefix].
  assert (forallb (fun r => forallb (fun x => negb (Ascii.eqb x "[")) (list_ascii_of_string r))
            (map stringRev spaceRunes) = true) as Hfree by reflexivity.
  rewrite forallb_forall in Hfree. apply Hfree, Hin.
Qed.

Lemma stringRev_cons (c : ascii) (s : string) :
  stringRev (String c s) = stringRev s +:+ String c EmptyString.
Proof.
  unfold stringRev. cbn [list_ascii_of_string rev].
  generalize (rev (list_ascii_of_string s)) as l. intros l.
  induction l as [|x l IH]; [reflexivity|]. cbn [app string_of_list_ascii].
  rewrite IH. reflexivity.
Qed.

Lemma stringRev_snoc (c : ascii) (s : string) :
  stringRev (s +:+ String c EmptyString) = String c (stringRev s).
Proof.
  induction s as [|x s IH]; [reflexivity|].
  change (String x s +:+ String c "") with (String x (s +:+ String c "")).
  rewrite !stringRev_cons, IH. reflexivity.
Qed.

(** X6.  The chain of thought holds no opening bracket, so no part of an
    array of the response, unless the response starts with an opening
    bracket; then it is the whole response, trimmed, array included. *)
Theorem extractCoTTrace_brackets (response : string) :
  (strings_Index response "[" <> Some O -> strings_Index (extractCoTTrace response) "[" = None)
  /\ (strings_Index response "[" = Some O ->
      extractCoTTrace response = strings_TrimSpace response
      /\ strings_Index (extractCoTTrace response) "[" = Some O).
Proof.
  unfold extractCoTTrace. split.
  - intros Hnot. apply strings_Index_byte_None.
    destruct (strings_Index response "[") as [[|jsonStart]|] eqn:Hindex.
    + congruence.
    + apply strings_TrimSpace_bytes, (strings_Index_before _ _ _ Hindex).
    + apply strings_TrimSpace_bytes, strings_Index_byte_None, Hindex.
  - intros Hindex. rewrite Hindex. split; [reflexivity|].
    destruct response as [|c rest]; [discriminate|].
    rewrite strings_Index_unfold, prefix_cons, prefix_empty, andb_true_r in Hindex.
    destruct (Ascii.eqb "[" c) eqn:Hc.
    2:{ destruct (strings_Index rest "["); discriminate. }
    apply Ascii.eqb_eq in Hc. subst c. unfold strings_TrimSpace.
    assert (trimLeftSteps (String.length (String "[" rest)) spaceRunes (String "[" rest)
            = String "[" rest) as -> by reflexivity.
    rewrite stringRev_cons.
    destruct (trimLeftSteps_keeps_bracket (String.length (String "[" rest)) (stringRev rest))
      as [t' ->].
    rewrite stringRev_snoc, strings_Index_unfold, prefix_cons, prefix_empty. reflexivity.
Qed.

(** ** strings.ReplaceAll *)

Lemma strings_Index_None_cons (c : ascii) (s sub : string) :
  strings_Index (String c s) sub = None
  <-> String.prefix sub (String c s) = false /\ strings_Index s sub = None.
Proof.
  rewrite (strings_Index_unfold (String c s)).
  destruct (String.prefix sub (String c s)); [split; [discriminate|intros [? _]; discriminate]|].
  destruct (strings_Index s sub); cbn; split; try discriminate; try tauto.
  intros [_ ?]. discriminate.
Qed.

(** Without an occurrence of [old] nothing is replaced. *)
Lemma replaceAllFrom_absent (s old new : string) :
  strings_Index s old = None -> replaceAllFrom O s old new = s.
Proof.
  induction s as [|c s IH]; intros Habsent; [reflexivity|].
  apply strings_Index_None_cons in Habsent. destruct Habsent as [Hprefix Habsent].
  cbn [replaceAllFrom]. rewrite Hprefix, (IH Habsent). reflexivity.
Qed.

(** What the replacement starts with, the text started with, when [new]
    starts with a byte that is not in [p]. *)
Lemma replaceAllFrom_prefix (p old new : string) (n0 : ascii) (new' : string) :
  new = String n0 new' ->
  freeOf (String n0 EmptyString) p = true ->
  forall s, String.prefix p (replaceAllFrom O s old new) = true -> String.prefix p s = true.
Proof.
  intros -> Hfree. induction p as [|a p IH]; intros s Hprefix; [apply prefix_empty|].
  unfold freeOf in Hfree. cbn [list_ascii_of_string forallb existsb] in Hfree.
  apply andb_true_iff in Hfree. destruct Hfree as [Ha Hfree].
  rewrite orb_false_r in Ha. apply negb_true_iff in Ha.
  destruct s as [|c s]; [cbn in Hprefix; discriminate|].
  cbn [replaceAllFrom] in Hprefix. destruct (String.prefix old (String c s)).
  - exfalso. change (String n0 new' +:+ ?x) with (String n0 (new' +:+ x)) in Hprefix.
    rewrite prefix_cons, Ha in Hprefix. discriminate.
  - rewrite prefix_cons in Hprefix |- *. apply andb_true_iff in Hprefix.
    destruct Hprefix as [-> Hprefix]. cbn [andb]. apply IH; assumption.
Qed.

(** A text put in front of [s] whose bytes are not in [p] brings no
    occurrence of [p]. *)
Lemma strings_Index_None_append (new s p : string) (a : ascii) (p' : string) :
  p = String a p' ->
  freeOf new p = true ->
  strings_Index s p = None -> strings_Index (new +:+ s) p = None.
Proof.
  intros -> Hfree Habsent. unfold freeOf in Hfree.
  cbn [list_ascii_of_string forallb] in Hfree. apply andb_true_iff in Hfree.
  destruct Hfree as [Ha _]. apply negb_true_iff in Ha.
  induction new as [|n new IH]; [exact Habsent|].
  change (String n new +:+ s) with (String n (new +:+ s)).
  cbn [list_ascii_of_string existsb] in Ha. apply orb_false_iff in Ha.
  destruct Ha as [Han Ha]. apply strings_Index_None_cons. split.
  - rewrite prefix_cons, Han. reflexivity.
  - apply IH, Ha.
Qed.

Lemma freeOf_first (new p : string) (n0 : ascii) (new' : string) :
  new = String n0 new' -> freeOf new p = true -> freeOf (String n0 EmptyString) p = true.
Proof.
  intros -> Hfree. unfold freeOf in *. rewrite forallb_forall in Hfree |- *.
  intros x Hx. specialize (Hfree x Hx). apply negb_true_iff in Hfree. apply negb_true_iff.
  cbn [list_ascii_of_string existsb] in Hfree |- *. apply orb_false_iff in Hfree.
  rewrite orb_false_r. tauto.
Qed.

(** No occurrence of [old] is left when no byte of [new] is in [old]. *)
Lemma replaceAllFrom_removes (old new : string) (a : ascii) (old' : string) (n0 : ascii)
    (new' : string) :
  old = String a old' -> new = String n0 new' -> freeOf new old = true ->
  forall s k, strings_Index (replaceAllFrom k s old new) old = None.
Proof.
  intros Hold Hnew Hfree. induction s as [|c s IH]; intros k.
  - cbn. rewrite Hold. reflexivity.
  - cbn [replaceAllFrom]. destruct k as [|k]; [|apply IH].
    destruct (String.prefix old (String c s)) eqn:Hprefix.
    + apply (strings_Index_None_append _ _ _ a old' Hold Hfree), IH.
    + apply strings_Index_None_cons. split; [|apply IH].
      destruct (String.prefix old (String c (replaceAllFrom 0 s old new))) eqn:Hout;
        [|reflexivity].
      rewrite <- Hprefix. symmetry.
      apply (replaceAllFrom_prefix old old new n0 new' Hnew (freeOf_first _ _ _ _ Hnew Hfree)).
      cbn [replaceAllFrom]. rewrite Hprefix. exact Hout.
Qed.

(** No occurrence of [p] comes up when no byte of [new] is in [p]. *)
Lemma replaceAllFrom_preserves (p old new : string) (a : ascii) (p' : string) (n0 : ascii)
    (new' : string) :
  p = String a p' -> new = String n0 new' -> freeOf new p = true ->
  forall s k, strings_Index s p = None -> strings_Index (replaceAllFrom k s old new) p = None.
Proof.
  intros Hp Hnew Hfree. induction s as [|c s IH]; intros k Habsent.
  - cbn. rewrite Hp. reflexivity.
  - pose proof Habsent as Habsent'. apply strings_Index_None_cons in Habsent'.
    destruct Habsent' as [Hprefix Hrest].
    cbn [replaceAllFrom]. destruct k as [|k]; [|apply IH, Hrest].
    destruct (String.prefix old (String c s)) eqn:Hold.
    + apply (strings_Index_None_append _ _ _ a p' Hp Hfree), IH, Hrest.
    + apply strings_Index_None_cons. split; [|apply IH, Hrest].
      destruct (String.prefix p (String c (replaceAllFrom 0 s old new))) eqn:Hout;
        [|reflexivity].
      rewrite <- Hprefix. symmetry.
      apply (replaceAllFrom_prefix p old new n0 new' Hnew (freeOf_first _ _ _ _ Hnew Hfree)).
      cbn [replaceAllFrom]. rewrite Hold. exact Hout.
Qed.

(** ** fixMissingQuotes *)

Ltac curly_quote_gone :=
  first
    [ eapply replaceAllFrom_removes; reflexivity
    | eapply replaceAllFrom_preserves; [reflexivity|reflexivity|reflexivity|curly_quote_gone] ].

Lemma strings_Contains_false (s sub : string) :
  strings_Contains s sub = false <-> strings_Index s sub = None.
Proof.
  unfold strings_Contains. destruct (strings_Index s sub); split; congruence.
Qed.

(** X7.  [fixMissingQuotes] leaves no curly quote in the text, and it
    leaves a text without curly quotes as it is. *)
Theorem fixMissingQuotes_curly_quotes (jsonStr : string) :
  Forall (fun quote => strings_Contains (fixMissingQuotes jsonStr) quote = false) curlyQuotes
  /\ (Forall (fun quote => strings_Contains jsonStr quote = false) curlyQuotes ->
      fixMissingQuotes jsonStr = jsonStr).
Proof.
  unfold curlyQuotes. split.
  - unfold fixMissingQuotes, strings_ReplaceAll. rewrite !Forall_cons.
    split; [|split; [|split; [|split; [|constructor]]]];
      apply strings_Contains_false; curly_quote_gone.
  - intros Hnone. rewrite !Forall_cons in Hnone.
    destruct Hnone as (H1 & H2 & H3 & H4 & _).
    apply strings_Contains_false in H1, H2, H3, H4.
    unfold fixMissingQuotes, strings_ReplaceAll.
    rewrite (replaceAllFrom_absent _ _ _ H1), (replaceAllFrom_absent _ _ _ H2),
      (replaceAllFrom_absent _ _ _ H3), (replaceAllFrom_absent _ _ _ H4).
    reflexivity.
Qed.

(** ** More on extractDecisions and GetFullDecision *)

Lemma strings_LastIndex_None (s sub : string) :
  strings_Index s sub = None -> strings_LastIndex s sub = None.
Proof.
  induction s as [|c s IH]; intros Habsent.
  - rewrite strings_Index_unfold in Habsent. cbn [strings_LastIndex].
    destruct (String.prefix sub ""); [discriminate|reflexivity].
  - apply strings_Index_None_cons in Habsent. destruct Habsent as [Hprefix Habsent].
    cbn [strings_LastIndex]. rewrite (IH Habsent), Hprefix. reflexivity.
Qed.

(** X8.  A response without an opening bracket, the empty response
    included, gives the single synthetic wait decision "no JSON array
    found" and no error, whatever the decoder. *)
Theorem extractDecisions_without_bracket {F : Type} `{Float64 F}
    (unmarshal : string -> string + list (Decision F)) (response : string) :
  strings_Index response "[" = None ->
  extractDecisions unmarshal response
  = ([waitDecision "AI响应格式错误，未找到JSON数组"], None).
Proof.
  intros Habsent. unfold extractDecisions. cbn [scanArrays sliceFrom]. rewrite Habsent.
  unfold lastArray. rewrite (strings_LastIndex_None _ _ Habsent). reflexivity.
Qed.

Lemma extractDecisions_without_bracket_witness :
  extractDecisions (F := float) json.Unmarshal "I would rather wait."
  = ([waitDecision "AI响应格式错误，未找到JSON数组"], None).
Proof.
  apply (extractDecisions_without_bracket (F := float) json.Unmarshal "I would rather wait.").
  reflexivity.
Defined.

Lemma validateDecisionsFrom_None {F : Type} `{Float64 F} (decisions : list (Decision F))
    (accountEquity : F) (btcEthLeverage altcoinLeverage : Z)
    (minPositionSizeUSD maxPositionSizeUSD : F) :
  forall i,
    validateDecisionsFrom i decisions accountEquity btcEthLeverage altcoinLeverage
      minPositionSizeUSD maxPositionSizeUSD = None
    <-> Forall (fun d => validateDecision d accountEquity btcEthLeverage altcoinLeverage
                           minPositionSizeUSD maxPositionSizeUSD = None) decisions.
Proof.
  induction decisions as [|d rest IH]; intros i.
  - cbn. split; [constructor|reflexivity].
  - cbn [validateDecisionsFrom]. rewrite Forall_cons.
    destruct (validateDecision d accountEquity btcEthLeverage altcoinLeverage
                minPositionSizeUSD maxPositionSizeUSD) as [err|].
    + split; [discriminate|]. intros [Hd _]. discriminate.
    + rewrite IH. tauto.
Qed.

(** X9.  When the decoder rejects every array of the response, that is,
    every bracket-balanced block once trimmed and repaired, the cycle does
    not fail: [GetFullDecision] returns no error and a decision list that
    consists of one synthetic wait decision, whose reasoning says that no
    array was found, that the array is incomplete, or that the last array
    did not decode, with the error of the decoder. *)
Theorem undecodable_response_gives_wait {F : Type} `{Float64 F}
    (unmarshal : string -> string + list (Decision F)) (userPrompt aiResponse : string)
    (now : Z) (accountEquity : F) (btcEthLeverage altcoinLeverage : Z)
    (minPositionSizeUSD maxPositionSizeUSD : F) :
  (forall arrayStart arrayEnd,
      findMatchingBracket aiResponse arrayStart = Some arrayEnd ->
      exists err,
        unmarshal (fixArithmeticExpressions
                     (fixMissingQuotes (arrayText aiResponse arrayStart arrayEnd)))
        = inl err) ->
  exists reasoning,
    (reasoning = "AI响应格式错误，未找到JSON数组"
     \/ reasoning = "AI响应格式错误，JSON数组不完整"
     \/ exists err, reasoning = "JSON解析失败: " +:+ err)
    /\ GetFullDecision unmarshal userPrompt (inr aiResponse) now accountEquity btcEthLeverage
         altcoinLeverage minPositionSizeUSD maxPositionSizeUSD
       = (Some (mkFullDecision userPrompt (extractCoTTrace aiResponse)
                  [waitDecision reasoning] now), None).
Proof.
  intros Hreject.
  assert (Hextract : exists reasoning,
             (reasoning = "AI响应格式错误，未找到JSON数组"
              \/ reasoning = "AI响应格式错误，JSON数组不完整"
              \/ exists err, reasoning = "JSON解析失败: " +:+ err)
             /\ extractDecisions unmarshal aiResponse = ([waitDecision reasoning], None)).
  { unfold extractDecisions.
    destruct (scanArrays unmarshal (S (String.length aiResponse)) aiResponse 0)
      as [arrayStart decisions| |] eqn:Hscan.
    - exfalso. apply scanArrays_accepted in Hscan. destruct Hscan as (arrayEnd & Hmatch & Htry).
      apply tryArray_Some in Htry. destruct Htry as (_ & Hdecoded & _).
      destruct (Hreject arrayStart arrayEnd Hmatch) as [err Herr]. congruence.
    - unfold lastArray. destruct (strings_LastIndex aiResponse "[") as [arrayStart|];
        [|eexists; split; [left; reflexivity|reflexivity]].
      destruct (findMatchingBracket aiResponse arrayStart) as [arrayEnd|] eqn:Hmatch;
        [|eexists; split; [right; left; reflexivity|reflexivity]].
      destruct (Hreject arrayStart arrayEnd Hmatch) as [err ->].
      eexists. split; [right; right; exists err; reflexivity|reflexivity].
    - exfalso. exact (scanArrays_terminates unmarshal aiResponse Hscan). }
  destruct Hextract as (reasoning & Hreason & Hextract).
  exists reasoning. split; [exact Hreason|].
  unfold GetFullDecision, parseFullDecisionResponse. rewrite Hextract. reflexivity.
Qed.

(** The array of [brokenArray] names "symbol" and is not JSON. *)
Lemma undecodable_response_gives_wait_witness :
  exists reasoning,
    (reasoning = "AI响应格式错误，未找到JSON数组"
     \/ reasoning = "AI响应格式错误，JSON数组不完整"
     \/ exists err, reasoning = "JSON解析失败: " +:+ err)
    /\ GetFullDecision (F := float) json.Unmarshal "prompt" (inr brokenArray) 7 (flit 1000 0)
         10 5 (flit 12 0) (flit 150 0)
       = (Some (mkFullDecision "prompt" (extractCoTTrace brokenArray)
                  [waitDecision reasoning] 7), None).
Proof.
  apply (undecodable_response_gives_wait (F := float) json.Unmarshal "prompt" brokenArray 7
           (flit 1000 0) 10 5 (flit 12 0) (flit 150 0)).
  intros arrayStart arrayEnd Hmatch.
  do 18 (destruct arrayStart as [|arrayStart];
         [vm_compute in Hmatch; try discriminate Hmatch; injection Hmatch as <-;
          eexists; vm_compute; reflexivity|]).
  exfalso. unfold findMatchingBracket in Hmatch.
  change (String.length brokenArray) with 17%nat in Hmatch. cbn in Hmatch. discriminate.
Defined.

(** X10.  [GetFullDecision] returns either a result and no error, or an
    error and no result; and every decision of a result it returns has
    passed [validateDecision] under the limits of the call, while the
    result carries the prompt and the clock reading handed in. *)
Theorem GetFullDecision_returns_valid_decisions {F : Type} `{Float64 F}
    (unmarshal : string -> string + list (Decision F)) (userPrompt : string)
    (aiCall : string + string) (now : Z) (accountEquity : F)
    (btcEthLeverage altcoinLeverage : Z) (minPositionSizeUSD maxPositionSizeUSD : F) :
  let outcome := GetFullDecision unmarshal userPrompt aiCall now accountEquity btcEthLeverage
                   altcoinLeverage minPositionSizeUSD maxPositionSizeUSD in
  ((exists decision, outcome = (Some decision, None))
   \/ (exists err, outcome = (None, Some err)))
  /\ forall decision,
       fst outcome = Some decision ->
       Forall (fun d => validateDecision d accountEquity btcEthLeverage altcoinLeverage
                          minPositionSizeUSD maxPositionSizeUSD = None) (Decisions decision)
       /\ UserPrompt decision = userPrompt /\ Timestamp decision = now
       /\ exists aiResponse,
            aiCall = inr aiResponse
            /\ CoTTrace decision = extractCoTTrace aiResponse
            /\ Decisions decision
               = normalizeDecisions (fst (extractDecisions unmarshal aiResponse))
                   minPositionSizeUSD maxPositionSizeUSD.
Proof.
  cbv zeta. unfold GetFullDecision. destruct aiCall as [err|aiResponse].
  { split; [right; eexists; reflexivity|]. intros decision [=]. }
  unfold parseFullDecisionResponse.
  pose proof (extractDecisions_nil_error unmarshal aiResponse) as Hnil.
  destruct (extractDecisions unmarshal aiResponse) as [decisions failure] eqn:Hextract.
  cbn [snd fst] in *. subst failure.
  destruct (validateDecisions (normalizeDecisions decisions minPositionSizeUSD
                                 maxPositionSizeUSD) accountEquity btcEthLeverage
              altcoinLeverage minPositionSizeUSD maxPositionSizeUSD) as [err|] eqn:Hvalid.
  { split; [right; eexists; reflexivity|]. intros decision [=]. }
  split; [left; eexists; reflexivity|]. intros decision [= <-]. cbn.
  split; [apply (validateDecisionsFrom_None _ _ _ _ _ _ 0), Hvalid|].
  split; [reflexivity|]. split; [reflexivity|].
  exists aiResponse. rewrite Hextract. split; [reflexivity|]. split; reflexivity.
Qed.

(** The response of the parser scenario, through the whole function. *)
Lemma GetFullDecision_returns_valid_decisions_witness :
  Forall (fun d => validateDecision (F := float) d (flit 1000 0) 10 5 (flit 12 0) (flit 150 0)
                   = None) [btcWait].
Proof.
  apply (proj2 (GetFullDecision_returns_valid_decisions (F := float) json.Unmarshal "prompt"
                  (inr pricesThenDecisions) 7 (flit 1000 0) 10 5 (flit 12 0) (flit 150 0))
           (mkFullDecision "prompt" "Prices:" [btcWait] 7)).
  vm_compute. reflexivity.
Defined.

(** ** More on fetchMarketDataForContext *)

Lemma fetchInOrder_lookup {F : Type} `{Float64 F} (market_Get : string -> option (Data F))
    (positions : list (PositionInfo F)) (order : list string) (symbol : string) :
  fetchInOrder market_Get positions order !! symbol
  = if decide (symbol ∈ order) then kept market_Get positions symbol else None.
Proof.
  unfold fetchInOrder.
  assert (forall start : gmap string (Data F),
             foldl (fun marketDataMap symbol =>
                      fetchSymbol market_Get (positionSymbols positions) symbol marketDataMap)
               start order !! symbol
             = if decide (symbol ∈ order)
               then match kept market_Get positions symbol with
                    | Some data => Some data
                    | None => start !! symbol
                    end
               else start !! symbol) as Hfold.
  { induction order as [|s order IH]; intros start.
    - cbn. destruct (decide (symbol ∈ [])) as [Hin|_]; [|reflexivity].
      apply not_elem_of_nil in Hin. contradiction.
    - cbn [foldl]. rewrite IH. unfold fetchSymbol, kept.
      destruct (decide (symbol = s)) as [->|Hne].
      + rewrite (decide_True (P := s ∈ s :: order)) by (apply elem_of_cons; left; reflexivity).
        destruct (market_Get s) as [data|].
        * destruct (belowLiquidity _ data).
          -- destruct (decide (s ∈ order)); reflexivity.
          -- rewrite lookup_insert_eq. destruct (decide (s ∈ order)); reflexivity.
        * destruct (decide (s ∈ order)); reflexivity.
      + assert (forall m : gmap string (Data F),
                   match market_Get s with
                   | Some data =>
                       if belowLiquidity (default false (positionSymbols positions !! s)) data
                       then m else <[s:=data]> m
                   | None => m
                   end !! symbol = m !! symbol) as Hother.
        { intros m. destruct (market_Get s) as [data|]; [|reflexivity].
          destruct (belowLiquidity _ data); [reflexivity|].
          apply lookup_insert_ne. congruence. }
        rewrite Hother.
        destruct (decide (symbol ∈ order)) as [Hin|Hout].
        * rewrite (decide_True (P := symbol ∈ s :: order)) by (apply elem_of_cons; right; exact Hin).
          reflexivity.
        * rewrite (decide_False (P := symbol ∈ s :: order)); [reflexivity|].
          rewrite elem_of_cons. tauto. }
  rewrite Hfold, lookup_empty. destruct (decide (symbol ∈ order)); [|reflexivity].
  destruct (kept market_Get positions symbol); reflexivity.
Qed.

(** X11.  The market-data map does not depend on the order in which the
    loop visits the symbols: run over any arrangement of the keys of
    [symbolSet], the loop leaves the same map.  Every entry of that map is
    the snapshot [market.Get] returned for its key, and its key is the
    symbol of a position or of a candidate. *)
Theorem fetchMarketDataForContext_any_order {F : Type} `{Float64 F}
    (market_Get : string -> option (Data F)) (positions : list (PositionInfo F))
    (candidateCoins : list CandidateCoin) :
  let marketDataMap := fetchMarketDataForContext market_Get positions candidateCoins in
  (forall order : list string,
      order ≡ₚ map fst (map_to_list (symbolSet positions candidateCoins)) ->
      fetchInOrder market_Get positions order = marketDataMap)
  /\ forall symbol data,
       marketDataMap !! symbol = Some data ->
       market_Get symbol = Some data
       /\ (symbol ∈ map PositionSymbol positions \/ symbol ∈ map CoinSymbol candidateCoins).
Proof.
  cbv zeta. split.
  - intros order Horder. apply map_eq. intros symbol.
    rewrite fetchInOrder_lookup, fetchMarketDataForContext_lookup.
    destruct (symbolSet positions candidateCoins !! symbol) as [b|] eqn:Hset.
    + rewrite decide_True; [reflexivity|]. rewrite Horder.
      apply list_elem_of_fmap. exists (symbol, b). split; [reflexivity|].
      apply elem_of_map_to_list, Hset.
    + rewrite decide_False; [reflexivity|]. rewrite Horder. intros Hin.
      apply list_elem_of_fmap in Hin. destruct Hin as ([s b] & -> & Hin).
      apply elem_of_map_to_list in Hin. cbn in Hset. congruence.
  - intros symbol data. rewrite fetchMarketDataForContext_lookup, symbolSet_lookup.
    destruct (decide _) as [Hin|Hout]; [|discriminate].
    unfold kept. destruct (market_Get symbol) as [data'|]; [|discriminate].
    destruct (belowLiquidity _ data'); [discriminate|]. intros [= ->]. tauto.
Qed.

(** Two candidates visited in the order opposite to the one in which the
    keys of the set are listed. *)
Lemma fetchMarketDataForContext_any_order_witness :
  fetchInOrder (F := float) twoSymbolMarket [] ["XYZUSDT"; "ABCUSDT"]
  = fetchMarketDataForContext twoSymbolMarket [] [xyzCandidate; abcCandidate].
Proof.
  apply (proj1 (fetchMarketDataForContext_any_order (F := float) twoSymbolMarket []
                  [xyzCandidate; abcCandidate])).
  vm_compute. apply perm_swap.
Defined.

(** ** More on CallWithMessages and isRetryableError *)

(** X12.  Without an API key [CallWithMessages] makes no call.  With one:
    if some attempt among the three succeeds after retryable failures of
    all the attempts before it, the response of that attempt is returned
    without an error, after waits of 0, 2 or 6 seconds in all for the
    first, second or third attempt; and a response is returned without an
    error only in this way.  No call sleeps more than 6 seconds in all,
    and an error comes with the empty response. *)
Theorem CallWithMessages_outcome (callOnce : Z -> mcpError + string) (apiKey : string) :
  let outcome := CallWithMessages callOnce apiKey in
  let result := fst (fst outcome) in
  let err := snd (fst outcome) in
  let events := snd outcome in
  (apiKey = "" -> outcome = (("", Some ErrNoAPIKey), []))
  /\ (apiKey <> "" ->
      forall k response,
        1 <= k <= 3 -> callOnce k = inr response ->
        (forall j, 1 <= j < k -> exists e, callOnce j = inl e /\ isRetryableError e = true) ->
        result = response /\ err = None
        /\ totalSleep events = k * (k - 1) * time_Second
        /\ attemptsMade events = Z.to_nat k)
  /\ (err = None ->
      apiKey <> ""
      /\ exists k, 1 <= k <= 3 /\ callOnce k = inr result
                   /\ forall j, 1 <= j < k ->
                        exists e, callOnce j = inl e /\ isRetryableError e = true)
  /\ 0 <= totalSleep events <= 6 * time_Second
  /\ (err <> None -> result = "").
Proof.
  cbv zeta. destruct (String.eqb_spec apiKey "") as [->|Hkey].
  { cbn. unfold time_Second. split; [reflexivity|]. split; [congruence|].
    split; [discriminate|]. split; [lia|reflexivity]. }
  rewrite (CallWithMessages_passes callOnce apiKey Hkey). unfold time_Second.
  split; [intros ->; congruence|].
  assert (forall (k : Z) (P : Z -> Prop), 1 <= k <= 3 -> P 1 -> P 2 -> P 3 -> P k) as Hcases.
  { intros k P Hk H1 H2 H3.
    assert (k = 1 \/ k = 2 \/ k = 3) as [->|[->| ->]] by lia; assumption. }
  assert (Hfirst : forall (k : Z) response,
             1 <= k <= 3 -> callOnce k = inr response ->
             (forall j, 1 <= j < k -> exists e, callOnce j = inl e /\ isRetryableError e = true) ->
             (k = 1 /\ callOnce 1 = inr response)
             \/ (k = 2 /\ callOnce 2 = inr response
                 /\ exists e1, callOnce 1 = inl e1 /\ isRetryableError e1 = true)
             \/ (k = 3 /\ callOnce 3 = inr response
                 /\ exists e1 e2, callOnce 1 = inl e1 /\ isRetryableError e1 = true
                                  /\ callOnce 2 = inl e2 /\ isRetryableError e2 = true)).
  { intros k response Hk Hsuccess Hbefore.
    assert (k = 1 \/ k = 2 \/ k = 3) as [->|[->| ->]] by lia.
    - left. auto.
    - right; left. split; [reflexivity|]. split; [exact Hsuccess|].
      destruct (Hbefore 1 ltac:(lia)) as (e & He & Hr). eauto.
    - right; right. split; [reflexivity|]. split; [exact Hsuccess|].
      destruct (Hbefore 1 ltac:(lia)) as (e1 & He1 & Hr1).
      destruct (Hbefore 2 ltac:(lia)) as (e2 & He2 & Hr2). eauto 10. }
  split.
  { intros _ k response Hk Hsuccess Hbefore.
    destruct (Hfirst k response Hk Hsuccess Hbefore)
      as [(-> & H1)|[(-> & H2 & e1 & H1 & R1)|(-> & H3 & e1 & e2 & H1 & R1 & H2 & R2)]];
      cbn [retryLoop Z.to_nat Pos.to_nat Pos.iter_op Nat.add];
      rewrite ?H1, ?R1; cbn [negb]; rewrite ?H2, ?R2; cbn [negb]; rewrite ?H3;
      cbn; repeat split; reflexivity. }
  clear Hfirst.
  destruct (callOnce 1) as [e1|r1] eqn:H1.
  2:{ cbn [fst snd totalSleep foldr]. split; [|split; [lia|congruence]]. intros _.
      split; [exact Hkey|]. exists 1. split; [lia|]. split; [exact H1|].
      intros j Hj; lia. }
  destruct (isRetryableError e1) eqn:R1.
  2:{ cbn [fst snd totalSleep foldr]. split; [discriminate|]. split; [lia|reflexivity]. }
  destruct (callOnce 2) as [e2|r2] eqn:H2.
  2:{ cbn [fst snd totalSleep foldr]. split; [|split; [lia|congruence]]. intros _.
      split; [exact Hkey|]. exists 2. split; [lia|]. split; [exact H2|].
      intros j Hj. assert (j = 1) as -> by lia.
      exists e1. split; assumption. }
  destruct (isRetryableError e2) eqn:R2.
  2:{ cbn [fst snd totalSleep foldr]. split; [discriminate|]. split; [lia|reflexivity]. }
  destruct (callOnce 3) as [e3|r3] eqn:H3.
  2:{ cbn [fst snd totalSleep foldr]. split; [|split; [lia|congruence]]. intros _.
      split; [exact Hkey|]. exists 3. split; [lia|]. split; [exact H3|].
      intros j Hj.
      assert (j = 1 \/ j = 2) as [->| ->] by lia; eexists; split; eassumption. }
  destruct (isRetryableError e3); cbn [fst snd totalSleep foldr];
    (split; [discriminate|]); (split; [lia|reflexivity]).
Qed.

(** A first call that fails with "unexpected EOF", then a response. *)
Lemma CallWithMessages_outcome_witness :
  CallWithMessages (failingOnce "unexpected EOF" "[]") "" = (("", Some ErrNoAPIKey), [])
  /\ fst (CallWithMessages (failingOnce "unexpected EOF" "[]") "key") = ("[]", None)
  /\ totalSleep (snd (CallWithMessages (failingOnce "unexpected EOF" "[]") "key"))
     = 2 * time_Second.
Proof.
  split.
  - apply (proj1 (CallWithMessages_outcome (failingOnce "unexpected EOF" "[]") "")).
    reflexivity.
  - destruct (proj1 (proj2 (CallWithMessages_outcome (failingOnce "unexpected EOF" "[]")
                               "key")) ltac:(discriminate) 2 "[]")
      as (Hresult & Herr & Hsleep & _).
    + lia.
    + reflexivity.
    + intros j Hj. assert (j = 1) as -> by lia.
      exists (ErrCallOnce "unexpected EOF"). split; reflexivity.
    + split; [|exact Hsleep].
      rewrite (surjective_pairing (fst (CallWithMessages _ "key"))).
      cbv zeta in Hresult, Herr. rewrite Hresult, Herr. reflexivity.
Defined.

Lemma prefix_append (sub s after : string) :
  String.prefix sub s = true -> String.prefix sub (s +:+ after) = true.
Proof.
  revert s. induction sub as [|a sub IH]; intros s Hprefix; [apply prefix_empty|].
  destruct s as [|c s]; [discriminate|].
  change (String c s +:+ after) with (String c (s +:+ after)).
  rewrite prefix_cons in Hprefix |- *. apply andb_true_iff in Hprefix.
  destruct Hprefix as [-> Hprefix]. cbn [andb]. apply IH, Hprefix.
Qed.

(** A text that holds [sub] still holds it with text before and after. *)
Lemma strings_Contains_append (before s after sub : string) :
  strings_Contains s sub = true -> strings_Contains (before +:+ s +:+ after) sub = true.
Proof.
  unfold strings_Contains. intros Hin.
  assert (exists i, strings_Index (s +:+ after) sub = Some i) as [i Hi].
  { destruct (strings_Index s sub) as [i|] eqn:Hindex; [|discriminate]. clear Hin.
    revert i Hindex. induction s as [|c s IH]; intros i Hindex.
    - rewrite strings_Index_unfold in Hindex.
      destruct (String.prefix sub "") eqn:Hprefix; [|discriminate].
      exists O. rewrite strings_Index_unfold, (prefix_append _ _ _ Hprefix). reflexivity.
    - rewrite strings_Index_unfold in Hindex.
      change (String c s +:+ after) with (String c (s +:+ after)).
      rewrite (strings_Index_unfold (String c (s +:+ after))).
      destruct (String.prefix sub (String c s)) eqn:Hprefix.
      + apply (prefix_append _ _ after) in Hprefix.
        change (String c s +:+ after) with (String c (s +:+ after)) in Hprefix.
        rewrite Hprefix. eexists. reflexivity.
      + destruct (String.prefix sub (String c (s +:+ after))); [eexists; reflexivity|].
        destruct (strings_Index s sub) as [i'|]; [|discriminate].
        destruct (IH i' eq_refl) as [j ->]. eexists. reflexivity. }
  clear Hin. induction before as [|c before IH].
  - change ("" +:+ s +:+ after) with (s +:+ after). rewrite Hi. reflexivity.
  - change (String c before +:+ s +:+ after) with (String c (before +:+ s +:+ after)).
    rewrite strings_Index_unfold.
    destruct (String.prefix sub (String c (before +:+ s +:+ after))); [reflexivity|].
    destruct (strings_Index (before +:+ s +:+ after) sub); [reflexivity|discriminate].
Qed.

(** X13.  Errors are classified by their text alone: an error whose text
    holds the text of a retryable error is retryable.  So is an HTTP
    status error whose body holds such a text, and so is the error that
    [CallWithMessages] returns once the retries are used up. *)
Theorem isRetryableError_embedded (err : mcpError) (before after : string) (maxRetries : Z) :
  isRetryableError err = true ->
  isRetryableError (ErrCallOnce (before +:+ errorText err +:+ after)) = true
  /\ isRetryableError (ErrRetriesFailed maxRetries (Some err)) = true.
Proof.
  intros Hretry. apply isRetryableError_iff in Hretry.
  destruct Hretry as (retryable & Hin & Hcontains). split.
  - apply isRetryableError_iff. exists retryable. split; [exact Hin|].
    cbn [errorText]. apply strings_Contains_append, Hcontains.
  - apply isRetryableError_iff. exists retryable. split; [exact Hin|].
    cbn [errorText].
    pose proof (strings_Contains_append ("重试" +:+ decimal maxRetries +:+ "次后仍然失败: ")
                  (errorText err) "" retryable Hcontains) as Hwrapped.
    replace (errorText err +:+ "") with (errorText err) in Hwrapped;
      [rewrite <- !append_assoc in Hwrapped; exact Hwrapped|].
    generalize (errorText err) as t. intros t. induction t as [|c t IH]; [reflexivity|].
    change (String c t +:+ "") with (String c (t +:+ "")). rewrite <- IH. reflexivity.
Qed.

(** A status error whose body reports a timeout upstream. *)
Lemma isRetryableError_embedded_witness :
  isRetryableError
    (ErrCallOnce ("API返回错误 (status 400): " +:+ "upstream timeout" +:+ "")) = true
  /\ isRetryableError (ErrRetriesFailed 3 (Some (ErrCallOnce "upstream timeout"))) = true.
Proof.
  apply (isRetryableError_embedded (ErrCallOnce "upstream timeout")
           "API返回错误 (status 400): " "" 3).
  reflexivity.
Defined.

(** ** cleanResponse and the end of callOnce *)

(** X14.  [callOnce] never returns an empty response.  A message that is
    blank once the markers are removed (its content, or its reasoning when
    the content itself is blank) is replaced by a fixed [hold] object;
    that object holds no array, so the parser turns it into a single
    synthetic wait decision and the cycle goes on without an error. *)
Theorem blank_answer_becomes_wait {F : Type} `{Float64 F}
    (unmarshal : string -> string + list (Decision F)) (content reasoning userPrompt : string)
    (now : Z) (accountEquity : F) (btcEthLeverage altcoinLeverage : Z)
    (minPositionSizeUSD maxPositionSizeUSD : F) :
  callOnceContent content reasoning <> ""
  /\ (isBlankContent (cleanResponse (contentOrReasoning content reasoning)) = true ->
      GetFullDecision unmarshal userPrompt (inr (callOnceContent content reasoning)) now
        accountEquity btcEthLeverage altcoinLeverage minPositionSizeUSD maxPositionSizeUSD
      = (Some (mkFullDecision userPrompt holdResponse
                 [waitDecision "AI响应格式错误，未找到JSON数组"] now), None)).
Proof.
  unfold callOnceContent. split.
  - destruct (isBlankContent (cleanResponse (contentOrReasoning content reasoning)))
      eqn:Hblank; [discriminate|].
    intros Hempty. rewrite Hempty in Hblank. discriminate.
  - intros ->. unfold GetFullDecision, parseFullDecisionResponse.
    assert (Habsent : strings_Index holdResponse "[" = None) by reflexivity.
    unfold extractDecisions. cbn [scanArrays sliceFrom]. rewrite Habsent.
    unfold lastArray. rewrite (strings_LastIndex_None _ _ Habsent). reflexivity.
Qed.

(** A content of markers and spaces only, without reasoning. *)
Lemma blank_answer_becomes_wait_witness :
  GetFullDecision (F := float) json.Unmarshal "prompt" (inr (callOnceContent " <s> </s> " ""))
    7 (flit 1000 0) 10 5 (flit 12 0) (flit 150 0)
  = (Some (mkFullDecision "prompt" holdResponse
             [waitDecision "AI响应格式错误，未找到JSON数组"] 7), None).
Proof.
  apply (proj2 (blank_answer_becomes_wait (F := float) json.Unmarshal " <s> </s> " ""
                  "prompt" 7 (flit 1000 0) 10 5 (flit 12 0) (flit 150 0))).
  reflexivity.
Defined.

(** ** Candlestick patterns *)

Lemma elem_of_appendDetected {F : Type} `{Float64 F} (results : list (PatternResult F))
    (r x : PatternResult F) :
  x ∈ appendDetected results r <-> x ∈ results \/ (x = r /\ Pattern r <> "").
Proof.
  unfold appendDetected. destruct (String.eqb_spec (Pattern r) "") as [Hr|Hr]; cbn [negb].
  - split; [tauto|]. intros [Hin|[_ Hne]]; [exact Hin|contradiction].
  - rewrite elem_of_app, list_elem_of_singleton. tauto.
Qed.

Lemma elem_of_appendDoji {F : Type} `{Float64 F} (results : list (PatternResult F))
    (props : CandleProperties F) (dojiBodyPercent : F) (x : PatternResult F) :
  x ∈ appendDoji results props dojiBodyPercent
  <-> x ∈ results
      \/ (x = detectDoji props dojiBodyPercent
          /\ Pattern (detectDoji props dojiBodyPercent) <> ""
          /\ Pattern (detectDragonflyDoji props dojiBodyPercent) = ""
          /\ Pattern (detectGravestoneDoji props dojiBodyPercent) = "").
Proof.
  unfold appendDoji.
  destruct (String.eqb_spec (Pattern (detectDoji props dojiBodyPercent)) "") as [Hd|Hd];
    cbn [negb].
  { split; [tauto|]. intros [Hin|(_ & Hne & _)]; [exact Hin|contradiction]. }
  destruct (String.eqb_spec (Pattern (detectDragonflyDoji props dojiBodyPercent)) "")
    as [Hdf|Hdf]; cbn [negb andb].
  2:{ split; [tauto|]. intros [Hin|(_ & _ & He & _)]; [exact Hin|contradiction]. }
  destruct (String.eqb_spec (Pattern (detectGravestoneDoji props dojiBodyPercent)) "")
    as [Hgs|Hgs]; cbn [negb andb].
  2:{ split; [tauto|]. intros [Hin|(_ & _ & _ & He)]; [exact Hin|contradiction]. }
  rewrite elem_of_app, list_elem_of_singleton. tauto.
Qed.

(** A result of [DetectCandlestickPatterns] is the result of one of the
    detectors, run on the last bars. *)
Lemma detected_cases {F : Type} `{Float64 F} (current previous previous2 : Kline F)
    (klines : list (Kline F)) (x : PatternResult F) :
  x ∈ detectCandlestickPatternsOn current previous previous2 klines ->
  Pattern x <> ""
  /\ let dojiBodyPercent := flit 5 0 in
     let currentProps := calculateCandleProperties current in
     let previousProps := calculateCandleProperties previous in
     let previous2Props := calculateCandleProperties previous2 in
     x = detectHammer current currentProps klines
     \/ x = detectInvertedHammer current currentProps klines
     \/ x = detectDragonflyDoji currentProps dojiBodyPercent
     \/ x = detectGravestoneDoji currentProps dojiBodyPercent
     \/ (x = detectDoji currentProps dojiBodyPercent
         /\ Pattern (detectDragonflyDoji currentProps dojiBodyPercent) = ""
         /\ Pattern (detectGravestoneDoji currentProps dojiBodyPercent) = "")
     \/ x = detectMarubozu currentProps
     \/ x = detectSpinningTop currentProps
     \/ x = detectBullishEngulfing current previous currentProps previousProps
     \/ x = detectBearishEngulfing current previous currentProps previousProps
     \/ x = detectBullishHarami current previous currentProps previousProps
     \/ x = detectBearishHarami current previous currentProps previousProps
     \/ x = detectTweezerTop current previous klines
     \/ x = detectTweezerBottom current previous klines
     \/ x = detectMorningStar current previous previous2 currentProps previousProps
              previous2Props
     \/ x = detectEveningStar current previous previous2 currentProps previousProps
              previous2Props
     \/ x = detectThreeWhiteSoldiers current previous previous2 currentProps previousProps
              previous2Props
     \/ x = detectThreeBlackCrows current previous previous2 currentProps previousProps
              previous2Props
     \/ x = detectAbandonedBabyBullish current previous previous2 currentProps previousProps
              previous2Props
     \/ x = detectAbandonedBabyBearish current previous previous2 currentProps previousProps
              previous2Props.
Proof.
  unfold detectCandlestickPatternsOn. cbv zeta.
  destruct (3 <=? length klines)%nat;
    rewrite ?elem_of_appendDetected, ?elem_of_appendDoji, ?elem_of_appendDetected;
    rewrite elem_of_nil;
    intros Hin; decompose [and or] Hin; clear Hin; try contradiction; subst x;
    (split; [assumption|tauto]).
Qed.

Lemma singleton_sublist (x : string) (names : list string) :
  x ∈ names -> [x] `sublist_of` names.
Proof.
  intros Hin. apply list_elem_of_split in Hin. destruct Hin as (l1 & l2 & ->).
  apply sublist_inserts_l. apply sublist_skip. apply sublist_nil_l.
Qed.

Lemma appendDetected_names {F : Type} `{Float64 F} (results : list (PatternResult F))
    (r : PatternResult F) (before names : list string) :
  Pattern r = "" \/ Pattern r ∈ names ->
  map Pattern results `sublist_of` before ->
  map Pattern (appendDetected results r) `sublist_of` before ++ names.
Proof.
  intros Hr Hresults. unfold appendDetected.
  destruct (String.eqb_spec (Pattern r) "") as [He|Hne]; cbn [negb].
  - apply sublist_inserts_r, Hresults.
  - destruct Hr as [He|Hin]; [contradiction|].
    rewrite map_app. apply sublist_app; [exact Hresults|]. apply singleton_sublist, Hin.
Qed.

Lemma appendDoji_names {F : Type} `{Float64 F} (results : list (PatternResult F))
    (props : CandleProperties F) (dojiBodyPercent : F) (before : list string) :
  map Pattern results `sublist_of` before ->
  map Pattern (appendDoji results props dojiBodyPercent) `sublist_of` before ++ ["Doji"].
Proof.
  intros Hresults. unfold appendDoji, detectDoji.
  destruct (BodyPercent props >? dojiBodyPercent)%go; cbn [Pattern String.eqb negb].
  - apply sublist_inserts_r, Hresults.
  - destruct (negb _ && negb _).
    + rewrite map_app. apply sublist_app; [exact Hresults|]. reflexivity.
    + apply sublist_inserts_r, Hresults.
Qed.

Ltac detector_name :=
  cbv beta delta
    [detectHammer detectInvertedHammer detectDragonflyDoji detectGravestoneDoji detectMarubozu
     detectSpinningTop detectBullishEngulfing detectBearishEngulfing detectBullishHarami
     detectBearishHarami detectTweezerTop detectTweezerBottom detectMorningStar
     detectEveningStar detectThreeWhiteSoldiers detectThreeBlackCrows
     detectAbandonedBabyBullish detectAbandonedBabyBearish emptyPatternResult] zeta;
  repeat match goal with
         | |- context [if ?b then _ else _] => destruct b
         end;
  cbn [Pattern]; rewrite ?elem_of_cons; tauto.

Lemma detectCandlestickPatternsOn_names {F : Type} `{Float64 F}
    (current previous previous2 : Kline F) (klines : list (Kline F)) :
  map Pattern (detectCandlestickPatternsOn current previous previous2 klines)
  `sublist_of` patternNames.
Proof.
  unfold detectCandlestickPatternsOn. cbv zeta.
  change patternNames
    with ((((((((((((((((((([] ++ ["Hanging Man"; "Hammer"])
         ++ ["Shooting Star"; "Inverted Hammer"]) ++ ["Dragonfly Doji"])
         ++ ["Gravestone Doji"]) ++ ["Doji"]) ++ ["Marubozu"]) ++ ["Spinning Top"])
         ++ ["Bullish Engulfing"]) ++ ["Bearish Engulfing"]) ++ ["Bullish Harami"])
         ++ ["Bearish Harami"]) ++ ["Tweezer Top"]) ++ ["Tweezer Bottom"]) ++ ["Morning Star"])
         ++ ["Evening Star"]) ++ ["Three White Soldiers"]) ++ ["Three Black Crows"])
         ++ ["Abandoned Baby Bullish"]) ++ ["Abandoned Baby Bearish"]).
  destruct (3 <=? length klines)%nat.
  - repeat (first [apply appendDoji_names | apply appendDetected_names; [detector_name|]]).
    reflexivity.
  - apply sublist_inserts_r, sublist_inserts_r, sublist_inserts_r, sublist_inserts_r,
      sublist_inserts_r, sublist_inserts_r.
    repeat (first [apply appendDoji_names | apply appendDetected_names; [detector_name|]]).
    reflexivity.
Qed.

Lemma DetectCandlestickPatterns_last_three {F : Type} `{Float64 F} (klines : list (Kline F)) :
  (3 <= length klines)%nat ->
  exists current previous previous2,
    klines !! (length klines - 1)%nat = Some current
    /\ klines !! (length klines - 2)%nat = Some previous
    /\ klines !! (length klines - 3)%nat = Some previous2
    /\ DetectCandlestickPatterns klines
       = detectCandlestickPatternsOn current previous previous2 klines.
Proof.
  intros Hlen. unfold DetectCandlestickPatterns.
  destruct (length klines <? 3)%nat eqn:Hshort; [apply Nat.ltb_lt in Hshort; lia|].
  destruct (lookup_lt_is_Some_2 klines (length klines - 1)%nat ltac:(lia)) as [current Hc].
  destruct (lookup_lt_is_Some_2 klines (length klines - 2)%nat ltac:(lia)) as [previous Hp].
  destruct (lookup_lt_is_Some_2 klines (length klines - 3)%nat ltac:(lia)) as [previous2 Hp2].
  exists current, previous, previous2. rewrite Hc, Hp, Hp2. tauto.
Qed.

Lemma DetectCandlestickPatterns_short {F : Type} `{Float64 F} (klines : list (Kline F)) :
  (length klines < 3)%nat -> DetectCandlestickPatterns klines = [].
Proof.
  intros Hlen. unfold DetectCandlestickPatterns. apply Nat.ltb_lt in Hlen. rewrite Hlen.
  reflexivity.
Qed.

Lemma appendDetected_length {F : Type} `{Float64 F} (results : list (PatternResult F))
    (r : PatternResult F) (n : nat) :
  (length results <= n)%nat -> (length (appendDetected results r) <= S n)%nat.
Proof.
  intros Hn. unfold appendDetected. destruct (negb _); [|lia].
  rewrite length_app. cbn. lia.
Qed.

Lemma appendDoji_length {F : Type} `{Float64 F} (results : list (PatternResult F))
    (props : CandleProperties F) (dojiBodyPercent : F) (n : nat) :
  (length results <= n)%nat -> (length (appendDoji results props dojiBodyPercent) <= S n)%nat.
Proof.
  intros Hn. unfold appendDoji. destruct (negb _); [|lia].
  destruct (negb _ && negb _); [|lia]. rewrite length_app. cbn. lia.
Qed.

Lemma detectCandlestickPatternsOn_length {F : Type} `{Float64 F}
    (current previous previous2 : Kline F) (klines : list (Kline F)) :
  (length (detectCandlestickPatternsOn current previous previous2 klines) <= 19)%nat.
Proof.
  unfold detectCandlestickPatternsOn. cbv zeta. destruct (3 <=? length klines)%nat.
  - repeat (first [apply appendDoji_length | apply appendDetected_length]). cbn. lia.
  - apply (Nat.le_trans _ 13); [|lia].
    repeat (first [apply appendDoji_length | apply appendDetected_length]). cbn. lia.
Qed.

(** From the name of a result back to the detector that produced it and
    to the tests that held. *)
Ltac unfold_detectors :=
  cbv beta delta
    [detectHammer detectInvertedHammer detectDragonflyDoji detectGravestoneDoji detectDoji
     detectMarubozu detectSpinningTop detectBullishEngulfing detectBearishEngulfing
     detectBullishHarami detectBearishHarami detectTweezerTop detectTweezerBottom
     detectMorningStar detectEveningStar detectThreeWhiteSoldiers detectThreeBlackCrows
     detectAbandonedBabyBullish detectAbandonedBabyBearish emptyPatternResult] zeta.

Ltac split_tests :=
  repeat match goal with
         | Ht : _ && _ = true |- _ => apply andb_true_iff in Ht; destruct Ht
         | Ht : negb _ = false |- _ => apply negb_false_iff in Ht
         | Ht : negb _ = true |- _ => apply negb_true_iff in Ht
         | Ht : _ || _ = false |- _ => apply orb_false_iff in Ht; destruct Ht
         end.

Ltac which_detector Hin Hname :=
  apply detected_cases in Hin; destruct Hin as [_ Hin]; cbv zeta in Hin;
  decompose [and or] Hin; clear Hin; subst; revert Hname; unfold_detectors;
  repeat match goal with
         | |- context [if ?b then _ else _] => destruct b eqn:?
         end;
  cbn [Pattern PatternIsBullish]; intros Hname; try discriminate Hname; split_tests.

(** X15.  [DetectCandlestickPatterns] reports nothing on fewer than three
    bars; what it reports comes in the fixed order of the catalogue, no
    pattern twice and nineteen at most, each with a name and one of the
    confidences 0.6, 0.7, 0.75, 0.8, 0.85 and 0.9; of Hammer and Hanging
    Man, as of Inverted Hammer and Shooting Star, it reports at most one;
    Hanging Man and Shooting Star need six bars, the tweezers four. *)
Theorem DetectCandlestickPatterns_catalogue {F : Type} `{Float64 F} (klines : list (Kline F)) :
  let names := map Pattern (DetectCandlestickPatterns klines) in
  ((length klines < 3)%nat -> names = [])
  /\ names `sublist_of` patternNames
  /\ NoDup names
  /\ (length names <= 19)%nat
  /\ (forall x, x ∈ DetectCandlestickPatterns klines ->
        Pattern x <> "" /\ PatternConfidence x ∈ patternConfidences)
  /\ ~ ("Hanging Man" ∈ names /\ "Hammer" ∈ names)
  /\ ~ ("Shooting Star" ∈ names /\ "Inverted Hammer" ∈ names)
  /\ ("Hanging Man" ∈ names \/ "Shooting Star" ∈ names -> (6 <= length klines)%nat)
  /\ ("Tweezer Top" ∈ names \/ "Tweezer Bottom" ∈ names -> (4 <= length klines)%nat).
Proof.
  cbv zeta. split.
  { intros Hlen. rewrite (DetectCandlestickPatterns_short klines Hlen). reflexivity. }
  destruct (Nat.lt_ge_cases (length klines) 3) as [Hshort|Hlen].
  { rewrite (DetectCandlestickPatterns_short klines Hshort). cbn [map length].
    split; [apply sublist_nil_l|]. split; [constructor|]. split; [lia|].
    split; [intros x Hx; apply elem_of_nil in Hx; contradiction|].
    rewrite !elem_of_nil. tauto. }
  destruct (DetectCandlestickPatterns_last_three klines Hlen)
    as (current & previous & previous2 & Hc & Hp & Hp2 & ->).
  pose proof (detectCandlestickPatternsOn_names current previous previous2 klines) as Hsub.
  assert (NoDup patternNames) as Hnodup.
  { unfold patternNames.
    repeat (apply NoDup_cons_2;
            [rewrite ?elem_of_cons, elem_of_nil; intros Hin; decompose [or] Hin;
             try discriminate; try contradiction|]).
    apply NoDup_nil_2. }
  split; [exact Hsub|]. split; [exact (sublist_NoDup _ _ Hnodup Hsub)|].
  split; [rewrite length_map; apply detectCandlestickPatternsOn_length|].
  assert (forall name,
             name ∈ map Pattern (detectCandlestickPatternsOn current previous previous2 klines)
             -> exists x,
                  x ∈ detectCandlestickPatternsOn current previous previous2 klines
                  /\ Pattern x = name) as Hnamed.
  { intros name Hin. apply list_elem_of_fmap in Hin. destruct Hin as (x & -> & Hin).
    exists x. tauto. }
  assert (forall kline : Kline F, closedAboveFiveAgo kline klines = true ->
                                  (6 <= length klines)%nat) as Hsix.
  { intros kline. unfold closedAboveFiveAgo.
    destruct (6 <=? length klines)%nat eqn:Hsix; [|discriminate].
    intros _. apply Nat.leb_le, Hsix. }
  assert (forall kline : Kline F,
             previousClosedAboveThreeAgo kline klines = true
             \/ previousClosedBelowThreeAgo kline klines = true ->
             (4 <= length klines)%nat) as Hfour.
  { intros kline. unfold previousClosedAboveThreeAgo, previousClosedBelowThreeAgo.
    destruct (4 <=? length klines)%nat eqn:Hfour; [|intros [?|?]; discriminate].
    intros _. apply Nat.leb_le, Hfour. }
  split; [|split; [|split; [|split]]].
  - intros x Hx. split; [exact (proj1 (detected_cases _ _ _ _ _ Hx))|].
    apply detected_cases in Hx. destruct Hx as [Hne Hx]. cbv zeta in Hx.
    unfold patternConfidences.
    decompose [and or] Hx; clear Hx; subst x; revert Hne; unfold_detectors;
      repeat match goal with
             | |- context [if ?b then _ else _] => destruct b
             end;
      cbn [Pattern PatternConfidence]; intros Hne; try contradiction;
      rewrite !elem_of_cons; tauto.
  - intros [Hhanging Hhammer].
    apply Hnamed in Hhanging, Hhammer.
    destruct Hhanging as (x & Hx & Hxname), Hhammer as (y & Hy & Hyname).
    which_detector Hx Hxname. which_detector Hy Hyname. congruence.
  - intros [Hstar Hinverted].
    apply Hnamed in Hstar, Hinverted.
    destruct Hstar as (x & Hx & Hxname), Hinverted as (y & Hy & Hyname).
    which_detector Hx Hxname. which_detector Hy Hyname. congruence.
  - intros [Hname|Hname]; apply Hnamed in Hname; destruct Hname as (x & Hx & Hxname);
      which_detector Hx Hxname; eapply Hsix; eassumption.
  - intros [Hname|Hname]; apply Hnamed in Hname; destruct Hname as (x & Hx & Hxname);
      which_detector Hx Hxname; eapply Hfour; eauto.
Qed.

Ltac name_case :=
  first
    [ intros [Hname|Hname]; discriminate Hname
    | intros Hname; discriminate Hname
    | intros _; repeat (split; [first [assumption|reflexivity]|]);
      first [assumption|reflexivity] ].

(** The tests that held for a reported single-bar pattern. *)
Lemma single_candle_tests {F : Type} `{Float64 F} (current previous previous2 : Kline F)
    (klines : list (Kline F)) (x : PatternResult F) :
  x ∈ detectCandlestickPatternsOn current previous previous2 klines ->
  let props := calculateCandleProperties current in
  (Pattern x = "Hanging Man" \/ Pattern x = "Hammer" ->
   (BodyPercent props <? flit 30 0)%go = true
   /\ (LowerShadowPercent props >? flit 200 0)%go = true
   /\ (UpperShadowPercent props <? flit 20 0)%go = true
   /\ (LowerShadowRangePercent props >? flit 60 0)%go = true)
  /\ (Pattern x = "Shooting Star" \/ Pattern x = "Inverted Hammer" ->
      (BodyPercent props <? flit 30 0)%go = true
      /\ (UpperShadowPercent props >? flit 200 0)%go = true
      /\ (LowerShadowPercent props <? flit 20 0)%go = true
      /\ (UpperShadowRangePercent props >? flit 60 0)%go = true)
  /\ (Pattern x = "Dragonfly Doji" ->
      (BodyPercent props <=? flit 5 0)%go = true
      /\ (LowerShadowRangePercent props >? flit 60 0)%go = true
      /\ (UpperShadowRangePercent props <? flit 10 0)%go = true)
  /\ (Pattern x = "Gravestone Doji" ->
      (BodyPercent props <=? flit 5 0)%go = true
      /\ (UpperShadowRangePercent props >? flit 60 0)%go = true
      /\ (LowerShadowRangePercent props <? flit 10 0)%go = true)
  /\ (Pattern x = "Doji" ->
      (BodyPercent props >? flit 5 0)%go = false
      /\ Pattern (detectDragonflyDoji props (flit 5 0)) = ""
      /\ Pattern (detectGravestoneDoji props (flit 5 0)) = "")
  /\ (Pattern x = "Marubozu" ->
      (BodyPercent props >? flit 90 0)%go = true
      /\ (UpperShadowRangePercent props <? flit 5 0)%go = true
      /\ (LowerShadowRangePercent props <? flit 5 0)%go = true)
  /\ (Pattern x = "Spinning Top" ->
      (BodyPercent props <? flit 25 0)%go = true
      /\ (UpperShadowRangePercent props >? flit 25 0)%go = true
      /\ (LowerShadowRangePercent props >? flit 25 0)%go = true).
Proof.
  intros Hin. apply detected_cases in Hin. destruct Hin as [_ Hin]. cbv zeta in Hin |- *.
  set (props := calculateCandleProperties current) in *.
  set (previousProps := calculateCandleProperties previous) in *.
  set (previous2Props := calculateCandleProperties previous2) in *.
  set (noDragonfly := Pattern (detectDragonflyDoji props (flit 5 0)) = "") in *.
  set (noGravestone := Pattern (detectGravestoneDoji props (flit 5 0)) = "") in *.
  decompose [and or] Hin; clear Hin; subst x; unfold_detectors;
    repeat match goal with
           | |- context [if ?b then _ else _] => destruct b eqn:?
           end;
    cbn [Pattern]; split_tests;
    (split; [name_case|]); (split; [name_case|]); (split; [name_case|]);
    (split; [name_case|]); (split; [name_case|]); (split; [name_case|]); name_case.
Qed.

Ltac use_tests T Hname :=
  let T1 := fresh in let T2 := fresh in let T3 := fresh in let T4 := fresh in
  let T5 := fresh in let T6 := fresh in let T7 := fresh in
  destruct T as (T1 & T2 & T3 & T4 & T5 & T6 & T7);
  first
    [ destruct (T1 (or_introl Hname)) as (? & ? & ? & ?)
    | destruct (T1 (or_intror Hname)) as (? & ? & ? & ?)
    | destruct (T2 (or_introl Hname)) as (? & ? & ? & ?)
    | destruct (T2 (or_intror Hname)) as (? & ? & ? & ?)
    | destruct (T3 Hname) as (? & ? & ?)
    | destruct (T4 Hname) as (? & ? & ?)
    | destruct (T5 Hname) as (? & ? & ?)
    | destruct (T6 Hname) as (? & ? & ?)
    | destruct (T7 Hname) as (? & ? & ?) ];
  clear T1 T2 T3 T4 T5 T6 T7.

(** Two tests on the same number that no binary64 value passes. *)
Ltac float_clash :=
  match goal with
  | H1 : flt ?a ?x = true, H2 : flt ?x ?b = true |- _ =>
      let Hab := fresh in
      pose proof (binary64_flt_trans a x b H1 H2) as Hab; vm_compute in Hab; discriminate Hab
  | H1 : fle ?x ?c = true, H2 : flt ?d ?x = true |- _ =>
      let Hcd := fresh in
      assert (flt c d = true) as Hcd by (vm_compute; reflexivity);
      pose proof (binary64_flt_asym _ _ (binary64_fle_flt_trans x c d H1 Hcd)); congruence
  | H1 : flt ?c ?x = false, H2 : flt ?d ?x = true |- _ =>
      let Hcd := fresh in
      assert (flt c d = true) as Hcd by (vm_compute; reflexivity);
      pose proof (binary64_flt_trans c d x Hcd H2); congruence
  | H1 : Pattern (detectDragonflyDoji _ _) = "" |- _ =>
      revert H1; unfold detectDragonflyDoji;
      repeat match goal with
             | H : _ = true |- _ => rewrite H
             end; discriminate
  | H1 : Pattern (detectGravestoneDoji _ _) = "" |- _ =>
      revert H1; unfold detectGravestoneDoji;
      repeat match goal with
             | H : _ = true |- _ => rewrite H
             end; discriminate
  end.

(** X16.  In the binary64 arithmetic of the program, shapes that
    contradict each other are never reported for the same bar: at most one
    kind of doji; a Marubozu with no other single-bar pattern; no hammer
    together with an inverted hammer or a shooting star; no spinning top
    together with a dragonfly or a gravestone doji. *)
Theorem exclusive_shapes_never_together (klines : list (Kline float)) :
  let names := map Pattern (DetectCandlestickPatterns klines) in
  Forall (fun shapes => ~ (shapes.1 ∈ names /\ shapes.2 ∈ names)) exclusiveShapes.
Proof.
  cbv zeta. destruct (Nat.lt_ge_cases (length klines) 3) as [Hshort|Hlen].
  { rewrite (DetectCandlestickPatterns_short klines Hshort). apply Forall_forall.
    intros shapes _ [Hin _]. cbn in Hin. apply elem_of_nil in Hin. exact Hin. }
  destruct (DetectCandlestickPatterns_last_three klines Hlen)
    as (current & previous & previous2 & Hc & Hp & Hp2 & ->).
  assert (forall a b : string,
             (forall x y : PatternResult float,
                 x ∈ detectCandlestickPatternsOn current previous previous2 klines ->
                 y ∈ detectCandlestickPatternsOn current previous previous2 klines ->
                 Pattern x = a -> Pattern y = b -> False) ->
             ~ (a ∈ map Pattern (detectCandlestickPatternsOn current previous previous2 klines)
                /\ b ∈ map Pattern
                         (detectCandlestickPatternsOn current previous previous2 klines)))
    as Hpair.
  { intros a b Hclash [Ha Hb]. apply list_elem_of_fmap in Ha, Hb.
    destruct Ha as (x & -> & Hx), Hb as (y & -> & Hy). exact (Hclash x y Hx Hy eq_refl eq_refl). }
  unfold exclusiveShapes.
  repeat (apply Forall_cons_2;
          [cbn [fst snd]; apply Hpair; intros x y Hx Hy Hxname Hyname;
           pose proof (single_candle_tests current previous previous2 klines x Hx) as Tx;
           pose proof (single_candle_tests current previous previous2 klines y Hy) as Ty;
           cbv zeta in Tx, Ty; use_tests Tx Hxname; use_tests Ty Hyname; float_clash|]).
  apply Forall_nil_2.
Qed.

(** The patterns of two and three bars carry the direction of the last
    bar. *)
Lemma multi_candle_direction {F : Type} `{Float64 F} (current previous previous2 : Kline F)
    (klines : list (Kline F)) (x : PatternResult F) :
  x ∈ detectCandlestickPatternsOn current previous previous2 klines ->
  Pattern x ∈ multiCandleNames ->
  (if PatternIsBullish x then Close current >? Open current
   else Close current <? Open current)%go = true.
Proof.
  intros Hin Hname. unfold multiCandleNames in Hname.
  rewrite !elem_of_cons, elem_of_nil in Hname.
  apply detected_cases in Hin. destruct Hin as [_ Hin]. cbv zeta in Hin.
  decompose [and or] Hin; clear Hin; subst x; revert Hname; unfold_detectors;
    repeat match goal with
           | |- context [if ?b then _ else _] => destruct b eqn:?
           end;
    cbn [Pattern PatternIsBullish]; intros Hname; decompose [or] Hname;
    try discriminate; try contradiction; split_tests;
    repeat match goal with
           | Ht : IsBullish (calculateCandleProperties _) = true |- _ => cbn in Ht
           | Ht : IsBearish (calculateCandleProperties _) = true |- _ => cbn in Ht
           end;
    assumption.
Qed.

(** X17.  The patterns of two and three bars never contradict each other:
    in the binary64 arithmetic of the program, each of them that is
    reported is bullish exactly when the last bar closed above its open
    and bearish exactly when it closed below, so all those reported
    together point the same way. *)
Theorem multi_candle_patterns_agree (klines : list (Kline float)) (current : Kline float) :
  klines !! (length klines - 1)%nat = Some current ->
  forall x, x ∈ DetectCandlestickPatterns klines -> Pattern x ∈ multiCandleNames ->
    PatternIsBullish x = (Close current >? Open current)%go
    /\ negb (PatternIsBullish x) = (Close current <? Open current)%go
    /\ forall y, y ∈ DetectCandlestickPatterns klines -> Pattern y ∈ multiCandleNames ->
         PatternIsBullish y = PatternIsBullish x.
Proof.
  intros Hcurrent.
  destruct (Nat.lt_ge_cases (length klines) 3) as [Hshort|Hlen].
  { rewrite (DetectCandlestickPatterns_short klines Hshort). intros x Hx.
    apply elem_of_nil in Hx. contradiction. }
  destruct (DetectCandlestickPatterns_last_three klines Hlen)
    as (current' & previous & previous2 & Hc & Hp & Hp2 & ->).
  assert (current' = current) as -> by congruence.
  assert (forall x,
             x ∈ detectCandlestickPatternsOn current previous previous2 klines ->
             Pattern x ∈ multiCandleNames ->
             PatternIsBullish x = (Close current >? Open current)%go
             /\ negb (PatternIsBullish x) = (Close current <? Open current)%go) as Hflag.
  { intros x Hx Hname.
    pose proof (multi_candle_direction current previous previous2 klines x Hx Hname) as Hdir.
    destruct (PatternIsBullish x); cbn [negb].
    - rewrite Hdir, (binary64_flt_asym _ _ Hdir). tauto.
    - rewrite Hdir, (binary64_flt_asym _ _ Hdir). tauto. }
  intros x Hx Hxname. destruct (Hflag x Hx Hxname) as [Hbull Hbear].
  split; [exact Hbull|]. split; [exact Hbear|].
  intros y Hy Hyname. destruct (Hflag y Hy Hyname) as [Hybull _]. congruence.
Qed.

(** Two falling bars and a rising bar that engulfs the second. *)
Lemma multi_candle_patterns_agree_witness :
  PatternIsBullish (mkPatternResult (F := float) "Bullish Engulfing" true (flit 8 (-1)))
  = (Close (F := float) engulfingRise >? Open engulfingRise)%go.
Proof.
  assert (mkPatternResult (F := float) "Bullish Engulfing" true (flit 8 (-1))
          ∈ DetectCandlestickPatterns [fallingBar 120; fallingBar 110; engulfingRise]) as Hin
    by (vm_compute; apply list_elem_of_here).
  assert ("Bullish Engulfing" ∈ multiCandleNames) as Hname
    by (unfold multiCandleNames; rewrite !elem_of_cons; tauto).
  exact (proj1 (multi_candle_patterns_agree [fallingBar 120; fallingBar 110; engulfingRise]
                  engulfingRise eq_refl _ Hin Hname)).
Defined.

(** ** DetectLarryWilliams, FormatAnalysis and AnalyzeWithKlines *)

Lemma DetectLarryWilliams_as_outside_day {F : Type} `{Float64 F} (klines : list (Kline F))
    (atr14 : F) :
  larryWilliamsSignalString (LWSignalType (DetectLarryWilliams klines atr14))
  = outsideDaySignalString (SignalType (DetectOutsideDay klines))
  /\ LWConfidence (DetectLarryWilliams klines atr14) = ResultConfidence (DetectOutsideDay klines)
  /\ LWStrength (DetectLarryWilliams klines atr14) = Strength (DetectOutsideDay klines).
Proof.
  unfold DetectLarryWilliams, DetectOutsideDay.
  destruct (length klines <? 2)%nat; [repeat split|].
  destruct (klines !! (length klines - 1)%nat) as [current|]; [|repeat split].
  destruct (klines !! (length klines - 2)%nat) as [previous|]; [|repeat split].
  unfold detectLarryWilliamsOn, detectOutsideDayOn, bodyRatio.
  repeat match goal with
         | |- context [if ?b then _ else _] => destruct b
         end; repeat split.
Qed.

(** X19.  [DetectLarryWilliams] gives the signal, the confidence and the
    strength that [DetectOutsideDay] gives on the same bars, and its result
    does not depend on the ATR it is handed. *)
Theorem DetectLarryWilliams_agrees {F : Type} `{Float64 F} (klines : list (Kline F))
    (atr14 : F) :
  larryWilliamsSignalString (LWSignalType (DetectLarryWilliams klines atr14))
  = outsideDaySignalString (SignalType (DetectOutsideDay klines))
  /\ LWConfidence (DetectLarryWilliams klines atr14) = ResultConfidence (DetectOutsideDay klines)
  /\ LWStrength (DetectLarryWilliams klines atr14) = Strength (DetectOutsideDay klines)
  /\ forall other : F, DetectLarryWilliams klines other = DetectLarryWilliams klines atr14.
Proof.
  destruct (DetectLarryWilliams_as_outside_day klines atr14) as (Hsignal & Hconf & Hstrength).
  split; [exact Hsignal|]. split; [exact Hconf|]. split; [exact Hstrength|].
  intros other. reflexivity.
Qed.

Lemma strings_Join_head (c : ascii) (rest : string) (parts : list string) (sep : string) :
  exists tail, strings_Join (String c rest :: parts) sep = String c tail.
Proof. destruct parts as [|part parts]; cbn; eexists; reflexivity. Qed.

Lemma outsideDaySignalString_WAIT (signal : OutsideDaySignal) :
  (outsideDaySignalString signal =? "WAIT")%string = true <-> signal = OutsideDayWAIT.
Proof. destruct signal; cbn; split; congruence. Qed.

(** What [FormatAnalysis] returns: the fixed sentence when there is no
    pattern and both signal types are ["WAIT"], else a text that starts
    with the header of a section. *)
Lemma FormatAnalysis_cases {F : Type} `{Float64 F} (formatFloat : nat -> F -> string)
    (summary : SignalSummary F) :
  let nothing :=
    negb (0 <? length (CandlestickPatterns summary))%nat
    && (outsideDaySignalType summary =? "WAIT")%string
    && (larryWilliamsSignalType summary =? "WAIT")%string in
  if nothing then FormatAnalysis formatFloat summary = noSignificantPatterns
  else exists tail, FormatAnalysis formatFloat summary = String "=" tail.
Proof.
  cbv zeta. unfold FormatAnalysis.
  destruct (0 <? length (CandlestickPatterns summary))%nat;
    destruct (outsideDaySignalType summary =? "WAIT")%string;
    destruct (larryWilliamsSignalType summary =? "WAIT")%string;
    cbn [negb andb orb app length Nat.eqb]; try reflexivity;
    apply strings_Join_head.
Qed.

(** When [AnalyzeWithKlines] returns the sentence of [FormatAnalysis]. *)
Lemma AnalyzeWithKlines_sentence {F : Type} `{Float64 F}
    (formatFloat : nat -> F -> string) (symbol : string) (klines3m klines4h : list (Kline F))
    (atr14 : F) :
  AnalyzeWithKlines formatFloat symbol klines3m klines4h atr14 <> ""
  /\ (AnalyzeWithKlines formatFloat symbol klines3m klines4h atr14 = noSignificantPatterns
      <-> (2 <= length klines4h)%nat
          /\ SignalType (DetectOutsideDay klines4h) = OutsideDayWAIT
          /\ DetectCandlestickPatterns klines3m = []).
Proof.
  unfold AnalyzeWithKlines.
  pose proof (FormatAnalysis_cases formatFloat (analysisSummary klines3m klines4h atr14))
    as Hcases. cbv zeta in Hcases.
  assert (CandlestickPatterns (analysisSummary klines3m klines4h atr14)
          = DetectCandlestickPatterns klines3m) as Hpatterns.
  { unfold analysisSummary. destruct (Nat.leb_spec 3 (length klines3m)) as [Hlen|Hlen].
    - destruct (2 <=? length klines4h)%nat; reflexivity.
    - rewrite (DetectCandlestickPatterns_short klines3m Hlen).
      destruct (2 <=? length klines4h)%nat; reflexivity. }
  assert ((outsideDaySignalType (analysisSummary klines3m klines4h atr14) =? "WAIT")%string
          && (larryWilliamsSignalType (analysisSummary klines3m klines4h atr14)
              =? "WAIT")%string = true
          <-> (2 <= length klines4h)%nat
              /\ SignalType (DetectOutsideDay klines4h) = OutsideDayWAIT) as Hwait.
  { unfold analysisSummary, outsideDaySignalType, larryWilliamsSignalType.
    destruct (Nat.leb_spec 2 (length klines4h)) as [Hlen|Hlen].
    - destruct (3 <=? length klines3m)%nat; cbn [OutsideDay LarryWilliams];
        rewrite (proj1 (DetectLarryWilliams_as_outside_day klines4h atr14)),
          andb_diag, outsideDaySignalString_WAIT; tauto.
    - destruct (3 <=? length klines3m)%nat; cbn; split; try discriminate; intros [? _]; lia. }
  rewrite Hpatterns in Hcases.
  destruct (DetectCandlestickPatterns klines3m) as [|pattern patterns].
  - cbn [length Nat.ltb Nat.leb negb andb] in Hcases.
    destruct ((outsideDaySignalType (analysisSummary klines3m klines4h atr14) =? "WAIT")%string
              && (larryWilliamsSignalType (analysisSummary klines3m klines4h atr14)
                  =? "WAIT")%string) eqn:Hboth.
    + rewrite Hcases. split; [discriminate|]. split; [intros _|reflexivity].
      apply proj1 in Hwait. specialize (Hwait eq_refl). tauto.
    + destruct Hcases as [tail ->]. split; [discriminate|]. split; [discriminate|].
      intros (Hlen & Hsignal & _). apply proj2 in Hwait.
      specialize (Hwait (conj Hlen Hsignal)). discriminate.
  - cbn [length Nat.ltb Nat.leb negb andb] in Hcases. destruct Hcases as [tail ->].
    split; [discriminate|]. split; [discriminate|]. intros (_ & _ & Hnil). discriminate.
Qed.

(** X20.  [AnalyzeWithKlines] never returns the empty text, and it returns
    "No significant patterns detected in recent price action." exactly
    when it was given at least two 4h bars, [DetectOutsideDay] says WAIT on
    them and no candlestick pattern was found on the 3m bars.  With fewer
    than two 4h bars the two outside-bar results are never assigned, their
    signal type is the empty string and not WAIT, and both sections are
    printed. *)
Theorem AnalyzeWithKlines_nothing_to_report {F : Type} `{Float64 F}
    (formatFloat : nat -> F -> string) (symbol : string) (klines3m klines4h : list (Kline F))
    (atr14 : F) :
  AnalyzeWithKlines formatFloat symbol klines3m klines4h atr14 <> ""
  /\ (AnalyzeWithKlines formatFloat symbol klines3m klines4h atr14 = noSignificantPatterns
      <-> (2 <= length klines4h)%nat
          /\ SignalType (DetectOutsideDay klines4h) = OutsideDayWAIT
          /\ DetectCandlestickPatterns klines3m = []).
Proof. apply AnalyzeWithKlines_sentence. Qed.

(** Two equal 4h bars, which make no outside bar, and no 3m bar. *)
Lemma AnalyzeWithKlines_nothing_to_report_witness :
  AnalyzeWithKlines (F := float) blankFormat "BTCUSDT" [] [narrowBar; narrowBar] (flit 0 0)
  = noSignificantPatterns.
Proof.
  apply (proj2 (proj2 (AnalyzeWithKlines_nothing_to_report (F := float) blankFormat "BTCUSDT"
                         [] [narrowBar; narrowBar] (flit 0 0)))).
  split; [cbn; lia|]. split; [vm_compute; reflexivity|reflexivity].
Defined.

(** X21.  In the overall bias of [AnalyzeWithKlines] one outside bar
    weighs twice: it is counted once as Outside Day and once as Larry
    Williams, which always agree, so a LONG adds two bullish signals and a
    SHORT two bearish signals to those of the candlestick patterns; with
    fewer than two 4h bars only the patterns count. *)
Theorem outside_bar_counts_twice {F : Type} `{Float64 F} (klines3m klines4h : list (Kline F))
    (atr14 : F) :
  let summary := analysisSummary klines3m klines4h atr14 in
  let patterns := DetectCandlestickPatterns klines3m in
  let signal := SignalType (DetectOutsideDay klines4h) in
  ((2 <= length klines4h)%nat ->
   bullishSignals summary
   = countPatterns countsBullish patterns
     + match signal with OutsideDayLONG => 2 | _ => 0 end
   /\ bearishSignals summary
      = countPatterns countsBearish patterns
        + match signal with OutsideDaySHORT => 2 | _ => 0 end)
  /\ ((length klines4h < 2)%nat ->
      bullishSignals summary = countPatterns countsBullish patterns
      /\ bearishSignals summary = countPatterns countsBearish patterns).
Proof.
  cbv zeta.
  assert (CandlestickPatterns (analysisSummary klines3m klines4h atr14)
          = DetectCandlestickPatterns klines3m) as Hpatterns.
  { unfold analysisSummary. destruct (Nat.leb_spec 3 (length klines3m)) as [Hlen|Hlen].
    - destruct (2 <=? length klines4h)%nat; reflexivity.
    - rewrite (DetectCandlestickPatterns_short klines3m Hlen).
      destruct (2 <=? length klines4h)%nat; reflexivity. }
  unfold bullishSignals, bearishSignals. rewrite Hpatterns.
  unfold analysisSummary, outsideDaySignalType, larryWilliamsSignalType. split.
  - intros Hlen. apply Nat.leb_le in Hlen. rewrite Hlen.
    destruct (3 <=? length klines3m)%nat; cbn [OutsideDay LarryWilliams];
      rewrite (proj1 (DetectLarryWilliams_as_outside_day klines4h atr14));
      destruct (SignalType (DetectOutsideDay klines4h)); cbn; split; lia.
  - intros Hlen. apply Nat.leb_gt in Hlen. rewrite Hlen.
    destruct (3 <=? length klines3m)%nat; cbn; split; lia.
Qed.

(** The two bars of the outside-day scenario, without 3m bars. *)
Lemma outside_bar_counts_twice_witness :
  bullishSignals (analysisSummary (F := float) [] [narrowBar; engulfingBar] (flit 0 0)) = 2.
Proof.
  assert (2 <= length [narrowBar (F := float); engulfingBar])%nat as Hlen by (cbn; lia).
  exact (proj1 (proj1 (outside_bar_counts_twice (F := float) [] [narrowBar; engulfingBar]
                         (flit 0 0)) Hlen)).
Defined.

(** ** DetectOutsideDay in binary64 *)

(** A positive normal number is below [2^1024]. *)
Lemma is_normal64_below (x : float) : is_normal64 x -> (binary64_value x < 2 ^ 1024)%Q.
Proof.
  intros (m & e & Hx). pose proof (normal64_value _ _ _ Hx) as Hv. destruct Hx as [Hx Hm].
  pose proof (Prim2SF_valid x) as Hvalid. rewrite Hx in Hvalid.
  cbn [valid_binary] in Hvalid. unfold bounded in Hvalid.
  apply andb_prop in Hvalid. destruct Hvalid as [_ Hbound]. apply Z.leb_le in Hbound.
  unfold emax, prec in Hbound.
  rewrite Hv. apply (Qlt_le_trans _ (2 ^ 53 * 2 ^ e)%Q).
  - apply Qmult_lt_compat_r; [apply pow2_pos|].
    rewrite <- (pow2_inject 53) by lia. apply inject_Z_lt. lia.
  - rewrite <- pow2_add. apply pow2_le. lia.
Qed.

(** A number that is not below 2 is not a number, is [+Inf], or is a
    positive normal number of value at least 2. *)
Lemma binary64_not_below_two (x : float) :
  (x <? flit 2 0)%float = false ->
  Prim2SF x = S754_nan \/ Prim2SF x = S754_infinity false
  \/ (is_normal64 x /\ (2 <= binary64_value x)%Q).
Proof.
  intros Hlt. rewrite FloatAxioms.ltb_spec in Hlt. unfold SFltb in Hlt.
  pose proof (Prim2SF_valid x) as Hvalid.
  destruct (Prim2SF x) as [s|s| |s m e] eqn:Hx.
  - exfalso. vm_compute in Hlt. discriminate.
  - destruct s; [exfalso; vm_compute in Hlt; discriminate|]. right; left. reflexivity.
  - left. reflexivity.
  - right; right. destruct s; [exfalso; vm_compute in Hlt; discriminate|].
    assert (Hvalue : (2 ^ (-1022) <= binary64_value x)%Q \/ (e < -51)%Z).
    { cbn [valid_binary] in Hvalid. unfold bounded, canonical_mantissa in Hvalid.
      apply andb_prop in Hvalid. destruct Hvalid as [Hcanonical _].
      apply Z.eqb_eq in Hcanonical. unfold fexp, SpecFloat.emin, prec, emax in Hcanonical.
      destruct (Z.lt_ge_cases e (-51)) as [He|He]; [right; exact He|left].
      unfold binary64_value. rewrite Hx. cbn [SF2Q cond_Zopp].
      apply (Qle_trans _ (1 * 2 ^ e)%Q).
      - rewrite Qmult_1_l. apply pow2_le. lia.
      - apply Qmult_le_compat_r; [|apply Qlt_le_weak, pow2_pos].
        apply (inject_Z_le 1). lia. }
    destruct Hvalue as [Hnormal|Hsmall].
    + apply is_normal64_intro in Hnormal. split; [exact Hnormal|].
      destruct binary64_two as [Htwo Htwov].
      apply Qnot_lt_le. intros Hbelow. rewrite <- Htwov in Hbelow.
      apply (binary64_ltb_normal _ _ Hnormal Htwo) in Hbelow.
      rewrite FloatAxioms.ltb_spec in Hbelow. unfold SFltb in Hbelow. rewrite Hx in Hbelow.
      congruence.
    + exfalso. change (Prim2SF (flit 2 0)) with (S754_finite false 4503599627370496 (-51)) in Hlt.
      cbn [SFcompare] in Hlt. destruct (Z.compare_spec e (-51)); try lia; try discriminate.
Qed.

Lemma binary64_one : is_normal64 (flit 1 0) /\ (binary64_value (flit 1 0) == 1)%Q.
Proof.
  split.
  - exists 4503599627370496%positive, (-52)%Z. split; [vm_compute; reflexivity|lia].
  - vm_compute. reflexivity.
Qed.

Lemma SFcompare_finite_refl (m : positive) (e : Z) :
  SFcompare (S754_finite false m e) (S754_finite false m e) = Some Eq.
Proof.
  cbn [SFcompare]. rewrite Z.compare_refl.
  change (Pos.compare_cont Eq m m) with (m ?= m)%positive. rewrite Pos.compare_refl.
  reflexivity.
Qed.

(** [math.Min] of a positive normal number and 1. *)
Lemma binary64_min_normal (q : float) :
  is_normal64 q ->
  binary64_min q (flit 1 0) = if (q <? flit 1 0)%float then q else flit 1 0.
Proof.
  intros (m & e & Hq & _). unfold binary64_min, PrimFloat.is_nan.
  rewrite !FloatAxioms.eqb_spec, Hq. unfold SFeqb.
  rewrite SFcompare_finite_refl.
  change (Prim2SF neg_infinity) with (S754_infinity true).
  change (Prim2SF (flit 1 0)) with (S754_finite false 4503599627370496 (-52)).
  rewrite SFcompare_finite_refl.
  change (Prim2SF PrimFloat.zero) with (S754_zero false).
  cbn [SFcompare orb negb andb]. reflexivity.
Qed.

(** The strength of a signal: [math.Min(bodyRatio/3.0, 1.0)] of a ratio
    that is not below 2. *)
Lemma binary64_strength_range (r : float) :
  (r <? flit 2 0)%float = false ->
  let strength := binary64_min (r / flit 3 0)%float (flit 1 0) in
  PrimFloat.is_nan strength = true
  \/ ((1 - 2 ^ (-53)) * (2 # 3) <= binary64_value strength <= 1)%Q.
Proof.
  intros Hr strength.
  destruct (binary64_not_below_two r Hr) as [Hnan|[Hinf|[Hnormal Hvalue]]].
  - left. subst strength. unfold binary64_min, PrimFloat.is_nan.
    rewrite !FloatAxioms.eqb_spec, FloatAxioms.div_spec, Hnan. reflexivity.
  - right. subst strength. unfold binary64_min, PrimFloat.is_nan.
    rewrite !FloatAxioms.eqb_spec, FloatAxioms.ltb_spec, FloatAxioms.div_spec, Hinf.
    change (Prim2SF (flit 3 0)) with (S754_finite false 6755399441055744 (-51)).
    change (Prim2SF neg_infinity) with (S754_infinity true).
    change (Prim2SF (flit 1 0)) with (S754_finite false 4503599627370496 (-52)).
    change (Prim2SF PrimFloat.zero) with (S754_zero false).
    cbn. destruct binary64_one as [_ ->]. rewrite pow2_53. lra.
  - right. destruct binary64_three as [Hthree Hthreev]. destruct binary64_one as [Hone Honev].
    pose proof (is_normal64_below r Hnormal) as Hbelow.
    destruct (binary64_div_model r (flit 3 0) (binary64_value r / 3) Hnormal Hthree)
      as [Hq Hqv].
    { rewrite Hthreev. field. }
    { apply Qle_shift_div_l; [reflexivity|]. pow2_numerals. lra. }
    { apply Qlt_shift_div_r; [reflexivity|]. pow2_numerals. lra. }
    apply model_bounds in Hqv.
    subst strength. rewrite (binary64_min_normal _ Hq).
    assert (Hthird : (2 # 3 <= binary64_value r / 3)%Q).
    { apply Qle_shift_div_l; [reflexivity|]. lra. }
    destruct (r / flit 3 0 <? flit 1 0)%float eqn:Hlt.
    + apply (binary64_ltb_normal _ _ Hq Hone) in Hlt. rewrite Honev in Hlt.
      rewrite pow2_53. lra.
    + rewrite Honev, pow2_53. lra.
Qed.

(** X24.  In binary64, a WAIT result of [DetectOutsideDay] has the
    confidence 0 and the strength 0; a LONG or SHORT result needs two
    bars and has the confidence 0.75, and its strength is not a number
    (when the body ratio is not a number) or lies between
    [(1 - 2^-53) * 2/3] and 1: the quotient of a ratio of exactly 2 by 3
    rounds below two thirds. *)
Theorem binary64_outside_day_ranges (klines : list (Kline float)) :
  let result := DetectOutsideDay klines in
  (SignalType result = OutsideDayWAIT ->
   ResultConfidence result = flit 0 0 /\ Strength result = flit 0 0)
  /\ (SignalType result <> OutsideDayWAIT ->
      (2 <= length klines)%nat
      /\ ResultConfidence result = flit 75 (-2)
      /\ (binary64_value (flit 75 (-2)) == 3 # 4)%Q
      /\ (PrimFloat.is_nan (Strength result) = true
          \/ ((1 - 2 ^ (-53)) * (2 # 3) <= binary64_value (Strength result) <= 1)%Q)).
Proof.
  cbv zeta. unfold DetectOutsideDay.
  destruct (length klines <? 2)%nat eqn:Hlen.
  { cbn [SignalType ResultConfidence Strength]. split; [auto|]. intros Hsignal. congruence. }
  apply Nat.ltb_ge in Hlen.
  destruct (klines !! (length klines - 1)%nat) as [current|];
    [|cbn [SignalType ResultConfidence Strength]; split; [auto|intros Hsignal; congruence]].
  destruct (klines !! (length klines - 2)%nat) as [previous|];
    [|cbn [SignalType ResultConfidence Strength]; split; [auto|intros Hsignal; congruence]].
  unfold detectOutsideDayOn.
  destruct (negb _);
    [cbn [SignalType ResultConfidence Strength]; split; [auto|intros Hsignal; congruence]|].
  destruct (bodyRatio current previous <? flit 2 0)%go eqn:Hratio;
    [cbn [SignalType ResultConfidence Strength]; split; [auto|intros Hsignal; congruence]|].
  cbn [flt binary64] in Hratio.
  pose proof (binary64_strength_range _ Hratio) as Hstrength. cbv zeta in Hstrength.
  assert (Hconfidence : (binary64_value (flit 75 (-2)) == 3 # 4)%Q) by (vm_compute; reflexivity).
  destruct (Close current <? Low previous)%go.
  { cbn [SignalType ResultConfidence Strength]. split; [discriminate|]. intros _.
    split; [exact Hlen|]. split; [reflexivity|]. split; [exact Hconfidence|exact Hstrength]. }
  destruct (Close current >? High previous)%go.
  { cbn [SignalType ResultConfidence Strength]. split; [discriminate|]. intros _.
    split; [exact Hlen|]. split; [reflexivity|]. split; [exact Hconfidence|exact Hstrength]. }
  cbn [SignalType ResultConfidence Strength]. split; [auto|intros Hsignal; congruence].
Qed.

(** ** The registry of providers *)

(** X22.  Registering and looking up: a provider registered under a name
    is the one [GetProvider] returns for it, the other names are not
    touched, and a name that was never registered gives the not-found
    error; [SetDefaultProviderName] refuses a name that is not registered
    and then leaves the registry as it was. *)
Theorem registry_lookup {Provider : Type} (state : registry Provider) (name other : string)
    (provider : Provider) :
  GetProvider name (RegisterProvider name provider state) = inl provider
  /\ (other <> name ->
      GetProvider other (RegisterProvider name provider state) = GetProvider other state)
  /\ GetProvider name (initialRegistry (Provider := Provider))
     = inr (ErrProviderNotFound name)
  /\ (GetProvider name state = inr (ErrProviderNotFound name)
      <-> SetDefaultProviderName name state
          = (state, Some (ErrCannotSetDefault (ErrProviderNotFound name))))
  /\ (name ∈ ListProviders state <-> exists p, GetProvider name state = inl p).
Proof.
  unfold GetProvider, RegisterProvider, SetDefaultProviderName, GetProvider, ListProviders,
    initialRegistry.
  cbn [providers defaultProviderName].
  split; [rewrite lookup_insert_eq; reflexivity|].
  split; [intros Hne; rewrite lookup_insert_ne by congruence; reflexivity|].
  split; [rewrite lookup_empty; reflexivity|]. split.
  - destruct (providers state !! name) as [p|]; split; try discriminate; reflexivity.
  - rewrite list_elem_of_fmap. split.
    + intros ([n p] & -> & Hin). apply elem_of_map_to_list in Hin. cbn. rewrite Hin.
      exists p. reflexivity.
    + intros [p Hp]. destruct (providers state !! name) as [p'|] eqn:Hlook; [|discriminate].
      exists (name, p'). split; [reflexivity|]. apply elem_of_map_to_list, Hlook.
Qed.

Lemma RegisterProvider_fold_lookup {Provider : Type} (newProvider : string -> Provider)
    (names : list string) (state : registry Provider) (name : string) :
  providers (foldl (fun state name => RegisterProvider name (newProvider name) state) state
               names) !! name
  = if decide (name ∈ names) then Some (newProvider name) else providers state !! name.
Proof.
  revert state. induction names as [|n names IH]; intros state.
  - cbn. rewrite decide_False by apply not_elem_of_nil. reflexivity.
  - cbn [foldl]. rewrite IH. unfold RegisterProvider. cbn [providers].
    destruct (decide (name ∈ names)) as [Hin|Hout].
    + rewrite decide_True by (apply elem_of_cons; tauto). reflexivity.
    + destruct (decide (name = n)) as [->|Hne].
      * rewrite decide_True by (apply elem_of_cons; tauto). apply lookup_insert_eq.
      * rewrite decide_False by (rewrite elem_of_cons; tauto).
        apply lookup_insert_ne. congruence.
Qed.

Lemma RegisterProvider_fold_default {Provider : Type} (newProvider : string -> Provider)
    (names : list string) (state : registry Provider) :
  defaultProviderName (foldl (fun state name => RegisterProvider name (newProvider name) state)
                         state names)
  = defaultProviderName state.
Proof.
  revert state. induction names as [|n names IH]; intros state; [reflexivity|].
  cbn [foldl]. rewrite IH. reflexivity.
Qed.

(** The default name is the name of a registered provider. *)
Lemma default_registered_preserved {Provider : Type} (state : registry Provider)
    (call : registryCall Provider) :
  is_Some (providers state !! defaultProviderName state) ->
  is_Some (providers (runCall state call) !! defaultProviderName (runCall state call)).
Proof.
  intros Hdefault. destruct call as [name provider|name]; cbn [runCall].
  - unfold RegisterProvider. cbn [providers defaultProviderName].
    destruct (decide (defaultProviderName state = name)) as [->|Hne].
    + rewrite lookup_insert_eq. eexists. reflexivity.
    + rewrite lookup_insert_ne by congruence. exact Hdefault.
  - unfold SetDefaultProviderName, GetProvider.
    destruct (providers state !! name) as [p|] eqn:Hlook; cbn [fst];
      [|exact Hdefault].
    cbn [providers defaultProviderName]. rewrite Hlook. eexists. reflexivity.
Qed.


(** ** Analyze *)

(** X25.  [Analyze] is [AnalyzeWithKlines] on the 3m and 4h bars of the
    default provider.  When there is no default provider (the registry was
    never initialised), when the snapshot is missing or when the provider
    returns fewer than two 4h bars, it does not answer "No significant
    patterns detected": the text it returns starts with a section header,
    so the caller, which leaves out only the empty text and that sentence,
    prints it. *)
Theorem Analyze_without_bars {F : Type} `{Float64 F} {Provider : Type}
    (formatFloat : nat -> F -> string)
    (GetKlines : Provider -> string -> string -> Z -> list (Kline F))
    (atr14Of : Data F -> F) (state : registry Provider) (marketData : option (Data F)) :
  (forall provider data,
      GetDefaultProvider state = inl provider -> marketData = Some data ->
      Analyze formatFloat GetKlines atr14Of state marketData
      = AnalyzeWithKlines formatFloat (DataSymbol data)
          (GetKlines provider (DataSymbol data) "3m" 40)
          (GetKlines provider (DataSymbol data) "4h" 60) (atr14Of data))
  /\ ((exists err, GetDefaultProvider state = inr err) \/ marketData = None
      \/ (exists provider data,
            GetDefaultProvider state = inl provider /\ marketData = Some data
            /\ (length (GetKlines provider (DataSymbol data) "4h" 60%Z) < 2)%nat) ->
      Analyze formatFloat GetKlines atr14Of state marketData <> ""
      /\ Analyze formatFloat GetKlines atr14Of state marketData <> noSignificantPatterns)
  /\ Analyze formatFloat GetKlines atr14Of initialRegistry marketData
     = AnalyzeWithKlines formatFloat "" [] [] (flit 0 0).
Proof.
  split; [|split].
  - intros provider data Hprovider ->. unfold Analyze, AnalyzeWithKlines.
    rewrite Hprovider. reflexivity.
  - assert (forall symbol klines3m klines4h atr14,
               (length klines4h < 2)%nat ->
               AnalyzeWithKlines formatFloat symbol klines3m klines4h atr14 <> ""
               /\ AnalyzeWithKlines formatFloat symbol klines3m klines4h atr14
                  <> noSignificantPatterns) as Hshort.
    { intros symbol klines3m klines4h atr14 Hlen.
      destruct (AnalyzeWithKlines_sentence formatFloat symbol klines3m klines4h atr14)
        as [Hne Hiff].
      split; [exact Hne|]. intros Hsentence. apply Hiff in Hsentence. lia. }
    intros [[err Herr]|[->|(provider & data & Hprovider & -> & Hlen)]]; unfold Analyze.
    + rewrite Herr. apply (Hshort "" [] []). cbn. lia.
    + destruct (GetDefaultProvider state); apply (Hshort "" [] []); cbn; lia.
    + rewrite Hprovider. apply (Hshort (DataSymbol data)), Hlen.
  - unfold Analyze, AnalyzeWithKlines.
    change (GetDefaultProvider (initialRegistry (Provider := Provider)))
      with (inr (ErrProviderNotFound "binance") : Provider + registryError).
    destruct marketData; reflexivity.
Qed.

(** A snapshot analysed before the registry is initialised. *)
Lemma Analyze_without_bars_witness :
  Analyze (F := float) blankFormat noBars noATR initialRegistry (Some thinSnapshot)
  = AnalyzeWithKlines blankFormat "" [] [] (flit 0 0).
Proof.
  apply (proj2 (proj2 (Analyze_without_bars (F := float) (Provider := unit) blankFormat noBars
                         noATR initialRegistry (Some thinSnapshot)))).
Defined.

(** ** The regular expressions of the repair *)

(** A match hands on a position that is not before the one it started
    at. *)
Lemma matchStar_advances {R : Type} (p : ascii -> bool) (s : string) :
  forall (pos : nat) (k : string -> nat -> option R) (res : R),
    regexp.matchStar p s pos k = Some res ->
    exists s1 pos1, k s1 pos1 = Some res /\ (pos <= pos1)%nat.
Proof.
  induction s as [|c s IH]; intros pos k res Hmatch; cbn [regexp.matchStar] in Hmatch.
  - exists EmptyString, pos. split; [exact Hmatch|lia].
  - destruct (p c).
    + destruct (regexp.matchStar p s (S pos) k) as [r|] eqn:Hrest.
      * injection Hmatch as <-. destruct (IH _ _ _ Hrest) as (s1 & pos1 & Hk & Hle).
        exists s1, pos1. split; [exact Hk|lia].
      * exists (String c s), pos. split; [exact Hmatch|lia].
    + exists (String c s), pos. split; [exact Hmatch|lia].
Qed.

Lemma matchLazyStar_advances {R : Type} (p : ascii -> bool) (s : string) :
  forall (pos : nat) (k : string -> nat -> option R) (res : R),
    regexp.matchLazyStar p s pos k = Some res ->
    exists s1 pos1, k s1 pos1 = Some res /\ (pos <= pos1)%nat.
Proof.
  induction s as [|c s IH]; intros pos k res Hmatch; cbn [regexp.matchLazyStar] in Hmatch.
  - destruct (k EmptyString pos) as [r|] eqn:Hk; [|discriminate].
    injection Hmatch as <-. exists EmptyString, pos. split; [exact Hk|lia].
  - destruct (k (String c s) pos) as [r|] eqn:Hk.
    + injection Hmatch as <-. exists (String c s), pos. split; [exact Hk|lia].
    + destruct (p c); [|discriminate].
      destruct (IH _ _ _ Hmatch) as (s1 & pos1 & Hk1 & Hle).
      exists s1, pos1. split; [exact Hk1|lia].
Qed.

Lemma matchRe_advances {R : Type} (r : regexp.re) :
  forall (s : string) (pos : nat) (caps : regexp.captures)
         (k : string -> nat -> regexp.captures -> option R) (res : R),
    regexp.matchRe r s pos caps k = Some res ->
    exists s1 pos1 caps1, k s1 pos1 caps1 = Some res /\ (pos <= pos1)%nat.
Proof.
  induction r as [l|p|r1 IH1 r2 IH2|r1 IH1 r2 IH2|p|p|i r1 IH1];
    intros s pos caps k res Hmatch; cbn [regexp.matchRe] in Hmatch.
  - destruct (String.prefix l s); [|discriminate].
    eexists _, _, _. split; [exact Hmatch|lia].
  - destruct s as [|c s]; [discriminate|]. destruct (p c); [|discriminate].
    eexists _, _, _. split; [exact Hmatch|lia].
  - destruct (IH1 _ _ _ _ _ Hmatch) as (s1 & pos1 & caps1 & Hk1 & Hle1).
    destruct (IH2 _ _ _ _ _ Hk1) as (s2 & pos2 & caps2 & Hk2 & Hle2).
    exists s2, pos2, caps2. split; [exact Hk2|lia].
  - destruct (regexp.matchRe r1 s pos caps k) as [res1|] eqn:Hfirst.
    + injection Hmatch as <-. apply (IH1 _ _ _ _ _ Hfirst).
    + apply (IH2 _ _ _ _ _ Hmatch).
  - destruct (matchStar_advances _ _ _ _ _ Hmatch) as (s1 & pos1 & Hk & Hle).
    exists s1, pos1, caps. split; [exact Hk|exact Hle].
  - destruct (matchLazyStar_advances _ _ _ _ _ Hmatch) as (s1 & pos1 & Hk & Hle).
    exists s1, pos1, caps. split; [exact Hk|exact Hle].
  - destruct (IH1 _ _ _ _ _ Hmatch) as (s1 & pos1 & caps1 & Hk & Hle).
    eexists _, _, _. split; [exact Hk|exact Hle].
Qed.

(** A match of an expression that starts with a literal inside its first
    group is as long as the literal at least. *)
Lemma matchAt_literal_advances (i : nat) (l : string) (r1 r2 : regexp.re) (s : string)
    (pos e : nat) (caps : regexp.captures) :
  regexp.matchAt (regexp.Cat (regexp.Group i (regexp.Cat (regexp.Lit l) r1)) r2) s pos
  = Some (e, caps) ->
  (pos + String.length l <= e)%nat.
Proof.
  unfold regexp.matchAt. cbn [regexp.matchRe].
  destruct (String.prefix l s); [|discriminate].
  intros Hmatch. apply matchRe_advances in Hmatch.
  destruct Hmatch as (s1 & pos1 & caps1 & Hmatch & Hle1).
  apply matchRe_advances in Hmatch.
  destruct Hmatch as (s2 & pos2 & caps2 & Hmatch & Hle2).
  injection Hmatch as <- _. lia.
Qed.

(** A match of the pattern of the repair is not empty: it starts with a
    double quote. *)
Lemma arithmeticPattern_advances (s : string) (pos e : nat) (caps : regexp.captures) :
  regexp.matchAt arithmeticPattern s pos = Some (e, caps) -> (pos < e)%nat.
Proof.
  unfold arithmeticPattern. intros Hmatch. apply matchAt_literal_advances in Hmatch.
  cbn [String.length] in Hmatch. lia.
Qed.

Lemma prefix_sliceFrom_append (a b s : string) :
  String.prefix a s = true -> String.prefix b (sliceFrom s (String.length a)) = true ->
  String.prefix (a +:+ b) s = true.
Proof.
  revert s. induction a as [|x a IH]; intros s Ha Hb.
  - exact Hb.
  - destruct s as [|y s]; [discriminate|]. cbn in Ha.
    destruct (Ascii.ascii_dec x y) as [->|Hne]; [|discriminate].
    cbn [String.length sliceFrom] in Hb.
    change (String y a +:+ b) with (String y (a +:+ b)). cbn.
    destruct (Ascii.ascii_dec y y) as [_|Hne]; [|congruence]. apply IH; assumption.
Qed.

Lemma matchRe_Lit_inv {R : Type} (l s : string) (pos : nat) (caps : regexp.captures)
    (k : string -> nat -> regexp.captures -> option R) (res : R) :
  regexp.matchRe (regexp.Lit l) s pos caps k = Some res ->
  String.prefix l s = true
  /\ k (sliceFrom s (String.length l)) (pos + String.length l)%nat caps = Some res.
Proof.
  cbn [regexp.matchRe]. destruct (String.prefix l s); [|discriminate]. auto.
Qed.

Lemma matchRe_Alt_inv {R : Type} (r1 r2 : regexp.re) (s : string) (pos : nat)
    (caps : regexp.captures) (k : string -> nat -> regexp.captures -> option R) (res : R) :
  regexp.matchRe (regexp.Alt r1 r2) s pos caps k = Some res ->
  regexp.matchRe r1 s pos caps k = Some res \/ regexp.matchRe r2 s pos caps k = Some res.
Proof.
  cbn [regexp.matchRe]. destruct (regexp.matchRe r1 s pos caps k); [left|right]; assumption.
Qed.

Lemma matchRe_Cat {R : Type} (r1 r2 : regexp.re) (s : string) (pos : nat)
    (caps : regexp.captures) (k : string -> nat -> regexp.captures -> option R) :
  regexp.matchRe (regexp.Cat r1 r2) s pos caps k
  = regexp.matchRe r1 s pos caps (fun s1 pos1 caps1 => regexp.matchRe r2 s1 pos1 caps1 k).
Proof. reflexivity. Qed.

Lemma matchRe_Group {R : Type} (i : nat) (r : regexp.re) (s : string) (pos : nat)
    (caps : regexp.captures) (k : string -> nat -> regexp.captures -> option R) :
  regexp.matchRe (regexp.Group i r) s pos caps k
  = regexp.matchRe r s pos caps (fun s1 pos1 caps1 => k s1 pos1 ((i, (pos, pos1)) :: caps1)).
Proof. reflexivity. Qed.

(** A match of the pattern starts with one of the six names, quoted. *)
Lemma arithmeticPattern_field (s : string) (pos : nat) (res : nat * regexp.captures) :
  regexp.matchAt arithmeticPattern s pos = Some res ->
  exists name, name ∈ arithmeticFields /\ String.prefix (quoted name) s = true.
Proof.
  unfold regexp.matchAt, arithmeticPattern. cbv zeta. intros Hmatch.
  rewrite matchRe_Cat, matchRe_Group, matchRe_Cat in Hmatch.
  apply matchRe_Lit_inv in Hmatch. destruct Hmatch as [Hopen Hmatch].
  rewrite matchRe_Cat in Hmatch.
  assert (Hname : forall name : string,
             regexp.matchRe (regexp.Lit name) (sliceFrom s (String.length (String dquote "")))
               (pos + String.length (String dquote ""))%nat []
               (fun s1 pos1 caps1 =>
                  regexp.matchRe
                    (regexp.Cat (regexp.Lit (String dquote ""))
                       (regexp.Cat (regexp.Star isRegexpSpace)
                          (regexp.Cat (regexp.Lit ":") (regexp.Star isRegexpSpace))))
                    s1 pos1 caps1
                    (fun s2 pos2 caps2 =>
                       regexp.matchRe
                         (regexp.Cat (regexp.Group 2 (regexp.Plus isDigitOrDot))
                            (regexp.Cat (regexp.Star isRegexpSpace)
                               (regexp.Cat (regexp.Group 3 (regexp.LazyPlus isExpressionByte))
                                  (regexp.Group 4
                                     (regexp.Cat (regexp.Star isRegexpSpace)
                                        (regexp.Class isEndingByte))))))
                         s2 pos2 ((1%nat, (pos, pos2)) :: caps2)
                         (fun _ pos3 caps3 => Some (pos3, caps3)))) = Some res ->
             String.prefix (quoted name) s = true).
  { intros name Hlit. apply matchRe_Lit_inv in Hlit. destruct Hlit as [Hn Hlit].
    rewrite matchRe_Cat in Hlit. apply matchRe_Lit_inv in Hlit. destruct Hlit as [Hclose _].
    change (quoted name) with (String dquote "" +:+ (name +:+ String dquote "")).
    apply prefix_sliceFrom_append; [exact Hopen|].
    apply prefix_sliceFrom_append; assumption. }
  unfold arithmeticFields.
  repeat (apply matchRe_Alt_inv in Hmatch; destruct Hmatch as [Hmatch|Hmatch];
          [apply Hname in Hmatch; eexists; split; [|exact Hmatch]; set_solver|]).
  apply Hname in Hmatch. eexists; split; [|exact Hmatch]. set_solver.
Qed.


(** ** fixArithmeticExpressions *)

Lemma freeOf_drop_take (bytes text : string) (a n : nat) :
  freeOf bytes text = true -> freeOf bytes (sliceTo (sliceFrom text a) n) = true.
Proof.
  unfold freeOf. rewrite list_ascii_sliceTo, list_ascii_sliceFrom, !forallb_forall.
  intros Hfree x Hx. apply Hfree. apply list_elem_of_In in Hx. apply list_elem_of_In.
  apply elem_of_take in Hx. destruct Hx as (i & Hx & _).
  rewrite lookup_drop in Hx.
  eapply list_elem_of_lookup_2. exact Hx.
Qed.

Lemma strings_ContainsAny_free (chars text : string) :
  freeOf chars text = true -> strings_ContainsAny text chars = false.
Proof.
  unfold freeOf. induction text as [|c text IH]; intros Hfree; [reflexivity|].
  cbn [list_ascii_of_string forallb] in Hfree. apply andb_true_iff in Hfree.
  destruct Hfree as [Hc Hfree]. cbn [strings_ContainsAny].
  assert (strings_Index chars (String c "") = None) as ->; [|apply IH, Hfree].
  apply strings_Index_byte_None. apply negb_true_iff in Hc.
  apply Forall_forall. intros x Hx Heq. subst x.
  assert (existsb (Ascii.eqb c) (list_ascii_of_string chars) = true) as Hin; [|congruence].
  apply existsb_exists. exists c. split; [apply list_elem_of_In, Hx|apply Ascii.eqb_refl].
Qed.

(** A match without operators is put back as it is. *)
Lemma dropExpression_plain (matched : string) :
  freeOf operatorBytes matched = true -> dropExpression matched = matched.
Proof.
  intros Hfree. unfold dropExpression, regexp.FindStringSubmatch.
  destruct (regexp.searchFrom arithmeticPattern matched 0) as [[[a b] caps]|]; [|reflexivity].
  cbn [seq map].
  assert (strings_ContainsAny (regexp.groupText matched caps 3) "*+-/()" = false) as ->;
    [|reflexivity].
  apply strings_ContainsAny_free. unfold regexp.groupText.
  destruct (find _ caps) as [[i [x y]]|]; [|reflexivity].
  unfold slice. apply freeOf_drop_take, Hfree.
Qed.

Lemma sliceTo_sliceFrom (s : string) (n : nat) : sliceTo s n +:+ sliceFrom s n = s.
Proof.
  revert s. induction n as [|n IH]; intros s; [reflexivity|].
  destruct s as [|c s]; [reflexivity|]. cbn [sliceTo sliceFrom].
  change (String c (sliceTo s n) +:+ sliceFrom s n)
    with (String c (sliceTo s n +:+ sliceFrom s n)).
  rewrite IH. reflexivity.
Qed.

Lemma replaceFrom_plain (s : string) :
  freeOf operatorBytes s = true ->
  forall skip pos,
    regexp.replaceFrom arithmeticPattern dropExpression skip s pos = sliceFrom s skip.
Proof.
  induction s as [|c s IH]; intros Hfree skip pos.
  - destruct skip; reflexivity.
  - assert (freeOf operatorBytes s = true) as Hrest.
    { unfold freeOf in Hfree |- *. cbn [list_ascii_of_string forallb] in Hfree.
      apply andb_true_iff in Hfree. tauto. }
    cbn [regexp.replaceFrom]. destruct skip as [|skip]; [|apply IH, Hrest].
    destruct (regexp.matchAt arithmeticPattern (String c s) pos) as [[e caps]|] eqn:Hmatch.
    + apply arithmeticPattern_advances in Hmatch.
      rewrite dropExpression_plain by (apply (freeOf_drop_take _ _ 0), Hfree).
      rewrite (IH Hrest).
      replace (e - pos)%nat with (S (e - pos - 1)) at 1 by lia.
      cbn [sliceTo]. change (String c ?x +:+ ?y) with (String c (x +:+ y)).
      rewrite sliceTo_sliceFrom. reflexivity.
    + rewrite (IH Hrest). reflexivity.
Qed.

Lemma strings_Contains_tail (c : ascii) (s sub : string) :
  strings_Contains (String c s) sub = false ->
  String.prefix sub (String c s) = false /\ strings_Contains s sub = false.
Proof.
  unfold strings_Contains. cbn [strings_Index].
  destruct (String.prefix sub (String c s)); [discriminate|].
  destruct (strings_Index s sub); [discriminate|]. auto.
Qed.

(** Where no quoted name of the six stands, nothing is replaced. *)
Lemma replaceFrom_no_field (s : string) :
  Forall (fun name => strings_Contains s (quoted name) = false) arithmeticFields ->
  forall skip pos,
    regexp.replaceFrom arithmeticPattern dropExpression skip s pos = sliceFrom s skip.
Proof.
  induction s as [|c s IH]; intros Hnone skip pos.
  - destruct skip; reflexivity.
  - assert (Forall (fun name => strings_Contains s (quoted name) = false) arithmeticFields)
      as Hrest.
    { eapply Forall_impl; [exact Hnone|]. intros name Hname.
      apply (strings_Contains_tail c s (quoted name) Hname). }
    cbn [regexp.replaceFrom]. destruct skip as [|skip]; [|apply IH, Hrest].
    destruct (regexp.matchAt arithmeticPattern (String c s) pos) as [res|] eqn:Hmatch.
    + apply arithmeticPattern_field in Hmatch. destruct Hmatch as (name & Hin & Hprefix).
      rewrite Forall_forall in Hnone.
      apply Hnone in Hin. apply strings_Contains_tail in Hin.
      destruct Hin as [Hin _]. congruence.
    + rewrite (IH Hrest). reflexivity.
Qed.

(** X26.  [fixArithmeticExpressions] rewrites a field of the six named in
    its pattern, and only where an operator stands: a text that holds none of
    the bytes [* + - / ( )] is returned as it is, whatever fields and numbers
    it holds; so is a text that holds none of the six names between double
    quotes, whatever expressions it holds; so a text that is changed holds
    one of the six quoted names and one of the operator bytes.  Each of the
    six fields whose value is the expression [150 * (0.62 - 0.61) * 5] is
    rewritten to its first number, [150]; with the value [-150], whose
    operator stands before the first number, it is left as it is. *)
Theorem fixArithmeticExpressions_scope (jsonStr : string) :
  (freeOf operatorBytes jsonStr = true -> fixArithmeticExpressions jsonStr = jsonStr)
  /\ (Forall (fun name => strings_Contains jsonStr (quoted name) = false) arithmeticFields ->
      fixArithmeticExpressions jsonStr = jsonStr)
  /\ (fixArithmeticExpressions jsonStr <> jsonStr ->
      freeOf operatorBytes jsonStr = false
      /\ Exists (fun name => strings_Contains jsonStr (quoted name) = true) arithmeticFields)
  /\ (forall name, name ∈ arithmeticFields ->
      fixArithmeticExpressions (expressionMember name) = "{" +:+ quoted name +:+ ": 150}"
      /\ fixArithmeticExpressions (signedMember name) = signedMember name).
Proof.
  assert (Hplain : freeOf operatorBytes jsonStr = true ->
                   fixArithmeticExpressions jsonStr = jsonStr).
  { intros Hfree. apply (replaceFrom_plain jsonStr Hfree 0 0). }
  assert (Hfield : Forall (fun name => strings_Contains jsonStr (quoted name) = false)
                     arithmeticFields ->
                   fixArithmeticExpressions jsonStr = jsonStr).
  { intros Hnone. apply (replaceFrom_no_field jsonStr Hnone 0 0). }
  split; [exact Hplain|]. split; [exact Hfield|]. split.
  - intros Hchanged. split.
    + destruct (freeOf operatorBytes jsonStr); [|reflexivity].
      exfalso. apply Hchanged, Hplain. reflexivity.
    + unfold arithmeticFields.
      destruct (strings_Contains jsonStr (quoted "risk_usd")) eqn:H1;
        [apply Exists_cons_hd; exact H1|apply Exists_cons_tl].
      destruct (strings_Contains jsonStr (quoted "position_size_usd")) eqn:H2;
        [apply Exists_cons_hd; exact H2|apply Exists_cons_tl].
      destruct (strings_Contains jsonStr (quoted "stop_loss")) eqn:H3;
        [apply Exists_cons_hd; exact H3|apply Exists_cons_tl].
      destruct (strings_Contains jsonStr (quoted "take_profit")) eqn:H4;
        [apply Exists_cons_hd; exact H4|apply Exists_cons_tl].
      destruct (strings_Contains jsonStr (quoted "leverage")) eqn:H5;
        [apply Exists_cons_hd; exact H5|apply Exists_cons_tl].
      destruct (strings_Contains jsonStr (quoted "confidence")) eqn:H6;
        [apply Exists_cons_hd; exact H6|].
      exfalso. apply Hchanged, Hfield. unfold arithmeticFields.
      repeat (constructor; [assumption|]). constructor.
  - intros name Hin. unfold arithmeticFields in Hin.
    repeat (apply elem_of_cons in Hin; destruct Hin as [->|Hin]; [split; vm_compute; reflexivity|]).
    apply elem_of_nil in Hin. contradiction.
Qed.

Lemma fixArithmeticExpressions_scope_witness :
  fixArithmeticExpressions plainArray = plainArray
  /\ fixArithmeticExpressions unlistedExpression = unlistedExpression
  /\ fixArithmeticExpressions (expressionMember "leverage") = "{" +:+ quoted "leverage" +:+ ": 150}".
Proof.
  split; [|split].
  - apply (proj1 (fixArithmeticExpressions_scope plainArray)). reflexivity.
  - apply (proj1 (proj2 (fixArithmeticExpressions_scope unlistedExpression))).
    repeat constructor.
  - apply (proj2 (proj2 (proj2 (fixArithmeticExpressions_scope plainArray)))).
    unfold arithmeticFields. apply list_elem_of_In. cbn. tauto.
Defined.
